(* ===== verification/_CoqProject ===== *)
-Q . S2P
Prelude.v
Mb2.v
Pmm.v
PmmSpec.v
PmmInit.v
FrameAlloc.v
Vmm.v
VmmSpec.v
VmmProps.v
Kmalloc.v
KmallocSpec.v
KmallocProps.v
Mem.v
Sched.v
SchedSpec.v
SchedProps.v
Block.v
BlockSpec.v
BlockProps.v
Devfs.v
DevfsSpec.v
DevfsProps.v
Exfat.v
ExfatSpec.v
ExfatProps.v
ExfatDir.v
ExfatFat.v
ExfatWrite.v
ExfatFile.v
Vfs.v
VfsSpec.v
Console.v
ConsoleSpec.v
ConsoleProps.v
Input.v
InputSpec.v
Pci.v
Progress.v
Terminal.v
Memtest.v
Shell.v
ShellCmd.v
ShellSpec.v
ShellProps.v
Kmain.v
Rootfs.v
Device.v
System.v
SystemProps.v
SystemFiles.v
Session.v
Workers.v
Uefi.v
Serial.v
Boot.v
BootProps.v
BootModule.v
Loader.v
LoaderProps.v
LoaderBoot.v
