(* ===== verification/Prelude.v ===== *)
(** * dex-os-64: a verification of the kernel

    dex-os-64 is a small 64-bit kernel in C.  An assembly loader builds page tables,
    enters 64-bit mode and hands over a Multiboot2 structure; from it the kernel builds a bitmap of page frames, page
    tables and a heap, and on these a cooperative scheduler, block devices with
    partitions, file systems behind a virtual file system, a text console, a line
    editor and a shell.  This library translates those parts into executable
    definitions, one file per component, proves what each one promises, and
    composes them into the system the shell runs on.
    Paths below are relative to the source tree of the kernel.

    ** Parts, files and sources

    - This file: machine integers, byte memory with little-endian loads and stores,
      bounded loops, lists.
    - [Mb2] (kernel64/mb2.h): reading tags of the boot information.
    - [Pmm], [PmmSpec], [PmmInit] (kernel/mm/pmm.c): the frame bitmap; [Pmm.pmm]
      has the static variables of the file, one definition per function.
    - [FrameAlloc]: what the page-table code needs from a frame allocator, a
      class that the physical memory manager implements.
    - [Vmm], [VmmSpec], [VmmProps] (kernel/mm/vmm.c): four-level page tables in
      a word memory, over any [FrameAlloc].
    - [Kmalloc], [KmallocSpec], [KmallocProps] (kernel/mm/kmalloc.c): the
      first-fit heap, as a linked list of headers in memory.
    - [Mem] (kernel64/lib/mem.c): memset, memcpy, memmove, memcmp, strlen,
      strcmp.
    - [Sched], [SchedSpec], [SchedProps] (kernel64/sched/sched.c): threads, the
      run queue linked through them, and the context switch on RSP, RIP and the
      stacks.
    - [Block], [BlockSpec], [BlockProps] (kernel64/block/): device registry, RAM
      disks, memory disks, MBR partitions.  [BlockSpec] has the class
      [BlockDev], what a device promises to file systems.
    - [Devfs], [DevfsSpec], [DevfsProps] (kernel64/fs/devfs.c): devices as
      files, over any [BlockDev].
    - [Exfat], [ExfatSpec], [ExfatProps] (kernel64/fs/exfat.c): files as chains of
      clusters, over any [BlockDev]; [ExfatDir]: directory entries; [ExfatFat]: the
      table of clusters; [ExfatWrite]: writing; [ExfatFile]: creating and removing
      files, and their whole life.
    - [Vfs], [VfsSpec] (kernel64/vfs/vfs.c): file system table, mount table and
      dispatch.
    - [Console], [ConsoleSpec], [ConsoleProps] (kernel64/console.c): text
      windows with scrollback drawn into video memory.
    - [Input], [InputSpec] (kernel64/input.c): scan codes, polling and the line
      editor, which echoes through the console.
    - [Pci] (kernel64/pci/pci.c, kernel64/usb/usb.c): configuration space reads,
      the enumeration and the callback of the USB driver.
    - [Progress] (kernel64/console.h): the progress bar.
    - [Terminal]: the classes [Terminal] and [TerminalLaws], what code that prints
      needs from a console; the console and a record of the output implement them.
    - [Memtest] (kernel64/memtest.c): the memory test, over any memory that can be
      written and read, working or not.
    - [Shell], [ShellCmd], [ShellSpec], [ShellProps] (kernel64/shell.c): paths and
      the current directory; the commands; the reference for paths; theorems.  The
      class [Shell.Kernel] has the services the shell calls.
    - [Kmain] (kernel64/kmain64.c): the banner, the memory bring-up and the choice
      of the root file system.
    - [Rootfs] (kernel64/fs/rootfs.c), [Device] (kernel64/dev/): the root file
      system, the device registry, the display and the keyboard driver.
    - [System], [SystemProps]: the operation tables of the device files, of exFAT
      and of the root file system, and the state they share with the console and the
      scheduler, as an instance of [Shell.Kernel]; open nodes are objects named by
      pointers.  [SystemProps] has the commands on devices, [SystemFiles] those on
      the files of an exFAT volume.
    - [Session] (kernel64/shell.c, kernel64/input.c): the loop of the shell: a line
      read by the line editor from the serial line, the command, the yield.
    - [Workers] (kernel64/kmain64.c): the demo threads on the scheduler.
    - [Uefi] (uefi/): the UEFI program and its text conversion.
    - [Serial] (kernel64/serial.c, kernel/kmain.c): the serial driver and the 32-bit
      entry function, over any controller that satisfies the class [Uart].
    - [Boot], [BootProps], [BootModule] (kernel64/kmain64.c): [kmain64] on the composed
      system and the root file system; the boot as a whole; the root file system from
      a module.
    - [Loader], [LoaderProps], [LoaderBoot] (loader32/loader.S,
      loader32/loader_simple.S, kernel64/start64.S): page tables, control registers and
      segments, the search for the module, the messages of the loader as code on
      registers and a stack; what it leaves; the way from the loader to the shell.

    In a group of three the first file has the definitions, the second the
    abstract view, the invariant and the lemmas, the third the theorems.

    ** How the code is translated

    A C integer is a [Z] and is wrapped to its width where an operation can
    leave it: [u8], [u16], [u32], [u64], [s32], and in the scope [u64] the
    operators of 64-bit arithmetic.  The scope applies to the operator it
    delimits, so nested operations are delimited one by one.  Static variables
    are the fields of a record passed through the operations.  Memory is a map
    from addresses to cells.  An access outside an object, a null pointer that
    is followed, or a loop that does not end within its fuel has no result
    ([None]); a theorem that states a result therefore states that none of these
    happens.  Error codes are results like any other.

    [for_range] is a C loop with a counter; it needs no fuel.  The other loops
    take a measure:
    - walks over tags take the number of tags; [PmmInit] shows that the size of
      the boot information is enough, as each tag advances by 8 bytes at least;
    - walks over heap headers take the number of headers in memory plus one, and
      [KmallocSpec] shows this is enough for a well-formed list;
    - the walk to the end of the run queue takes the size of the thread table;
    - [Console.normalize] adds the ring size to a negative index; one step is
      enough as the index is above minus 512;
    - string loops of [Mem] have a result exactly when a NUL byte is reached;
    - walks over a directory take one step per byte of it, which is more than
      it has entries; walks along a cluster chain that may be a cycle take an
      explicit bound;
    - the polling loops of [Input] end when an event arrives, and the theorem
      about them gives the fuel from the polls that precede it; that of [Serial]
      ends within the latency of the controller;
    - the loop that fills the page directories takes its 2048 entries; the search for
      the module takes the number of tags plus two;
    - the loops of the memory test take one step for each word;
    - the loops of the shell that read or write a file take a number of calls; the
      theorems give the number that is enough, or show that none is.

    ** What is proved

    - Frames: allocation returns the first free run and marks it,
      freeing undoes it, reservations are respected, no sequence of client calls
      gives a frame to two owners; initialisation establishes the invariant from
      any well-formed boot information, and a partial frame breaks its counter.
    - Pages: mapping, unmapping and translating a page affect that
      page only, over any frame allocator; the identity map; the execute-disable
      bit that translation leaves in a physical address.
    - Heap: [kmalloc] is first fit and [kfree] merging on the list
      of blocks, clients get disjoint blocks; huge requests that wrap.
    - Memory routines: memmove with any overlap, strings and comparisons.
    - Threads: the invariant over all interleavings, creation,
      round robin, and that a thread resumes where it yielded; demo threads print
      their characters round by round.
    - Devices: transfers stay in the window of the device, reads
      return what was written, the wrap-around that escapes a partition, RAM disk
      creation, the partition scan.
    - Files: device files at byte granularity; mounting, unmounting
      and path resolution; names that are cut; reading a chain of clusters,
      extending it and writing it; creating a file, finding it in the listing of its
      directory, removing it with exactly the clusters of its chain; a file over its
      whole life; the allocation that takes the root directory.
    - Console: characters, scrolling and what the screen shows; the
      newline that is not drawn; views; geometries beyond the arrays.
    - Input: the line editor refines a zipper; the decoding of every
      scan code in every state.
    - Hardware: the enumeration of PCI functions is a fold over exactly those
      present; the memory test equals a reference on every memory, passes working
      memory and finds stuck bits; the serial driver sends what it is given.
    - Shell: resolved paths are the canonical form of a reference; the array they
      overflow; the current directory always fits; cat, fill and cd over any
      kernel.
    - Composition: the bring-up protects the kernel, the boot information and the
      tables of the loader; the root file system is set up on a RAM disk outside
      heap and buffers; from what the loader leaves, [kmain64] comes to the shell,
      with that file system or, without memory for it, with the devices alone; a
      module becomes the root file system unchanged if its frames are in use, and is
      overwritten if the RAM disk takes them.
    - Loader: its tables map the first 4 GiB to themselves, the processor is in 64-bit
      mode with valid segments and the jump goes to the start of the first module with
      the boot information in its argument; from there [kmain64] comes to the shell.
      The routine that prints a string does not return to its caller, as it leaves its
      registers on the stack; [kmain64] is entered with a stack that is not aligned as the ABI asks.
    - Commands: cat and fill of a device, from the command line down to the memory of
      the disk, with the loop that never ends past its end; write, cat and rm of a
      file on an exFAT volume; a session in which these lines are typed on the serial
      line; on the volume that the boot mounts, the first new file takes the cluster
      of the root directory and is lost.
    - UEFI: the conversion of text, and the program that prints its messages.

    Theorems about a defect state what the code does; the others state that it
    is correct.

    ** What is not modelled

    The registers other than RSP and RIP in a context switch; caches and the TLB
    beyond a record of the invalidations; timing; interrupts, which the kernel
    leaves off; the lines that drivers log on the serial port for
    debugging.  Of the loader, the copy of the serial set-up for 32-bit mode is the same as
    that of [Loader.serial_init64] and is not called; faults are modelled for segment
    loads, CR0 and the far jump, where they have no result.  CPUID, the ports and the services of the firmware are parameters:
    functions of the machine, with a class of laws where a theorem needs one.  A
    session takes its lines from the serial line; that the keyboard gives the same
    events is in [InputSpec], for the line editor alone.
    The theorem about the whole boot is for the case without a module; with one, the
    theorems are about the set-up of the root file system. *)

From Stdlib Require Export ZArith Lia.
From stdpp Require Export base gmap list numbers.

#[global] Open Scope Z_scope.

(** ** Machine integers

    An unsigned [w]-bit C integer is a [Z] in [[0, 2^w)]; every operation that
    can leave that range is wrapped explicitly.  [s32] is the conversion to
    [int] (two's complement). *)

Definition u8 (x : Z) : Z := x mod 2^8.
Definition u16 (x : Z) : Z := x mod 2^16.
Definition u32 (x : Z) : Z := x mod 2^32.
Definition u64 (x : Z) : Z := x mod 2^64.
Definition s32 (x : Z) : Z := (x + 2^31) mod 2^32 - 2^31.

Definition is_u8 (x : Z) : Prop := 0 <= x < 2^8.
Definition is_u32 (x : Z) : Prop := 0 <= x < 2^32.
Definition is_u64 (x : Z) : Prop := 0 <= x < 2^64.

Definition add64 (x y : Z) : Z := u64 (x + y).
Definition sub64 (x y : Z) : Z := u64 (x - y).
Definition mul64 (x y : Z) : Z := u64 (x * y).

Declare Scope u64_scope.
Delimit Scope u64_scope with u64.
Infix "+" := add64 : u64_scope.
Infix "-" := sub64 : u64_scope.
Infix "*" := mul64 : u64_scope.

Create HintDb dex.

Ltac unfold_ints :=
  unfold add64, sub64, mul64, u8, u16, u32, u64, is_u8, is_u32, is_u64 in *.

(** [zmod] proves linear goals that mention [mod] and [/] by constants. *)
Ltac zmod := Z.div_mod_to_equations; lia.

Lemma u64_small x : 0 <= x < 2^64 -> u64 x = x.
Proof. apply Z.mod_small. Qed.

Lemma u32_small x : 0 <= x < 2^32 -> u32 x = x.
Proof. apply Z.mod_small. Qed.

Lemma u8_small x : 0 <= x < 2^8 -> u8 x = x.
Proof. apply Z.mod_small. Qed.

Lemma u16_small x : 0 <= x < 2^16 -> u16 x = x.
Proof. apply Z.mod_small. Qed.

Lemma s32_small x : - 2^31 <= x < 2^31 -> s32 x = x.
Proof. intros H. unfold s32. rewrite Z.mod_small; lia. Qed.

Lemma u64_range x : 0 <= u64 x < 2^64.
Proof. apply Z.mod_pos_bound. lia. Qed.

Lemma u32_range x : 0 <= u32 x < 2^32.
Proof. apply Z.mod_pos_bound. lia. Qed.

Lemma u8_range x : 0 <= u8 x < 2^8.
Proof. apply Z.mod_pos_bound. lia. Qed.

Lemma add64_small x y : 0 <= x + y < 2^64 -> (x + y)%u64 = x + y.
Proof. apply Z.mod_small. Qed.

Lemma sub64_small x y : 0 <= x - y < 2^64 -> (x - y)%u64 = x - y.
Proof. apply Z.mod_small. Qed.

Lemma mul64_small x y : 0 <= x * y < 2^64 -> (x * y)%u64 = x * y.
Proof. apply Z.mod_small. Qed.

#[export] Hint Resolve u64_range u32_range u8_range : dex.

(** [usimp] removes the wrap-arounds whose operands are provably in range. *)
Ltac usimp :=
  repeat match goal with
  | |- context [add64 ?x ?y] => rewrite (add64_small x y) by lia
  | |- context [sub64 ?x ?y] => rewrite (sub64_small x y) by lia
  | |- context [mul64 ?x ?y] => rewrite (mul64_small x y) by lia
  | |- context [u64 ?x] => rewrite (u64_small x) by lia
  | |- context [u32 ?x] => rewrite (u32_small x) by lia
  end.

Ltac usimp_in H :=
  repeat match type of H with
  | context [add64 ?x ?y] => rewrite (add64_small x y) in H by lia
  | context [sub64 ?x ?y] => rewrite (sub64_small x y) in H by lia
  | context [mul64 ?x ?y] => rewrite (mul64_small x y) in H by lia
  | context [u64 ?x] => rewrite (u64_small x) in H by lia
  | context [u32 ?x] => rewrite (u32_small x) in H by lia
  end.

(** Case analysis on the boolean comparison a goal or a hypothesis branches on. *)
Ltac zcase :=
  match goal with
  | |- context [?x <? ?y] => destruct (Z.ltb_spec x y)
  | |- context [?x <=? ?y] => destruct (Z.leb_spec x y)
  | |- context [?x =? ?y] => destruct (Z.eqb_spec x y)
  end.

Ltac zcase_in H :=
  match type of H with
  | context [?x <? ?y] => destruct (Z.ltb_spec x y)
  | context [?x <=? ?y] => destruct (Z.leb_spec x y)
  | context [?x =? ?y] => destruct (Z.eqb_spec x y)
  end.

(** Continue after a step of the option monad that has a result. *)
Ltac bind := cbn [mbind option_bind].

(** ** Bit masks *)

(** Masking a 64-bit value with the complement of [2^k - 1]. *)
Definition align_down (x a : Z) : Z := Z.land x (u64 (Z.lnot (a - 1))).
Definition align_up (x a : Z) : Z := Z.land (x + (a - 1))%u64 (u64 (Z.lnot (a - 1))).

Lemma land_u64_r x y : 0 <= x < 2^64 -> Z.land x (u64 y) = Z.land x y.
Proof.
  intros Hx. unfold u64. rewrite <- Z.land_ones by lia.
  rewrite (Z.land_comm y), Z.land_assoc, Z.land_ones by lia.
  by rewrite Z.mod_small.
Qed.

Lemma land_clear_low x k :
  0 <= k -> Z.land x (Z.lnot (2^k - 1)) = x / 2^k * 2^k.
Proof.
  intros Hk. rewrite <- Z.ldiff_land.
  replace (2^k - 1) with (Z.ones k) by (rewrite Z.ones_equiv; lia).
  rewrite Z.ldiff_ones_r by lia.
  by rewrite Z.shiftl_mul_pow2, Z.shiftr_div_pow2 by lia.
Qed.

Lemma align_down_pow2 x k :
  0 <= k -> 0 <= x < 2^64 -> align_down x (2^k) = x / 2^k * 2^k.
Proof.
  intros Hk Hx. unfold align_down. rewrite land_u64_r by done. by apply land_clear_low.
Qed.

Lemma align_up_pow2 x k :
  0 <= k -> align_up x (2^k) = u64 (x + (2^k - 1)) / 2^k * 2^k.
Proof.
  intros Hk. unfold align_up, add64. rewrite land_u64_r by apply u64_range.
  by apply land_clear_low.
Qed.

Lemma land_low x k : 0 <= k -> Z.land x (2^k - 1) = x mod 2^k.
Proof.
  intros Hk. replace (2^k - 1) with (Z.ones k) by (rewrite Z.ones_equiv; lia).
  by apply Z.land_ones.
Qed.

(** [lor] of fields that do not overlap is addition. *)
Lemma lor_add x y k : 0 <= k -> x mod 2^k = 0 -> 0 <= y < 2^k -> Z.lor x y = x + y.
Proof.
  intros Hk Hx Hy.
  assert (Hl : Z.land x y = 0).
  { apply Z.bits_inj'. intros n Hn. rewrite Z.land_spec, Z.bits_0.
    destruct (Z.lt_ge_cases n k).
    - rewrite <- (Z.mod_pow2_bits_low x k n), Hx, Z.bits_0 by lia. done.
    - rewrite <- (Z.mod_small y (2^k)), Z.mod_pow2_bits_high by lia. apply andb_false_r. }
  by rewrite Z.add_nocarry_lxor, Z.lxor_lor.
Qed.

(** ** Memories

    A memory maps addresses to cells; a cell that was never written reads as
    0, the contents of [.bss]. *)

Abbreviation mem := (gmap Z Z).

Definition rd (m : mem) (a : Z) : Z := default 0 (m !! a).
Definition wr (m : mem) (a v : Z) : mem := <[a := v]> m.

Lemma rd_wr_eq m a v : rd (wr m a v) a = v.
Proof. unfold rd, wr. by rewrite lookup_insert_eq. Qed.

Lemma rd_wr_ne m a b v : a <> b -> rd (wr m a v) b = rd m b.
Proof. intros H. unfold rd, wr. by rewrite lookup_insert_ne. Qed.

Lemma rd_wr m a b v : rd (wr m a v) b = if a =? b then v else rd m b.
Proof. zcase; [subst; apply rd_wr_eq | by apply rd_wr_ne]. Qed.

(** ** Intervals *)

(** [a] is one of the [n] cells from [lo]. *)
Definition inb (lo n a : Z) : bool := (lo <=? a) && (a <? lo + n).

Lemma inb_true lo n a : inb lo n a = true <-> lo <= a < lo + n.
Proof. unfold inb. rewrite andb_true_iff, Z.leb_le, Z.ltb_lt. done. Qed.

Lemma inb_false lo n a : inb lo n a = false <-> ~ lo <= a < lo + n.
Proof. rewrite <- inb_true. by destruct (inb lo n a). Qed.

Ltac inb_cases :=
  repeat match goal with
  | |- context [inb ?l ?n ?a] => destruct (inb l n a) eqn:?
  end;
  repeat match goal with
  | H : inb _ _ _ = true |- _ => apply inb_true in H
  | H : inb _ _ _ = false |- _ => apply inb_false in H
  end.

(** ** Loops

    [for_range lo hi body s] is [for (i = lo; i < hi; ++i) s = body(i, s)];
    the body may have no result ([None]: an access outside an object). *)

Section loops.
Context {S : Type}.

Fixpoint for_nat (n : nat) (i : Z) (body : Z -> S -> option S) (s : S) : option S :=
  match n with
  | O => Some s
  | Datatypes.S n' => s' ← body i s; for_nat n' (i + 1) body s'
  end.

Definition for_range (lo hi : Z) (body : Z -> S -> option S) (s : S) : option S :=
  for_nat (Z.to_nat (hi - lo)) lo body s.

(** Total-correctness rule: the loop ends, with the invariant. *)
Lemma for_nat_inv (I : Z -> S -> Prop) body n : forall i s,
  I i s ->
  (forall j t, i <= j < i + Z.of_nat n -> I j t ->
     exists t', body j t = Some t' /\ I (j + 1) t') ->
  exists s', for_nat n i body s = Some s' /\ I (i + Z.of_nat n) s'.
Proof.
  induction n as [|n IH]; intros i s Hi Hbody; simpl.
  - exists s. by rewrite Z.add_0_r.
  - destruct (Hbody i s) as (t & Hb & Ht); [lia|done|]. rewrite Hb. simpl.
    destruct (IH (i + 1) t) as (s' & Hs' & HI); [done| |].
    + intros j u Hj. apply Hbody. lia.
    + exists s'. split; [done|]. by replace (i + Z.of_nat (Datatypes.S n))
        with (i + 1 + Z.of_nat n) by lia.
Qed.

Lemma for_range_inv (I : Z -> S -> Prop) body lo hi s :
  lo <= hi -> I lo s ->
  (forall j t, lo <= j < hi -> I j t -> exists t', body j t = Some t' /\ I (j + 1) t') ->
  exists s', for_range lo hi body s = Some s' /\ I hi s'.
Proof.
  intros Hle Hs Hbody. unfold for_range.
  destruct (for_nat_inv I body (Z.to_nat (hi - lo)) lo s) as (s' & H1 & H2); [done| |].
  - intros j t Hj. apply Hbody. lia.
  - exists s'. split; [done|]. by replace hi with (lo + Z.of_nat (Z.to_nat (hi - lo))) by lia.
Qed.

Lemma for_range_empty lo hi body s : hi <= lo -> for_range lo hi body s = Some s.
Proof. intros H. unfold for_range. by replace (Z.to_nat (hi - lo)) with O by lia. Qed.

Lemma for_nat_snoc n : forall i body s,
  for_nat (Datatypes.S n) i body s
  = s' ← for_nat n i body s; body (i + Z.of_nat n) s'.
Proof.
  induction n as [|n IH]; intros i body s.
  - simpl. destruct (body i s) eqn:E; simpl; by rewrite Z.add_0_r, E.
  - change (for_nat (Datatypes.S (Datatypes.S n)) i body s)
      with (s' ← body i s; for_nat (Datatypes.S n) (i + 1) body s').
    change (for_nat (Datatypes.S n) i body s)
      with (s' ← body i s; for_nat n (i + 1) body s').
    destruct (body i s) as [t|]; simpl; [|done].
    change (t' ← body (i + 1) t; for_nat n (i + 1 + 1) body t')
      with (for_nat (Datatypes.S n) (i + 1) body t).
    rewrite IH. by replace (i + 1 + Z.of_nat n) with (i + Z.of_nat (Datatypes.S n)) by lia.
Qed.

End loops.

(** ** Little-endian loads from a byte memory *)

Definition rd8 (m : mem) (a : Z) : Z := u8 (rd m a).
Definition rd16 (m : mem) (a : Z) : Z := rd8 m a + 2^8 * rd8 m (a + 1).
Definition rd32 (m : mem) (a : Z) : Z := rd16 m a + 2^16 * rd16 m (a + 2).
Definition rd64 (m : mem) (a : Z) : Z := rd32 m a + 2^32 * rd32 m (a + 4).

Lemma rd8_range m a : 0 <= rd8 m a < 2^8.
Proof. apply u8_range. Qed.

Lemma rd16_range m a : 0 <= rd16 m a < 2^16.
Proof. unfold rd16. pose proof (rd8_range m a). pose proof (rd8_range m (a + 1)). lia. Qed.

Lemma rd32_range m a : 0 <= rd32 m a < 2^32.
Proof. unfold rd32. pose proof (rd16_range m a). pose proof (rd16_range m (a + 2)). lia. Qed.

Lemma rd64_range m a : 0 <= rd64 m a < 2^64.
Proof. unfold rd64. pose proof (rd32_range m a). pose proof (rd32_range m (a + 4)). lia. Qed.

#[export] Hint Resolve rd8_range rd16_range rd32_range rd64_range : dex.

(** ** Little-endian stores *)

Definition wr8 (m : mem) (a v : Z) : mem := wr m a (u8 v).
Definition wr16 (m : mem) (a v : Z) : mem := wr8 (wr8 m a v) (a + 1) (v / 2^8).
Definition wr32 (m : mem) (a v : Z) : mem := wr16 (wr16 m a v) (a + 2) (v / 2^16).
Definition wr64 (m : mem) (a v : Z) : mem := wr32 (wr32 m a v) (a + 4) (v / 2^32).

Lemma rd8_wr8 m a b v : rd8 (wr8 m a v) b = if a =? b then u8 v else rd8 m b.
Proof. unfold rd8, wr8. rewrite rd_wr. destruct (a =? b); [apply u8_small, u8_range|done]. Qed.

Lemma rd8_wr16_ne m a v b : ~ a <= b < a + 2 -> rd8 (wr16 m a v) b = rd8 m b.
Proof. intros H. unfold wr16. rewrite !rd8_wr8. by rewrite !(proj2 (Z.eqb_neq _ _)) by lia. Qed.

Lemma rd16_wr16 m a v : 0 <= v < 2^16 -> rd16 (wr16 m a v) a = v.
Proof.
  intros Hv. unfold rd16, wr16. rewrite !rd8_wr8, !Z.eqb_refl.
  rewrite (proj2 (Z.eqb_neq (a + 1) a)) by lia. unfold u8. zmod.
Qed.

Lemma rd8_wr32 m a v b : rd8 (wr32 m a v) b
  = if a + 3 =? b then u8 (v / 2^16 / 2^8) else if a + 2 =? b then u8 (v / 2^16)
    else if a + 1 =? b then u8 (v / 2^8) else if a =? b then u8 v else rd8 m b.
Proof.
  unfold wr32, wr16. rewrite !rd8_wr8. replace (a + 2 + 1) with (a + 3) by lia. done.
Qed.

Lemma rd8_wr32_ne m a v b : ~ a <= b < a + 4 -> rd8 (wr32 m a v) b = rd8 m b.
Proof. intros H. rewrite rd8_wr32. by rewrite !(proj2 (Z.eqb_neq _ _)) by lia. Qed.

Lemma rd32_wr32 m a v : 0 <= v < 2^32 -> rd32 (wr32 m a v) a = v.
Proof.
  intros Hv. unfold rd32, rd16. rewrite !rd8_wr32.
  replace (a + 2 + 1) with (a + 3) by lia. rewrite !Z.eqb_refl.
  rewrite !(proj2 (Z.eqb_neq _ _)) by lia. unfold u8. zmod.
Qed.

Lemma rd8_wr64_ne m a v b : ~ a <= b < a + 8 -> rd8 (wr64 m a v) b = rd8 m b.
Proof. intros H. unfold wr64. by rewrite !rd8_wr32_ne by lia. Qed.

(** Loads depend on their bytes only. *)
Lemma rd16_ext m m' a b : rd8 m' a = rd8 m b -> rd8 m' (a + 1) = rd8 m (b + 1) -> rd16 m' a = rd16 m b.
Proof. intros H1 H2. unfold rd16. by rewrite H1, H2. Qed.

Lemma rd32_ext m m' a b : (forall i, 0 <= i < 4 -> rd8 m' (a + i) = rd8 m (b + i)) ->
  rd32 m' a = rd32 m b.
Proof.
  intros H. unfold rd32, rd16. pose proof (H 0) as H0. rewrite !Z.add_0_r in H0.
  replace (a + 2 + 1) with (a + 3) by lia. replace (b + 2 + 1) with (b + 3) by lia.
  rewrite H0, (H 1), (H 2), (H 3) by lia. done.
Qed.

Lemma rd64_ext m m' a b : (forall i, 0 <= i < 8 -> rd8 m' (a + i) = rd8 m (b + i)) -> rd64 m' a = rd64 m b.
Proof.
  intros H. unfold rd64. rewrite (rd32_ext m m' a b), (rd32_ext m m' (a + 4) (b + 4)); [done|..].
  all: intros i Hi; rewrite <- ?Z.add_assoc; apply H; lia.
Qed.

Lemma rd64_wr64 m a v : 0 <= v < 2^64 -> rd64 (wr64 m a v) a = v.
Proof.
  intros Hv. unfold rd64, wr64. rewrite (rd32_wr32 _ (a + 4)) by zmod.
  rewrite (rd32_ext (wr32 m a (v mod 2^32)) _ a a), rd32_wr32; [zmod|apply Z.mod_pos_bound; lia|].
  intros i Hi. rewrite rd8_wr32_ne by lia. rewrite !rd8_wr32.
  replace (u8 ((v mod 2^32) / 2^16 / 2^8)) with (u8 (v / 2^16 / 2^8)) by (unfold u8; zmod).
  replace (u8 ((v mod 2^32) / 2^16)) with (u8 (v / 2^16)) by (unfold u8; zmod).
  replace (u8 ((v mod 2^32) / 2^8)) with (u8 (v / 2^8)) by (unfold u8; zmod).
  replace (u8 (v mod 2^32)) with (u8 v) by (unfold u8; zmod). done.
Qed.

(** ** Counting

    [nfree used n] is the number of indices below [n] that [used] rejects. *)

Fixpoint nfree (used : Z -> bool) (n : nat) : Z :=
  match n with
  | O => 0
  | S n' => nfree used n' + (if used (Z.of_nat n') then 0 else 1)
  end.

Lemma nfree_ext f g n :
  (forall i, 0 <= i < Z.of_nat n -> f i = g i) -> nfree f n = nfree g n.
Proof.
  induction n as [|n IH]; intros H; simpl; [done|].
  rewrite IH by (intros; apply H; lia). by rewrite H by lia.
Qed.

Lemma nfree_bounds f n : 0 <= nfree f n <= Z.of_nat n.
Proof. induction n as [|n IH]; simpl; [lia|]. destruct (f (Z.of_nat n)); lia. Qed.

Lemma nfree_all_used f n :
  (forall i, 0 <= i < Z.of_nat n -> f i = true) -> nfree f n = 0.
Proof.
  induction n as [|n IH]; intros H; simpl; [done|].
  rewrite IH by (intros; apply H; lia). by rewrite H by lia.
Qed.

(** Changing the answer at one index changes the count by one. *)
Lemma nfree_flip f g n i :
  0 <= i < Z.of_nat n -> f i = false -> g i = true ->
  (forall j, 0 <= j < Z.of_nat n -> j <> i -> f j = g j) ->
  nfree f n = nfree g n + 1.
Proof.
  induction n as [|n IH]; intros Hi Hf Hg H; simpl; [lia|].
  destruct (decide (i = Z.of_nat n)) as [->|Hne].
  - rewrite Hf, Hg, (nfree_ext f g) by (intros; apply H; lia). lia.
  - rewrite IH by (try done; try lia; intros; apply H; lia).
    rewrite (H (Z.of_nat n)) by lia. lia.
Qed.

(** Changing it on an interval changes the count by the interval's length. *)
Lemma nfree_interval f g n lo k :
  0 <= lo -> lo + Z.of_nat k <= Z.of_nat n ->
  (forall i, lo <= i < lo + Z.of_nat k -> f i = false /\ g i = true) ->
  (forall i, 0 <= i < Z.of_nat n -> ~ lo <= i < lo + Z.of_nat k -> f i = g i) ->
  nfree f n = nfree g n + Z.of_nat k.
Proof.
  revert g. induction k as [|k IH]; intros g Hlo Hhi Hin Hout.
  - rewrite (nfree_ext f g); [lia|]. intros i Hi. apply Hout; lia.
  - set (h := fun i => if i =? lo + Z.of_nat k then false else g i).
    rewrite (IH h), (nfree_flip h g n (lo + Z.of_nat k)); try lia; unfold h.
    + by rewrite Z.eqb_refl.
    + apply Hin. lia.
    + intros j Hj Hne. by destruct (Z.eqb_spec j (lo + Z.of_nat k)).
    + intros i Hi. destruct (Z.eqb_spec i (lo + Z.of_nat k)); [lia|]. apply Hin. lia.
    + intros i Hi Hn. destruct (Z.eqb_spec i (lo + Z.of_nat k)) as [->|].
      * apply Hin. lia.
      * apply Hout; lia.
Qed.

(** ** Lists *)

Lemma Forall_weaken {A} (P Q : A -> Prop) (l : list A) :
  Forall P l -> (forall x, P x -> Q x) -> Forall Q l.
Proof. intros H HPQ. induction H; constructor; auto. Qed.
