(* ===== verification/Mb2.v ===== *)
(** * Multiboot2 information structure ([src/kernel64/mb2.h])

    The boot loader leaves a list of tags in memory: a [type], a [size] and a
    payload, each tag padded to 8 bytes.  The structures of mb2.h are packed,
    so a field is a little-endian load at a fixed offset of the tag. *)

From S2P Require Import Prelude.

Module Mb2.

Definition MB2_TAG_END : Z := 0.
Definition MB2_TAG_MODULE : Z := 3.
Definition MB2_TAG_BASIC_MEMINFO : Z := 4.
Definition MB2_TAG_MMAP : Z := 6.
Definition MB2_TAG_FRAMEBUFFER : Z := 8.
Definition MB2_TAG_EFI_MMAP : Z := 17.

(** [mb2_tag] *)
Definition tag_type (m : mem) (t : Z) : Z := rd32 m t.
Definition tag_size (m : mem) (t : Z) : Z := rd32 m (t + 4).

(** [mb2_tag_module] *)
Definition mb2_mod_start (m : mem) (t : Z) : Z := rd32 m (t + 8).
Definition mb2_mod_end (m : mem) (t : Z) : Z := rd32 m (t + 12).
Definition mb2_mod_string (t : Z) : Z := t + 16.

(** [mb2_tag_mmap_hdr] and [mb2_mmap_entry] *)
Definition mmap_entry_size (m : mem) (t : Z) : Z := rd32 m (t + 8).
Definition mmap_base_addr (m : mem) (e : Z) : Z := rd64 m e.
Definition mmap_length (m : mem) (e : Z) : Z := rd64 m (e + 8).
Definition mmap_type (m : mem) (e : Z) : Z := rd32 m (e + 16).

(** [mb2_tag_efi_mmap_hdr] and [efi_mem_desc] *)
Definition efi_desc_size (m : mem) (t : Z) : Z := rd32 m (t + 8).
Definition efi_Type (m : mem) (d : Z) : Z := rd32 m d.
Definition efi_PhysicalStart (m : mem) (d : Z) : Z := rd64 m (d + 8).
Definition efi_NumberOfPages (m : mem) (d : Z) : Z := rd64 m (d + 24).

(** [mb2_tag_basic_meminfo] *)
Definition mem_lower (m : mem) (t : Z) : Z := rd32 m (t + 8).
Definition mem_upper (m : mem) (t : Z) : Z := rd32 m (t + 12).

Definition mb2_first_tag (mb2_addr : Z) : Z := (mb2_addr + 8)%u64.

Definition mb2_next_tag (m : mem) (t : Z) : Z :=
  Z.land (u64 (t + tag_size m t + 7)) (u64 (Z.lnot 7)).

Definition mb2_efi_first_desc (h : Z) : Z := h + 16.

(** [payload] is a [uint32_t]: a tag shorter than its header wraps around. *)
Definition mb2_efi_desc_count (m : mem) (h : Z) : Z :=
  if efi_desc_size m h =? 0 then 0
  else u32 (tag_size m h - 16) / efi_desc_size m h.

(** The loop shared by the readers of the list: the first tag of type [ty]
    before address [stop] or the end tag.  [fuel] bounds the tags looked at;
    [None] is a walk that did not finish. *)
Fixpoint find_tag (fuel : nat) (m : mem) (stop ty t : Z) : option (option Z) :=
  match fuel with
  | O => None
  | S fuel' =>
      if negb (t <? stop) then Some None
      else if tag_type m t =? MB2_TAG_END then Some None
      else if tag_type m t =? ty then Some (Some t)
      else find_tag fuel' m stop ty (mb2_next_tag m t)
  end.

(** Addresses the walk from [t0] looks at. *)
Inductive visited (m : mem) (stop t0 : Z) : Z -> Prop :=
  | visited_first : visited m stop t0 t0
  | visited_next t :
      visited m stop t0 t -> t < stop -> tag_type m t <> MB2_TAG_END ->
      visited m stop t0 (mb2_next_tag m t).

(** Every tag that is looked at says it is at least one byte long, and the
    list lies low enough for the address arithmetic not to wrap. *)
Definition tags_advance (m : mem) (stop t0 : Z) : Prop :=
  0 <= t0 /\ t0 mod 8 = 0 /\ stop <= 2^63 /\
  forall t, visited m stop t0 t -> t < stop -> 1 <= tag_size m t.

Lemma mb2_next_tag_eq m t :
  0 <= t < 2^63 -> mb2_next_tag m t = (t + tag_size m t + 7) / 8 * 8.
Proof.
  intros Ht. pose proof (rd32_range m (t + 4)). unfold mb2_next_tag, tag_size in *.
  rewrite land_u64_r by apply u64_range.
  change 7 with (2^3 - 1) at 2. rewrite land_clear_low by lia.
  rewrite u64_small by lia. done.
Qed.

(** A tag of non-zero size moves the walk at least 8 bytes forward. *)
Lemma mb2_next_tag_advances m t :
  0 <= t < 2^63 -> t mod 8 = 0 -> 1 <= tag_size m t ->
  t + 8 <= mb2_next_tag m t /\ mb2_next_tag m t mod 8 = 0.
Proof.
  intros Ht Hal Hs. rewrite mb2_next_tag_eq by done. split; [|apply Z.mod_mul; lia]. zmod.
Qed.

Lemma visited_aligned m stop t0 t :
  tags_advance m stop t0 -> visited m stop t0 t -> 0 <= t /\ t mod 8 = 0.
Proof.
  intros (H0 & Ha & Hstop & Hadv) Hv. induction Hv as [|t Hv IH Hlt Hty]; [done|].
  destruct IH as [IH1 IH2]. pose proof (Hadv t Hv Hlt).
  destruct (mb2_next_tag_advances m t); lia.
Qed.

(** Any walk over an advancing list is finished after one step per 8 bytes. *)
Lemma find_tag_terminates m stop ty t0 : forall fuel t,
  tags_advance m stop t0 -> visited m stop t0 t ->
  (1 <= fuel)%nat -> stop - t + 8 <= 8 * Z.of_nat fuel ->
  exists r, find_tag fuel m stop ty t = Some r.
Proof.
  induction fuel as [|fuel IH]; intros t Hadv Hv H1f Hd; simpl; [lia|].
  destruct (Z.ltb_spec t stop) as [Hlt|]; simpl; [|eauto].
  destruct (Z.eqb_spec (tag_type m t) MB2_TAG_END) as [|Hty]; [eauto|].
  destruct (tag_type m t =? ty); [eauto|].
  destruct (visited_aligned _ _ _ _ Hadv Hv) as [H1 H2].
  destruct (Hadv) as (H0 & Ha & Hstop & Hsz). pose proof (Hsz t Hv Hlt).
  destruct (mb2_next_tag_advances m t); [lia|done|done|].
  apply IH; [done|by constructor|lia|lia].
Qed.

(** What the walk returns: a tag of the wanted type, inside the list. *)
Lemma find_tag_Some m stop ty t0 : forall fuel t r,
  visited m stop t0 t -> find_tag fuel m stop ty t = Some (Some r) ->
  visited m stop t0 r /\ r < stop /\ tag_type m r = ty.
Proof.
  induction fuel as [|fuel IH]; intros t r Hv Hf; simpl in Hf; [done|].
  destruct (Z.ltb_spec t stop) as [Hlt|]; simpl in Hf; [|done].
  destruct (Z.eqb_spec (tag_type m t) MB2_TAG_END) as [|Hty]; [done|].
  destruct (Z.eqb_spec (tag_type m t) ty) as [He|]; [by simplify_eq|].
  eapply IH; [|done]. by constructor.
Qed.

(** A finite list that the walk cannot leave contains every tag it visits. *)
Lemma visited_closed m stop t0 (l : list Z) t :
  In t0 l ->
  Forall (fun t => stop <= t \/ tag_type m t = MB2_TAG_END \/ In (mb2_next_tag m t) l) l ->
  visited m stop t0 t -> In t l.
Proof.
  intros H0 Hl Hv. induction Hv as [|t Hv IH Hlt Hty]; [done|].
  rewrite Forall_forall in Hl. destruct (Hl t IH) as [|[|]]; [lia|done|done].
Qed.

(** Boot information for the witnesses, written field by field. *)
Definition poke (m : mem) (a : Z) (n : nat) (v : Z) : mem :=
  foldr (fun i m => wr m (a + Z.of_nat i) (v / 2^(8 * Z.of_nat i) mod 2^8)) m (seq 0 n).
Definition poke32 (m : mem) (a v : Z) : mem := poke m a 4 v.
Definition poke64 (m : mem) (a v : Z) : mem := poke m a 8 v.

End Mb2.
