(* ===== verification/Pmm.v ===== *)
(** * Physical memory manager ([src/kernel/mm/pmm.c])

    Definitions of every function of pmm.c and the facts about the single
    operations.  The bitmap is the array [g_bitmap_storage]: an access outside
    its [PMM_MAX_FRAMES / 8] bytes has no result. *)

From S2P Require Import Prelude Mb2.

Module Pmm.

Import Mb2.

Definition PMM_FRAME_SIZE : Z := 4096.
Definition PMM_MAX_FRAMES : Z := 1024 * 1024.
Definition MAX_REGIONS : Z := 64.

(** Linear arithmetic with the constants above unfolded. *)
Ltac flia := unfold PMM_FRAME_SIZE, PMM_MAX_FRAMES, MAX_REGIONS in *; lia.

(** [region_t] *)
Record region := Region { base : Z; len : Z }.

(** The file's static variables.  [g_regions] holds the [g_region_count]
    entries in use; [g_bitmap] is always [g_bitmap_storage]. *)
Record pmm := Pmm {
  g_regions : list region;
  g_bitmap_base : Z;
  g_bitmap_limit : Z;
  g_total_phys : Z;
  g_total_usable : Z;
  g_free : Z;
  g_bitmap : mem
}.

Definition g_region_count (st : pmm) : Z := Z.of_nat (length (g_regions st)).

Definition set_bitmap (st : pmm) (bm : mem) : pmm :=
  Pmm (g_regions st) (g_bitmap_base st) (g_bitmap_limit st) (g_total_phys st)
      (g_total_usable st) (g_free st) bm.
Definition set_free (st : pmm) (f : Z) : pmm :=
  Pmm (g_regions st) (g_bitmap_base st) (g_bitmap_limit st) (g_total_phys st)
      (g_total_usable st) f (g_bitmap st).
Definition set_bounds (st : pmm) (lo hi : Z) : pmm :=
  Pmm (g_regions st) lo hi (g_total_phys st) (g_total_usable st) (g_free st) (g_bitmap st).
Definition set_regions (st : pmm) (rs : list region) (phys usable : Z) : pmm :=
  Pmm rs (g_bitmap_base st) (g_bitmap_limit st) phys usable (g_free st) (g_bitmap st).

(** Array accesses of [g_bitmap]. *)
Definition in_storage (i : Z) : bool := (0 <=? i) && (i <? PMM_MAX_FRAMES / 8).
Definition bm_get (st : pmm) (i : Z) : option Z :=
  if in_storage i then Some (rd8 (g_bitmap st) i) else None.
Definition bm_set (st : pmm) (i v : Z) : option pmm :=
  if in_storage i then Some (set_bitmap st (wr (g_bitmap st) i (u8 v))) else None.

(** ** Regions *)

Definition cap : Z := 4 * 1024 * 1024 * 1024.

Definition add_region (rs : list region) (base len : Z) : list region :=
  if (len =? 0) || (MAX_REGIONS <=? Z.of_nat (length rs)) then rs
  else if cap <=? base then rs
  else
    let e := (base + len)%u64 in
    let e := if cap <? e then cap else e in
    if e <=? base then rs else rs ++ [Region base (e - base)%u64].

(** A usable range, rounded inwards to frames, as both map readers add it. *)
Definition add_usable (rs : list region) (start stop : Z) : list region :=
  let s := align_up start PMM_FRAME_SIZE in
  let e := align_down stop PMM_FRAME_SIZE in
  add_region rs s (if s <? e then (e - s)%u64 else 0).

(** Body of the EFI map loop; [i * esize] is a 32-bit product. *)
Definition efi_step (m : mem) (ep esize i : Z) (rs : list region) : option (list region) :=
  let d := ep + u32 (i * esize) in
  let bytes := (efi_NumberOfPages m d * 4096)%u64 in
  Some (if efi_Type m d =? 7
        then add_usable rs (efi_PhysicalStart m d) (efi_PhysicalStart m d + bytes)%u64
        else rs).

Definition efi_regions (m : mem) (t : Z) (rs : list region) : option (list region) :=
  for_range 0 (mb2_efi_desc_count m t)
    (efi_step m (mb2_efi_first_desc t) (efi_desc_size m t)) rs.

(** The entry loop of one memory-map tag, from [offset]. *)
Fixpoint mmap_entries (fuel : nat) (m : mem) (t entry_size offset : Z)
    (rs : list region) : option (list region) :=
  match fuel with
  | O => None
  | S fuel' =>
      if u32 (offset + entry_size) <=? tag_size m t then
        let e := t + offset in
        let rs' :=
          if mmap_type m e =? 1
          then add_usable rs (mmap_base_addr m e)
                 (mmap_length m e + mmap_base_addr m e)%u64
          else rs in
        mmap_entries fuel' m t entry_size (u32 (offset + entry_size)) rs'
      else Some rs
  end.

(** The tag loop of the legacy map: every memory-map tag is read, each with
    [efuel] entries at most. *)
Fixpoint mmap_tags (fuel efuel : nat) (m : mem) (stop t : Z) (rs : list region)
    (saw_mmap : bool) : option (list region * bool) :=
  match fuel with
  | O => None
  | S fuel' =>
      if negb (t <? stop) then Some (rs, saw_mmap)
      else if tag_type m t =? MB2_TAG_END then Some (rs, saw_mmap)
      else if tag_type m t =? MB2_TAG_MMAP then
        rs' ← mmap_entries efuel m t (mmap_entry_size m t) 16 rs;
        mmap_tags fuel' efuel m stop (mb2_next_tag m t) rs' true
      else mmap_tags fuel' efuel m stop (mb2_next_tag m t) rs saw_mmap
  end.

Definition basic_region (m : mem) (t : Z) (rs : list region) : list region :=
  let upper := mem_upper m t * 1024 in
  if 0 <? upper then add_region rs 0x100000 upper else rs.

Definition total_len (rs : list region) : Z :=
  fold_left (fun acc r => (acc + len r)%u64) rs 0.

Definition parse_mb2 (fuel : nat) (m : mem) (info : Z) (from_uefi : bool) (st : pmm)
    : option pmm :=
  if info =? 0 then Some st
  else
    let stop := info + rd32 m info in
    let tag := info + 8 in
    efi ← (if from_uefi then find_tag fuel m stop MB2_TAG_EFI_MMAP tag else Some None);
    rs ← match efi with
         | Some t => efi_regions m t (g_regions st)
         | None =>
             '(rs, saw_mmap) ← mmap_tags fuel fuel m stop tag (g_regions st) false;
             if saw_mmap : bool then Some rs
             else
               b ← find_tag fuel m stop MB2_TAG_BASIC_MEMINFO tag;
               Some (match b with Some t => basic_region m t rs | None => rs end)
         end;
    Some (set_regions st rs (total_len rs) (total_len rs)).

(** Bounds of the bitmap: the lowest start and the highest end. *)
Definition bounds_step (b : Z * Z) (r : region) : Z * Z :=
  let e := (base r + len r)%u64 in
  if cap <=? base r then b
  else
    let e := if cap <? e then cap else e in
    (if base r <? b.1 then base r else b.1, if b.2 <? e then e else b.2).

Definition build_bitmap_bounds (st : pmm) : option pmm :=
  if g_region_count st =? 0 then Some (set_bounds st 0 0)
  else
    let b := fold_left bounds_step (g_regions st) (2^64 - 1, 0) in
    if b.2 <=? b.1 then Some (set_bounds st 0 0)
    else
      let max_cover := PMM_MAX_FRAMES * PMM_FRAME_SIZE in
      let limit := if max_cover <? (b.2 - b.1)%u64 then (b.1 + max_cover)%u64 else b.2 in
      let st := set_bounds st b.1 limit in
      let frames := (limit - b.1)%u64 / PMM_FRAME_SIZE in
      for_range 0 ((frames + 7) / 8) (fun i st => bm_set st i 0) st.

(** ** Frames *)

Definition addr_to_index (st : pmm) (paddr : Z) : Z :=
  (paddr - g_bitmap_base st)%u64 / PMM_FRAME_SIZE.

Definition test_frame (st : pmm) (idx : Z) : option bool :=
  b ← bm_get st (Z.shiftr idx 3);
  Some (Z.land (Z.shiftr b (Z.land idx 7)) 1 =? 1).

Definition set_frame (st : pmm) (idx : Z) : option pmm :=
  b ← bm_get st (Z.shiftr idx 3);
  bm_set st (Z.shiftr idx 3) (Z.lor b (Z.shiftl 1 (Z.land idx 7))).

Definition clear_frame (st : pmm) (idx : Z) : option pmm :=
  b ← bm_get st (Z.shiftr idx 3);
  bm_set st (Z.shiftr idx 3) (Z.land b (u32 (Z.lnot (Z.shiftl 1 (Z.land idx 7))))).

Definition mark_range (st : pmm) (paddr size : Z) (used : bool) : option pmm :=
  if size =? 0 then Some st
  else
    let s := align_down paddr PMM_FRAME_SIZE in
    let e := align_up (paddr + size)%u64 PMM_FRAME_SIZE in
    let s := if s <? g_bitmap_base st then g_bitmap_base st else s in
    let e := if g_bitmap_limit st <? e then g_bitmap_limit st else e in
    if e <=? s then Some st
    else
      for_range (addr_to_index st s) (addr_to_index st e)
        (fun i st => if used then set_frame st i else clear_frame st i) st.

(** [for (a = s; a < e; a += PMM_FRAME_SIZE)], [k] frames after [s]. *)
Definition reserve_step (s k : Z) (st : pmm) : option pmm :=
  let idx := addr_to_index st (s + k * PMM_FRAME_SIZE) in
  t ← test_frame st idx;
  if t : bool then Some st
  else
    st' ← set_frame st idx;
    Some (set_free st' (g_free st' - PMM_FRAME_SIZE)%u64).

Definition pmm_reserve (st : pmm) (paddr size : Z) : option pmm :=
  let s := align_down paddr PMM_FRAME_SIZE in
  let e := align_up (paddr + size)%u64 PMM_FRAME_SIZE in
  let s := if s <? g_bitmap_base st then g_bitmap_base st else s in
  let e := if g_bitmap_limit st <? e then g_bitmap_limit st else e in
  for_range 0 ((e - s + (PMM_FRAME_SIZE - 1)) / PMM_FRAME_SIZE) (reserve_step s) st.

(** Body of the loop of [pmm_init] over the regions. *)
Definition init_step (r : region) (acc : option (pmm * Z)) : option (pmm * Z) :=
  '(st, usable_in_range) ← acc;
  let reg_start := base r in
  let reg_end := (base r + len r)%u64 in
  let reg_start := if reg_start <? g_bitmap_base st then g_bitmap_base st else reg_start in
  let reg_end := if g_bitmap_limit st <? reg_end then g_bitmap_limit st else reg_end in
  if reg_start <? reg_end then
    st' ← mark_range st reg_start (reg_end - reg_start)%u64 false;
    Some (st', (usable_in_range + (reg_end - reg_start))%u64)
  else Some (st, usable_in_range).

Definition mark_usable (st : pmm) : option (pmm * Z) :=
  fold_left (fun acc r => init_step r acc) (g_regions st) (Some (st, 0)).

Definition pmm_init (fuel : nat) (m : mem) (info : Z) (from_uefi : bool) (bss : mem)
    : option pmm :=
  st ← parse_mb2 fuel m info from_uefi (Pmm [] 0 0 0 0 0 bss);
  st ← build_bitmap_bounds st;
  st ← mark_range st (g_bitmap_base st) (g_bitmap_limit st - g_bitmap_base st)%u64 true;
  '(st, usable_in_range) ← mark_usable st;
  let st := set_free st usable_in_range in
  st ← pmm_reserve st (g_bitmap_base st) PMM_FRAME_SIZE;
  pmm_reserve st 0 0x100000.

Definition pmm_total_bytes (st : pmm) : Z := g_total_usable st.
Definition pmm_free_bytes (st : pmm) : Z := g_free st.
Definition pmm_total_physical_bytes (st : pmm) : Z := g_total_phys st.

(** Number of frames the bitmap tracks. *)
Definition frames (st : pmm) : Z :=
  (g_bitmap_limit st - g_bitmap_base st)%u64 / PMM_FRAME_SIZE.

(** The first-fit scan: [n] frames left from [i], a run of [run] free frames
    behind, begun at [run_start].  On success the run is taken at once. *)
Fixpoint scan_frames (n : nat) (st : pmm) (count need i run run_start : Z)
    : option (Z * pmm) :=
  match n with
  | O => Some (0, st)
  | S n' =>
      t ← test_frame st i;
      if t : bool then scan_frames n' st count need (i + 1) 0 run_start
      else
        let run_start := if run =? 0 then i else run_start in
        let run := run + 1 in
        if count <=? run then
          st' ← for_range 0 count (fun j st => set_frame st (run_start + j)%u64) st;
          Some ((g_bitmap_base st + run_start * PMM_FRAME_SIZE)%u64,
                set_free st' (g_free st' - need)%u64)
        else scan_frames n' st count need (i + 1) run run_start
  end.

Definition pmm_alloc_frames (st : pmm) (count : Z) : option (Z * pmm) :=
  if count =? 0 then Some (0, st)
  else
    let need := (count * PMM_FRAME_SIZE)%u64 in
    if g_free st <? need then Some (0, st)
    else scan_frames (Z.to_nat (frames st)) st count need 0 0 0.

Definition pmm_alloc_frames_below (st : pmm) (count max_phys_exclusive : Z)
    : option (Z * pmm) :=
  if count =? 0 then Some (0, st)
  else
    let need := (count * PMM_FRAME_SIZE)%u64 in
    if g_free st <? need then Some (0, st)
    else
      let limit_idx :=
        if g_bitmap_base st <? max_phys_exclusive
        then (max_phys_exclusive - g_bitmap_base st)%u64 / PMM_FRAME_SIZE else 0 in
      let limit_idx := if frames st <? limit_idx then frames st else limit_idx in
      scan_frames (Z.to_nat limit_idx) st count need 0 0 0.

(** The loop of [pmm_free_frames]; it breaks at the end of the bitmap. *)
Fixpoint free_loop (n : nat) (st : pmm) (idx j : Z) : option pmm :=
  match n with
  | O => Some st
  | S n' =>
      if frames st <=? (idx + j)%u64 then Some st
      else
        t ← test_frame st (idx + j)%u64;
        if t : bool then
          st' ← clear_frame st (idx + j)%u64;
          free_loop n' (set_free st' (g_free st' + PMM_FRAME_SIZE)%u64) idx (j + 1)
        else free_loop n' st idx (j + 1)
  end.

Definition pmm_free_frames (st : pmm) (paddr count : Z) : option pmm :=
  if (count =? 0) || (paddr <? g_bitmap_base st) || (g_bitmap_limit st <=? paddr)
  then Some st
  else free_loop (Z.to_nat count) st (addr_to_index st paddr) 0.

(** ** The bitmap as a set of frames *)

(** Whether frame [i] is marked allocated or reserved. *)
Definition used (st : pmm) (i : Z) : bool :=
  Z.testbit (rd8 (g_bitmap st) (i / 8)) (i mod 8).

(** [st'] is [st] with the frames of [[lo, hi)] marked [b], and nothing else
    changed. *)
Definition bits_set (st st' : pmm) (lo hi : Z) (b : bool) : Prop :=
  st' = set_bitmap st (g_bitmap st') /\
  forall j, 0 <= j -> used st' j = if (lo <=? j) && (j <? hi) then b else used st j.

Lemma in_storage_frame i : 0 <= i < PMM_MAX_FRAMES -> in_storage (Z.shiftr i 3) = true.
Proof.
  intros H. rewrite Z.shiftr_div_pow2 by lia. change (2^3) with 8.
  unfold in_storage, PMM_MAX_FRAMES in *. apply andb_true_intro. split.
  - apply Z.leb_le. zmod.
  - apply Z.ltb_lt. zmod.
Qed.

Lemma align_down_frame x :
  0 <= x < 2^64 -> align_down x PMM_FRAME_SIZE = x / PMM_FRAME_SIZE * PMM_FRAME_SIZE.
Proof. intros H. by apply (align_down_pow2 x 12). Qed.

Lemma align_up_frame x :
  0 <= x <= 2^64 - PMM_FRAME_SIZE ->
  align_up x PMM_FRAME_SIZE
  = (x + (PMM_FRAME_SIZE - 1)) / PMM_FRAME_SIZE * PMM_FRAME_SIZE.
Proof.
  intros H. etransitivity; [by apply (align_up_pow2 x 12)|]. unfold PMM_FRAME_SIZE in *.
  by rewrite u64_small by lia.
Qed.

Lemma testbit_u8 x k : 0 <= k < 8 -> Z.testbit (u8 x) k = Z.testbit x k.
Proof. intros H. unfold u8. apply Z.mod_pow2_bits_low. lia. Qed.

Lemma testbit_shl1 k j : 0 <= k -> 0 <= j -> Z.testbit (Z.shiftl 1 k) j = (j =? k).
Proof.
  intros Hk Hj. rewrite Z.shiftl_spec by done.
  destruct (Z.eqb_spec j k) as [->|Hne]; [by rewrite Z.sub_diag|].
  destruct (Z.ltb_spec j k).
  - by rewrite Z.testbit_neg_r by lia.
  - rewrite Z.bits_above_log2; [done|lia|]. simpl. lia.
Qed.

Lemma frame_bit i : Z.shiftr i 3 = i / 8 /\ Z.land i 7 = i mod 8.
Proof.
  rewrite Z.shiftr_div_pow2 by lia. split; [done|]. by apply (land_low i 3).
Qed.

Lemma test_frame_spec st i :
  0 <= i < PMM_MAX_FRAMES -> test_frame st i = Some (used st i).
Proof.
  intros Hi. unfold test_frame, bm_get, used. rewrite in_storage_frame by done. simpl.
  destruct (frame_bit i) as [-> ->]. f_equal.
  assert (0 <= i mod 8 < 8) by (apply Z.mod_pos_bound; lia).
  assert (Hland : forall x, Z.land x 1 = x mod 2) by (intros; by apply (land_low x 1)).
  rewrite Hland.
  rewrite <- Z.bit0_mod, Z.shiftr_spec, Z.add_0_l by lia.
  by destruct (Z.testbit _ _).
Qed.

(** Both frame updates write one byte; [used] sees one bit of it change. *)
Lemma bm_set_used st i v b :
  0 <= i < PMM_MAX_FRAMES ->
  (forall k, 0 <= k < 8 -> Z.testbit v k
     = if k =? i mod 8 then b else Z.testbit (rd8 (g_bitmap st) (i / 8)) k) ->
  exists st', bm_set st (i / 8) v = Some st' /\ bits_set st st' i (i + 1) b.
Proof.
  intros Hi Hv. unfold bm_set. destruct (frame_bit i) as [<- _].
  rewrite in_storage_frame by done. destruct (frame_bit i) as [-> _].
  eexists. split; [done|]. split; [done|].
  intros j Hj. unfold used, set_bitmap, rd8. simpl. rewrite rd_wr.
  assert (0 <= j mod 8 < 8) by (apply Z.mod_pos_bound; lia).
  destruct (Z.eqb_spec (i / 8) (j / 8)) as [E|E].
  - rewrite 2!testbit_u8, Hv by done. rewrite E.
    destruct (Z.eqb_spec (j mod 8) (i mod 8)), (Z.leb_spec i j), (Z.ltb_spec j (i + 1));
      simpl; try done; zmod.
  - destruct (Z.leb_spec i j), (Z.ltb_spec j (i + 1)); simpl; try done.
    by replace j with i in E by lia.
Qed.

Lemma set_frame_spec st i :
  0 <= i < PMM_MAX_FRAMES ->
  exists st', set_frame st i = Some st' /\ bits_set st st' i (i + 1) true.
Proof.
  intros Hi. unfold set_frame, bm_get. rewrite in_storage_frame by done. simpl.
  destruct (frame_bit i) as [-> ->]. apply bm_set_used; [done|]. intros k Hk.
  assert (0 <= i mod 8 < 8) by (apply Z.mod_pos_bound; lia).
  rewrite Z.lor_spec, testbit_shl1 by lia.
  destruct (k =? i mod 8); [by rewrite orb_true_r | by rewrite orb_false_r].
Qed.

Lemma clear_frame_spec st i :
  0 <= i < PMM_MAX_FRAMES ->
  exists st', clear_frame st i = Some st' /\ bits_set st st' i (i + 1) false.
Proof.
  intros Hi. unfold clear_frame, bm_get. rewrite in_storage_frame by done. simpl.
  destruct (frame_bit i) as [-> ->]. apply bm_set_used; [done|]. intros k Hk.
  assert (0 <= i mod 8 < 8) by (apply Z.mod_pos_bound; lia).
  unfold u32. rewrite Z.land_spec, Z.mod_pow2_bits_low, Z.lnot_spec, testbit_shl1 by lia.
  destruct (k =? i mod 8); simpl; [by rewrite andb_false_r | by rewrite andb_true_r].
Qed.

Lemma bits_set_empty st lo hi b : hi <= lo -> bits_set st st lo hi b.
Proof.
  intros H. split; [by destruct st|]. intros j _.
  destruct (Z.leb_spec lo j), (Z.ltb_spec j hi); simpl; done || lia.
Qed.

Lemma bits_set_snoc st st1 st2 lo mid b :
  lo <= mid -> bits_set st st1 lo mid b -> bits_set st1 st2 mid (mid + 1) b ->
  bits_set st st2 lo (mid + 1) b.
Proof.
  intros Hle [E1 H1] [E2 H2]. split.
  - rewrite E2, E1. by destruct st.
  - intros j Hj. rewrite H2, H1 by done.
    destruct (Z.leb_spec lo j), (Z.ltb_spec j mid), (Z.leb_spec mid j),
      (Z.ltb_spec j (mid + 1)); simpl; done || lia.
Qed.

Lemma bits_set_meta st st' lo hi b :
  bits_set st st' lo hi b ->
  g_regions st' = g_regions st /\ g_bitmap_base st' = g_bitmap_base st /\
  g_bitmap_limit st' = g_bitmap_limit st /\ g_free st' = g_free st.
Proof. intros [-> _]. by destruct st. Qed.

(** A loop that marks consecutive frames. *)
Lemma mark_loop_spec st lo hi b (body : Z -> pmm -> option pmm) :
  0 <= lo <= hi -> hi <= PMM_MAX_FRAMES ->
  (forall i t, lo <= i < hi -> exists t', body i t = Some t' /\ bits_set t t' i (i + 1) b) ->
  exists st', for_range lo hi body st = Some st' /\ bits_set st st' lo hi b.
Proof.
  intros Hlo Hhi Hbody.
  apply (for_range_inv (fun i t => bits_set st t lo i b)); [lia| |].
  - by apply bits_set_empty.
  - intros i t Hi Ht. destruct (Hbody i t Hi) as (t' & E & Ht').
    exists t'. split; [done|]. apply (bits_set_snoc st t); [lia|done|done].
Qed.

End Pmm.
