(* ===== verification/PmmSpec.v ===== *)
(** * Correctness of the physical memory manager

    The invariant of pmm.c ([g_free] is the number of free bytes of the
    bitmap, which covers whole frames below 4 GiB) and the theorems about
    [pmm_alloc_frames], [pmm_alloc_frames_below], [pmm_free_frames] and
    [pmm_reserve]: they never touch memory outside the bitmap, preserve the
    invariant, and do what pmm.h promises. *)

From S2P Require Import Prelude Mb2 Pmm.

Module PmmSpec.

Import Pmm.

(** Physical address of frame [i]. *)
Definition frame_addr (st : pmm) (i : Z) : Z := g_bitmap_base st + i * PMM_FRAME_SIZE.

(** The bitmap covers whole frames below 4 GiB. *)
Record wf (st : pmm) : Prop := Wf {
  wf_base_pos : 0 <= g_bitmap_base st;
  wf_base_al : g_bitmap_base st mod PMM_FRAME_SIZE = 0;
  wf_limit : g_bitmap_base st <= g_bitmap_limit st <= 2^32;
  wf_limit_al : g_bitmap_limit st mod PMM_FRAME_SIZE = 0
}.

(** Free bytes of the bitmap. *)
Definition free_bytes (st : pmm) : Z :=
  PMM_FRAME_SIZE * nfree (used st) (Z.to_nat (frames st)).

(** Well-formed bounds and an exact [g_free]. *)
Record acct (st : pmm) : Prop := Acct {
  acct_wf : wf st;
  acct_free : g_free st = free_bytes st
}.

(** The invariant: in addition the frame at physical address 0 is never free
    (0 is the failure value of the allocator). *)
Record inv (st : pmm) : Prop := Inv {
  inv_acct : acct st;
  inv_null : g_bitmap_base st = 0 -> 0 < frames st -> used st 0 = true
}.

Lemma inv_wf st : inv st -> wf st.
Proof. intros [[]]; done. Qed.

Lemma inv_free st : inv st -> g_free st = free_bytes st.
Proof. intros [[]]; done. Qed.

(** [count] consecutive free frames from [s]. *)
Definition free_run (st : pmm) (s count : Z) : Prop :=
  forall j, s <= j < s + count -> used st j = false.

(** [st'] is [st] with the frames of [[lo, hi)] marked [b] and [g_free]
    recomputed. *)
Definition marked (st st' : pmm) (lo hi : Z) (b : bool) : Prop :=
  st' = set_free (set_bitmap st (g_bitmap st')) (g_free st') /\
  g_free st' = free_bytes st' /\
  forall j, 0 <= j -> used st' j = if (lo <=? j) && (j <? hi) then b else used st j.

Lemma frames_spec st :
  wf st ->
  0 <= frames st <= PMM_MAX_FRAMES /\
  g_bitmap_limit st = g_bitmap_base st + frames st * PMM_FRAME_SIZE.
Proof.
  intros []. unfold frames, PMM_MAX_FRAMES, PMM_FRAME_SIZE in *. usimp. split; zmod.
Qed.

Lemma addr_to_index_frame st i x :
  wf st -> 0 <= i < 2^32 -> 0 <= x < PMM_FRAME_SIZE ->
  addr_to_index st (frame_addr st i + x) = i.
Proof.
  intros [] Hi Hx. unfold addr_to_index, frame_addr, PMM_FRAME_SIZE in *. usimp. zmod.
Qed.

Lemma frame_addr_index st i : (frame_addr st i - g_bitmap_base st) / PMM_FRAME_SIZE = i.
Proof. unfold frame_addr. rewrite Z.add_simpl_l. by apply Z.div_mul. Qed.

Lemma set_free_used st f : used (set_free st f) = used st.
Proof. done. Qed.

Lemma marked_meta st st' lo hi b :
  marked st st' lo hi b ->
  g_regions st' = g_regions st /\ g_bitmap_base st' = g_bitmap_base st /\
  g_bitmap_limit st' = g_bitmap_limit st /\ frames st' = frames st.
Proof. intros [-> _]. by destruct st. Qed.

Lemma marked_wf st st' lo hi b : marked st st' lo hi b -> wf st -> wf st'.
Proof.
  intros Hm [H1 H2 H3 H4]. destruct (marked_meta _ _ _ _ _ Hm) as (_ & Eb & El & _).
  constructor; by rewrite ?Eb, ?El.
Qed.

Lemma marked_acct st st' lo hi b : wf st -> marked st st' lo hi b -> acct st'.
Proof. intros Hwf Hm. constructor; [by eapply marked_wf|apply Hm]. Qed.

(** Marking frames as used keeps the invariant. *)
Lemma marked_used_inv st st' lo hi : inv st -> marked st st' lo hi true -> inv st'.
Proof.
  intros [[Hwf Hf] Hn] Hm. pose proof (marked_meta _ _ _ _ _ Hm) as (_ & Eb & El & Ef).
  constructor; [by eapply marked_acct|]. rewrite Eb, Ef. intros H0 H1.
  destruct Hm as (_ & _ & Hu). rewrite Hu by lia. rewrite Hn by done.
  by destruct ((lo <=? 0) && (0 <? hi)).
Qed.

Lemma marked_empty st lo hi b : acct st -> hi <= lo -> marked st st lo hi b.
Proof.
  intros [_ Hf] H. split; [by destruct st|]. split; [done|]. intros j _.
  destruct (Z.leb_spec lo j), (Z.ltb_spec j hi); simpl; done || lia.
Qed.

(** One more frame: the step of every loop that keeps [g_free] exact. *)
Lemma marked_snoc st st1 st2 lo mid b :
  lo <= mid -> marked st st1 lo mid b -> marked st1 st2 mid (mid + 1) b ->
  marked st st2 lo (mid + 1) b.
Proof.
  intros Hle (E1 & F1 & H1) (E2 & F2 & H2). split; [|split; [done|]].
  - rewrite E2, E1. by destruct st.
  - intros j Hj. rewrite H2, H1 by done.
    destruct (Z.leb_spec lo j), (Z.ltb_spec j mid), (Z.leb_spec mid j),
      (Z.ltb_spec j (mid + 1)); simpl; done || lia.
Qed.

(** A frame that already has the wanted mark is left alone. *)
Lemma marked_skip st i b :
  acct st -> used st i = b -> marked st st i (i + 1) b.
Proof.
  intros [_ Hf] Hu. split; [by destruct st|]. split; [done|]. intros j _.
  destruct (Z.leb_spec i j), (Z.ltb_spec j (i + 1)); simpl; try done.
  by replace j with i by lia.
Qed.

Lemma free_bytes_eq st st' n :
  frames st' = frames st ->
  nfree (used st') (Z.to_nat (frames st)) = nfree (used st) (Z.to_nat (frames st)) + n ->
  free_bytes st' = free_bytes st + PMM_FRAME_SIZE * n.
Proof. intros Hf Hn. unfold free_bytes. rewrite Hf, Hn. lia. Qed.

Lemma free_bytes_bounds st : wf st -> 0 <= free_bytes st <= 2^32.
Proof.
  intros Hwf. pose proof (frames_spec st Hwf) as [H _].
  pose proof (nfree_bounds (used st) (Z.to_nat (frames st))).
  unfold free_bytes, PMM_FRAME_SIZE, PMM_MAX_FRAMES in *. lia.
Qed.

(** Marking one frame and moving [g_free] by one frame, in either direction. *)
Lemma marked_one st st' i b :
  acct st -> 0 <= i < frames st -> used st i = negb b -> bits_set st st' i (i + 1) b ->
  marked st
    (set_free st' (if b then (g_free st' - PMM_FRAME_SIZE)%u64
                        else (g_free st' + PMM_FRAME_SIZE)%u64)) i (i + 1) b.
Proof.
  intros [Hwf Hf] Hi Hu Hb. destruct (bits_set_meta _ _ _ _ _ Hb) as (_ & Eb & El & Ef).
  assert (Hfr : frames st' = frames st) by (unfold frames; by rewrite Eb, El).
  assert (Hwf' : wf st') by (destruct Hwf; constructor; by rewrite ?Eb, ?El).
  destruct Hb as [E Hbits].
  assert (Hj : forall j, 0 <= j < Z.of_nat (Z.to_nat (frames st)) -> j <> i ->
      used st j = used st' j).
  { intros j Hj Hne. rewrite Hbits by lia.
    destruct (Z.leb_spec i j), (Z.ltb_spec j (i + 1)); simpl; done || lia. }
  assert (Hi' : used st' i = b).
  { rewrite Hbits by lia. by rewrite Z.leb_refl, (proj2 (Z.ltb_lt i (i + 1))) by lia. }
  split; [rewrite E; by destruct st|]. split; [|by rewrite set_free_used].
  pose proof (free_bytes_bounds st Hwf). pose proof (free_bytes_bounds st' Hwf').
  change (free_bytes (set_free st' ?f)) with (free_bytes st'). simpl. rewrite Ef, Hf.
  destruct b; simpl in Hu.
  - rewrite (free_bytes_eq st st' (-1)) in * by (try done;
      rewrite (nfree_flip (used st) (used st') _ i); try done; lia).
    unfold PMM_FRAME_SIZE in *. usimp. lia.
  - rewrite (free_bytes_eq st st' 1) in * by (try done;
      apply nfree_flip with i; try done; try lia; intros; symmetry; auto).
    unfold PMM_FRAME_SIZE in *. usimp. lia.
Qed.

Lemma marked_inv_b st st' lo hi b :
  inv st -> marked st st' lo hi b ->
  (b = false -> g_bitmap_base st = 0 -> 1 <= lo) -> inv st'.
Proof.
  intros Hi Hm Hb. destruct b; [by eapply marked_used_inv|].
  destruct Hi as [[Hwf Hf] Hn]. pose proof (marked_meta _ _ _ _ _ Hm) as (_ & Eb & El & Ef).
  constructor; [by eapply marked_acct|]. rewrite Eb, Ef. intros H0 H1.
  destruct Hm as (_ & _ & Hu). rewrite Hu by lia. specialize (Hb eq_refl H0).
  rewrite (proj2 (Z.leb_gt lo 0)) by lia. by apply Hn.
Qed.

(** ** [pmm_reserve] *)

Lemma reserve_step_spec st s k i :
  acct st -> s + k * PMM_FRAME_SIZE = frame_addr st i -> 0 <= i < frames st ->
  exists st', reserve_step s k st = Some st' /\ marked st st' i (i + 1) true.
Proof.
  intros Hinv Ha Hi. destruct (frames_spec st (acct_wf _ Hinv)) as [Hfr _].
  unfold reserve_step. rewrite Ha, <- (Z.add_0_r (frame_addr st i)).
  rewrite addr_to_index_frame by (try apply Hinv; unfold PMM_MAX_FRAMES, PMM_FRAME_SIZE in *; lia).
  rewrite test_frame_spec by lia. simpl.
  destruct (used st i) eqn:Hu; [eauto using marked_skip|].
  destruct (set_frame_spec st i) as (st' & -> & Hb); [lia|]. simpl.
  eexists. split; [done|]. by apply (marked_one st st' i true).
Qed.

(** Index of the first frame at or above [a], clipped to the bitmap. *)
Definition clip (st : pmm) (i : Z) : Z := Z.max 0 (Z.min (frames st) i).

Definition reserve_lo (st : pmm) (paddr : Z) : Z :=
  clip st ((paddr - g_bitmap_base st) / PMM_FRAME_SIZE).
Definition reserve_hi (st : pmm) (paddr size : Z) : Z :=
  clip st ((paddr + size - g_bitmap_base st + (PMM_FRAME_SIZE - 1)) / PMM_FRAME_SIZE).

Lemma reserve_bounds st paddr size :
  wf st -> 0 <= paddr -> 0 <= size -> paddr + size + PMM_FRAME_SIZE <= 2^64 ->
  let s := align_down paddr PMM_FRAME_SIZE in
  let e := align_up (paddr + size)%u64 PMM_FRAME_SIZE in
  let s := if s <? g_bitmap_base st then g_bitmap_base st else s in
  let e := if g_bitmap_limit st <? e then g_bitmap_limit st else e in
  let n := (e - s + (PMM_FRAME_SIZE - 1)) / PMM_FRAME_SIZE in
  (0 < n -> s = frame_addr st (reserve_lo st paddr) /\
            reserve_hi st paddr size = reserve_lo st paddr + n) /\
  (n <= 0 -> reserve_hi st paddr size <= reserve_lo st paddr).
Proof.
  intros Hwf Hp Hs Hov. pose proof (frames_spec st Hwf) as [Hfr Hlim]. destruct Hwf.
  cbv zeta. rewrite add64_small by flia.
  rewrite align_down_frame, align_up_frame by flia.
  unfold reserve_lo, reserve_hi, clip, frame_addr, PMM_FRAME_SIZE in *. rewrite Hlim.
  set (B := g_bitmap_base st) in *. set (F := frames st) in *.
  assert (exists b, B = b * 4096) as [b Hb] by (exists (B / 4096); zmod).
  rewrite Hb in *. clear Hb Hlim.
  split; intros Hn; repeat zcase_in Hn; repeat zcase; zmod.
Qed.

Lemma pmm_reserve_marked st paddr size :
  acct st -> 0 <= paddr -> 0 <= size -> paddr + size + PMM_FRAME_SIZE <= 2^64 ->
  exists st', pmm_reserve st paddr size = Some st' /\
    marked st st' (reserve_lo st paddr) (reserve_hi st paddr size) true.
Proof.
  intros Hinv Hp Hs Hov. unfold pmm_reserve.
  destruct (reserve_bounds st paddr size (acct_wf _ Hinv) Hp Hs Hov) as [Hpos Hneg].
  revert Hpos Hneg. cbv zeta.
  set (s := if align_down paddr PMM_FRAME_SIZE <? g_bitmap_base st then _ else _).
  set (n := (_ - s + _) / _). intros Hpos Hneg.
  destruct (Z.ltb_spec 0 n) as [Hn|Hn].
  - destruct (Hpos Hn) as [Hs' ->]. set (lo := reserve_lo st paddr) in *.
    destruct (for_range_inv (fun k t => marked st t lo (lo + k) true) (reserve_step s) 0 n st)
      as (st' & E & Hm); [lia|apply marked_empty; [apply Hinv|lia]| |by eauto].
    intros k t Hk Ht. pose proof (marked_meta _ _ _ _ _ Ht) as (_ & Eb & _ & Ef).
    destruct (reserve_step_spec t s k (lo + k)) as (t' & E & Hm).
    + eapply marked_acct; [apply Hinv|done].
    + rewrite Hs'. unfold frame_addr. rewrite Eb. lia.
    + rewrite Ef. pose proof (frames_spec st (acct_wf _ Hinv)).
      assert (reserve_hi st paddr size <= frames st) by (unfold reserve_hi, clip; lia).
      assert (0 <= lo) by (unfold lo, reserve_lo, clip; lia).
      destruct (Hpos Hn). lia.
    + exists t'. split; [done|]. replace (lo + (k + 1)) with (lo + k + 1) by lia.
      apply (marked_snoc st t); [lia|done|done].
  - rewrite for_range_empty by lia. eauto using marked_empty.
Qed.

(** ** The allocator *)

(** [p] is the first run of [count] free frames that ends below frame [hi],
    and [st'] is [st] with exactly these frames taken. *)
Definition allocated (st : pmm) (count hi p : Z) (st' : pmm) : Prop :=
  exists s, 0 <= s /\ s + count <= hi /\ p = frame_addr st s /\
    free_run st s count /\
    (forall s', 0 <= s' < s -> ~ free_run st s' count) /\
    marked st st' s (s + count) true /\
    g_free st' = g_free st - count * PMM_FRAME_SIZE.

Definition no_run (st : pmm) (count hi : Z) : Prop :=
  forall s, 0 <= s -> s + count <= hi -> ~ free_run st s count.

(** A run of free frames is counted by [g_free]. *)
Lemma marked_run st st' s count :
  inv st -> 0 <= s -> 0 <= count -> s + count <= frames st -> free_run st s count ->
  bits_set st st' s (s + count) true ->
  free_bytes st = free_bytes st' + count * PMM_FRAME_SIZE.
Proof.
  intros Hinv Hs Hc Hle Hrun Hb. destruct (bits_set_meta _ _ _ _ _ Hb) as (_ & Eb & El & _).
  destruct Hb as [_ Hb].
  assert (Hfr : frames st' = frames st) by (unfold frames; by rewrite Eb, El).
  unfold free_bytes. rewrite Hfr.
  rewrite (nfree_interval (used st) (used st') _ s (Z.to_nat count)); try flia.
  - intros i Hi. split; [apply Hrun; lia|]. rewrite Hb by lia.
    by rewrite (proj2 (Z.leb_le s i)), (proj2 (Z.ltb_lt i (s + count))) by lia.
  - intros i Hi Hout. rewrite Hb by lia.
    destruct (Z.leb_spec s i), (Z.ltb_spec i (s + count)); simpl; done || lia.
Qed.

(** Taking the run found by the scan. *)
Lemma take_run st s count :
  inv st -> 0 <= s -> 0 < count -> s + count <= frames st -> free_run st s count ->
  exists st', for_range 0 count (fun j st => set_frame st (s + j)%u64) st = Some st' /\
    marked st (set_free st' (g_free st' - (count * PMM_FRAME_SIZE)%u64)%u64) s (s + count) true /\
    (g_free st' - (count * PMM_FRAME_SIZE)%u64)%u64 = g_free st - count * PMM_FRAME_SIZE.
Proof.
  intros Hinv Hs Hc Hle Hrun. destruct (frames_spec st (inv_wf _ Hinv)) as [Hfr _].
  destruct (for_range_inv (fun k t => bits_set st t s (s + k) true)
    (fun j st => set_frame st (s + j)%u64) 0 count st) as (st' & E & Hb); [lia|apply bits_set_empty; lia| |].
  { intros j t Hj Ht. rewrite add64_small by flia.
    destruct (set_frame_spec t (s + j)) as (t' & E & Hb); [lia|].
    exists t'. split; [done|]. replace (s + (j + 1)) with (s + j + 1) by lia.
    apply (bits_set_snoc st t); [lia|done|done]. }
  exists st'. split; [done|].
  pose proof (marked_run st st' s count Hinv Hs) as Hfb.
  specialize (Hfb ltac:(lia) Hle Hrun Hb).
  pose proof (bits_set_meta _ _ _ _ _ Hb) as (_ & Eb & El & Ef).
  assert (Hwf' : wf st') by (destruct (inv_wf _ Hinv); constructor; by rewrite ?Eb, ?El).
  pose proof (free_bytes_bounds st (inv_wf _ Hinv)). pose proof (free_bytes_bounds st' Hwf').
  rewrite Ef, (inv_free _ Hinv), (mul64_small count) by flia. rewrite sub64_small by flia.
  split; [|done]. destruct Hb as [E' Hb]. split; [rewrite E'; by destruct st|].
  split; [simpl; change (free_bytes (set_free st' ?f)) with (free_bytes st'); lia|done].
Qed.

Lemma scan_frames_spec st count hi : forall n i run run_start,
  inv st -> 0 < count -> hi <= frames st -> 0 <= run <= i -> run < count ->
  i + Z.of_nat n = hi ->
  (run = 0 \/ run_start = i - run) ->
  free_run st (i - run) run ->
  (run < i -> used st (i - run - 1) = true) ->
  no_run st count i ->
  exists p st', scan_frames n st count (count * PMM_FRAME_SIZE)%u64 i run run_start = Some (p, st') /\
    ((p = 0 /\ st' = st /\ no_run st count hi) \/ allocated st count hi p st').
Proof.
  induction n as [|n IH]; intros i run rs Hinv Hc Hhi Hrun Hlt Hi Hrs Hfree Hmax Hno; simpl.
  { exists 0, st. split; [done|]. left. by replace hi with i by lia. }
  destruct (frames_spec st (inv_wf _ Hinv)) as [Hfr Hlim]. destruct (inv_wf _ Hinv).
  rewrite test_frame_spec by lia. simpl. destruct (used st i) eqn:Hu.
  - apply IH; try done; try lia.
    + intros j Hj. lia.
    + intros _. by replace (i + 1 - 0 - 1) with i by lia.
    + intros s Hs Hle Hr. destruct (decide (s + count <= i)) as [|Hn]; [by apply (Hno s)|].
      specialize (Hr i). rewrite Hr in Hu by lia. done.
  - assert (Hstart : (if run =? 0 then i else rs) = i - run) by (zcase; lia). rewrite Hstart.
    assert (Hfree' : free_run st (i - run) (run + 1)).
    { intros j Hj. destruct (decide (j = i)) as [->|]; [done|]. apply Hfree. lia. }
    destruct (Z.leb_spec count (run + 1)) as [Hge|Hlt'].
    + replace (run + 1) with count in Hfree' by lia.
      destruct (take_run st (i - run) count) as (st' & -> & Hm & Hf); try done; try lia.
      simpl. do 2 eexists. split; [done|]. right. exists (i - run).
      split_and!; try done; try lia.
      * unfold frame_addr. by rewrite add64_small by flia.
      * intros s' Hs' Hr. destruct (decide (s' + count <= i)) as [|Hn]; [by apply (Hno s'); [lia| |]|].
        specialize (Hmax ltac:(lia)). rewrite (Hr (i - run - 1)) in Hmax by lia. done.
    + apply IH; try done; try lia.
      * by replace (i + 1 - (run + 1)) with (i - run) by lia.
      * intros Hr. replace (i + 1 - (run + 1) - 1) with (i - run - 1) by lia. apply Hmax. lia.
      * intros s Hs Hle Hr. destruct (decide (s + count <= i)) as [|Hn]; [by apply (Hno s)|].
        specialize (Hmax ltac:(lia)). rewrite (Hr (i - run - 1)) in Hmax by lia. done.
Qed.

(** The early exit on [g_free] never hides a run, whatever the wrap-around of
    [need]. *)
Lemma no_run_if_short st count :
  inv st -> 0 < count < 2^64 -> g_free st < (count * PMM_FRAME_SIZE)%u64 ->
  no_run st count (frames st).
Proof.
  intros Hinv Hc Hlt s Hs Hle Hr. destruct (frames_spec st (inv_wf _ Hinv)) as [Hfr _].
  destruct (take_run st s count Hinv Hs) as (st' & _ & Hm & Hf); [lia|done|done|].
  rewrite mul64_small in * by flia.
  destruct Hm as (_ & Hm & _). pose proof (free_bytes_bounds (set_free st' 0)).
  pose proof (nfree_bounds (used st') (Z.to_nat (frames st'))).
  simpl in Hm. change (free_bytes (set_free st' ?f)) with (free_bytes st') in Hm.
  unfold free_bytes in Hm. flia.
Qed.

Lemma alloc_inv st count hi p st' : inv st -> allocated st count hi p st' -> inv st'.
Proof. intros Hinv (s & _ & _ & _ & _ & _ & Hm & _). by eapply marked_used_inv. Qed.

(** The frame at address 0 is never handed out. *)
Lemma alloc_nonzero st count hi p st' :
  inv st -> 0 < count -> hi <= frames st -> allocated st count hi p st' -> p <> 0.
Proof.
  intros Hinv Hc Hhi (s & Hs & Hle & -> & Hr & _). unfold frame_addr.
  destruct (inv_wf _ Hinv). intros H0.
  assert (g_bitmap_base st = 0) by flia. assert (s = 0) by flia. subst s.
  pose proof (inv_null _ Hinv). rewrite (Hr 0) in H1 by lia.
  specialize (H1 ltac:(lia) ltac:(lia)). done.
Qed.

(** Outcome of either allocator on a request of [count] frames below [hi]. *)
Definition alloc_result (st : pmm) (count hi p : Z) (st' : pmm) : Prop :=
  inv st' /\
  ((p = 0 /\ st' = st /\ (count = 0 \/ no_run st count hi)) \/
   (p <> 0 /\ 0 < count /\ allocated st count hi p st')).

Lemma scan_from_start st count hi :
  inv st -> 0 < count -> 0 <= hi <= frames st ->
  exists p st', scan_frames (Z.to_nat hi) st count (count * PMM_FRAME_SIZE)%u64 0 0 0
      = Some (p, st') /\ alloc_result st count hi p st'.
Proof.
  intros Hinv Hc Hhi.
  destruct (scan_frames_spec st count hi (Z.to_nat hi) 0 0 0) as (p & st' & E & Hr);
    try done; try lia; [intros j Hj; lia|intros s H1 H2; lia|].
  exists p, st'. split; [done|]. destruct Hr as [(-> & -> & Hno)|Ha].
  - split; [done|]. left. auto.
  - split; [by eapply alloc_inv|]. right. split; [|done]. eapply alloc_nonzero; [done|done| |done]; lia.
Qed.

Lemma no_run_mono st count hi hi' : hi <= hi' -> no_run st count hi' -> no_run st count hi.
Proof. intros H Hno s Hs Hle. apply Hno; lia. Qed.

Lemma alloc_early st count hi :
  inv st -> 0 <= count < 2^64 -> hi <= frames st ->
  count = 0 \/ g_free st < (count * PMM_FRAME_SIZE)%u64 -> alloc_result st count hi 0 st.
Proof.
  intros Hinv Hc Hhi Hor. split; [done|]. left. split_and!; [done|done|].
  destruct Hor as [->|Hlt]; [by left|]. destruct (decide (count = 0)) as [->|]; [by left|].
  right. apply (no_run_mono _ _ _ (frames st)); [done|]. apply no_run_if_short; [done|lia|done].
Qed.

Lemma alloc_total st count :
  inv st -> 0 <= count < 2^64 ->
  exists p st', pmm_alloc_frames st count = Some (p, st') /\
    alloc_result st count (frames st) p st'.
Proof.
  intros Hinv Hc. destruct (frames_spec st (inv_wf _ Hinv)) as [Hfr _].
  unfold pmm_alloc_frames.
  destruct (Z.eqb_spec count 0) as [->|Hne].
  { exists 0, st. split; [done|]. apply alloc_early; [done|lia|lia|by left]. }
  destruct (Z.ltb_spec (g_free st) (count * PMM_FRAME_SIZE)%u64).
  { exists 0, st. split; [done|]. apply alloc_early; [done|lia|lia|by right]. }
  apply scan_from_start; [done|lia|lia].
Qed.

(** Frames below a physical limit. *)
Definition below_idx (st : pmm) (max_phys : Z) : Z :=
  Z.max 0 (Z.min (frames st) ((max_phys - g_bitmap_base st) / PMM_FRAME_SIZE)).

Lemma alloc_below_total st count max_phys :
  inv st -> 0 <= count < 2^64 -> 0 <= max_phys < 2^64 ->
  exists p st', pmm_alloc_frames_below st count max_phys = Some (p, st') /\
    alloc_result st count (below_idx st max_phys) p st'.
Proof.
  intros Hinv Hc Hm. destruct (frames_spec st (inv_wf _ Hinv)) as [Hfr _].
  assert (Hb : 0 <= below_idx st max_phys <= frames st) by (unfold below_idx; lia).
  unfold pmm_alloc_frames_below.
  destruct (Z.eqb_spec count 0) as [->|Hne].
  { exists 0, st. split; [done|]. apply alloc_early; [done|lia|lia|by left]. }
  destruct (Z.ltb_spec (g_free st) (count * PMM_FRAME_SIZE)%u64).
  { exists 0, st. split; [done|]. apply alloc_early; [done|lia|lia|by right]. }
  set (li := if frames st <? _ then _ else _).
  replace li with (below_idx st max_phys); [by apply scan_from_start; [done|lia|lia]|].
  unfold li, below_idx. destruct (inv_wf _ Hinv).
  destruct (Z.ltb_spec (g_bitmap_base st) max_phys); [rewrite sub64_small by lia|];
    zcase; flia || (unfold PMM_FRAME_SIZE in *; zmod).
Qed.

(** ** [pmm_free_frames] *)

Lemma free_loop_spec : forall n st idx j,
  inv st -> 0 <= idx -> 0 <= j -> (g_bitmap_base st = 0 -> 1 <= idx) ->
  idx + j <= frames st ->
  exists st', free_loop n st idx j = Some st' /\
    marked st st' (idx + j) (Z.min (frames st) (idx + j + Z.of_nat n)) false.
Proof.
  induction n as [|n IH]; intros st idx j Hinv Hi Hj Hnull Hle; simpl.
  { exists st. split; [done|]. apply marked_empty; [apply Hinv|lia]. }
  destruct (frames_spec st (inv_wf _ Hinv)) as [Hfr _].
  rewrite add64_small by flia.
  destruct (Z.leb_spec (frames st) (idx + j)) as [Hge|Hlt].
  { exists st. split; [done|]. apply marked_empty; [apply Hinv|lia]. }
  rewrite test_frame_spec by lia. simpl.
  assert (Hstep : forall st1, marked st st1 (idx + j) (idx + j + 1) false ->
    exists st', free_loop n st1 idx (j + 1) = Some st' /\
      marked st st' (idx + j) (Z.min (frames st) (idx + j + Z.of_nat (S n))) false).
  { intros st1 Hm. pose proof (marked_meta _ _ _ _ _ Hm) as (_ & Eb & _ & Ef).
    destruct (IH st1 idx (j + 1)) as (st' & E & Hm'); try lia; try (rewrite ?Eb; done).
    - eapply marked_inv_b; [done|done|]. intros _ H0. specialize (Hnull H0). lia.
    - exists st'. split; [done|]. destruct Hm as (E1 & F1 & U1), Hm' as (E2 & F2 & U2).
      split; [rewrite E2, E1; by destruct st|]. split; [done|]. intros k Hk.
      rewrite U2, U1, Ef by done.
      repeat (zcase; simpl; try done; try lia). }
  destruct (used st (idx + j)) eqn:Hu.
  - destruct (clear_frame_spec st (idx + j)) as (st1 & -> & Hb); [lia|]. simpl.
    apply Hstep. apply (marked_one st st1 (idx + j) false); [apply Hinv|lia|done|done].
  - apply Hstep. apply marked_skip; [apply Hinv|done].
Qed.

Lemma free_total st paddr count :
  inv st -> 0 <= count < 2^64 -> PMM_FRAME_SIZE <= paddr ->
  exists st', pmm_free_frames st paddr count = Some st' /\ inv st' /\
    marked st st' ((paddr - g_bitmap_base st) / PMM_FRAME_SIZE)
      (if (g_bitmap_base st <=? paddr) && (paddr <? g_bitmap_limit st)
       then Z.min (frames st) ((paddr - g_bitmap_base st) / PMM_FRAME_SIZE + count)
       else (paddr - g_bitmap_base st) / PMM_FRAME_SIZE) false.
Proof.
  intros Hinv Hc Hp. unfold pmm_free_frames.
  pose proof (frames_spec st (inv_wf _ Hinv)) as [Hfr Hlim].
  destruct (inv_wf _ Hinv).
  pose proof (inv_acct _ Hinv) as Hacct.
  assert (Hskip : forall lo hi, hi <= lo -> exists st', Some st = Some st' /\ inv st' /\
    marked st st' lo hi false) by (intros lo hi H; eauto using marked_empty, inv_acct).
  destruct (Z.eqb_spec count 0) as [->|]; simpl; [apply Hskip; repeat zcase; simpl; lia|].
  destruct (Z.ltb_spec paddr (g_bitmap_base st)), (Z.leb_spec (g_bitmap_base st) paddr),
    (Z.leb_spec (g_bitmap_limit st) paddr), (Z.ltb_spec paddr (g_bitmap_limit st));
    simpl; try lia; try (apply Hskip; lia).
  set (i := (paddr - g_bitmap_base st) / PMM_FRAME_SIZE).
  assert (Hi : addr_to_index st paddr = i) by (unfold addr_to_index; by rewrite sub64_small by lia).
  assert (Hb : 0 <= i <= frames st) by (unfold i, PMM_FRAME_SIZE in *; zmod).
  assert (Hn : g_bitmap_base st = 0 -> 1 <= i) by (intros E; unfold i, PMM_FRAME_SIZE in *; rewrite E; zmod).
  rewrite Hi. destruct (free_loop_spec (Z.to_nat count) st i 0) as (st' & -> & Hm);
    try done; try lia.
  exists st'. split; [done|]. rewrite Z.add_0_r, Z2Nat.id in Hm by lia.
  split; [|done]. by eapply marked_inv_b.
Qed.

(** ** Clients of the allocator

    A client holds the runs it was given ([live]) and gives them back whole.
    The steps are the calls the rest of the kernel makes. *)

Definition client : Type := pmm * list (Z * Z).

Inductive step : client -> client -> Prop :=
  | step_alloc st live count p st' :
      0 <= count < 2^64 -> pmm_alloc_frames st count = Some (p, st') -> p <> 0 ->
      step (st, live) (st', (p, count) :: live)
  | step_alloc_below st live count max_phys p st' :
      0 <= count < 2^64 -> 0 <= max_phys < 2^64 ->
      pmm_alloc_frames_below st count max_phys = Some (p, st') -> p <> 0 ->
      step (st, live) (st', (p, count) :: live)
  | step_free st live1 p count live2 st' :
      pmm_free_frames st p count = Some st' ->
      step (st, live1 ++ (p, count) :: live2) (st', live1 ++ live2)
  | step_reserve st live paddr size st' :
      0 <= paddr -> 0 <= size -> paddr + size + PMM_FRAME_SIZE <= 2^64 ->
      pmm_reserve st paddr size = Some st' ->
      step (st, live) (st', live).

(** A live run: whole frames of the bitmap, all of them marked. *)
Definition live_ok (st : pmm) (r : Z * Z) : Prop :=
  exists s, r.1 = frame_addr st s /\ 0 <= s /\ 0 < r.2 < 2^64 /\ s + r.2 <= frames st /\
    PMM_FRAME_SIZE <= r.1 /\ forall j, s <= j < s + r.2 -> used st j = true.

Definition apart (r r' : Z * Z) : Prop :=
  r.1 + r.2 * PMM_FRAME_SIZE <= r'.1 \/ r'.1 + r'.2 * PMM_FRAME_SIZE <= r.1.

Fixpoint all_apart (l : list (Z * Z)) : Prop :=
  match l with
  | [] => True
  | r :: l' => Forall (apart r) l' /\ all_apart l'
  end.

Definition client_inv (c : client) : Prop :=
  inv c.1 /\ Forall (live_ok c.1) c.2 /\ all_apart c.2.

Lemma live_ok_marked_used st st' lo hi r :
  marked st st' lo hi true -> live_ok st r -> live_ok st' r.
Proof.
  intros Hm (s & E & Hs & Hc & Hle & Hp & Hu).
  pose proof (marked_meta _ _ _ _ _ Hm) as (_ & Eb & _ & Ef). destruct Hm as (_ & _ & Hm).
  exists s. unfold frame_addr in *. rewrite Eb, Ef. split_and!; try done; try lia.
  intros j Hj. rewrite Hm, Hu by lia. by destruct (_ && _).
Qed.

Lemma live_ok_freed st st' lo hi r s :
  marked st st' lo hi false -> live_ok st r -> r.1 = frame_addr st s ->
  (s + r.2 <= lo \/ hi <= s) -> live_ok st' r.
Proof.
  intros Hm (s' & E & Hs & Hc & Hle & Hp & Hu) E' Hor.
  pose proof (marked_meta _ _ _ _ _ Hm) as (_ & Eb & _ & Ef). destruct Hm as (_ & _ & Hm).
  assert (s' = s) as -> by (unfold frame_addr in *; flia).
  exists s. unfold frame_addr in *. rewrite Eb, Ef. split_and!; try done; try lia.
  intros j Hj. rewrite Hm, Hu by lia.
  destruct (Z.leb_spec lo j), (Z.ltb_spec j hi); simpl; done || lia.
Qed.

(** A new run is made of frames that were free, so it is apart from the live
    ones. *)
Lemma client_alloc st live count hi p st' :
  client_inv (st, live) -> p <> 0 -> 0 <= count < 2^64 -> hi <= frames st ->
  alloc_result st count hi p st' -> client_inv (st', (p, count) :: live).
Proof.
  intros (Hinv & Hlive & Hap) Hp Hc Hhi (Hinv' & [(? & _)|(_ & Hc0 & Ha)]); [done|].
  destruct Ha as (s & Hs & Hle & -> & Hrun & _ & Hm & _). simpl in *.
  pose proof (marked_meta _ _ _ _ _ Hm) as (_ & Eb & _ & Ef).
  destruct (inv_wf _ Hinv). unfold client_inv; simpl. split_and!; [done| | |done].
  - constructor; [|eapply Forall_weaken; [done|intros r Hr; by eapply live_ok_marked_used]].
    exists s. unfold frame_addr in *. simpl. rewrite Eb, Ef. split_and!; try done; try lia.
    + destruct (decide (g_bitmap_base st = 0)) as [E0|]; [|unfold PMM_FRAME_SIZE in *; zmod].
      rewrite E0 in *. flia.
    + intros j Hj. destruct Hm as (_ & _ & Hm). rewrite Hm by lia.
      by rewrite (proj2 (Z.leb_le s j)), (proj2 (Z.ltb_lt j _)) by lia.
  - eapply Forall_weaken; [done|]. intros [p' c'] (s' & E & Hs' & Hc' & Hle' & _ & Hu).
    simpl in *. unfold apart, frame_addr in *; simpl. rewrite E.
    destruct (decide (s + count <= s')); [flia|]. destruct (decide (s' + c' <= s)); [flia|].
    exfalso. assert (Hx : used st (Z.max s s') = true) by (apply Hu; lia).
    rewrite Hrun in Hx by lia. done.
Qed.

Lemma all_apart_remove l1 r l2 :
  all_apart (l1 ++ r :: l2) -> all_apart (l1 ++ l2) /\ Forall (apart r) (l1 ++ l2).
Proof.
  induction l1 as [|r1 l1 IH]; simpl; [tauto|]. intros [H1 H2].
  destruct (IH H2) as [I1 I2]. apply Forall_app in H1 as [H1a H1b].
  apply Forall_cons_1 in H1b as [H1r H1b]. split; [split; [by apply Forall_app|done]|].
  constructor; [unfold apart in *; lia|done].
Qed.

Lemma client_free st l1 p count l2 st' :
  client_inv (st, l1 ++ (p, count) :: l2) -> pmm_free_frames st p count = Some st' ->
  client_inv (st', l1 ++ l2).
Proof.
  intros (Hinv & Hlive & Hap) Hfree. simpl in *.
  apply all_apart_remove in Hap as [Hap Hne].
  apply Forall_app in Hlive as [Hl1 Hl2]. apply Forall_cons_1 in Hl2 as [Hr Hl2].
  destruct Hr as (s & E & Hs & Hc & Hle & Hp & _). simpl in *.
  destruct (free_total st p count) as (st'' & E2 & Hinv' & Hm); [done|lia|done|].
  rewrite E2 in Hfree. injection Hfree as <-. split_and!; [done| |done]. simpl.
  replace ((p - g_bitmap_base st) / PMM_FRAME_SIZE) with s in Hm
    by (rewrite E; symmetry; apply frame_addr_index).
  assert (Hall : Forall (live_ok st) (l1 ++ l2)) by (by apply Forall_app).
  rewrite Forall_forall in Hall, Hne |- *. intros [p' c'] Hin.
  specialize (Hall _ Hin). specialize (Hne _ Hin).
  pose proof Hall as (s' & E' & Hs' & Hc' & Hle' & _). simpl in *.
  eapply live_ok_freed; [done|done|done|].
  unfold apart, frame_addr in *; simpl in *. destruct (_ && _); flia.
Qed.

Lemma client_step c c' : client_inv c -> step c c' -> client_inv c'.
Proof.
  intros Hc Hs. destruct Hs as [st live count p st' H1 E Hp|st live count mx p st' H1 H2 E Hp
    |st l1 p count l2 st' E|st live a size st' H1 H2 H3 E].
  - destruct (alloc_total st count) as (p' & s' & E' & Hr); [apply Hc|done|]. simplify_eq.
    by eapply client_alloc.
  - destruct (alloc_below_total st count mx) as (p' & s' & E' & Hr); [apply Hc|done|done|].
    simplify_eq. apply (client_alloc st _ _ (below_idx st mx)); try done.
    pose proof (frames_spec st (inv_wf _ (proj1 Hc))). unfold below_idx. lia.
  - by eapply client_free.
  - destruct Hc as (Hinv & Hlive & Hap).
    destruct (pmm_reserve_marked st a size (inv_acct _ Hinv) H1 H2 H3) as (s' & E' & Hm).
    simplify_eq. split_and!; [by eapply marked_used_inv| |done].
    eapply Forall_weaken; [done|]. intros r Hr. by eapply live_ok_marked_used.
Qed.

Lemma allocated_bounds st count hi p st' :
  wf st -> hi <= frames st -> allocated st count hi p st' ->
  p mod PMM_FRAME_SIZE = 0 /\ g_bitmap_base st <= p /\
  p + count * PMM_FRAME_SIZE <= frame_addr st hi.
Proof.
  intros [] Hhi (s & Hs & Hle & -> & _). unfold frame_addr, PMM_FRAME_SIZE in *.
  split_and!; [zmod|lia|lia].
Qed.

Lemma frame_addr_end st : wf st -> frame_addr st (frames st) = g_bitmap_limit st.
Proof. intros Hwf. by destruct (frames_spec st Hwf) as [_ ->]. Qed.

(** A state with four free frames above 1 MiB. *)
Definition demo : pmm := Pmm [] 0x100000 0x104000 0x4000 0x4000 0x4000 ∅.

Lemma demo_inv : inv demo.
Proof. repeat constructor; done. Qed.

(** ** Theorems *)

(** C1. [pmm_alloc_frames] always returns, stays inside the bitmap, and keeps
    the invariant.  It returns 0 and changes nothing exactly when the request
    is empty or no run of [count] free frames exists (whatever the
    wrap-around of [count * PMM_FRAME_SIZE]); otherwise it returns the
    frame-aligned start of the lowest such run inside the bitmap, marks
    exactly these frames and lowers [g_free] by their size. *)
Theorem pmm_alloc_frames_correct st count :
  inv st -> 0 <= count < 2^64 ->
  exists p st', pmm_alloc_frames st count = Some (p, st') /\ inv st' /\
    (p = 0 -> st' = st /\ (count = 0 \/ no_run st count (frames st))) /\
    (p <> 0 -> allocated st count (frames st) p st' /\ p mod PMM_FRAME_SIZE = 0 /\
       g_bitmap_base st <= p /\ p + count * PMM_FRAME_SIZE <= g_bitmap_limit st).
Proof.
  intros Hinv Hc. destruct (alloc_total st count Hinv Hc) as (p & st' & E & Hi & Hr).
  exists p, st'. split; [done|]. split; [done|]. destruct Hr as [(-> & -> & H)|(Hp & _ & Ha)].
  - split; [by auto|done].
  - split; [done|]. intros _. pose proof (inv_wf _ Hinv) as Hwf.
    destruct (allocated_bounds _ _ _ _ _ Hwf (Z.le_refl _) Ha) as (H1 & H2 & H3).
    by rewrite frame_addr_end in H3.
Qed.

Lemma pmm_alloc_frames_correct_witness :
  exists p st', pmm_alloc_frames demo 2 = Some (p, st') /\ inv st' /\
    (p = 0 -> st' = demo /\ (2 = 0 \/ no_run demo 2 (frames demo))) /\
    (p <> 0 -> allocated demo 2 (frames demo) p st' /\ p mod PMM_FRAME_SIZE = 0 /\
       g_bitmap_base demo <= p /\ p + 2 * PMM_FRAME_SIZE <= g_bitmap_limit demo).
Proof. apply (pmm_alloc_frames_correct demo 2 demo_inv). lia. Defined.

(** [pmm_alloc_frames_below] does the same among the frames that end at or
    below [max_phys_exclusive]: the run it returns ends there, and it fails
    only when no run that ends there is free. *)
Theorem pmm_alloc_frames_below_correct st count max_phys :
  inv st -> 0 <= count < 2^64 -> 0 <= max_phys < 2^64 ->
  exists p st', pmm_alloc_frames_below st count max_phys = Some (p, st') /\ inv st' /\
    (p = 0 -> st' = st /\ (count = 0 \/
       forall s, 0 <= s -> s + count <= frames st ->
         frame_addr st (s + count) <= max_phys -> ~ free_run st s count)) /\
    (p <> 0 -> allocated st count (frames st) p st' /\
       p + count * PMM_FRAME_SIZE <= max_phys).
Proof.
  intros Hinv Hc Hm. pose proof (inv_wf _ Hinv) as Hwf. pose proof Hwf as [].
  destruct (frames_spec st Hwf) as [Hfr _].
  destruct (alloc_below_total st count max_phys Hinv Hc Hm) as (p & st' & E & Hi & Hr).
  exists p, st'. split; [done|]. split; [done|].
  destruct Hr as [(-> & -> & H)|(Hp & Hc0 & Ha)].
  - split; [|done]. intros _. split; [done|]. destruct H as [|Hno]; [by left|right].
    intros s Hs Hle Hb. apply Hno; [done|].
    unfold below_idx, frame_addr, PMM_FRAME_SIZE in *. zmod.
  - split; [done|]. intros _. assert (Hb : 0 <= below_idx st max_phys <= frames st) by (unfold below_idx; lia).
    destruct (allocated_bounds _ _ _ _ _ Hwf (proj2 Hb) Ha) as (_ & _ & H3).
    destruct Ha as (s & A1 & A2 & A3 & A4 & A5 & A6 & A7). split.
    + exists s. split_and!; try done. lia.
    + unfold frame_addr, below_idx, PMM_FRAME_SIZE in *. zmod.
Qed.

Lemma pmm_alloc_frames_below_correct_witness :
  exists p st', pmm_alloc_frames_below demo 2 0x102000 = Some (p, st') /\ inv st' /\
    (p = 0 -> st' = demo /\ (2 = 0 \/
       forall s, 0 <= s -> s + 2 <= frames demo ->
         frame_addr demo (s + 2) <= 0x102000 -> ~ free_run demo s 2)) /\
    (p <> 0 -> allocated demo 2 (frames demo) p st' /\ p + 2 * PMM_FRAME_SIZE <= 0x102000).
Proof. apply (pmm_alloc_frames_below_correct demo 2 0x102000 demo_inv); lia. Defined.

(** Freeing what was just allocated gives back the same set of free
    frames and the same amount of free memory. *)
Theorem pmm_alloc_free_roundtrip st count p st1 :
  inv st -> 0 <= count < 2^64 -> pmm_alloc_frames st count = Some (p, st1) -> p <> 0 ->
  exists st2, pmm_free_frames st1 p count = Some st2 /\ inv st2 /\
    (forall i, 0 <= i < frames st -> used st2 i = used st i) /\ g_free st2 = g_free st.
Proof.
  intros Hinv Hc E Hp. pose proof (inv_wf _ Hinv) as Hwf. pose proof Hwf as [].
  destruct (alloc_total st count Hinv Hc) as (p' & st' & E' & Hi & Hr). simplify_eq.
  destruct Hr as [(? & _)|(_ & Hc0 & Ha)]; [done|].
  destruct (allocated_bounds _ _ _ _ _ Hwf (Z.le_refl _) Ha) as (B1 & B2 & B3).
  rewrite frame_addr_end in B3 by done.
  destruct Ha as (s & A1 & A2 & A3 & A4 & _ & A6 & A7).
  pose proof (marked_meta _ _ _ _ _ A6) as (_ & Eb & El & Ef).
  assert (Hp1 : PMM_FRAME_SIZE <= p) by (clear - B1 B2 wf_base_pos0 Hp; unfold PMM_FRAME_SIZE in *; zmod).
  destruct (free_total st1 p count Hi Hc Hp1) as (st2 & E2 & I2 & M2).
  exists st2. split; [done|]. split; [done|].
  assert (Hs : (p - g_bitmap_base st) / PMM_FRAME_SIZE = s)
    by (rewrite A3; apply frame_addr_index).
  rewrite Eb, El, Ef, Hs in M2.
  rewrite (proj2 (Z.leb_le _ p)), (proj2 (Z.ltb_lt p _)) in M2 by flia. simpl in M2.
  pose proof (marked_meta _ _ _ _ _ M2) as (_ & _ & _ & Ef2).
  assert (Hu : forall i, 0 <= i < frames st -> used st2 i = used st i).
  { intros i Hi'. destruct M2 as (_ & _ & U2), A6 as (_ & _ & U1). rewrite U2, U1 by lia.
    destruct (Z.leb_spec s i), (Z.ltb_spec i (Z.min (frames st) (s + count))),
      (Z.ltb_spec i (s + count)); simpl; try done; try lia. by rewrite A4 by lia. }
  split; [done|]. rewrite (inv_free _ I2), (inv_free _ Hinv). unfold free_bytes.
  rewrite Ef2, Ef. f_equal. apply nfree_ext. intros i Hi'. apply Hu. lia.
Qed.

Lemma pmm_alloc_free_roundtrip_witness : exists p st1 st2,
  pmm_alloc_frames demo 3 = Some (p, st1) /\ pmm_free_frames st1 p 3 = Some st2 /\
  g_free st1 = 0x1000 /\ g_free st2 = g_free demo.
Proof.
  do 2 eexists.
  destruct (pmm_alloc_free_roundtrip demo 3 0x100000
    (snd (default (0, demo) (pmm_alloc_frames demo 3)))) as (st2 & E & _ & _ & Hf);
    [exact demo_inv|lia|by vm_compute|done|].
  exists st2. split; [by vm_compute|]. split; [exact E|]. split; [by vm_compute|exact Hf].
Defined.

(** After [pmm_reserve] every byte of the range that the bitmap covers
    lies in a marked frame, frames the range does not touch are as before,
    and the invariant (hence the exactness of [g_free]) is kept. *)
Theorem pmm_reserve_correct st paddr size :
  inv st -> 0 <= paddr -> 0 <= size -> paddr + size + PMM_FRAME_SIZE <= 2^64 ->
  exists st', pmm_reserve st paddr size = Some st' /\ inv st' /\
    (forall i x, 0 <= i < frames st -> paddr <= x < paddr + size ->
       frame_addr st i <= x < frame_addr st (i + 1) -> used st' i = true) /\
    (forall i, 0 <= i < frames st ->
       frame_addr st (i + 1) <= paddr \/ paddr + size <= frame_addr st i ->
       used st' i = used st i).
Proof.
  intros Hinv Hp Hs Hov.
  destruct (pmm_reserve_marked st paddr size (inv_acct _ Hinv) Hp Hs Hov) as (st' & E & Hm).
  exists st'. split; [done|]. split; [by eapply marked_used_inv|].
  destruct Hm as (_ & _ & Hu). pose proof (inv_wf _ Hinv) as [].
  unfold reserve_lo, reserve_hi, clip, frame_addr, PMM_FRAME_SIZE in *. split.
  - intros i x Hi Hx Hf. rewrite Hu by lia.
    rewrite (proj2 (Z.leb_le _ i)), (proj2 (Z.ltb_lt i _)) by zmod. done.
  - intros i Hi Hor. rewrite Hu by lia.
    destruct (Z.leb_spec (Z.max 0 (Z.min (frames st) ((paddr - g_bitmap_base st) / 4096))) i),
      (Z.ltb_spec i (Z.max 0 (Z.min (frames st)
        ((paddr + size - g_bitmap_base st + (4096 - 1)) / 4096)))); simpl; try done.
    exfalso. zmod.
Qed.

Lemma pmm_reserve_correct_witness :
  exists st', pmm_reserve demo 0x100800 0x1000 = Some st' /\ inv st' /\
    (forall i x, 0 <= i < frames demo -> 0x100800 <= x < 0x100800 + 0x1000 ->
       frame_addr demo i <= x < frame_addr demo (i + 1) -> used st' i = true) /\
    (forall i, 0 <= i < frames demo ->
       frame_addr demo (i + 1) <= 0x100800 \/ 0x100800 + 0x1000 <= frame_addr demo i ->
       used st' i = used demo i).
Proof. apply (pmm_reserve_correct demo 0x100800 0x1000 demo_inv); flia. Defined.

(** C2. Whatever sequence of allocations, frees of held runs and reservations
    the kernel performs, the runs it holds are pairwise apart, each consists
    of marked frames inside the bitmap and none contains address 0. *)
Theorem pmm_clients_safe st c :
  inv st -> rtc step (st, []) c ->
  inv c.1 /\ Forall (live_ok c.1) c.2 /\ all_apart c.2.
Proof.
  intros Hinv Hsteps. assert (H0 : client_inv (st, [])) by (by split_and!).
  revert H0. induction Hsteps as [c|c c1 c2 Hs _ IH]; [done|].
  intros Hc. apply IH. by eapply client_step.
Qed.

Lemma pmm_clients_safe_witness : exists c,
  rtc step (demo, []) c /\ length c.2 = 2%nat /\ all_apart c.2.
Proof.
  pose (r1 := default (0, demo) (pmm_alloc_frames demo 1)).
  pose (r2 := default (0, demo) (pmm_alloc_frames (snd r1) 2)).
  exists (snd r2, [(fst r2, 2); (fst r1, 1)]).
  assert (Hr : rtc step (demo, []) (snd r2, [(fst r2, 2); (fst r1, 1)])).
  { eapply rtc_l; [apply (step_alloc demo [] 1 (fst r1) (snd r1)); [lia|by vm_compute|by vm_compute]|].
    eapply rtc_l; [|apply rtc_refl].
    apply (step_alloc (snd r1) _ 2 (fst r2) (snd r2)); [lia|by vm_compute|by vm_compute]. }
  split; [exact Hr|]. split; [done|].
  destruct (pmm_clients_safe demo _ demo_inv Hr) as (_ & _ & H). exact H.
Defined.

End PmmSpec.
