(* ===== verification/PmmInit.v ===== *)
(** * Initialisation of the physical memory manager

    [parse_mb2] ends and yields frame-aligned regions below 4 GiB whenever the
    boot information is a list of non-empty tags; [pmm_init] then establishes
    the invariant of PmmSpec and frees exactly the frames of the regions that
    lie above 1 MiB. *)

From S2P Require Import Prelude Mb2 Pmm PmmSpec.

Module PmmInit.

Import Mb2 Pmm PmmSpec.

(** ** Regions *)

(** A region of whole frames below 4 GiB. *)
Definition region_ok (r : region) : Prop :=
  0 <= base r /\ base r mod PMM_FRAME_SIZE = 0 /\
  0 < len r /\ len r mod PMM_FRAME_SIZE = 0 /\ base r + len r <= cap.

Definition in_region (r : region) (a : Z) : bool :=
  (base r <=? a) && (a <? base r + len r).

Lemma in_region_spec r a : in_region r a = true <-> base r <= a < base r + len r.
Proof. unfold in_region. rewrite andb_true_iff, Z.leb_le, Z.ltb_lt. lia. Qed.

Lemma add_region_ok rs b l :
  Forall region_ok rs -> 0 <= b -> b mod PMM_FRAME_SIZE = 0 -> 0 <= l ->
  l mod PMM_FRAME_SIZE = 0 -> b + l < 2^64 -> Forall region_ok (add_region rs b l).
Proof.
  intros Hrs Hb Hba Hl Hla Hs. unfold add_region.
  destruct (_ || _); [done|]. destruct (Z.leb_spec cap b); [done|]. rewrite add64_small by lia.
  assert (Hadd : forall e, b < e -> e <= cap -> e mod PMM_FRAME_SIZE = 0 ->
    Forall region_ok (rs ++ [Region b (e - b)%u64])).
  { intros e H1 H2 H3. apply Forall_app. split; [done|]. constructor; [|done].
    unfold region_ok, cap, PMM_FRAME_SIZE in *; simpl. rewrite sub64_small by lia. zmod. }
  unfold PMM_FRAME_SIZE, cap in *.
  repeat (zcase; try done); apply Hadd; zmod.
Qed.

Lemma add_usable_ok rs start stop :
  Forall region_ok rs -> 0 <= stop < 2^64 -> Forall region_ok (add_usable rs start stop).
Proof.
  intros Hrs He. unfold add_usable. rewrite align_down_frame by done.
  assert (Hs : align_up start PMM_FRAME_SIZE
      = u64 (start + (PMM_FRAME_SIZE - 1)) / PMM_FRAME_SIZE * PMM_FRAME_SIZE)
    by (by apply (align_up_pow2 start 12)).
  rewrite Hs. pose proof (u64_range (start + (PMM_FRAME_SIZE - 1))).
  set (x := u64 _) in *. unfold PMM_FRAME_SIZE in *.
  zcase; [rewrite sub64_small by zmod|]; apply add_region_ok; unfold PMM_FRAME_SIZE; try done; zmod.
Qed.

Lemma efi_regions_ok m t rs :
  Forall region_ok rs ->
  exists rs', efi_regions m t rs = Some rs' /\ Forall region_ok rs'.
Proof.
  intros Hrs. unfold efi_regions.
  assert (0 <= mb2_efi_desc_count m t).
  { unfold mb2_efi_desc_count. zcase; [done|]. apply Z.div_pos; [apply u32_range|].
    pose proof (rd32_range m (t + 8)). unfold efi_desc_size in *. lia. }
  apply (for_range_inv (fun _ l => Forall region_ok l)); [done|done|].
  intros j l Hj Hl. unfold efi_step. eexists. split; [done|].
  zcase; [|done]. apply add_usable_ok; [done|apply u64_range].
Qed.

Lemma mmap_entries_ok m t esz : forall fuel offset rs,
  Forall region_ok rs -> 1 <= esz -> 0 <= offset <= tag_size m t ->
  tag_size m t + esz < 2^32 -> tag_size m t - offset < Z.of_nat fuel ->
  exists rs', mmap_entries fuel m t esz offset rs = Some rs' /\ Forall region_ok rs'.
Proof.
  induction fuel as [|fuel IH]; intros offset rs Hrs H1 H0 Hsz Hf; simpl; [lia|].
  rewrite u32_small by lia.
  destruct (Z.leb_spec (offset + esz) (tag_size m t)) as [Hle|]; [|eauto].
  apply IH; try done; try lia.
  zcase; [|done]. apply add_usable_ok; [done|apply u64_range].
Qed.

(** Well-formed boot information: a list of non-empty tags; every memory-map
    tag holds its header and says how long its entries are; basic memory
    information counts whole frames. *)
Record mb2_ok (m : mem) (info : Z) : Prop := Mb2Ok {
  ok_addr : 0 < info;
  ok_adv : tags_advance m (info + rd32 m info) (info + 8);
  ok_mmap t : visited m (info + rd32 m info) (info + 8) t -> t < info + rd32 m info ->
    tag_type m t = MB2_TAG_MMAP ->
    16 <= tag_size m t <= rd32 m info /\ 1 <= mmap_entry_size m t /\
    tag_size m t + mmap_entry_size m t < 2^32;
  ok_basic t : visited m (info + rd32 m info) (info + 8) t -> t < info + rd32 m info ->
    tag_type m t = MB2_TAG_BASIC_MEMINFO -> mem_upper m t mod 4 = 0
}.

Lemma mmap_tags_ok m info efuel : forall fuel t rs saw,
  mb2_ok m info -> visited m (info + rd32 m info) (info + 8) t ->
  Forall region_ok rs -> (1 <= fuel)%nat ->
  info + rd32 m info - t + 8 <= 8 * Z.of_nat fuel -> rd32 m info < Z.of_nat efuel ->
  exists rs' saw', mmap_tags fuel efuel m (info + rd32 m info) t rs saw = Some (rs', saw') /\
    Forall region_ok rs'.
Proof.
  induction fuel as [|fuel IH]; intros t rs saw Hok Hv Hrs Hf1 Hf He; simpl; [lia|].
  set (stop := info + rd32 m info) in *.
  destruct (Z.ltb_spec t stop) as [Hlt|]; simpl; [|eauto].
  destruct (Z.eqb_spec (tag_type m t) MB2_TAG_END) as [|Hend]; [eauto|].
  pose proof (visited_aligned _ _ _ _ (ok_adv _ _ Hok) Hv) as [Ht0 Ht8].
  pose proof (ok_adv _ _ Hok) as (_ & _ & Hstop & Hadv).
  destruct (mb2_next_tag_advances m t) as [Hn _]; [unfold stop in *; lia|done|by apply Hadv|].
  assert (Hnext : forall rs' saw', Forall region_ok rs' ->
    exists rs'' saw'', mmap_tags fuel efuel m stop (mb2_next_tag m t) rs' saw'
      = Some (rs'', saw'') /\ Forall region_ok rs'').
  { intros rs' saw' Hrs'. apply IH; try done; [by constructor|lia|lia]. }
  destruct (Z.eqb_spec (tag_type m t) MB2_TAG_MMAP) as [Hty|]; [|by apply Hnext].
  destruct (ok_mmap _ _ Hok t Hv Hlt Hty) as ([Hs1 Hs2] & He1 & He2).
  destruct (mmap_entries_ok m t (mmap_entry_size m t) efuel 16 rs)
    as (rs' & -> & Hrs'); [done|done|lia|done|lia|]. simpl. by apply Hnext.
Qed.

Lemma basic_region_ok m t rs :
  Forall region_ok rs -> mem_upper m t mod 4 = 0 -> Forall region_ok (basic_region m t rs).
Proof.
  intros Hrs H4. unfold basic_region. pose proof (rd32_range m (t + 12)).
  zcase; [|done]. unfold mem_upper in *.
  apply add_region_ok; unfold PMM_FRAME_SIZE; try done; zmod.
Qed.

(** [parse_mb2] ends, with usable regions. *)
Lemma parse_mb2_total fuel m info from_uefi st :
  mb2_ok m info -> rd32 m info < Z.of_nat fuel -> Forall region_ok (g_regions st) ->
  exists rs, parse_mb2 fuel m info from_uefi st
      = Some (set_regions st rs (total_len rs) (total_len rs)) /\ Forall region_ok rs.
Proof.
  intros Hok Hf Hst. unfold parse_mb2.
  destruct (Z.eqb_spec info 0) as [E|_]; [destruct Hok; lia|].
  pose proof (rd32_range m info).
  assert (Hfind : forall ty, exists r,
    find_tag fuel m (info + rd32 m info) ty (info + 8) = Some r).
  { intros ty. eapply (find_tag_terminates _ _ _ (info + 8)); [apply Hok|constructor|lia|lia]. }
  assert (Hefi : exists r, (if from_uefi
    then find_tag fuel m (info + rd32 m info) MB2_TAG_EFI_MMAP (info + 8)
    else Some None) = Some r) by (destruct from_uefi; [apply Hfind|eauto]).
  destruct Hefi as [[t|] ->]; simpl.
  { destruct (efi_regions_ok m t (g_regions st) Hst) as (rs & -> & Hrs). simpl. eauto. }
  destruct (mmap_tags_ok m info fuel fuel (info + 8) (g_regions st) false)
    as (rs & saw & Em & Hrs); [done|constructor|done|lia|lia|done|].
  rewrite Em. simpl.
  destruct saw; simpl; [eauto|].
  destruct (Hfind MB2_TAG_BASIC_MEMINFO) as [[t|] E]; rewrite E; simpl; [|eauto].
  destruct (find_tag_Some _ _ _ (info + 8) _ _ _ (visited_first _ _ _) E) as (Hv & Hlt & Hty).
  eexists. split; [done|]. apply basic_region_ok; [done|]. by apply (ok_basic _ _ Hok).
Qed.

(** ** The bounds *)

Lemma bounds_fold rs : forall b,
  Forall region_ok rs -> 0 <= b.2 <= cap -> cap < b.1 \/ (0 <= b.1 /\ b.1 < b.2) ->
  b.2 mod PMM_FRAME_SIZE = 0 -> (b.1 <= cap -> b.1 mod PMM_FRAME_SIZE = 0) ->
  let b' := fold_left bounds_step rs b in
  b'.1 <= b.1 /\ b.2 <= b'.2 <= cap /\ b'.2 mod PMM_FRAME_SIZE = 0 /\
  (b'.1 <= cap -> 0 <= b'.1 < b'.2 /\ b'.1 mod PMM_FRAME_SIZE = 0) /\
  Forall (fun r => b'.1 <= base r /\ base r + len r <= b'.2) rs.
Proof.
  induction rs as [|r rs IH]; intros b Hrs Hb2 Hb1 Ha2 Ha1; simpl.
  { split_and!; try lia; done. }
  apply Forall_cons_1 in Hrs as [(R1 & R2 & R3 & R4 & R5) Hrs].
  assert (Hstep : bounds_step b r
      = (Z.min (base r) b.1, Z.max b.2 (base r + len r))).
  { unfold bounds_step. unfold cap in *. rewrite add64_small by lia.
    rewrite (proj2 (Z.ltb_ge _ (base r + len r))) by lia.
    repeat zcase; try lia; f_equal; lia. }
  rewrite Hstep. unfold PMM_FRAME_SIZE, cap in *.
  destruct (IH (Z.min (base r) b.1, Z.max b.2 (base r + len r)))
    as (B1 & B2 & B3 & B4 & B5); try done; simpl; try lia.
  - destruct (Z.max_spec b.2 (base r + len r)) as [[_ ->]|[_ ->]]; [zmod|done].
  - destruct (Z.min_spec (base r) b.1) as [[_ ->]|[_ ->]]; done.
  - simpl in *. split_and!; try done; try lia. constructor; [lia|done].
Qed.

(** All frames of a bounded range, or of an empty one. *)
Lemma build_bitmap_bounds_total st :
  Forall region_ok (g_regions st) ->
  exists st', build_bitmap_bounds st = Some st' /\ wf st' /\
    g_regions st' = g_regions st /\
    Forall (fun r => g_bitmap_base st' <= base r /\ base r + len r <= g_bitmap_limit st')
      (g_regions st).
Proof.
  intros Hrs. unfold build_bitmap_bounds, g_region_count.
  destruct (g_regions st) as [|r rs] eqn:Er; simpl length.
  { eexists. split; [done|]. by repeat constructor. }
  destruct (Z.eqb_spec (Z.of_nat (S (length rs))) 0); [lia|].
  pose proof (bounds_fold (r :: rs) (2^64 - 1, 0) Hrs) as H. cbv zeta in H.
  destruct H as (B1 & B2 & B3 & B4 & B5); cbn [fst snd] in *;
    try (unfold cap, PMM_FRAME_SIZE; lia); [done|].
  set (b := fold_left bounds_step (r :: rs) (2^64 - 1, 0)) in *.
  pose proof (Forall_inv B5) as [C1 C2]. apply Forall_cons_1 in Hrs as [(R1 & R2 & R3 & R4 & R5) Hrs].
  destruct B4 as [B4 B6]; [lia|].
  destruct (Z.leb_spec b.2 b.1); [lia|].
  rewrite (sub64_small b.2 b.1) by (unfold cap in *; lia).
  destruct (Z.ltb_spec (PMM_MAX_FRAMES * PMM_FRAME_SIZE) (b.2 - b.1)) as [Hbig|_].
  { unfold cap in *. flia. }
  rewrite (sub64_small b.2 b.1) by (unfold cap in *; lia).
  set (st1 := set_bounds st b.1 b.2).
  destruct (for_range_inv (fun _ t => t = set_bitmap st1 (g_bitmap t))
    (fun i st => bm_set st i 0) 0 (((b.2 - b.1) / PMM_FRAME_SIZE + 7) / 8) st1)
    as (st' & -> & E).
  - unfold PMM_FRAME_SIZE. zmod.
  - done.
  - intros j t Hj Ht. unfold bm_set, in_storage. unfold cap, PMM_FRAME_SIZE, PMM_MAX_FRAMES in *.
    rewrite (proj2 (Z.leb_le 0 j)), (proj2 (Z.ltb_lt j _)) by zmod. simpl.
    eexists. split; [done|]. by rewrite Ht.
  - exists st'. split; [done|]. rewrite E. unfold cap, PMM_FRAME_SIZE in *.
    split; [constructor; simpl; unfold PMM_FRAME_SIZE; lia || done|]. split; [done|]. done.
Qed.

(** ** Marking *)

Lemma mark_range_aligned st a size b :
  wf st -> g_bitmap_base st <= a -> a mod PMM_FRAME_SIZE = 0 ->
  0 < size -> size mod PMM_FRAME_SIZE = 0 -> a + size <= g_bitmap_limit st ->
  exists st', mark_range st a size b = Some st' /\
    bits_set st st' ((a - g_bitmap_base st) / PMM_FRAME_SIZE)
      ((a + size - g_bitmap_base st) / PMM_FRAME_SIZE) b.
Proof.
  intros Hwf Ha Hal Hs Hsl Hle. pose proof (frames_spec st Hwf) as [Hfr Hlim].
  destruct Hwf. unfold mark_range. destruct (Z.eqb_spec size 0); [lia|].
  rewrite add64_small by flia. rewrite align_down_frame, align_up_frame by flia.
  replace (a / PMM_FRAME_SIZE * PMM_FRAME_SIZE) with a by (unfold PMM_FRAME_SIZE in *; zmod).
  replace ((a + size + (PMM_FRAME_SIZE - 1)) / PMM_FRAME_SIZE * PMM_FRAME_SIZE)
    with (a + size) by (unfold PMM_FRAME_SIZE in *; zmod).
  rewrite (proj2 (Z.ltb_ge a (g_bitmap_base st))), (proj2 (Z.ltb_ge _ (a + size))),
    (proj2 (Z.leb_gt (a + size) a)) by lia.
  unfold addr_to_index. rewrite !sub64_small by lia.
  apply mark_loop_spec; [unfold PMM_FRAME_SIZE in *; zmod..|].
  assert ((a + size - g_bitmap_base st) / PMM_FRAME_SIZE <= frames st)
    by (unfold PMM_FRAME_SIZE in *; zmod).
  assert (0 <= (a - g_bitmap_base st) / PMM_FRAME_SIZE) by (unfold PMM_FRAME_SIZE in *; zmod).
  intros i t Hi. destruct b; [apply set_frame_spec|apply clear_frame_spec]; lia.
Qed.

(** No two regions share an address. *)
Fixpoint disjoint_regions (rs : list region) : Prop :=
  match rs with
  | [] => True
  | r :: rs' =>
      Forall (fun r' => base r + len r <= base r' \/ base r' + len r' <= base r) rs' /\
      disjoint_regions rs'
  end.

Definition fits (st : pmm) (r : region) : Prop :=
  g_bitmap_base st <= base r /\ base r + len r <= g_bitmap_limit st.

Definition in_regions (rs : list region) (a : Z) : bool := existsb (fun r => in_region r a) rs.

(** Frames of a region. *)
Lemma region_frame st r i :
  wf st -> region_ok r -> fits st r -> 0 <= i ->
  in_region r (frame_addr st i)
  = ((base r - g_bitmap_base st) / PMM_FRAME_SIZE <=? i) &&
    (i <? (base r + len r - g_bitmap_base st) / PMM_FRAME_SIZE).
Proof.
  intros [] (R1 & R2 & R3 & R4 & R5) [F1 F2] Hi.
  unfold in_region, frame_addr, PMM_FRAME_SIZE in *. f_equal.
  - destruct (Z.leb_spec (base r) (g_bitmap_base st + i * 4096)),
      (Z.leb_spec ((base r - g_bitmap_base st) / 4096) i); try done; zmod.
  - destruct (Z.ltb_spec (g_bitmap_base st + i * 4096) (base r + len r)),
      (Z.ltb_spec i ((base r + len r - g_bitmap_base st) / 4096)); try done; zmod.
Qed.

(** Freeing one region whose frames are all used. *)
Lemma init_step_spec st r n :
  wf st -> region_ok r -> fits st r -> n = free_bytes st ->
  (forall i, 0 <= i < frames st -> in_region r (frame_addr st i) = true -> used st i = true) ->
  exists st', init_step r (Some (st, n)) = Some (st', free_bytes st') /\
    st' = set_bitmap st (g_bitmap st') /\
    forall i, 0 <= i -> used st' i = negb (in_region r (frame_addr st i)) && used st i.
Proof.
  intros Hwf Hr Hfit Hn Hused. unfold init_step. simpl.
  pose proof Hr as (R1 & R2 & R3 & R4 & R5). pose proof Hfit as [F1 F2].
  pose proof (frames_spec st Hwf) as [Hfr Hlim].
  rewrite (add64_small (base r)) by (unfold cap in *; lia).
  rewrite (proj2 (Z.ltb_ge (base r) _)), (proj2 (Z.ltb_ge _ (base r + len r))),
    (proj2 (Z.ltb_lt (base r) _)), sub64_small by (unfold cap in *; lia).
  replace (base r + len r - base r) with (len r) by lia.
  destruct (mark_range_aligned st (base r) (len r) false) as (st' & -> & E & Hb); try done.
  simpl. exists st'.
  assert (Hu : forall i, 0 <= i -> used st' i
      = negb (in_region r (frame_addr st i)) && used st i).
  { intros i Hi. rewrite Hb, region_frame by done. by destruct (_ && _). }
  split; [|done]. f_equal. f_equal.
  set (lo := (base r - g_bitmap_base st) / PMM_FRAME_SIZE) in *.
  assert (Hcnt : nfree (used st') (Z.to_nat (frames st))
      = nfree (used st) (Z.to_nat (frames st)) + Z.of_nat (Z.to_nat (len r / PMM_FRAME_SIZE))).
  { assert (Hhi : (base r + len r - g_bitmap_base st) / PMM_FRAME_SIZE
        = lo + len r / PMM_FRAME_SIZE) by (destruct Hwf; unfold lo, PMM_FRAME_SIZE in *; zmod).
    assert (Hb2 : 0 <= lo /\ lo + len r / PMM_FRAME_SIZE <= frames st /\ 0 < len r / PMM_FRAME_SIZE)
      by (destruct Hwf; unfold lo, PMM_FRAME_SIZE in *; zmod).
    apply nfree_interval with lo; try lia.
    - intros i Hi. rewrite Hu by lia.
      assert (Hin : in_region r (frame_addr st i) = true).
      { rewrite region_frame by (done || lia). fold lo. rewrite Hhi.
        by rewrite (proj2 (Z.leb_le _ _)), (proj2 (Z.ltb_lt _ _)) by lia. }
      rewrite Hin. split; [done|]. apply Hused; [lia|done].
    - intros i Hi Hout. rewrite Hu by lia. rewrite region_frame by (done || lia). fold lo.
      rewrite Hhi. destruct (Z.leb_spec lo i), (Z.ltb_spec i (lo + len r / PMM_FRAME_SIZE));
        simpl; done || lia. }
  assert (Hfb : free_bytes st' = free_bytes st + len r).
  { rewrite (free_bytes_eq st st' (len r / PMM_FRAME_SIZE)).
    - unfold PMM_FRAME_SIZE in *. zmod.
    - by rewrite E.
    - rewrite Hcnt. unfold PMM_FRAME_SIZE in *. zmod. }
  rewrite Hfb, Hn. pose proof (free_bytes_bounds st Hwf).
  by rewrite add64_small by (unfold cap in *; lia).
Qed.

Lemma mark_usable_spec rs : forall st,
  wf st -> Forall region_ok rs -> Forall (fits st) rs -> disjoint_regions rs ->
  (forall i, 0 <= i < frames st -> in_regions rs (frame_addr st i) = true -> used st i = true) ->
  exists st', fold_left (fun acc r => init_step r acc) rs (Some (st, free_bytes st))
      = Some (st', free_bytes st') /\
    st' = set_bitmap st (g_bitmap st') /\
    forall i, 0 <= i -> used st' i = negb (in_regions rs (frame_addr st i)) && used st i.
Proof.
  induction rs as [|r rs IH]; intros st Hwf Hok Hfit Hdis Hused; cbn [fold_left].
  { exists st. split; [done|]. split; [by destruct st|]. done. }
  apply Forall_cons_1 in Hok as [Hr Hok], Hfit as [Hf Hfit]. destruct Hdis as [Hd Hdis].
  destruct (init_step_spec st r (free_bytes st)) as (st1 & -> & E1 & U1); try done.
  { intros i Hi Hin. apply Hused; [done|]. unfold in_regions. simpl. by rewrite Hin. }
  assert (Hmeta : g_bitmap_base st1 = g_bitmap_base st /\ g_bitmap_limit st1 = g_bitmap_limit st)
    by (by rewrite E1). destruct Hmeta as [Eb El].
  assert (Haddr : forall i, frame_addr st1 i = frame_addr st i) by (intros; unfold frame_addr; by rewrite Eb).
  destruct (IH st1) as (st' & -> & E' & U'); try done.
  - destruct Hwf. constructor; by rewrite ?Eb, ?El.
  - eapply Forall_weaken; [exact Hfit|]. intros x. unfold fits. rewrite Eb, El. tauto.
  - intros i Hi Hin. rewrite U1 by lia. rewrite Haddr in Hin.
    assert (Hi' : 0 <= i < frames st) by (revert Hi; unfold frames; by rewrite Eb, El).
    rewrite (Hused i) by (try done; unfold in_regions in *; simpl; by rewrite Hin, orb_true_r).
    unfold in_regions in Hin. apply existsb_exists in Hin as (r' & Hr' & Hin).
    rewrite Forall_forall in Hd. specialize (Hd r' Hr').
    apply in_region_spec in Hin. rewrite andb_true_r.
    destruct (in_region r (frame_addr st i)) eqn:E; [|done].
    apply in_region_spec in E. lia.
  - exists st'. split; [done|]. split; [rewrite E', E1; by destruct st|].
    intros i Hi. rewrite U', U1, Haddr by done. unfold in_regions. simpl.
    by rewrite negb_orb, andb_assoc, (andb_comm (negb (existsb _ _))).
Qed.

(** Everything marked, then the regions freed: the state before the two
    reservations of [pmm_init]. *)
Lemma mark_all_total st :
  wf st ->
  exists st', mark_range st (g_bitmap_base st) (g_bitmap_limit st - g_bitmap_base st)%u64 true
      = Some st' /\ st' = set_bitmap st (g_bitmap st') /\
    forall i, 0 <= i < frames st -> used st' i = true.
Proof.
  intros Hwf. pose proof (frames_spec st Hwf) as [Hfr Hlim]. pose proof Hwf as [W1 W2 W3 W4].
  rewrite sub64_small by lia.
  destruct (decide (g_bitmap_limit st = g_bitmap_base st)) as [E|Hne].
  { exists st. unfold mark_range. rewrite E, Z.sub_diag. split; [done|].
    split; [by destruct st|]. intros i Hi. flia. }
  destruct (mark_range_aligned st (g_bitmap_base st) (g_bitmap_limit st - g_bitmap_base st) true)
    as (st' & -> & E & Hb); [done|lia|done|lia|unfold PMM_FRAME_SIZE in *; zmod|lia|].
  exists st'. split; [done|]. split; [done|]. intros i Hi. rewrite Hb by lia.
  rewrite Z.sub_diag, Zdiv_0_l.
  replace (g_bitmap_base st + _ - _) with (frames st * PMM_FRAME_SIZE) by lia.
  rewrite Z.div_mul by done.
  by rewrite (proj2 (Z.leb_le 0 i)), (proj2 (Z.ltb_lt i _)) by lia.
Qed.

(** The frames [pmm_init] leaves free. *)
Definition init_free (st : pmm) (rs : list region) (i : Z) : bool :=
  in_regions rs (frame_addr st i) && (0x100000 <=? frame_addr st i) && negb (i =? 0).

Lemma reserve_two st :
  acct st ->
  exists st1 st2, pmm_reserve st (g_bitmap_base st) PMM_FRAME_SIZE = Some st1 /\
    pmm_reserve st1 0 0x100000 = Some st2 /\ inv st2 /\
    g_bitmap_base st2 = g_bitmap_base st /\ g_bitmap_limit st2 = g_bitmap_limit st /\
    g_regions st2 = g_regions st /\
    forall i, 0 <= i < frames st ->
      used st2 i = (i =? 0) || negb (0x100000 <=? frame_addr st i) || used st i.
Proof.
  intros Ha. pose proof (acct_wf _ Ha) as Hwf. pose proof (frames_spec st Hwf) as [Hfr Hlim].
  pose proof Hwf as [W1 W2 W3 W4].
  destruct (pmm_reserve_marked st (g_bitmap_base st) PMM_FRAME_SIZE)
    as (st1 & E1 & M1); [done|done|done|flia|].
  assert (Ha1 : acct st1) by (by eapply marked_acct).
  destruct (pmm_reserve_marked st1 0 0x100000) as (st2 & E2 & M2); [done|done|done|flia|].
  pose proof (marked_meta _ _ _ _ _ M1) as (R1 & B1 & L1 & F1).
  pose proof (marked_meta _ _ _ _ _ M2) as (R2 & B2 & L2 & F2).
  assert (Hu : forall i, 0 <= i < frames st ->
      used st2 i = (i =? 0) || negb (0x100000 <=? frame_addr st i) || used st i).
  { intros i Hi. destruct M1 as (_ & _ & U1), M2 as (_ & _ & U2). rewrite U2, U1 by lia.
    unfold reserve_lo, reserve_hi, clip, frame_addr. rewrite B1, F1.
    unfold PMM_FRAME_SIZE in *. destruct (used st i); [rewrite orb_true_r; by repeat case_match|].
    repeat (zcase; simpl); try done; exfalso; zmod. }
  exists st1, st2. split_and!; try done; try congruence.
  constructor; [by eapply marked_acct; [eapply acct_wf|]|].
  intros _ H0. rewrite Hu; [done|]. rewrite F2, F1 in H0. lia.
Qed.

Lemma pmm_init_total fuel m info from_uefi bss rs :
  parse_mb2 fuel m info from_uefi (Pmm [] 0 0 0 0 0 bss)
    = Some (set_regions (Pmm [] 0 0 0 0 0 bss) rs (total_len rs) (total_len rs)) ->
  Forall region_ok rs -> disjoint_regions rs ->
  exists st, pmm_init fuel m info from_uefi bss = Some st /\ inv st /\ g_regions st = rs /\
    Forall (fits st) rs /\
    forall i, 0 <= i < frames st -> used st i = negb (init_free st rs i).
Proof.
  intros Hp Hok Hdis. unfold pmm_init. rewrite Hp. simpl.
  set (s0 := set_regions _ _ _ _).
  destruct (build_bitmap_bounds_total s0) as (s1 & -> & Hwf & R1 & Hfit); [done|]. simpl.
  destruct (mark_all_total s1 Hwf) as (s2 & -> & E2 & U2). simpl.
  assert (Hm2 : wf s2 /\ frames s2 = frames s1 /\ g_regions s2 = rs /\ Forall (fits s2) rs /\
    g_bitmap_base s2 = g_bitmap_base s1).
  { rewrite E2. split_and!; try done. by destruct Hwf. }
  destruct Hm2 as (W2 & F2 & R2 & Fit2 & B2).
  assert (Hz : 0 = free_bytes s2).
  { unfold free_bytes. rewrite nfree_all_used; [flia|]. intros i Hi. apply U2. rewrite <- F2. lia. }
  unfold mark_usable. rewrite R2.
  replace (Some (s2, 0)) with (Some (s2, free_bytes s2)) by (by rewrite <- Hz).
  destruct (mark_usable_spec rs s2) as (s3 & -> & E3 & U3); try done.
  { intros i Hi _. apply U2. lia. }
  simpl. set (s4 := set_free s3 (free_bytes s3)).
  assert (A4 : acct s4).
  { constructor; [|done]. unfold s4. rewrite E3. by destruct W2. }
  destruct (reserve_two s4 A4) as (s5 & s6 & E5 & E6 & I6 & B6 & L6 & R6 & U6).
  change (g_bitmap_base s3) with (g_bitmap_base s4). rewrite E5. bind. rewrite E6.
  assert (B4 : g_bitmap_base s4 = g_bitmap_base s2 /\ g_bitmap_limit s4 = g_bitmap_limit s2)
    by (unfold s4; by rewrite E3). destruct B4 as [B4 L4].
  exists s6. split_and!; try done.
  - rewrite R6. unfold s4. by rewrite E3.
  - eapply Forall_weaken; [exact Fit2|]. intros r. unfold fits. rewrite B6, L6, B4, L4. tauto.
  - assert (F6 : frames s6 = frames s4) by (unfold frames; by rewrite B6, L6).
    assert (F4 : frames s4 = frames s1) by (unfold frames in *; by rewrite B4, L4).
    intros i Hi. rewrite U6 by lia. unfold init_free, frame_addr in *. rewrite B6.
    change (used s4 i) with (used s3 i). rewrite U3, U2 by lia. rewrite B4.
    rewrite !negb_andb, negb_involutive, andb_true_r.
    by destruct (i =? 0), (in_regions _ _), (1048576 <=? _).
Qed.

(** Boot information at 0x1000 with one memory map: 636 KiB of low memory and
    512 KiB above 1 MiB. *)
Definition boot_map : mem :=
  let m := poke32 (poke32 ∅ 0x1000 0x50) 0x1008 MB2_TAG_MMAP in
  let m := poke32 (poke32 m 0x100C 64) 0x1010 24 in
  let m := poke32 (poke64 (poke64 m 0x1018 0) 0x1020 0x9F000) 0x1028 1 in
  let m := poke32 (poke64 (poke64 m 0x1030 0x100000) 0x1038 0x80000) 0x1040 1 in
  poke32 (poke32 m 0x1048 MB2_TAG_END) 0x104C 8.

Lemma boot_map_ok : mb2_ok boot_map 0x1000.
Proof.
  assert (Hv : forall t, visited boot_map (0x1000 + rd32 boot_map 0x1000) (0x1000 + 8) t ->
      In t [0x1008; 0x1048]).
  { intros t. apply visited_closed; [by left|].
    constructor; [right; right; right; left; by vm_compute|].
    constructor; [right; left; by vm_compute|done]. }
  constructor; [done| | |].
  - split_and!; [done|done|by vm_compute|]. intros t Ht _.
    destruct (Hv t Ht) as [<-|[<-|[]]]; by vm_compute.
  - intros t Ht _ Hty. destruct (Hv t Ht) as [<-|[<-|[]]]; by vm_compute.
  - intros t Ht _ Hty. destruct (Hv t Ht) as [<-|[<-|[]]]; by vm_compute.
Qed.

(** Basic memory information of 1 KiB above 1 MiB. *)
Definition boot_basic : mem :=
  let m := poke32 (poke32 ∅ 0x1000 0x20) 0x1008 MB2_TAG_BASIC_MEMINFO in
  poke32 (poke32 (poke32 m 0x100C 16) 0x1014 1) 0x1018 MB2_TAG_END.

(** ** Theorems *)



(** Basic memory information that does not count whole frames breaks the
    accounting: with 1 KiB above 1 MiB the bitmap tracks no frame, yet the
    reservation of its first frame subtracts a whole frame from 1 KiB and
    [g_free] wraps around to almost 2^64. *)
Theorem pmm_init_partial_frame_underflow :
  match pmm_init 40 boot_basic 0x1000 false ∅ with
  | Some st => frames st = 0 /\ free_bytes st = 0 /\ g_free st = 2^64 - 3072
  | None => False
  end.
Proof. vm_compute. done. Qed.

End PmmInit.
