(* ===== verification/FrameAlloc.v ===== *)
(** * Interface between the page-table code and the frame allocator

    What vmm.c relies on when it calls [pmm_alloc_frames(1)]: the call
    returns, either 0 or the address of a frame that nobody owned.  The
    physical memory manager implements the interface. *)

From S2P Require Import Prelude Mb2 Pmm PmmSpec.

Class FrameAlloc (S : Type) := {
  fa_alloc : S -> option (Z * S);
  fa_ok : S -> Prop;
  (** The frame at this address is not free. *)
  fa_owned : S -> Z -> Prop;
  (** Number of frames that can still be allocated. *)
  fa_avail : S -> Z;
  fa_alloc_spec s :
    fa_ok s ->
    exists p s', fa_alloc s = Some (p, s') /\ fa_ok s' /\
      ((p = 0 /\ s' = s /\ fa_avail s = 0) \/
       (0 < p < 2^32 /\ p mod 4096 = 0 /\ ~ fa_owned s p /\ fa_owned s' p /\
        (forall q, fa_owned s q -> fa_owned s' q) /\ fa_avail s' = fa_avail s - 1))
}.

Module PmmFrameAlloc.

Import Pmm PmmSpec.

(** A free frame of the bitmap. *)
Definition is_free (st : pmm) (p : Z) : Prop :=
  exists i, 0 <= i < frames st /\ p = frame_addr st i /\ used st i = false.

Definition owned (st : pmm) (p : Z) : Prop := ~ is_free st p.

Definition avail (st : pmm) : Z := nfree (used st) (Z.to_nat (frames st)).

Lemma no_run_one st : no_run st 1 (frames st) -> avail st = 0.
Proof.
  intros Hno. unfold avail. apply nfree_all_used. intros i Hi.
  destruct (used st i) eqn:E; [done|]. exfalso. apply (Hno i); [lia|lia|].
  intros j Hj. by replace j with i by lia.
Qed.

Lemma pmm_alloc_spec st :
  inv st ->
  exists p st', pmm_alloc_frames st 1 = Some (p, st') /\ inv st' /\
    ((p = 0 /\ st' = st /\ avail st = 0) \/
     (0 < p < 2^32 /\ p mod 4096 = 0 /\ ~ owned st p /\ owned st' p /\
      (forall q, owned st q -> owned st' q) /\ avail st' = avail st - 1)).
Proof.
  intros Hinv. destruct (alloc_total st 1 Hinv ltac:(lia)) as (p & st' & E & Hi & Hr).
  exists p, st'. split; [done|]. split; [done|].
  destruct Hr as [(-> & -> & [|Hno])|(Hp & _ & Ha)]; [done| |].
  { left. auto using no_run_one. }
  right. pose proof (inv_wf _ Hinv) as Hwf. pose proof Hwf as [W1 W2 W3 W4].
  destruct (allocated_bounds _ _ _ _ _ Hwf (Z.le_refl _) Ha) as (B1 & B2 & B3).
  rewrite frame_addr_end in B3 by done.
  destruct Ha as (s & A1 & A2 & A3 & A4 & _ & A6 & A7).
  pose proof (marked_meta _ _ _ _ _ A6) as (_ & Eb & _ & Ef).
  assert (Haddr : forall i, frame_addr st' i = frame_addr st i)
    by (intros; unfold frame_addr; by rewrite Eb).
  pose proof (proj2 (proj2 A6)) as U.
  split_and!; [lia|flia|done| | | |].
  - intros Ho. apply Ho. exists s. split_and!; [lia|lia|done|]. apply A4. lia.
  - intros (i & H1 & H2 & H3). rewrite Haddr, A3 in H2.
    assert (i = s) as -> by (unfold frame_addr in *; flia). rewrite U in H3 by lia.
    by rewrite Z.leb_refl, (proj2 (Z.ltb_lt s _)) in H3 by lia.
  - intros q Hq (i & H1 & H2 & H3). apply Hq. exists i. rewrite Haddr in H2.
    split_and!; [lia|lia|done|]. rewrite U in H3 by lia. by destruct (_ && _).
  - rewrite (inv_free _ Hi), (inv_free _ Hinv) in A7. unfold free_bytes, avail in *. flia.
Qed.

End PmmFrameAlloc.

#[export] Instance pmm_frame_alloc : FrameAlloc Pmm.pmm := {
  fa_alloc st := Pmm.pmm_alloc_frames st 1;
  fa_ok := PmmSpec.inv;
  fa_owned := PmmFrameAlloc.owned;
  fa_avail := PmmFrameAlloc.avail;
  fa_alloc_spec := PmmFrameAlloc.pmm_alloc_spec
}.
