(* ===== verification/Vmm.v ===== *)
(** * Virtual memory manager ([src/kernel/mm/vmm.c])

    Four-level page tables in physical memory.  Memory is a map from 8-byte
    aligned physical addresses to 64-bit words (the code only dereferences
    [uint64_t*] into page-aligned tables); the frames come from a [FrameAlloc]. *)

From S2P Require Import Prelude FrameAlloc.

Module Vmm.

Definition PAGE_SIZE : Z := 4096.
Definition VMM_PRESENT : Z := Z.shiftl 1 0.
Definition VMM_RW : Z := Z.shiftl 1 1.
Definition VMM_PS : Z := Z.shiftl 1 7.
Definition VMM_NX : Z := Z.shiftl 1 63.

Section vmm.
Context {S : Type} `{FA : FrameAlloc S}.

(** [g_cr3_phys], the CR3 register, physical memory, the pages [invlpg] was
    executed for (latest first), and the allocator. *)
Record vmm := MkVmm {
  g_cr3_phys : Z;
  cr3 : Z;
  phys : mem;
  invlpg_log : list Z;
  pmm_state : S
}.

Definition set_phys (st : vmm) (m : mem) : vmm :=
  MkVmm (g_cr3_phys st) (cr3 st) m (invlpg_log st) (pmm_state st).
Definition set_pmm (st : vmm) (s : S) : vmm :=
  MkVmm (g_cr3_phys st) (cr3 st) (phys st) (invlpg_log st) s.
Definition invlpg (st : vmm) (addr : Z) : vmm :=
  MkVmm (g_cr3_phys st) (cr3 st) (phys st) (addr :: invlpg_log st) (pmm_state st).

Definition present (e : Z) : bool := negb (Z.land e VMM_PRESENT =? 0).

(** [e & ~0xFFFULL] *)
Definition frame_of (e : Z) : Z := Z.land e (u64 (Z.lnot 0xFFF)).

(** [for (i = 0; i < n; ++i) tbl[i] = 0] *)
Fixpoint zero_table (n : nat) (m : mem) (tbl : Z) : mem :=
  match n with
  | O => m
  | Datatypes.S n' => wr (zero_table n' m tbl) (tbl + 8 * Z.of_nat n') 0
  end.

(** One level of [get_pte]: the table behind entry [slot], created on demand.
    The C function repeats this block for the PML4, the PDPT and the PD. *)
Definition table_at (st : vmm) (slot : Z) (create : bool) : option (option Z * vmm) :=
  let e := rd (phys st) slot in
  if present e then Some (Some (frame_of e), st)
  else if negb create then Some (None, st)
  else
    '(newp, s) ← fa_alloc (pmm_state st);
    let st := set_pmm st s in
    if newp =? 0 then Some (None, st)
    else
      let m := zero_table 512 (phys st) newp in
      let e := Z.lor (Z.lor newp VMM_PRESENT) VMM_RW in
      Some (Some (frame_of e), set_phys st (wr m slot e)).

Definition idx_pml4 (va : Z) : Z := Z.land (Z.shiftr va 39) 0x1FF.
Definition idx_pdp (va : Z) : Z := Z.land (Z.shiftr va 30) 0x1FF.
Definition idx_pd (va : Z) : Z := Z.land (Z.shiftr va 21) 0x1FF.
Definition idx_pt (va : Z) : Z := Z.land (Z.shiftr va 12) 0x1FF.

(** The address of the final entry, or 0 ([NULL]). *)
Definition get_pte (st : vmm) (pml4_phys va : Z) (create : bool) : option (Z * vmm) :=
  '(pdpt, st) ← table_at st (pml4_phys + 8 * idx_pml4 va) create;
  match pdpt with
  | None => Some (0, st)
  | Some pdpt =>
      '(pd, st) ← table_at st (pdpt + 8 * idx_pdp va) create;
      match pd with
      | None => Some (0, st)
      | Some pd =>
          '(pt, st) ← table_at st (pd + 8 * idx_pd va) create;
          match pt with
          | None => Some (0, st)
          | Some pt => Some (pt + 8 * idx_pt va, st)
          end
      end
  end.

Definition vmm_load_cr3 (st : vmm) (pml4_phys : Z) : vmm :=
  MkVmm pml4_phys pml4_phys (phys st) (invlpg_log st) (pmm_state st).

(** The mapping loop of [vmm_init_identity], [n] pages from address [a]; it
    stops at the first page whose entry cannot be created. *)
Fixpoint identity_loop (n : nat) (st : vmm) (pml4 a : Z) : option vmm :=
  match n with
  | O => Some st
  | Datatypes.S n' =>
      '(pte, st) ← get_pte st pml4 a true;
      if pte =? 0 then Some st
      else
        let st := set_phys st (wr (phys st) pte
                    (Z.lor (frame_of a) (Z.lor VMM_PRESENT VMM_RW))) in
        identity_loop n' st pml4 (a + PAGE_SIZE)
  end.

Definition identity_pages : Z := 2^32 / PAGE_SIZE.

Definition vmm_init_identity (st : vmm) : option vmm :=
  '(pml4, s) ← fa_alloc (pmm_state st);
  let st := set_pmm st s in
  if pml4 =? 0 then Some st
  else
    let st := set_phys st (zero_table 512 (phys st) pml4) in
    st ← identity_loop (Z.to_nat identity_pages) st pml4 0;
    Some (vmm_load_cr3 st pml4).

Definition vmm_map_page (st : vmm) (virt phys_ flags : Z) : option (Z * vmm) :=
  if g_cr3_phys st =? 0 then Some (-1, st)
  else
    '(pte, st) ← get_pte st (g_cr3_phys st) virt true;
    if pte =? 0 then Some (-2, st)
    else
      let e := Z.lor (frame_of phys_) (Z.land flags (u64 (Z.lnot VMM_PS))) in
      Some (0, invlpg (set_phys st (wr (phys st) pte e)) virt).

Definition vmm_unmap_page (st : vmm) (virt : Z) : option (Z * vmm) :=
  if g_cr3_phys st =? 0 then Some (-1, st)
  else
    '(pte, st) ← get_pte st (g_cr3_phys st) virt false;
    if pte =? 0 then Some (-2, st)
    else Some (0, invlpg (set_phys st (wr (phys st) pte 0)) virt).

(** The result and the value stored through the pointer [out_phys], if any. *)
Definition vmm_virt_to_phys (st : vmm) (virt out_phys : Z) : option (Z * option Z) :=
  if (g_cr3_phys st =? 0) || (out_phys =? 0) then Some (0, None)
  else
    '(pte, st) ← get_pte st (g_cr3_phys st) virt false;
    if pte =? 0 then Some (0, None)
    else
      let e := rd (phys st) pte in
      if negb (present e) then Some (0, None)
      else Some (1, Some (Z.lor (frame_of e) (Z.land virt 0xFFF))).

End vmm.

Arguments vmm S : clear implicits.
Arguments MkVmm {S}.

End Vmm.
