(* ===== verification/VmmSpec.v ===== *)
(** * Correctness of the virtual memory manager

    The tables form a tree ([pt_wf]); under that invariant [get_pte] finds or
    creates the entry of a page without changing any translation, so mapping
    and unmapping a page affect that page only. *)

From S2P Require Import Prelude FrameAlloc Vmm.

Module VmmSpec.

Import Vmm.

(** ** Entries *)

Lemma frame_of_lor x y : frame_of (Z.lor x y) = Z.lor (frame_of x) (frame_of y).
Proof. apply Z.land_lor_distr_l. Qed.

Lemma frame_of_eq x : 0 <= x < 2^64 -> frame_of x = x / 4096 * 4096.
Proof. intros H. by apply (align_down_pow2 x 12). Qed.

Lemma frame_of_aligned x : 0 <= x < 2^64 -> x mod 4096 = 0 -> frame_of x = x.
Proof. intros H Ha. rewrite frame_of_eq by done. zmod. Qed.

Lemma frame_of_low x : 0 <= x < 4096 -> frame_of x = 0.
Proof. intros H. rewrite frame_of_eq by lia. zmod. Qed.

Lemma present_testbit e : present e = Z.testbit e 0.
Proof.
  unfold present, VMM_PRESENT. change (Z.shiftl 1 0) with (2^1 - 1).
  rewrite land_low by lia. change (2^1) with 2. rewrite <- Z.bit0_mod.
  by destruct (Z.testbit e 0).
Qed.

Lemma present_lor x y : present (Z.lor x y) = present x || present y.
Proof. rewrite !present_testbit. apply Z.lor_spec. Qed.

(** ** Walks

    [idx l va] is the index of [va] in a table of level [l] (4 is the PML4, 1
    the page table). *)

Definition idx (l : nat) (va : Z) : Z :=
  Z.land (Z.shiftr va (12 + 9 * (Z.of_nat l - 1))) 0x1FF.

(** Address of the final entry of [va] below table [t] of level [l]. *)
Fixpoint slot (l : nat) (m : mem) (t va : Z) : option Z :=
  match l with
  | O => None
  | S l' =>
      let a := t + 8 * idx l va in
      match l' with
      | O => Some a
      | _ => if present (rd m a) then slot l' m (frame_of (rd m a)) va else None
      end
  end.

(** The final entry, 0 where a table is missing. *)
Definition pte (l : nat) (m : mem) (t va : Z) : Z :=
  match slot l m t va with Some a => rd m a | None => 0 end.

(** The tables are a tree: [lv] gives the level of each table; an entry of a
    table above level 1 leads to a table one level down, and no two entries
    lead to the same table. *)
Record pt_wf (m : mem) (root : Z) (lv : gmap Z nat) : Prop := PtWf {
  wf_root : lv !! root = Some 4%nat;
  wf_addr t l : lv !! t = Some l -> 0 < t < 2^32 /\ t mod 4096 = 0;
  wf_child t l i : lv !! t = Some (S (S l)) -> 0 <= i < 512 ->
    present (rd m (t + 8 * i)) = true -> lv !! (frame_of (rd m (t + 8 * i))) = Some (S l);
  wf_inj t l i t' l' i' :
    lv !! t = Some (S (S l)) -> 0 <= i < 512 -> present (rd m (t + 8 * i)) = true ->
    lv !! t' = Some (S (S l')) -> 0 <= i' < 512 -> present (rd m (t' + 8 * i')) = true ->
    frame_of (rd m (t + 8 * i)) = frame_of (rd m (t' + 8 * i')) -> t = t' /\ i = i'
}.

Lemma idx_range l va : (1 <= l)%nat -> 0 <= idx l va < 512.
Proof.
  intros Hl. unfold idx. change 0x1FF with (2^9 - 1). rewrite land_low by lia.
  apply Z.mod_pos_bound. lia.
Qed.

(** Entries of different tables, or different entries of one, do not alias. *)
Lemma entry_inj t i t' i' :
  t mod 4096 = 0 -> t' mod 4096 = 0 -> 0 <= i < 512 -> 0 <= i' < 512 ->
  t + 8 * i = t' + 8 * i' -> t = t' /\ i = i'.
Proof. intros. zmod. Qed.

Lemma slot_S l m t va :
  slot (S (S l)) m t va
  = if present (rd m (t + 8 * idx (S (S l)) va))
    then slot (S l) m (frame_of (rd m (t + 8 * idx (S (S l)) va))) va else None.
Proof. done. Qed.

(** The final entry lies in a page table. *)
Lemma slot_Some m root lv l : forall t va a,
  pt_wf m root lv -> lv !! t = Some (S l) -> slot (S l) m t va = Some a ->
  exists p, lv !! p = Some 1%nat /\ a = p + 8 * idx 1 va.
Proof.
  induction l as [|l IH]; intros t va a Hwf Ht Hs.
  - simpl in Hs. exists t. by simplify_eq.
  - rewrite slot_S in Hs. destruct (present _) eqn:E; [|done].
    eapply IH; [done| |done]. eapply wf_child; [done|done|apply idx_range; lia|done].
Qed.

(** Two pages with the same final entry have the same indices. *)
Lemma slot_inj m root lv l : forall t t' va va' a,
  pt_wf m root lv -> lv !! t = Some (S l) -> lv !! t' = Some (S l) ->
  slot (S l) m t va = Some a -> slot (S l) m t' va' = Some a ->
  t = t' /\ forall k, (1 <= k <= S l)%nat -> idx k va = idx k va'.
Proof.
  induction l as [|l IH]; intros t t' va va' a Hwf Ht Ht' Hs Hs'.
  - simpl in Hs, Hs'. destruct (wf_addr _ _ _ Hwf t _ Ht), (wf_addr _ _ _ Hwf t' _ Ht').
    destruct (entry_inj t (idx 1 va) t' (idx 1 va')); try done; try (apply idx_range; lia);
      [congruence|].
    split; [done|]. intros k Hk. by replace k with 1%nat by lia.
  - rewrite slot_S in Hs, Hs'.
    destruct (present (rd m (t + _))) eqn:E; [|done].
    destruct (present (rd m (t' + _))) eqn:E'; [|done].
    assert (Hr : forall v, 0 <= idx (S (S l)) v < 512) by (intros; apply idx_range; lia).
    destruct (IH _ _ _ _ _ Hwf (wf_child _ _ _ Hwf _ _ _ Ht (Hr va) E)
      (wf_child _ _ _ Hwf _ _ _ Ht' (Hr va') E') Hs Hs') as [Hf Hidx].
    destruct (wf_inj _ _ _ Hwf _ _ _ _ _ _ Ht (Hr va) E Ht' (Hr va') E' Hf) as [-> Hi].
    split; [done|]. intros k Hk.
    destruct (decide (k = S (S l))) as [->|]; [done|]. apply Hidx. lia.
Qed.

(** ** Writing a final entry *)

Lemma rd_wr_entry m p i v t j :
  p mod 4096 = 0 -> t mod 4096 = 0 -> 0 <= i < 512 -> 0 <= j < 512 ->
  ~ (t = p /\ j = i) -> rd (wr m (p + 8 * i) v) (t + 8 * j) = rd m (t + 8 * j).
Proof.
  intros Hp Ht Hi Hj Hne. apply rd_wr_ne. intros E. apply Hne.
  by destruct (entry_inj p i t j Hp Ht Hi Hj E).
Qed.

Section leaf.
Context (m : mem) (root : Z) (lv : gmap Z nat) (p i v : Z).
Context (Hwf : pt_wf m root lv) (Hp : lv !! p = Some 1%nat) (Hi : 0 <= i < 512).

Lemma leaf_other t l j :
  lv !! t = Some (S (S l)) -> 0 <= j < 512 ->
  rd (wr m (p + 8 * i) v) (t + 8 * j) = rd m (t + 8 * j).
Proof.
  intros Ht Hj. apply rd_wr_entry; try done; try (by eapply wf_addr).
  intros [-> _]. congruence.
Qed.

Lemma leaf_wf : pt_wf (wr m (p + 8 * i) v) root lv.
Proof.
  constructor.
  - apply Hwf.
  - apply Hwf.
  - intros t l j Ht Hj. rewrite (leaf_other t l j Ht Hj). by eapply wf_child.
  - intros t l j t' l' j' Ht Hj H1 Ht' Hj' H2 E.
    rewrite (leaf_other t l j Ht Hj) in H1, E.
    rewrite (leaf_other t' l' j' Ht' Hj') in H2, E. by eapply wf_inj.
Qed.

Lemma leaf_slot l : forall t va,
  lv !! t = Some (S l) -> slot (S l) (wr m (p + 8 * i) v) t va = slot (S l) m t va.
Proof.
  induction l as [|l IH]; intros t va Ht; [done|].
  assert (Hr : 0 <= idx (S (S l)) va < 512) by (apply idx_range; lia).
  rewrite !slot_S, (leaf_other t l _ Ht Hr). destruct (present _) eqn:E; [|done].
  apply IH. by eapply wf_child.
Qed.

End leaf.

(** The translation of the written page is the new entry; pages with other
    indices keep theirs. *)
Lemma pte_write m root lv va a v :
  pt_wf m root lv -> slot 4 m root va = Some a ->
  pt_wf (wr m a v) root lv /\ pte 4 (wr m a v) root va = v /\
  forall va', (exists k, (1 <= k <= 4)%nat /\ idx k va' <> idx k va) ->
    pte 4 (wr m a v) root va' = pte 4 m root va'.
Proof.
  intros Hwf Ha. pose proof (wf_root _ _ _ Hwf) as Hroot.
  destruct (slot_Some _ _ _ _ _ _ _ Hwf Hroot Ha) as (p & Hp & E).
  assert (Hi : 0 <= idx 1 va < 512) by (apply idx_range; lia). subst a.
  split; [by apply leaf_wf|]. unfold pte. split.
  - rewrite (leaf_slot m root lv), Ha by done. apply rd_wr_eq.
  - intros va' (k & Hk & Hne). rewrite (leaf_slot m root lv) by done.
    destruct (slot 4 m root va') as [a'|] eqn:Ha'; [|done]. apply rd_wr_ne. intros <-.
    destruct (slot_inj _ _ _ _ _ _ _ _ _ Hwf Hroot Hroot Ha Ha') as [_ H].
    by rewrite H in Hne.
Qed.

(** ** Creating a table *)

Lemma zero_table_in m t : forall n j,
  0 <= j < Z.of_nat n -> rd (zero_table n m t) (t + 8 * j) = 0.
Proof.
  induction n as [|n IH]; intros j Hj; simpl; [lia|]. rewrite rd_wr. zcase; [done|].
  apply IH. lia.
Qed.

Lemma zero_table_out m t a : forall n,
  (forall j, 0 <= j < Z.of_nat n -> a <> t + 8 * j) -> rd (zero_table n m t) a = rd m a.
Proof.
  induction n as [|n IH]; intros H; simpl; [done|]. rewrite rd_wr.
  zcase; [specialize (H (Z.of_nat n)); lia|]. apply IH. intros j Hj. apply H. lia.
Qed.

#[local] Arguments zero_table : simpl never.

Lemma pte_S l m t va :
  pte (S (S l)) m t va
  = if present (rd m (t + 8 * idx (S (S l)) va))
    then pte (S l) m (frame_of (rd m (t + 8 * idx (S (S l)) va))) va else 0.
Proof. unfold pte. rewrite slot_S. by destruct (present _). Qed.

Definition new_entry (p : Z) : Z := Z.lor (Z.lor p VMM_PRESENT) VMM_RW.

Lemma new_entry_spec p :
  0 <= p < 2^32 -> p mod 4096 = 0 -> present (new_entry p) = true /\ frame_of (new_entry p) = p.
Proof.
  intros Hp Ha. unfold new_entry. split.
  - rewrite !present_lor. by rewrite orb_true_r.
  - rewrite !frame_of_lor, (frame_of_aligned p) by lia.
    rewrite (frame_of_low VMM_PRESENT), (frame_of_low VMM_RW) by done. by rewrite !Z.lor_0_r.
Qed.

Section create.
Context (m : mem) (root : Z) (lv : gmap Z nat) (t : Z) (l : nat) (i p : Z).
Context (Hwf : pt_wf m root lv) (Ht : lv !! t = Some (S (S l))) (Hi : 0 <= i < 512).
Context (Habs : present (rd m (t + 8 * i)) = false).
Context (Hfresh : lv !! p = None) (Hp : 0 < p < 2^32) (Hpa : p mod 4096 = 0).

Let m' : mem := wr (zero_table 512 m p) (t + 8 * i) (new_entry p).
Let lv' : gmap Z nat := <[p := S l]> lv.

Lemma create_other t0 k j :
  lv !! t0 = Some k -> 0 <= j < 512 -> ~ (t0 = t /\ j = i) ->
  rd m' (t0 + 8 * j) = rd m (t0 + 8 * j).
Proof.
  intros H0 Hj Hne. destruct (wf_addr _ _ _ Hwf _ _ H0) as [_ A0].
  destruct (wf_addr _ _ _ Hwf _ _ Ht) as [_ At]. unfold m'.
  rewrite rd_wr_entry by done. apply zero_table_out. intros j' Hj' E.
  destruct (entry_inj t0 j p j') as [-> _]; try done. congruence.
Qed.

Lemma create_zero j : 0 <= j < 512 -> rd m' (p + 8 * j) = 0.
Proof.
  intros Hj. destruct (wf_addr _ _ _ Hwf _ _ Ht) as [_ At]. unfold m'.
  rewrite rd_wr_entry; try done; [by apply zero_table_in|]. intros [-> _]. congruence.
Qed.

Lemma create_slot : rd m' (t + 8 * i) = new_entry p.
Proof. apply rd_wr_eq. Qed.

(** An entry of the new tree: the new slot, an old entry, or (level 1) a zero. *)
Lemma create_entry t0 k j :
  lv' !! t0 = Some (S (S k)) -> 0 <= j < 512 -> present (rd m' (t0 + 8 * j)) = true ->
  (t0 = t /\ j = i /\ k = l /\ frame_of (rd m' (t0 + 8 * j)) = p) \/
  (lv !! t0 = Some (S (S k)) /\ rd m' (t0 + 8 * j) = rd m (t0 + 8 * j) /\
   frame_of (rd m' (t0 + 8 * j)) <> p).
Proof.
  intros H0 Hj He. unfold lv' in H0.
  destruct (decide (t0 = p)) as [->|Hne]; [by rewrite create_zero in He|].
  rewrite lookup_insert_ne in H0 by done.
  destruct (decide (t0 = t /\ j = i)) as [[-> ->]|Hn].
  - left. rewrite create_slot. split_and!; try done; [congruence|]. apply new_entry_spec; lia || done.
  - right. pose proof (create_other t0 _ j H0 Hj Hn) as E. split_and!; [done|done|].
    rewrite E in *. pose proof (wf_child _ _ _ Hwf _ _ _ H0 Hj He). congruence.
Qed.

Lemma create_wf : pt_wf m' root lv'.
Proof.
  constructor; unfold lv' in *.
  - rewrite lookup_insert_ne; [apply Hwf|]. intros ->. by rewrite (wf_root _ _ _ Hwf) in Hfresh.
  - intros t0 k H0. destruct (decide (t0 = p)) as [->|Hne]; [done|].
    rewrite lookup_insert_ne in H0 by done. by eapply wf_addr.
  - intros t0 k j H0 Hj He.
    destruct (create_entry t0 k j H0 Hj He) as [(-> & -> & -> & ->)|(H1 & E & Hne)].
    + apply lookup_insert_eq.
    + rewrite lookup_insert_ne by done. rewrite E in *. by eapply wf_child.
  - intros t1 k1 j1 t2 k2 j2 H1 Hj1 He1 H2 Hj2 He2 Heq.
    destruct (create_entry t1 k1 j1 H1 Hj1 He1) as [(-> & -> & _ & F1)|(L1 & E1 & N1)],
      (create_entry t2 k2 j2 H2 Hj2 He2) as [(-> & -> & _ & F2)|(L2 & E2 & N2)];
      try done; try congruence.
    rewrite E1, E2 in *. by eapply wf_inj.
Qed.

Lemma create_pte k : forall t0 va, lv !! t0 = Some (S k) -> pte (S k) m' t0 va = pte (S k) m t0 va.
Proof.
  induction k as [|k IH]; intros t0 va H0.
  - apply (create_other t0 1); [done|apply idx_range; lia|]. intros [-> _]. congruence.
  - assert (Hr : 0 <= idx (S (S k)) va < 512) by (apply idx_range; lia). rewrite !pte_S.
    destruct (decide (t0 = t /\ idx (S (S k)) va = i)) as [[-> E]|Hne].
    + rewrite E, Habs, create_slot. destruct (new_entry_spec p) as [-> ->]; [lia|done|].
      destruct k as [|k'].
      * apply create_zero, idx_range. lia.
      * rewrite pte_S, create_zero by (apply idx_range; lia). reflexivity.
    + rewrite (create_other t0 _ _ H0 Hr Hne).
      destruct (present (rd m (t0 + _))) eqn:E; [|done].
      apply IH. by eapply wf_child.
Qed.

End create.

(** ** Page numbers *)

(** The page of a virtual address: bits 12 to 47, the ones the walk uses. *)
Definition vpage (va : Z) : Z := va / 4096 mod 2^36.

Lemma idx_vpage l va :
  (1 <= l <= 4)%nat -> idx l va = vpage va / 2^(9 * (Z.of_nat l - 1)) mod 2^9.
Proof.
  intros Hl. unfold idx, vpage. change 0x1FF with (2^9 - 1).
  rewrite land_low, Z.shiftr_div_pow2, Z.pow_add_r, <- Z.div_div by lia.
  change (2^12) with 4096. set (q := va / 4096). clearbody q.
  assert (l = 1 \/ l = 2 \/ l = 3 \/ l = 4)%nat as [->|[->|[->| ->]]] by lia;
    cbn [Z.of_nat]; zmod.
Qed.

Lemma vpage_idx va va' :
  (forall k, (1 <= k <= 4)%nat -> idx k va = idx k va') -> vpage va = vpage va'.
Proof.
  intros H.
  pose proof (H 1%nat ltac:(lia)) as H1. pose proof (H 2%nat ltac:(lia)) as H2.
  pose proof (H 3%nat ltac:(lia)) as H3. pose proof (H 4%nat ltac:(lia)) as H4. clear H.
  rewrite !idx_vpage in * by lia.
  assert (R : forall v, 0 <= vpage v < 2^36) by (intros; apply Z.mod_pos_bound; lia).
  pose proof (R va). pose proof (R va').
  set (v := vpage va) in *. set (v' := vpage va') in *. clearbody v v'. clear R.
  cbn [Z.of_nat Pos.of_succ_nat Pos.succ] in *. zmod.
Qed.

Lemma vpage_ne va va' :
  vpage va' <> vpage va -> exists k, (1 <= k <= 4)%nat /\ idx k va' <> idx k va.
Proof.
  intros Hne. destruct (decide (idx 1 va' = idx 1 va)) as [E1|]; [|exists 1%nat; split; [lia|done]].
  destruct (decide (idx 2 va' = idx 2 va)) as [E2|]; [|exists 2%nat; split; [lia|done]].
  destruct (decide (idx 3 va' = idx 3 va)) as [E3|]; [|exists 3%nat; split; [lia|done]].
  destruct (decide (idx 4 va' = idx 4 va)) as [E4|]; [|exists 4%nat; split; [lia|done]].
  destruct Hne. apply vpage_idx. intros k Hk.
  by assert (k = 1 \/ k = 2 \/ k = 3 \/ k = 4)%nat as [->|[->|[->| ->]]] by lia.
Qed.

Lemma slot_vpage l : forall m t va va',
  (l <= 4)%nat -> vpage va = vpage va' -> slot l m t va = slot l m t va'.
Proof.
  induction l as [|l IH]; intros m t va va' Hl E; [done|].
  assert (Ei : idx (S l) va = idx (S l) va') by (rewrite !idx_vpage, E by lia; done).
  destruct l as [|l]; [by simpl; rewrite Ei|]. rewrite !slot_S, Ei.
  destruct (present _); [|done]. apply IH; [lia|done].
Qed.

Lemma pte_vpage m t va va' : vpage va = vpage va' -> pte 4 m t va = pte 4 m t va'.
Proof. intros E. unfold pte. by rewrite (slot_vpage 4 m t va va') by (lia || done). Qed.

(** ** The invariant and how a walk may grow the tables *)

Section spec.
Context {S : Type} `{FA : FrameAlloc S}.
Implicit Types (st : vmm S) (lv : gmap Z nat).

Record vmm_inv st (root : Z) lv : Prop := VmmInv {
  vi_wf : pt_wf (phys st) root lv;
  vi_ok : fa_ok (pmm_state st);
  vi_owned t l : lv !! t = Some l -> fa_owned (pmm_state st) t
}.

(** From [st] to [st'] tables may have been added, in frames nobody owned: no
    translation changes, and no frame in use outside the tables is written. *)
Record grows (root : Z) st lv st' lv' : Prop := Grows {
  gr_inv : vmm_inv st' root lv';
  gr_sub t l : lv !! t = Some l -> lv' !! t = Some l;
  gr_regs : g_cr3_phys st' = g_cr3_phys st /\ cr3 st' = cr3 st /\
            invlpg_log st' = invlpg_log st;
  gr_pte va : pte 4 (phys st') root va = pte 4 (phys st) root va;
  gr_entry t k j : lv !! t = Some k -> 0 <= j < 512 ->
    present (rd (phys st) (t + 8 * j)) = true ->
    rd (phys st') (t + 8 * j) = rd (phys st) (t + 8 * j);
  gr_owned q : fa_owned (pmm_state st) q -> fa_owned (pmm_state st') q;
  gr_new q : fa_owned (pmm_state st) q -> lv !! q = None -> lv' !! q = None;
  gr_frame q j : fa_owned (pmm_state st) q -> q mod 4096 = 0 -> lv !! q = None ->
    0 <= j < 512 -> rd (phys st') (q + 8 * j) = rd (phys st) (q + 8 * j)
}.

Lemma grows_refl root st lv : vmm_inv st root lv -> grows root st lv st lv.
Proof. intros H. by constructor. Qed.

Lemma grows_trans root st1 lv1 st2 lv2 st3 lv3 :
  grows root st1 lv1 st2 lv2 -> grows root st2 lv2 st3 lv3 -> grows root st1 lv1 st3 lv3.
Proof.
  intros [A1 A2 (A3 & A4 & A5) A6 A7 A8 A9 A10] [B1 B2 (B3 & B4 & B5) B6 B7 B8 B9 B10].
  constructor; eauto; [split_and!; congruence|intros; by rewrite B6| |].
  - intros t k j H1 H2 H3. rewrite (B7 t k j) by (try rewrite (A7 t k j); eauto). eauto.
  - intros q j H1 H2 H3 H4. rewrite B10; eauto.
Qed.

Lemma create_grows root st lv t l i p s :
  vmm_inv st root lv -> lv !! t = Some (Datatypes.S (Datatypes.S l)) -> 0 <= i < 512 ->
  present (rd (phys st) (t + 8 * i)) = false ->
  0 < p < 2^32 -> p mod 4096 = 0 -> ~ fa_owned (pmm_state st) p -> fa_ok s -> fa_owned s p ->
  (forall q, fa_owned (pmm_state st) q -> fa_owned s q) ->
  grows root st lv
    (set_phys (set_pmm st s) (wr (zero_table 512 (phys st) p) (t + 8 * i) (new_entry p)))
    (<[p := Datatypes.S l]> lv).
Proof.
  intros [Hwf Hok Hown] Ht Hi Habs Hp Hpa Hno Hs Hsp Hmono.
  assert (Hfresh : lv !! p = None).
  { destruct (lv !! p) eqn:E; [|done]. destruct Hno. eauto. }
  assert (Hne : forall q k, lv !! q = Some k -> p <> q) by (intros q k H <-; congruence).
  set (m' := wr _ _ _). constructor; cbn [phys pmm_state set_phys set_pmm]; unfold m'.
  - constructor; cbn [phys pmm_state set_phys set_pmm]; [by apply create_wf|done|]. intros t0 k.
    destruct (decide (t0 = p)) as [->|]; [done|]. rewrite lookup_insert_ne by done. eauto.
  - intros t0 k H0. rewrite lookup_insert_ne by eauto. done.
  - done.
  - intros va. eapply create_pte; eauto. apply Hwf.
  - intros t0 k j H0 Hj He. eapply create_other; eauto. intros [-> ->]. congruence.
  - done.
  - intros q Hq Hn. rewrite lookup_insert_ne; [done|]. intros <-. done.
  - intros q j Hq Hqa Hn Hj. destruct (wf_addr _ _ _ Hwf _ _ Ht) as [_ Hta].
    rewrite rd_wr_entry; try done; [|intros [-> _]; congruence].
    apply zero_table_out. intros j' Hj' E.
    by destruct (entry_inj q j p j' Hqa Hpa Hj Hj' E) as [-> _].
Qed.

Lemma grow_entry root st lv st' lv' t k j :
  grows root st lv st' lv' -> lv !! t = Some k -> 0 <= j < 512 ->
  present (rd (phys st) (t + 8 * j)) = true ->
  present (rd (phys st') (t + 8 * j)) = true /\
  frame_of (rd (phys st') (t + 8 * j)) = frame_of (rd (phys st) (t + 8 * j)).
Proof. intros G Ht Hj He. by rewrite (gr_entry _ _ _ _ _ G t k j). Qed.

(** One level of the walk finds the next table, or creates it, or the
    allocator has no frame left. *)
Lemma table_at_create root st lv t l i :
  vmm_inv st root lv -> lv !! t = Some (Datatypes.S (Datatypes.S l)) -> 0 <= i < 512 ->
  exists r st' lv', table_at st (t + 8 * i) true = Some (r, st') /\
    grows root st lv st' lv' /\
    match r with
    | None => fa_avail (pmm_state st') = 0
    | Some p => lv' !! p = Some (Datatypes.S l) /\
        present (rd (phys st') (t + 8 * i)) = true /\
        frame_of (rd (phys st') (t + 8 * i)) = p
    end.
Proof.
  intros Hinv Ht Hi. pose proof Hinv as [Hwf Hok Hown]. unfold table_at.
  destruct (present (rd (phys st) (t + 8 * i))) eqn:E.
  { exists (Some (frame_of (rd (phys st) (t + 8 * i)))), st, lv.
    split; [done|]. split; [by apply grows_refl|]. split; [|done].
    by eapply wf_child. }
  cbn [negb]. destruct (fa_alloc_spec (pmm_state st) Hok) as (p & s & Ea & Hs & Hp).
  rewrite Ea. bind. destruct Hp as [(-> & -> & Hav)|(Hp & Hpa & Hno & Hsp & Hmono & _)].
  { exists None, st, lv. rewrite Z.eqb_refl. split; [by destruct st|].
    split; [by apply grows_refl|done]. }
  rewrite (proj2 (Z.eqb_neq p 0)) by lia.
  destruct (new_entry_spec p) as [N1 N2]; [lia|done|].
  eexists (Some p), _, (<[p := Datatypes.S l]> lv).
  split; [unfold new_entry in *; cbn [phys set_pmm]; by rewrite N2|].
  split; [by apply create_grows|]. cbn [phys set_phys set_pmm].
  rewrite rd_wr_eq. split; [apply lookup_insert_eq|done].
Qed.

(** The indices of the code are those of the walk. *)
Lemma idx_levels va :
  idx_pml4 va = idx 4 va /\ idx_pdp va = idx 3 va /\ idx_pd va = idx 2 va /\
  idx_pt va = idx 1 va.
Proof. done. Qed.

Lemma get_pte_create root st lv va :
  vmm_inv st root lv ->
  exists a st' lv', get_pte st root va true = Some (a, st') /\
    grows root st lv st' lv' /\
    ((a = 0 /\ fa_avail (pmm_state st') = 0) \/
     (0 < a /\ slot 4 (phys st') root va = Some a)).
Proof.
  intros Hinv. assert (R : forall k, (1 <= k)%nat -> 0 <= idx k va < 512)
    by (intros; by apply idx_range). unfold get_pte.
  destruct (idx_levels va) as (-> & -> & -> & ->).
  destruct (table_at_create root st lv root 2 (idx 4 va) Hinv
    (wf_root _ _ _ (vi_wf _ _ _ Hinv)) (R 4%nat ltac:(lia))) as (r & st1 & lv1 & E1 & G1 & H1).
  rewrite E1. bind. destruct r as [p1|]; [|exists 0, st1, lv1; auto].
  destruct H1 as (L1 & P1 & F1). pose proof (wf_root _ _ _ (vi_wf _ _ _ Hinv)) as Lr.
  destruct (table_at_create root st1 lv1 p1 1 (idx 3 va) (gr_inv _ _ _ _ _ G1) L1
    (R 3%nat ltac:(lia))) as (r & st2 & lv2 & E2 & G2 & H2).
  rewrite E2. bind. pose proof (grows_trans _ _ _ _ _ _ _ G1 G2) as G12.
  destruct r as [p2|]; [|exists 0, st2, lv2; auto]. destruct H2 as (L2 & P2 & F2).
  destruct (table_at_create root st2 lv2 p2 0 (idx 2 va) (gr_inv _ _ _ _ _ G2) L2
    (R 2%nat ltac:(lia))) as (r & st3 & lv3 & E3 & G3 & H3).
  rewrite E3. bind. pose proof (grows_trans _ _ _ _ _ _ _ G12 G3) as G.
  destruct r as [p3|]; [|exists 0, st3, lv3; auto]. destruct H3 as (L3 & P3 & F3).
  eexists _, st3, lv3. split; [done|]. split; [done|]. right.
  pose proof (wf_addr _ _ _ (vi_wf _ _ _ (gr_inv _ _ _ _ _ G)) _ _ L3) as [A3 _].
  pose proof (R 1%nat ltac:(lia)). split; [lia|].
  pose proof (grows_trans _ _ _ _ _ _ _ G2 G3) as G23.
  pose proof (gr_sub _ _ _ _ _ G1 _ _ Lr) as Lr1.
  destruct (grow_entry _ _ _ _ _ _ _ _ G23 Lr1 (R 4%nat ltac:(lia)) P1) as [Q1 Q1'].
  destruct (grow_entry _ _ _ _ _ _ _ _ G3 (gr_sub _ _ _ _ _ G2 _ _ L1)
    (R 3%nat ltac:(lia)) P2) as [Q2 Q2'].
  by rewrite slot_S, Q1, Q1', F1, slot_S, Q2, Q2', F2, slot_S, P3, F3.
Qed.

Lemma get_pte_lookup st root va :
  get_pte st root va false = Some (default 0 (slot 4 (phys st) root va), st).
Proof.
  unfold get_pte, table_at. destruct (idx_levels va) as (-> & -> & -> & ->).
  rewrite slot_S. destruct (present _); [|done]. bind.
  rewrite slot_S. destruct (present _); [|done]. bind.
  rewrite slot_S. destruct (present _); done.
Qed.

Lemma slot_pos st root lv va a :
  vmm_inv st root lv -> slot 4 (phys st) root va = Some a -> 0 < a.
Proof.
  intros Hinv Hs. pose proof (vi_wf _ _ _ Hinv) as Hwf.
  destruct (slot_Some _ _ _ _ _ _ _ Hwf (wf_root _ _ _ Hwf) Hs) as (p & Hp & ->).
  destruct (wf_addr _ _ _ Hwf _ _ Hp). pose proof (idx_range 1 va ltac:(lia)). lia.
Qed.

(** [vmm_virt_to_phys] reads the final entry. *)
Lemma virt_to_phys_pte st lv va out :
  vmm_inv st (g_cr3_phys st) lv -> out <> 0 ->
  vmm_virt_to_phys st va out =
    Some (let e := pte 4 (phys st) (g_cr3_phys st) va in
          if present e then (1, Some (Z.lor (frame_of e) (Z.land va 0xFFF))) else (0, None)).
Proof.
  intros Hinv Hout. pose proof (vi_wf _ _ _ Hinv) as Hwf. unfold vmm_virt_to_phys.
  destruct (wf_addr _ _ _ Hwf _ _ (wf_root _ _ _ Hwf)) as [Hr _].
  rewrite (proj2 (Z.eqb_neq _ 0)) by lia. rewrite (proj2 (Z.eqb_neq out 0)) by done.
  cbn [orb]. rewrite get_pte_lookup. bind. unfold pte.
  destruct (slot 4 _ _ _) as [a|] eqn:Hs; [|done].
  change (default 0 (Some a)) with a.
  pose proof (slot_pos _ _ _ _ _ Hinv Hs). rewrite (proj2 (Z.eqb_neq a 0)) by lia.
  by destruct (present _).
Qed.

(** ** Mapping and unmapping *)

(** Only page [va] may change its entry; the frames in use outside the tables
    keep their contents. *)
Record only_page (va root : Z) st lv st' lv' : Prop := OnlyPage {
  op_inv : vmm_inv st' root lv';
  op_sub t l : lv !! t = Some l -> lv' !! t = Some l;
  op_regs : g_cr3_phys st' = g_cr3_phys st /\ cr3 st' = cr3 st;
  op_other va' : vpage va' <> vpage va ->
    pte 4 (phys st') root va' = pte 4 (phys st) root va';
  op_owned q : fa_owned (pmm_state st) q -> fa_owned (pmm_state st') q;
  op_new q : fa_owned (pmm_state st) q -> lv !! q = None -> lv' !! q = None;
  op_frame q j : fa_owned (pmm_state st) q -> q mod 4096 = 0 -> lv !! q = None ->
    0 <= j < 512 -> rd (phys st') (q + 8 * j) = rd (phys st) (q + 8 * j)
}.

Lemma grows_only va root st lv st' lv' :
  grows root st lv st' lv' -> only_page va root st lv st' lv'.
Proof. intros [A1 A2 (A3 & A4 & A5) A6 A7 A8 A9 A10]. by constructor. Qed.

Lemma write_only va root st lv st' lv' a v log :
  grows root st lv st' lv' -> slot 4 (phys st') root va = Some a ->
  let st'' := MkVmm (g_cr3_phys st') (cr3 st') (wr (phys st') a v) log (pmm_state st') in
  only_page va root st lv st'' lv' /\ pte 4 (phys st'') root va = v.
Proof.
  intros [[Hwf Hok Hown] A2 (A3 & A4 & A5) A6 A7 A8 A9 A10] Ha st''.
  destruct (pte_write _ _ _ _ _ v Hwf Ha) as (W & E & O). split; [|done].
  constructor; [by constructor|done|done| |done|done|]; cbn [phys st''].
  - intros va' Hne. rewrite O by (by apply vpage_ne). apply A6.
  - intros q j H1 H2 H3 H4. rewrite <- A10 by done.
    destruct (slot_Some _ _ _ _ _ _ _ Hwf (wf_root _ _ _ Hwf) Ha) as (p & Hp & ->).
    apply rd_wr_entry; try done; [by eapply wf_addr|apply idx_range; lia|].
    intros [-> _]. specialize (A9 _ H1 H3). congruence.
Qed.

Lemma only_page_v2p va root st lv st' lv' va' out :
  only_page va root st lv st' lv' -> vmm_inv st root lv -> root = g_cr3_phys st ->
  out <> 0 -> vpage va' <> vpage va ->
  vmm_virt_to_phys st' va' out = vmm_virt_to_phys st va' out.
Proof.
  intros [H1 H2 [H3 H4] H5 H6 _ H7] Hinv -> Hout Hne.
  rewrite (virt_to_phys_pte st lv), (virt_to_phys_pte st' lv') by (try rewrite H3; done).
  by rewrite H3, H5.
Qed.

Definition map_entry (pa flags : Z) : Z :=
  Z.lor (frame_of pa) (Z.land flags (u64 (Z.lnot VMM_PS))).

Lemma map_page_spec st lv va pa flags :
  vmm_inv st (g_cr3_phys st) lv ->
  exists r st' lv', vmm_map_page st va pa flags = Some (r, st') /\
    only_page va (g_cr3_phys st) st lv st' lv' /\
    ((r = -2 /\ fa_avail (pmm_state st') = 0 /\ invlpg_log st' = invlpg_log st /\
      pte 4 (phys st') (g_cr3_phys st) va = pte 4 (phys st) (g_cr3_phys st) va) \/
     (r = 0 /\ pte 4 (phys st') (g_cr3_phys st) va = map_entry pa flags /\
      invlpg_log st' = va :: invlpg_log st)).
Proof.
  intros Hinv. pose proof (vi_wf _ _ _ Hinv) as Hwf. unfold vmm_map_page.
  destruct (wf_addr _ _ _ Hwf _ _ (wf_root _ _ _ Hwf)) as [Hr _].
  rewrite (proj2 (Z.eqb_neq (g_cr3_phys st) 0)) by lia.
  destruct (get_pte_create _ _ _ va Hinv) as (a & st1 & lv1 & E & G & [[-> Hav]|[Ha Hs]]);
    rewrite E; bind.
  - exists (-2), st1, lv1. split; [done|]. split; [by apply grows_only|]. left.
    split_and!; [done|done|apply G|apply G].
  - rewrite (proj2 (Z.eqb_neq a 0)) by lia.
    destruct (write_only va _ _ _ _ _ a (map_entry pa flags) (va :: invlpg_log st1) G Hs)
      as [O Hp].
    eexists 0, _, lv1. split; [done|]. split; [exact O|]. right.
    split_and!; [done|exact Hp|]. cbn [invlpg set_phys invlpg_log]. f_equal. apply G.
Qed.

Lemma unmap_page_spec st lv va :
  vmm_inv st (g_cr3_phys st) lv ->
  exists r st', vmm_unmap_page st va = Some (r, st') /\
    only_page va (g_cr3_phys st) st lv st' lv /\
    pte 4 (phys st') (g_cr3_phys st) va = 0 /\ pmm_state st' = pmm_state st /\
    ((r = -2 /\ slot 4 (phys st) (g_cr3_phys st) va = None /\ st' = st) \/
     (r = 0 /\ is_Some (slot 4 (phys st) (g_cr3_phys st) va) /\
      invlpg_log st' = va :: invlpg_log st)).
Proof.
  intros Hinv. pose proof (vi_wf _ _ _ Hinv) as Hwf. unfold vmm_unmap_page.
  destruct (wf_addr _ _ _ Hwf _ _ (wf_root _ _ _ Hwf)) as [Hr _].
  rewrite (proj2 (Z.eqb_neq (g_cr3_phys st) 0)) by lia.
  rewrite get_pte_lookup. bind. pose proof (grows_refl _ _ _ Hinv) as G.
  destruct (slot 4 _ _ _) as [a|] eqn:Hs.
  - change (default 0 (Some a)) with a. pose proof (slot_pos _ _ _ _ _ Hinv Hs).
    rewrite (proj2 (Z.eqb_neq a 0)) by lia.
    destruct (write_only va _ _ _ _ _ a 0 (va :: invlpg_log st) G Hs) as [O Hp].
    eexists 0, _. split; [done|]. split; [exact O|]. split; [exact Hp|]. split; [done|].
    right. split_and!; [done|by eexists|done].
  - exists (-2), st. split; [done|]. split; [by apply grows_only|].
    unfold pte. rewrite Hs. split_and!; [done|done|]. by left.
Qed.

End spec.

End VmmSpec.
