(* ===== verification/VmmProps.v ===== *)
(** * Properties of the virtual memory manager

    The contracts of [vmm_map_page], [vmm_unmap_page], [vmm_virt_to_phys] and
    [vmm_init_identity], for any frame allocator that implements the
    interface, and their instances at the physical memory manager. *)

From S2P Require Import Prelude Mb2 Pmm PmmSpec FrameAlloc Vmm VmmSpec.

Module VmmProps.

Import Vmm VmmSpec.

Section identity.
Context {S : Type} `{FA : FrameAlloc S}.
Implicit Types (st : vmm S) (lv : gmap Z nat).

(** The first [k] pages are mapped to themselves, present and writable, and
    nothing else is mapped. *)
Definition identity_upto (k : Z) (m : mem) (root : Z) : Prop :=
  forall va, pte 4 m root va =
    if vpage va <? k then Z.lor (4096 * vpage va) (Z.lor VMM_PRESENT VMM_RW) else 0.

Lemma vpage_page k : 0 <= k < 2^36 -> vpage (4096 * k) = k.
Proof. intros H. unfold vpage. rewrite Z.mul_comm, Z.div_mul, Z.mod_small by lia. done. Qed.

Lemma frame_of_page k : 0 <= k < 2^36 -> frame_of (4096 * k) = 4096 * k.
Proof. intros H. apply frame_of_aligned; [lia|]. zmod. Qed.

(** From [st] to [st'] no frame in use outside the tables became a table, and
    none was written. *)
Definition spares st lv st' lv' : Prop := forall q, fa_owned (pmm_state st) q -> lv !! q = None ->
  fa_owned (pmm_state st') q /\ lv' !! q = None /\
  (q mod 4096 = 0 -> forall j, 0 <= j < 512 -> rd (phys st') (q + 8 * j) = rd (phys st) (q + 8 * j)).

Lemma spares_trans st lv st1 lv1 st2 lv2 :
  spares st lv st1 lv1 -> spares st1 lv1 st2 lv2 -> spares st lv st2 lv2.
Proof.
  intros H1 H2 q Hq Hn. destruct (H1 q Hq Hn) as (A1 & A2 & A3). destruct (H2 q A1 A2) as (B1 & B2 & B3).
  split_and!; [done|done|]. intros Hm j Hj. rewrite B3 by done. by apply A3.
Qed.

Lemma only_page_spares va root st lv st' lv' : only_page va root st lv st' lv' -> spares st lv st' lv'.
Proof.
  intros O q Hq Hn. split; [by apply (op_owned _ _ _ _ _ _ O)|]. split; [by apply (op_new _ _ _ _ _ _ O)|].
  intros Hm j Hj. by apply (op_frame _ _ _ _ _ _ O).
Qed.

(** The mapping loop maps a prefix of the pages; it stops early only when no
    frame is left. *)
Lemma identity_loop_spec root n : forall st lv k,
  0 <= k -> k + Z.of_nat n <= 2^36 -> vmm_inv st root lv -> identity_upto k (phys st) root ->
  exists st' lv' k', identity_loop n st root (4096 * k) = Some st' /\
    vmm_inv st' root lv' /\ identity_upto k' (phys st') root /\
    k <= k' <= k + Z.of_nat n /\
    (k' < k + Z.of_nat n -> fa_avail (pmm_state st') = 0) /\ spares st lv st' lv'.
Proof.
  induction n as [|n IH]; intros st lv k Hk Hn Hinv Hid.
  { exists st, lv, k. split_and!; try done; try lia. }
  cbn [identity_loop].
  destruct (get_pte_create _ _ _ (4096 * k) Hinv) as (a & st1 & lv1 & E & G & Ha).
  rewrite E. bind. destruct Ha as [[-> Hav]|[Ha Hs]].
  { exists st1, lv1, k. split_and!; [done|apply G| |lia|lia|done|].
    - intros va. rewrite (gr_pte _ _ _ _ _ G). apply Hid.
    - eapply only_page_spares, (grows_only 0). exact G. }
  rewrite (proj2 (Z.eqb_neq a 0)) by lia. rewrite frame_of_page by lia.
  destruct (write_only (4096 * k) _ _ _ _ _ a (Z.lor (4096 * k) (Z.lor VMM_PRESENT VMM_RW))
    (invlpg_log st1) G Hs) as [O Hp]. cbn zeta in O, Hp.
  replace (4096 * k + PAGE_SIZE) with (4096 * (k + 1)) by (unfold PAGE_SIZE; lia).
  destruct (IH _ lv1 (k + 1) ltac:(lia) ltac:(lia) (op_inv _ _ _ _ _ _ O))
    as (st' & lv' & k' & E' & Hi & Hid' & Hk' & Hav & Hsp).
  - intros va. destruct (decide (vpage va = k)) as [Ev|Ev].
    + rewrite (proj2 (Z.ltb_lt _ _)) by lia.
      rewrite (pte_vpage _ _ va (4096 * k)) by (rewrite vpage_page; lia). by rewrite Ev.
    + rewrite (op_other _ _ _ _ _ _ O) by (rewrite vpage_page; lia). rewrite Hid.
      repeat zcase; done || lia.
  - exists st', lv', k'. split_and!; [exact E'|done|done|lia|lia| |].
    + intros. apply Hav. lia.
    + eapply spares_trans; [|exact Hsp]. eapply only_page_spares. exact O.
Qed.

(** An empty root table in a fresh frame. *)
Lemma empty_root st root s :
  0 < root < 2^32 -> root mod 4096 = 0 -> fa_ok s -> fa_owned s root ->
  let st' := set_phys (set_pmm st s) (zero_table 512 (phys st) root) in
  vmm_inv st' root {[root := 4%nat]} /\ identity_upto 0 (phys st') root.
Proof.
  intros Hr Ha Hok Hown st'. subst st'. cbn [phys set_phys].
  assert (Hz : forall i, 0 <= i < 512 -> rd (zero_table 512 (phys st) root) (root + 8 * i) = 0)
    by (intros; apply zero_table_in; lia).
  assert (Hl : forall t l, ({[root := 4%nat]} : gmap Z nat) !! t = Some l -> t = root)
    by (intros t l [-> _]%lookup_singleton_Some; done).
  split.
  - constructor; cbn [phys set_phys set_pmm pmm_state]; [|done|by intros t l ->%Hl].
    constructor; [apply lookup_singleton_eq|by intros t l ->%Hl| |].
    + intros t l i ->%Hl Hi. by rewrite Hz.
    + intros t l i t' l' i' ->%Hl Hi. by rewrite Hz.
  - intros va. rewrite pte_S, Hz by (apply idx_range; lia). zcase; [|done].
    pose proof (Z.mod_pos_bound (va / 4096) (2^36)). unfold vpage in *. lia.
Qed.

Lemma identity_pages_eq : Z.of_nat (Z.to_nat identity_pages) = 2^20.
Proof. unfold identity_pages, PAGE_SIZE. change (2^32 / 4096) with (2^20). lia. Qed.

(** What [vmm_init_identity] establishes: it does nothing without a frame for
    the root; otherwise it loads a root whose tables map a prefix of the low
    4 GiB onto itself, all of it unless the allocator is exhausted. *)
Lemma init_identity_spec st :
  fa_ok (pmm_state st) ->
  exists st', vmm_init_identity st = Some st' /\
   ((st' = st /\ fa_avail (pmm_state st) = 0) \/
    (exists lv k, vmm_inv st' (g_cr3_phys st') lv /\ cr3 st' = g_cr3_phys st' /\
      0 <= k <= 2^20 /\ identity_upto k (phys st') (g_cr3_phys st') /\
      (k < 2^20 -> fa_avail (pmm_state st') = 0) /\ spares st ∅ st' lv)).
Proof.
  intros Hok. unfold vmm_init_identity.
  destruct (fa_alloc_spec (pmm_state st) Hok) as (p & s & Ea & Hs & Hp).
  rewrite Ea. bind. destruct Hp as [(-> & -> & Hav)|(Hp & Hpa & Hno & Hsp & Hmono & _)].
  { exists st. split; [by destruct st|]. by left. }
  rewrite (proj2 (Z.eqb_neq p 0)) by lia.
  destruct (empty_root st p s Hp Hpa Hs Hsp) as [Hi Hid].
  destruct (identity_loop_spec p (Z.to_nat identity_pages) _ _ 0 ltac:(lia)
    ltac:(rewrite identity_pages_eq; lia) Hi Hid) as (st' & lv' & k & E & Hi' & Hid' & Hk & Hav & Hkeep).
  cbn [phys set_pmm] in *. change (4096 * 0) with 0 in E. rewrite E. bind.
  eexists. split; [done|]. right. exists lv', k. cbn [phys vmm_load_cr3 g_cr3_phys cr3 pmm_state].
  rewrite identity_pages_eq in *.
  split_and!; [|done|lia|lia|done|intros; apply Hav; lia|].
  - destruct Hi' as [H1 H2 H3]. by constructor.
  - intros q Hq _. assert (Hqp : q <> p) by (by intros ->).
    destruct (Hkeep q) as (K1 & K2 & K3); [by apply Hmono|by apply lookup_singleton_ne|].
    split_and!; [done|done|]. intros Hm j Hj.
    cbn [phys vmm_load_cr3]. rewrite K3 by done. cbn [phys set_phys]. apply zero_table_out.
    intros j' Hj' E'. by destruct (entry_inj q j p j' Hm Hpa Hj Hj' E').
Qed.

End identity.

(** ** Translations of new entries *)

Lemma u64_testbit x n : 0 <= n < 64 -> Z.testbit (u64 x) n = Z.testbit x n.
Proof. intros H. apply Z.mod_pow2_bits_low. lia. Qed.

Lemma map_entry_present pa flags :
  0 <= pa < 2^64 -> present (map_entry pa flags) = present flags.
Proof.
  intros Hpa. unfold map_entry. rewrite present_lor, !present_testbit, frame_of_eq by done.
  rewrite Z.land_spec, u64_testbit by lia. change 4096 with (2^12).
  rewrite Z.mul_pow2_bits_low by lia. cbn [orb]. by rewrite andb_true_r.
Qed.

(** Flags above bit 11 stay in the address part. *)
Lemma map_entry_frame pa flags :
  0 <= pa < 2^64 ->
  frame_of (map_entry pa flags)
  = Z.lor (pa / 4096 * 4096) (frame_of flags).
Proof.
  intros Hpa. unfold map_entry. rewrite frame_of_lor, (frame_of_eq pa) by done.
  rewrite (frame_of_aligned (pa / 4096 * 4096)) by zmod. f_equal.
  unfold frame_of. rewrite <- Z.land_assoc. f_equal.
Qed.

Lemma off_bits va : Z.land va 0xFFF = va mod 4096.
Proof. change 0xFFF with (2^12 - 1). by rewrite land_low. Qed.

(** ** Contracts *)

Section contracts.
Context {S : Type} `{FA : FrameAlloc S}.
Implicit Types (st : vmm S) (lv : gmap Z nat).

(** C4. With well-formed tables [vmm_map_page] always returns 0 or -2.  On 0
    the final entry of the page is the requested one and the page has been
    flushed; on -2 the allocator is exhausted and the page translates as
    before.  In both cases every other page translates as before, the tables
    stay a tree in frames of the allocator, and no frame in use outside the
    tables is written. *)
Theorem vmm_map_page_correct st lv va pa flags :
  vmm_inv st (g_cr3_phys st) lv ->
  exists r st' lv', vmm_map_page st va pa flags = Some (r, st') /\
    only_page va (g_cr3_phys st) st lv st' lv' /\
    (forall va' out, out <> 0 -> vpage va' <> vpage va ->
       vmm_virt_to_phys st' va' out = vmm_virt_to_phys st va' out) /\
    ((r = -2 /\ fa_avail (pmm_state st') = 0 /\ invlpg_log st' = invlpg_log st /\
      forall out, out <> 0 -> vmm_virt_to_phys st' va out = vmm_virt_to_phys st va out) \/
     (r = 0 /\ pte 4 (phys st') (g_cr3_phys st') va = map_entry pa flags /\
      invlpg_log st' = va :: invlpg_log st)).
Proof.
  intros Hinv. destruct (map_page_spec st lv va pa flags Hinv)
    as (r & st' & lv' & E & O & H). pose proof (proj1 (op_regs _ _ _ _ _ _ O)) as R.
  exists r, st', lv'. split; [done|]. split; [done|]. split.
  { intros va' out Hout Hne. by eapply only_page_v2p. }
  rewrite R. destruct H as [(-> & H1 & H2 & H3)|H]; [left|by right].
  split_and!; [done|done|done|]. intros out Hout.
  rewrite (virt_to_phys_pte st' lv'), (virt_to_phys_pte st lv), R, H3; try done.
  rewrite R. apply O.
Qed.

(** A page mapped with flags in the low 12 bits, PRESENT among them,
    translates to the frame it was mapped to, with the offset of the address. *)
Theorem vmm_map_translate st lv va va' pa flags st' out :
  vmm_inv st (g_cr3_phys st) lv -> 0 <= pa < 2^64 -> 0 <= flags < 4096 ->
  present flags = true -> vmm_map_page st va pa flags = Some (0, st') ->
  vpage va' = vpage va -> out <> 0 ->
  vmm_virt_to_phys st' va' out = Some (1, Some (pa / 4096 * 4096 + va' mod 4096)).
Proof.
  intros Hinv Hpa Hf Hp E Hv Hout. destruct (map_page_spec st lv va pa flags Hinv)
    as (r & st1 & lv' & E' & O & H). rewrite E in E'. injection E' as <- <-.
  pose proof (proj1 (op_regs _ _ _ _ _ _ O)) as R.
  destruct H as [(? & _)|(_ & H & _)]; [done|].
  rewrite (virt_to_phys_pte st' lv') by (try rewrite R; done || apply O).
  rewrite R, (pte_vpage _ _ va' va), H by done. cbv zeta.
  rewrite map_entry_present, Hp, map_entry_frame, frame_of_low, Z.lor_0_r, off_bits by done.
  rewrite (lor_add _ _ 12); [done|lia|zmod|change (2^12) with 4096; zmod].
Qed.

(** C34. After [vmm_unmap_page] the page has no translation and every other
    page has the one it had; the result is -2, and nothing changes, exactly
    when a table of the walk is missing. *)
Theorem vmm_unmap_page_correct st lv va :
  vmm_inv st (g_cr3_phys st) lv ->
  exists r st', vmm_unmap_page st va = Some (r, st') /\
    only_page va (g_cr3_phys st) st lv st' lv /\ pmm_state st' = pmm_state st /\
    (forall va' out, out <> 0 ->
       vmm_virt_to_phys st' va' out
       = if vpage va' =? vpage va then Some (0, None) else vmm_virt_to_phys st va' out) /\
    ((r = -2 /\ slot 4 (phys st) (g_cr3_phys st) va = None /\ st' = st) \/
     (r = 0 /\ is_Some (slot 4 (phys st) (g_cr3_phys st) va) /\
      invlpg_log st' = va :: invlpg_log st)).
Proof.
  intros Hinv. destruct (unmap_page_spec st lv va Hinv) as (r & st' & E & O & H0 & Hs & H).
  pose proof (proj1 (op_regs _ _ _ _ _ _ O)) as R.
  exists r, st'. split_and!; [done|done|done| |done]. intros va' out Hout.
  zcase; [|by eapply only_page_v2p].
  rewrite (virt_to_phys_pte st' lv) by (try rewrite R; done || apply O).
  by rewrite R, (pte_vpage _ _ va' va), H0.
Qed.

(** [vmm_init_identity] always returns.  If it gets a frame for the root
    it loads that root into CR3 with well-formed tables under which a prefix
    of the low 4 GiB translates to itself and no other address translates; the
    prefix is all of the 4 GiB unless the allocator has no frame left.  No
    table is in a frame that was in use, and no such frame is written. *)
Theorem vmm_init_identity_correct st :
  fa_ok (pmm_state st) ->
  exists st', vmm_init_identity st = Some st' /\
   ((st' = st /\ fa_avail (pmm_state st) = 0) \/
    (exists lv k, vmm_inv st' (g_cr3_phys st') lv /\ cr3 st' = g_cr3_phys st' /\
      0 <= k <= 2^20 /\ (k < 2^20 -> fa_avail (pmm_state st') = 0) /\ spares st ∅ st' lv /\
      forall va out, 0 <= va < 2^48 -> out <> 0 ->
        vmm_virt_to_phys st' va out
        = if va <? 4096 * k then Some (1, Some va) else Some (0, None))).
Proof.
  intros Hok. destruct (init_identity_spec st Hok) as (st' & E & H). exists st'.
  split; [done|]. destruct H as [|(lv & k & Hi & Hc & Hk & Hid & Hav & Hkeep)]; [by left|right].
  exists lv, k. split_and!; [done|done|lia|lia|done|exact Hkeep|]. intros va out Hva Hout.
  rewrite (virt_to_phys_pte st' lv), Hid by done. cbv zeta.
  assert (Hv : vpage va = va / 4096) by (apply Z.mod_small; zmod). rewrite Hv, off_bits.
  destruct (Z.ltb_spec (va / 4096) k), (Z.ltb_spec va (4096 * k)); [|zmod|zmod|done].
  rewrite !present_lor, orb_true_r, !frame_of_lor.
  rewrite (frame_of_low VMM_PRESENT), (frame_of_low VMM_RW) by done. rewrite !Z.lor_0_r.
  rewrite frame_of_page by zmod.
  rewrite (lor_add _ _ 12); [do 3 f_equal; zmod|lia|zmod|change (2^12) with 4096; zmod].
Qed.

(** The mask of [vmm_virt_to_phys] clears the low 12 bits only: for a
    page mapped with the no-execute flag the reported physical address has
    bit 63 set. *)
Theorem vmm_translate_keeps_nx st lv va pa st' out :
  vmm_inv st (g_cr3_phys st) lv -> 0 <= pa < 2^52 -> out <> 0 ->
  vmm_map_page st va pa (Z.lor VMM_PRESENT VMM_NX) = Some (0, st') ->
  vmm_virt_to_phys st' va out = Some (1, Some (2^63 + (pa / 4096 * 4096 + va mod 4096))).
Proof.
  intros Hinv Hpa Hout E. destruct (map_page_spec st lv va pa (Z.lor VMM_PRESENT VMM_NX) Hinv)
    as (r & st1 & lv' & E' & O & H). rewrite E in E'. injection E' as <- <-.
  pose proof (proj1 (op_regs _ _ _ _ _ _ O)) as R.
  destruct H as [(? & _)|(_ & H & _)]; [done|].
  rewrite (virt_to_phys_pte st' lv') by (try rewrite R; done || apply O).
  rewrite R, H. cbv zeta. rewrite map_entry_present, map_entry_frame by lia.
  rewrite present_lor. change (present VMM_PRESENT || present VMM_NX) with true. cbv iota.
  change (frame_of (Z.lor VMM_PRESENT VMM_NX)) with (2^63).
  rewrite off_bits, (Z.lor_comm (_ * _)).
  rewrite (lor_add (2^63) _ 63), (lor_add _ _ 12); [do 3 f_equal; lia|lia| | |lia|done|]; zmod.
Qed.

End contracts.

(** ** Instances at the physical memory manager

    A machine with four free frames, the first of which becomes the root. *)

Definition demo_vmm : vmm Pmm.pmm := MkVmm 0 0 ∅ [] PmmSpec.demo.

Definition demo_frames : Pmm.pmm :=
  snd (default (0, PmmSpec.demo) (Pmm.pmm_alloc_frames PmmSpec.demo 1)).

Definition demo_paged : vmm Pmm.pmm :=
  vmm_load_cr3 (set_phys (set_pmm demo_vmm demo_frames) (zero_table 512 ∅ 0x100000)) 0x100000.

Lemma demo_ok : fa_ok (PmmSpec.demo : Pmm.pmm).
Proof. exact PmmSpec.demo_inv. Qed.

Lemma demo_paged_inv : vmm_inv demo_paged (g_cr3_phys demo_paged) {[0x100000 := 4%nat]}.
Proof.
  destruct (fa_alloc_spec PmmSpec.demo demo_ok) as (p & s & E & Hs & Hp).
  assert (Ed : fa_alloc PmmSpec.demo = Some (0x100000, demo_frames)) by (by vm_compute).
  rewrite Ed in E. injection E as <- <-.
  destruct Hp as [(? & _)|(Hp & Ha & _ & Ho & _)]; [done|].
  destruct (empty_root demo_vmm 0x100000 demo_frames Hp Ha Hs Ho) as [[H1 H2 H3] _].
  by constructor.
Qed.

Lemma vmm_map_page_correct_witness :
  exists r st' lv', vmm_map_page demo_paged 0x5000 0x9000 3 = Some (r, st') /\
    only_page 0x5000 (g_cr3_phys demo_paged) demo_paged {[0x100000 := 4%nat]} st' lv'.
Proof.
  destruct (vmm_map_page_correct demo_paged {[0x100000 := 4%nat]} 0x5000 0x9000 3 demo_paged_inv)
    as (r & st' & lv' & E & O & _).
  exists r, st', lv'. split; [exact E|exact O].
Defined.

Definition demo_mapped (flags : Z) : vmm Pmm.pmm :=
  snd (default (0, demo_paged) (vmm_map_page demo_paged 0x5000 0x9000 flags)).

Lemma demo_mapped_ok flags :
  option_map fst (vmm_map_page demo_paged 0x5000 0x9000 flags) = Some 0 ->
  vmm_map_page demo_paged 0x5000 0x9000 flags = Some (0, demo_mapped flags).
Proof.
  unfold demo_mapped. destruct (vmm_map_page _ _ _ _) as [[r s]|]; cbn [option_map fst snd];
    intros H; [|discriminate H]. injection H as ->. reflexivity.
Qed.

Lemma vmm_map_translate_witness :
  vmm_virt_to_phys (demo_mapped 3) 0x5123 1 = Some (1, Some 0x9123).
Proof.
  apply (vmm_map_translate demo_paged {[0x100000 := 4%nat]} 0x5000 0x5123 0x9000 3 (demo_mapped 3) 1
    demo_paged_inv); [lia|lia|reflexivity| |reflexivity|lia].
  apply demo_mapped_ok. vm_compute. reflexivity.
Defined.

Lemma vmm_unmap_page_correct_witness :
  exists r st', vmm_unmap_page demo_paged 0x5000 = Some (r, st') /\
    vmm_virt_to_phys st' 0x5000 1 = Some (0, None).
Proof.
  destruct (vmm_unmap_page_correct demo_paged {[0x100000 := 4%nat]} 0x5000 demo_paged_inv)
    as (r & st' & E & _ & _ & H & _).
  exists r, st'. split; [exact E|]. apply (H 0x5000 1). lia.
Defined.

Lemma vmm_init_identity_correct_witness :
  exists st', vmm_init_identity demo_vmm = Some st'.
Proof.
  destruct (vmm_init_identity_correct demo_vmm demo_ok) as (st' & E & _).
  exists st'. exact E.
Defined.

Lemma vmm_translate_keeps_nx_witness :
  vmm_virt_to_phys (demo_mapped (Z.lor VMM_PRESENT VMM_NX)) 0x5000 1
  = Some (1, Some (2^63 + (0x9000 / 4096 * 4096 + 0x5000 mod 4096))).
Proof.
  apply (vmm_translate_keeps_nx demo_paged {[0x100000 := 4%nat]} 0x5000 0x9000);
    [exact demo_paged_inv|lia|lia|].
  apply demo_mapped_ok. vm_compute. reflexivity.
Defined.

End VmmProps.
