(* ===== verification/Kmalloc.v ===== *)
(** * Kernel heap ([src/kernel/mm/kmalloc.c])

    A first-fit allocator.  The block headers live in the heap itself: the
    model keeps the memory cells that hold headers, stale ones included, as a
    map from addresses to headers, and follows the [next] pointers as the code
    does.  Reading a header where none was ever written has no result. *)

From S2P Require Import Prelude.

Module Kmalloc.

Record block_header := Hdr { size : Z; free : Z; next : Z }.

Definition ALIGN_UP (x a : Z) : Z := Z.land (x + (a - 1))%u64 (u64 (Z.lnot (a - 1))).
(** [sizeof(block_header_t)] is 24. *)
Definition HEADER_SIZE : Z := ALIGN_UP 24 16.

Record kheap := Kheap {
  g_heap_base : Z;
  g_heap_size : Z;
  g_head : Z;
  hdrs : gmap Z block_header
}.

Definition set_hdrs (st : kheap) (hs : gmap Z block_header) : kheap :=
  Kheap (g_heap_base st) (g_heap_size st) (g_head st) hs.

Definition kmalloc_init (st : kheap) (heap_start heap_size : Z) : kheap :=
  Kheap heap_start heap_size heap_start
    (<[heap_start := Hdr (heap_size - HEADER_SIZE)%u64 1 0]> (hdrs st)).

Definition split_block (hs : gmap Z block_header) (blk asize : Z)
    : option (gmap Z block_header) :=
  h ← hs !! blk;
  let total := size h in
  if ((asize + HEADER_SIZE)%u64 + 16)%u64 <=? total then
    let new_hdr := ((blk + HEADER_SIZE)%u64 + asize)%u64 in
    let hs := <[new_hdr := Hdr ((total - asize)%u64 - HEADER_SIZE)%u64 1 (next h)]> hs in
    Some (<[blk := Hdr asize (free h) new_hdr]> hs)
  else Some hs.

(** The search loop of [kmalloc]: the first free block that is large enough,
    or 0 at the end of the list. *)
Fixpoint find_fit (fuel : nat) (hs : gmap Z block_header) (cur asize : Z) : option Z :=
  match fuel with
  | O => None
  | S fuel' =>
      if cur =? 0 then Some 0
      else
        h ← hs !! cur;
        if negb (free h =? 0) && (asize <=? size h) then Some cur
        else find_fit fuel' hs (next h) asize
  end.

(** More steps than a list without repetition can take. *)
Definition enough (hs : gmap Z block_header) : nat := S (stdpp.base.size hs).

Definition kmalloc (st : kheap) (sz : Z) : option (Z * kheap) :=
  if (sz =? 0) || (g_head st =? 0) then Some (0, st)
  else
    let asize := ALIGN_UP sz 16 in
    cur ← find_fit (enough (hdrs st)) (hdrs st) (g_head st) asize;
    if cur =? 0 then Some (0, st)
    else
      hs ← split_block (hdrs st) cur asize;
      h ← hs !! cur;
      Some ((cur + HEADER_SIZE)%u64, set_hdrs st (<[cur := Hdr (size h) 0 (next h)]> hs)).

Definition ptr_to_hdr (p : Z) : Z := (p - HEADER_SIZE)%u64.

(** The loop of [kfree]: absorb the next block while both are free and touch. *)
Fixpoint coalesce (fuel : nat) (hs : gmap Z block_header) (cur : Z)
    : option (gmap Z block_header) :=
  match fuel with
  | O => None
  | S fuel' =>
      if cur =? 0 then Some hs
      else
        h ← hs !! cur;
        if next h =? 0 then Some hs
        else
          n ← hs !! next h;
          let cur_end := ((cur + HEADER_SIZE)%u64 + size h)%u64 in
          if negb (free h =? 0) && negb (free n =? 0) && (cur_end =? next h) then
            coalesce fuel'
              (<[cur := Hdr (size h + (HEADER_SIZE + size n)%u64)%u64 (free h) (next n)]> hs)
              cur
          else coalesce fuel' hs (next h)
  end.

Definition kfree (st : kheap) (ptr : Z) : option kheap :=
  if ptr =? 0 then Some st
  else
    h ← hdrs st !! ptr_to_hdr ptr;
    let hs := <[ptr_to_hdr ptr := Hdr (size h) 1 (next h)]> (hdrs st) in
    hs ← coalesce (enough hs) hs (g_head st);
    Some (set_hdrs st hs).

Definition kmalloc_usable_size (st : kheap) (ptr : Z) : option Z :=
  if ptr =? 0 then Some 0
  else h ← hdrs st !! ptr_to_hdr ptr; Some (size h).

End Kmalloc.
