(* ===== verification/KmallocSpec.v ===== *)
(** * Correctness of the kernel heap

    The header list is refined to a list of blocks that tile the heap, with no
    two free blocks next to each other.  On such lists [kmalloc] is first fit
    and [kfree] merges free neighbours. *)

From S2P Require Import Prelude Kmalloc.

Module KmallocSpec.

Import Kmalloc.

(** ** Block lists *)

(** Payload size and whether the block is free. *)
Definition blk : Type := Z * bool.

(** Bytes taken by blocks and their headers. *)
Fixpoint total (bs : list blk) : Z :=
  match bs with [] => 0 | b :: r => 32 + b.1 + total r end.

Definition sizes_ok (bs : list blk) : Prop := Forall (fun b => 0 <= b.1 /\ b.1 mod 16 = 0) bs.

Definition int_of (f : bool) : Z := if f then 1 else 0.

(** The headers from address [a] on describe exactly the blocks [bs], each
    one starting where the one before ends. *)
Fixpoint chain (hs : gmap Z block_header) (a : Z) (bs : list blk) : Prop :=
  match bs with
  | [] => a = 0
  | b :: r => 0 < a /\ exists nx, hs !! a = Some (Hdr b.1 (int_of b.2) nx) /\
      (r <> [] -> nx = a + 32 + b.1) /\ chain hs nx r
  end.

(** No free block follows a free block. *)
Fixpoint coalesced (bs : list blk) : Prop :=
  match bs with
  | b :: ((c :: _) as r) => b.2 && c.2 = false /\ coalesced r
  | _ => True
  end.

(** First fit on block lists: the payload address and the new blocks. *)
Fixpoint first_fit (a n : Z) (bs : list blk) : option (Z * list blk) :=
  match bs with
  | [] => None
  | (s, f) :: r =>
      if f && (n <=? s) then
        Some (a + 32, if n + 48 <=? s then (n, false) :: (s - n - 32, true) :: r
                      else (s, false) :: r)
      else '(p, r') ← first_fit (a + 32 + s) n r; Some (p, (s, f) :: r')
  end.

(** Merge neighbouring free blocks, starting with block [(s, f)]. *)
Fixpoint merge (s : Z) (f : bool) (bs : list blk) : list blk :=
  match bs with
  | [] => [(s, f)]
  | (s', f') :: r => if f && f' then merge (s + (32 + s')) f r else (s, f) :: merge s' f' r
  end.

Definition merge_all (bs : list blk) : list blk :=
  match bs with [] => [] | (s, f) :: r => merge s f r end.

(** Mark the block with payload address [p] free. *)
Fixpoint release (a p : Z) (bs : list blk) : list blk :=
  match bs with
  | [] => []
  | (s, f) :: r => if a + 32 =? p then (s, true) :: r else (s, f) :: release (a + 32 + s) p r
  end.

(** The blocks in use: payload address and size. *)
Fixpoint live (a : Z) (bs : list blk) : list (Z * Z) :=
  match bs with
  | [] => []
  | (s, f) :: r => (if f then [] else [(a + 32, s)]) ++ live (a + 32 + s) r
  end.

(** ** The invariant of the heap *)

Record inv (st : kheap) (bs : list blk) : Prop := Inv {
  inv_head : g_head st = g_heap_base st;
  inv_base : 0 < g_heap_base st /\ g_heap_base st mod 16 = 0;
  inv_end : g_heap_base st + g_heap_size st < 2^63;
  inv_chain : chain (hdrs st) (g_heap_base st) bs;
  inv_total : total bs = g_heap_size st;
  inv_ne : bs <> [];
  inv_sizes : sizes_ok bs;
  inv_merged : coalesced bs
}.

Lemma total_nonneg bs : sizes_ok bs -> 0 <= total bs.
Proof. induction 1; simpl; lia. Qed.

Lemma total_app l r : total (l ++ r) = total l + total r.
Proof. induction l; simpl; lia. Qed.

Lemma sizes_app l r : sizes_ok (l ++ r) <-> sizes_ok l /\ sizes_ok r.
Proof. apply Forall_app. Qed.

Lemma sizes_cons b r : sizes_ok (b :: r) <-> (0 <= b.1 /\ b.1 mod 16 = 0) /\ sizes_ok r.
Proof. apply Forall_cons_iff. Qed.

Lemma header_size : HEADER_SIZE = 32.
Proof. reflexivity. Qed.

(** A chain only depends on the headers at or above its start. *)
Lemma chain_ext hs hs' bs : forall a,
  sizes_ok bs -> (forall x, a <= x -> hs' !! x = hs !! x) -> chain hs a bs -> chain hs' a bs.
Proof.
  induction bs as [|b r IH]; intros a Hs He Hc; [done|]. simpl in *.
  apply sizes_cons in Hs as [[Hs0 _] Hs].
  destruct Hc as (Ha & nx & E & Hn & Hc). split; [done|]. exists nx.
  rewrite He by lia. split_and!; [done|done|].
  destruct r as [|b' r]; [done|]. specialize (Hn ltac:(done)).
  apply IH; [done| |done]. intros x Hx. apply He. lia.
Qed.

(** Rebuild the tail of a chain. *)
Lemma chain_tail hs hs' l b r b' r' : forall a,
  sizes_ok (l ++ b :: r) ->
  chain hs a (l ++ b :: r) ->
  (forall x, x < a + total l -> hs' !! x = hs !! x) ->
  (chain hs (a + total l) (b :: r) -> chain hs' (a + total l) (b' :: r')) ->
  chain hs' a (l ++ b' :: r').
Proof.
  induction l as [|c l IH]; intros a Hs Hc He Ht.
  - simpl in *. rewrite Z.add_0_r in *. auto.
  - simpl in Hc. apply sizes_cons in Hs as [[Hs0 _] Hs].
    destruct Hc as (Ha & nx & E & Hn & Hc).
    specialize (Hn ltac:(by destruct l)). subst nx.
    apply sizes_app in Hs as Hs'. destruct Hs' as [Hl _]. pose proof (total_nonneg l Hl).
    simpl in He, Ht. simpl. split; [done|]. exists (a + 32 + c.1).
    rewrite He by lia. split_and!; [done|by destruct l|].
    replace (a + (32 + c.1 + total l)) with (a + 32 + c.1 + total l) in * by lia.
    by apply IH.
Qed.

Lemma chain_at hs l b r : forall a,
  chain hs a (l ++ b :: r) -> chain hs (a + total l) (b :: r).
Proof.
  induction l as [|c l IH]; intros a Hc; simpl in Hc; [by rewrite Z.add_0_r|].
  destruct Hc as (Ha & nx & E & Hn & Hc). specialize (Hn ltac:(by destruct l)). subst nx.
  replace (a + total (c :: l)) with (a + 32 + c.1 + total l) by (simpl; lia). by apply IH.
Qed.

(** A chain has no more blocks than the map has headers. *)
Lemma chain_length hs bs : forall a,
  sizes_ok bs -> chain hs a bs -> (length bs <= stdpp.base.size hs)%nat.
Proof.
  revert hs. induction bs as [|b r IH]; intros hs a Hs Hc; simpl; [lia|].
  apply sizes_cons in Hs as [[Hs0 _] Hs]. destruct Hc as (Ha & nx & E & Hn & Hc).
  assert (H : (length r <= stdpp.base.size (delete a hs))%nat).
  { destruct r as [|c r']; [simpl; lia|]. apply (IH _ nx Hs).
    apply (chain_ext hs); [done| |done]. specialize (Hn ltac:(done)).
    intros x Hx. apply lookup_delete_ne. lia. }
  rewrite map_size_delete_Some in H by (by eexists).
  pose proof (map_size_ne_0_lookup_2 hs a ltac:(by eexists)). lia.
Qed.

(** ** Search *)

Lemma int_of_test f : negb (int_of f =? 0) = f.
Proof. by destruct f. Qed.

(** The blocks before the first fit, and the fit. *)
Lemma first_fit_split n bs : forall a,
  match first_fit a n bs with
  | None => Forall (fun b => b.2 && (n <=? b.1) = false) bs
  | Some (p, bs') => exists l s r, bs = l ++ (s, true) :: r /\ n <= s /\
      Forall (fun b => b.2 && (n <=? b.1) = false) l /\ p = a + total l + 32 /\
      bs' = l ++ (if n + 48 <=? s then (n, false) :: (s - n - 32, true) :: r
                  else (s, false) :: r)
  end.
Proof.
  induction bs as [|[s f] r IH]; intros a; simpl; [done|].
  destruct (f && (n <=? s)) eqn:E.
  - apply andb_true_iff in E as [-> E%Z.leb_le]. exists [], s, r. simpl.
    split_and!; try done; lia.
  - specialize (IH (a + 32 + s)). destruct (first_fit _ n r) as [[p bs']|]; simpl in *.
    + destruct IH as (l & s1 & r1 & -> & H1 & H2 & -> & ->).
      exists ((s, f) :: l), s1, r1. simpl. split_and!; try done; [by constructor|lia].
    + by constructor.
Qed.

Lemma find_fit_spec hs n bs : forall fuel a,
  sizes_ok bs -> chain hs a bs -> (length bs < fuel)%nat ->
  find_fit fuel hs a n =
    Some (match first_fit a n bs with Some (p, _) => p - 32 | None => 0 end).
Proof.
  induction bs as [|[s f] r IH]; intros fuel a Hs Hc Hf; destruct fuel as [|fuel];
    simpl in Hf; try lia; simpl in *.
  - subst a. done.
  - apply sizes_cons in Hs as [[Hs0 _] Hs]. destruct Hc as (Ha & nx & E & Hn & Hc).
    rewrite (proj2 (Z.eqb_neq a 0)) by lia. rewrite E. cbn [mbind option_bind free size next fst snd].
    rewrite int_of_test. destruct (f && (n <=? s)); [do 2 f_equal; lia|].
    rewrite (IH fuel nx) by (done || lia). destruct r as [|c r']; [done|].
    rewrite (Hn ltac:(done)). cbn [fst]. by destruct (first_fit _ _ _) as [[]|].
Qed.

(** ** Splitting *)

Lemma chain_nil_next hs a b : chain hs a [b] -> hs !! a = Some (Hdr b.1 (int_of b.2) 0).
Proof. intros (_ & nx & E & _ & ->). done. Qed.

(** The header before [split_block] and [cur->free = 0], and the chain after. *)
Lemma split_spec hs a n s r :
  0 <= n <= s -> n mod 16 = 0 -> sizes_ok ((s, true) :: r) -> a + total ((s, true) :: r) < 2^63 ->
  chain hs a ((s, true) :: r) ->
  exists hs1 h, split_block hs a n = Some hs1 /\ hs1 !! a = Some h /\
    (forall x, x < a -> <[a := Hdr (size h) 0 (next h)]> hs1 !! x = hs !! x) /\
    chain (<[a := Hdr (size h) 0 (next h)]> hs1) a
      (if n + 48 <=? s then (n, false) :: (s - n - 32, true) :: r else (s, false) :: r).
Proof.
  intros Hn Hm Hs Ht Hc. apply sizes_cons in Hs as [[Hs0 _] Hs]. simpl in Hs0, Ht.
  pose proof (total_nonneg r Hs) as Hr. destruct Hc as (Ha & nx & E & Hnx & Hc).
  cbn [fst snd int_of] in *. unfold split_block. rewrite E, header_size. bind.
  cbn [size free next]. usimp. replace (n + 32 + 16) with (n + 48) by lia.
  assert (Hext : forall hs', (forall x, a + 32 + s <= x -> hs' !! x = hs !! x) -> chain hs' nx r).
  { intros hs' He. destruct r as [|c r']; [done|]. rewrite (Hnx ltac:(done)) in *.
    by apply (chain_ext hs). }
  destruct (Z.leb_spec (n + 48) s).
  - usimp. eexists _, _. split; [done|]. split; [apply lookup_insert_eq|]. split.
    { intros x Hx. by rewrite !lookup_insert_ne by lia. }
    cbn [size next]. split; [done|]. exists (a + 32 + n).
    split; [by rewrite lookup_insert_eq|]. split; [done|]. split; [lia|].
    exists nx. rewrite !lookup_insert_ne, lookup_insert_eq by lia.
    split_and!; [done|intros Hne; rewrite (Hnx Hne); simpl; lia|].
    apply Hext. intros x Hx. rewrite !lookup_insert_ne by lia. done.
  - eexists hs, _. split; [done|]. split; [exact E|]. split.
    { intros x Hx. by rewrite lookup_insert_ne by lia. }
    cbn [size next]. split; [done|]. exists nx. rewrite lookup_insert_eq.
    split_and!; [done|done|]. apply Hext. intros x Hx. by rewrite lookup_insert_ne by lia.
Qed.

(** ** Merging *)

Lemma coalesce_spec fuel : forall hs a s f r,
  (length r < fuel)%nat -> sizes_ok ((s, f) :: r) -> a + total ((s, f) :: r) < 2^63 ->
  chain hs a ((s, f) :: r) ->
  exists hs', coalesce fuel hs a = Some hs' /\ chain hs' a (merge s f r) /\
    (forall x, x < a -> hs' !! x = hs !! x).
Proof.
  induction fuel as [|fuel IH]; intros hs a s f r Hf Hs Ht Hc; [lia|].
  apply sizes_cons in Hs as [[Hs0 Hs16] Hs]. cbn [fst total] in *.
  pose proof Hc as (Ha & nx & E & Hnx & Hc'). cbn [fst snd] in *. cbn [coalesce].
  rewrite (proj2 (Z.eqb_neq a 0)) by lia. rewrite E. bind. cbn [next size free].
  destruct r as [|[s' f'] r].
  { simpl in Hc'. subst nx. rewrite Z.eqb_refl. eexists. split; [done|]. split; [|done].
    exact Hc. }
  pose proof (Hnx ltac:(done)) as ->. clear Hnx. apply sizes_cons in Hs as [[Hs0' Hs16'] Hs].
  pose proof (total_nonneg r Hs). cbn [fst total length merge] in *.
  rewrite (proj2 (Z.eqb_neq _ 0)) by lia.
  pose proof Hc' as (Ha' & nx & E' & Hnx & Hc''). cbn [fst snd] in *. rewrite E'. bind.
  cbn [next size free]. rewrite header_size, !int_of_test. usimp. rewrite Z.eqb_refl, andb_true_r.
  destruct (f && f') eqn:Eff.
  - set (hs1 := <[a := _]> hs). destruct (IH hs1 a (s + (32 + s')) f r) as (hs' & H1 & H2 & H3).
    + lia.
    + apply sizes_cons. split; [|done]. cbn [fst]. split; [lia|zmod].
    + cbn [fst total]. lia.
    + split; [done|]. exists nx. unfold hs1. rewrite lookup_insert_eq.
      split_and!; [done|intros Hne; rewrite (Hnx Hne); cbn [fst]; lia|].
      destruct r as [|c r]; [done|]. rewrite (Hnx ltac:(done)) in *.
      apply (chain_ext hs); [done| |done]. intros x Hx. by rewrite lookup_insert_ne by lia.
    + exists hs'. split_and!; [done|done|]. intros x Hx. rewrite H3 by done.
      unfold hs1. by rewrite lookup_insert_ne by lia.
  - destruct (IH hs (a + 32 + s) s' f' r) as (hs' & H1 & H2 & H3).
    + lia.
    + by apply sizes_cons.
    + cbn [fst total]. lia.
    + done.
    + exists hs'. split_and!; [done| |intros x Hx; apply H3; lia].
      split; [done|]. exists (a + 32 + s). rewrite H3 by lia. done.
Qed.

(** ** Facts about block lists *)

Lemma coalesced_app l b r :
  coalesced (l ++ b :: r) <-> coalesced (l ++ [b]) /\ coalesced (b :: r).
Proof.
  induction l as [|c l IH]; [simpl; tauto|].
  destruct l as [|d l]; [destruct r; simpl; tauto|].
  change (c.2 && d.2 = false /\ coalesced ((d :: l) ++ b :: r)
    <-> (c.2 && d.2 = false /\ coalesced ((d :: l) ++ [b])) /\ coalesced (b :: r)).
  rewrite IH. tauto.
Qed.

Lemma coalesced_snoc_used l b s : coalesced (l ++ [b]) -> coalesced (l ++ [(s, false)]).
Proof.
  induction l as [|c l IH]; [done|]. destruct l as [|d l].
  - simpl. intros _. by rewrite andb_false_r.
  - intros [H1 H2]. split; [done|]. by apply IH.
Qed.

Lemma coalesced_resize l s s' f r :
  coalesced (l ++ (s, f) :: r) -> coalesced (l ++ (s', f) :: r).
Proof.
  induction l as [|c l IH]; [by destruct r|]. destruct l as [|d l].
  - intros [H1 H2]. split; [done|]. by apply IH.
  - intros [H1 H2]. split; [done|]. by apply IH.
Qed.

Lemma coalesced_used s r : coalesced r -> coalesced ((s, false) :: r).
Proof. by destruct r. Qed.

Lemma coalesced_tail b r : coalesced (b :: r) -> coalesced r.
Proof. destruct r; [done|]. by intros [_ H]. Qed.

Lemma first_fit_ok a n bs p bs' :
  0 <= n -> n mod 16 = 0 -> sizes_ok bs -> coalesced bs -> first_fit a n bs = Some (p, bs') ->
  total bs' = total bs /\ sizes_ok bs' /\ coalesced bs' /\ bs' <> [].
Proof.
  intros Hn Hn16 Hs Hc E. pose proof (first_fit_split n bs a) as H. rewrite E in H.
  destruct H as (l & s & r & -> & Hns & _ & -> & ->).
  apply sizes_app in Hs as [Hl Hs]. apply sizes_cons in Hs as [[Hs0 Hs16] Hs]. cbn [fst] in *.
  apply coalesced_app in Hc as [Hcl Hcr].
  pose proof (coalesced_snoc_used _ _ n Hcl) as Hu. pose proof (coalesced_snoc_used _ _ s Hcl) as Hu'.
  destruct (Z.leb_spec (n + 48) s); rewrite !total_app; cbn [total fst];
    (split_and!; [lia| | |by destruct l]).
  - apply sizes_app. split; [done|]. apply sizes_cons.
    split; [done|]. apply sizes_cons. split; [cbn [fst]; split; [lia|zmod]|done].
  - apply coalesced_app. split; [done|]. apply coalesced_used.
    exact (coalesced_resize [] s _ true r Hcr).
  - apply sizes_app. split; [done|]. by apply sizes_cons.
  - apply coalesced_app. split; [done|]. apply coalesced_used. by eapply coalesced_tail.
Qed.

Lemma merge_ok r : forall s f,
  sizes_ok ((s, f) :: r) ->
  total (merge s f r) = total ((s, f) :: r) /\ sizes_ok (merge s f r) /\
  exists s' r', merge s f r = (s', f) :: r'.
Proof.
  induction r as [|[s' f'] r IH]; intros s f Hs; cbn [merge]; [eauto|].
  apply sizes_cons in Hs as [[H0 H16] Hs]. pose proof Hs as Hs'.
  apply sizes_cons in Hs' as [[H0' H16'] Hs']. cbn [fst] in *.
  destruct (f && f').
  - destruct (IH (s + (32 + s')) f) as (H1 & H2 & H3).
    { apply sizes_cons. split; [cbn [fst]; split; [lia|zmod]|done]. }
    split_and!; [rewrite H1; cbn [total fst]; lia|done|done].
  - destruct (IH s' f' Hs) as (H1 & H2 & _).
    split_and!; [cbn [total fst] in *; lia|by apply sizes_cons|eauto].
Qed.

Lemma merge_coalesced r : forall s f, sizes_ok ((s, f) :: r) -> coalesced (merge s f r).
Proof.
  induction r as [|[s' f'] r IH]; intros s f Hs; cbn [merge]; [done|].
  apply sizes_cons in Hs as [[H0 H16] Hs]. pose proof Hs as Hs'.
  apply sizes_cons in Hs' as [[H0' H16'] Hs']. cbn [fst] in *. destruct (f && f') eqn:E.
  - apply IH. apply sizes_cons. split; [cbn [fst]; split; [lia|zmod]|done].
  - destruct (merge_ok r s' f' Hs) as (_ & _ & s1 & r1 & E1). specialize (IH s' f' Hs).
    rewrite E1 in *. done.
Qed.

Lemma merge_id r : forall s f, coalesced ((s, f) :: r) -> merge s f r = (s, f) :: r.
Proof.
  induction r as [|[s' f'] r IH]; intros s f Hc; [done|]. destruct Hc as [H1 H2].
  cbn [merge fst snd] in *. by rewrite H1, IH.
Qed.

Lemma merge_prefix l s f r :
  coalesced (l ++ [(s, f)]) -> merge_all (l ++ (s, f) :: r) = l ++ merge s f r.
Proof.
  induction l as [|[s1 f1] l IH]; [done|]. intros Hc.
  destruct l as [|[s2 f2] l]; simpl in Hc; destruct Hc as [H1 H2]; simpl.
  - by rewrite H1.
  - rewrite H1. f_equal. by apply IH.
Qed.

Lemma release_at l s f r : forall a,
  sizes_ok l -> release a (a + total l + 32) (l ++ (s, f) :: r) = l ++ (s, true) :: r.
Proof.
  induction l as [|[s1 f1] l IH]; intros a Hs; simpl.
  - by rewrite Z.add_0_r, Z.eqb_refl.
  - apply sizes_cons in Hs as [[H0 _] Hs]. cbn [fst] in *. pose proof (total_nonneg l Hs).
    rewrite (proj2 (Z.eqb_neq _ _)) by lia. f_equal. rewrite <- (IH (a + 32 + s1)) by done. f_equal. lia.
Qed.

Lemma live_app l r : forall a, live a (l ++ r) = live a l ++ live (a + total l) r.
Proof.
  induction l as [|[s f] l IH]; intros a; simpl; [by rewrite Z.add_0_r|].
  rewrite IH, <- app_assoc. do 3 f_equal. lia.
Qed.

Lemma live_merge r : forall a s f, live a (merge s f r) = live a ((s, f) :: r).
Proof.
  induction r as [|[s' f'] r IH]; intros a s f; cbn [merge]; [done|].
  destruct f, f'; cbn [andb]; rewrite ?IH; cbn [live app]; rewrite ?IH; try done.
  f_equal. lia.
Qed.

Lemma live_split bs p s : forall a,
  (p, s) ∈ live a bs -> exists l r, bs = l ++ (s, false) :: r /\ p = a + total l + 32.
Proof.
  induction bs as [|[s1 f1] bs IH]; intros a H; cbn [live] in H.
  { by apply elem_of_nil in H. }
  apply elem_of_app in H as [H|H].
  - destruct f1; [by apply elem_of_nil in H|].
    apply list_elem_of_singleton in H. injection H as -> ->. exists [], bs. split; [done|]. simpl. lia.
  - destruct (IH _ H) as (l & r & -> & ->). exists ((s1, f1) :: l), r. split; [done|]. simpl. lia.
Qed.

(** Blocks in use lie inside the heap and do not overlap. *)
Lemma live_bounds a bs p s :
  sizes_ok bs -> (p, s) ∈ live a bs ->
  a + 32 <= p /\ p + s <= a + total bs /\ 0 <= s /\ (a mod 16 = 0 -> p mod 16 = 0).
Proof.
  intros Hs H. apply live_split in H as (l & r & -> & ->).
  apply sizes_app in Hs as [Hl Hr]. apply sizes_cons in Hr as [[H0 H16] Hr].
  rewrite total_app. cbn [total fst] in *.
  pose proof (total_nonneg l Hl). pose proof (total_nonneg r Hr). split_and!; try lia.
  intros Ha. assert (total l mod 16 = 0); [|zmod]. clear -Hl.
  induction Hl as [|b l [_ Hb] _ IH]; simpl; [done|]. zmod.
Qed.

Lemma live_apart bs p s q t : forall a,
  sizes_ok bs -> (p, s) ∈ live a bs -> (q, t) ∈ live a bs ->
  (p = q /\ s = t) \/ p + s + 32 <= q \/ q + t + 32 <= p.
Proof.
  induction bs as [|[s1 f1] bs IH]; intros a Hs Hp Hq; cbn [live] in *.
  { by apply elem_of_nil in Hp. }
  apply sizes_cons in Hs as [_ Hs].
  apply elem_of_app in Hp as [Hp|Hp], Hq as [Hq|Hq].
  - destruct f1; [by apply elem_of_nil in Hp|]. apply list_elem_of_singleton in Hp, Hq.
    left. by simplify_eq.
  - destruct f1; [by apply elem_of_nil in Hp|]. apply list_elem_of_singleton in Hp.
    simplify_eq. pose proof (live_bounds _ _ _ _ Hs Hq). lia.
  - destruct f1; [by apply elem_of_nil in Hq|]. apply list_elem_of_singleton in Hq.
    simplify_eq. pose proof (live_bounds _ _ _ _ Hs Hp). lia.
  - by eapply IH.
Qed.

End KmallocSpec.
