(* ===== verification/KmallocProps.v ===== *)
(** * Properties of the kernel heap

    [kmalloc] and [kfree] implement first fit and merging on the block lists
    of [KmallocSpec]; what clients can rely on follows. *)

From S2P Require Import Prelude Kmalloc KmallocSpec.

Module KmallocProps.

Import Kmalloc KmallocSpec.

Lemma align16 n : 0 < n <= 2^64 - 16 ->
  ALIGN_UP n 16 = (n + 15) / 16 * 16 /\ n <= ALIGN_UP n 16 < n + 16 /\ ALIGN_UP n 16 mod 16 = 0.
Proof.
  intros Hn. assert (E : ALIGN_UP n 16 = (n + 15) / 16 * 16).
  { change (ALIGN_UP n 16) with (align_up n (2^4)). rewrite align_up_pow2 by lia.
    rewrite u64_small by lia. done. }
  rewrite E. split; [done|]. zmod.
Qed.

Section refine.
Context (st : kheap) (bs : list blk) (Hinv : inv st bs).

Lemma enough_fuel : (length bs < enough (hdrs st))%nat.
Proof.
  pose proof (chain_length _ _ _ (inv_sizes _ _ Hinv) (inv_chain _ _ Hinv)).
  unfold enough. lia.
Qed.

(** Placing a block of [n] bytes, [n] a multiple of 16. *)
Lemma kmalloc_place n :
  0 <= n -> n mod 16 = 0 ->
  match first_fit (g_heap_base st) n bs with
  | None => find_fit (enough (hdrs st)) (hdrs st) (g_head st) n = Some 0
  | Some (p, bs') => 32 < p < 2^63 /\ exists hs h,
      find_fit (enough (hdrs st)) (hdrs st) (g_head st) n = Some (p - 32) /\
      split_block (hdrs st) (p - 32) n = Some hs /\ hs !! (p - 32) = Some h /\
      inv (set_hdrs st (<[p - 32 := Hdr (size h) 0 (next h)]> hs)) bs'
  end.
Proof.
  intros Hn Hn16. destruct Hinv as [Hh [Hb Hb16] He Hc Ht Hne Hs Hm].
  rewrite Hh, (find_fit_spec _ n bs) by (done || apply enough_fuel).
  destruct (first_fit _ n bs) as [[p bs']|] eqn:E; [|done].
  destruct (first_fit_ok _ _ _ _ _ Hn Hn16 Hs Hm E) as (Ht' & Hs' & Hm' & Hne').
  pose proof (first_fit_split n bs (g_heap_base st)) as H. rewrite E in H.
  destruct H as (l & s & r & -> & Hns & _ & -> & ->).
  pose proof Hs as Hs2. apply sizes_app in Hs2 as [Hl Hr]. pose proof (total_nonneg l Hl).
  pose proof Hr as Hr2. apply sizes_cons in Hr2 as [_ Hr2]. pose proof (total_nonneg r Hr2).
  rewrite total_app in Ht. cbn [total fst] in Ht. split; [lia|].
  replace (g_heap_base st + total l + 32 - 32) with (g_heap_base st + total l) by lia.
  destruct (split_spec (hdrs st) (g_heap_base st + total l) n s r) as (hs & h & E1 & E2 & E3 & E4);
    [lia|done|done|cbn [total fst]; lia|by apply chain_at|].
  exists hs, h. split_and!; [done|done|done|].
  constructor; cbn [set_hdrs g_head g_heap_base g_heap_size hdrs]; try done.
  - destruct (Z.leb_spec (n + 48) s);
      (eapply chain_tail; [exact Hs|exact Hc|exact E3|done]).
  - rewrite Ht', total_app. cbn [total fst]. lia.
Qed.

Lemma kmalloc_step n :
  0 < n <= 2^64 - 16 ->
  exists p st', kmalloc st n = Some (p, st') /\
    match first_fit (g_heap_base st) (ALIGN_UP n 16) bs with
    | None => p = 0 /\ st' = st
    | Some (q, bs') => p = q /\ 0 < p /\ inv st' bs' /\
        g_heap_base st' = g_heap_base st /\ g_heap_size st' = g_heap_size st
    end.
Proof.
  intros Hn. destruct (align16 n Hn) as (_ & Ha & Ha16). pose proof Hinv as [Hh [Hb _] _ _ _ _ _ _].
  pose proof (kmalloc_place (ALIGN_UP n 16) ltac:(lia) Ha16) as H. unfold kmalloc.
  rewrite (proj2 (Z.eqb_neq n 0)), (proj2 (Z.eqb_neq (g_head st) 0)) by lia. cbn [orb].
  destruct (first_fit _ _ bs) as [[p bs']|].
  - destruct H as (Hp & hs & h & E1 & E2 & E3 & E4). rewrite E1. bind.
    rewrite (proj2 (Z.eqb_neq (p - 32) 0)) by lia. rewrite E2. bind. rewrite E3. bind.
    eexists _, _. split; [done|]. rewrite header_size, add64_small by lia.
    split_and!; [lia|lia|exact E4|done|done].
  - rewrite H. bind. exists 0, st. done.
Qed.

Lemma kfree_step p s :
  (p, s) ∈ live (g_heap_base st) bs ->
  exists st', kfree st p = Some st' /\
    inv st' (merge_all (release (g_heap_base st) p bs)) /\
    g_heap_base st' = g_heap_base st /\ g_heap_size st' = g_heap_size st.
Proof.
  intros Hlive. pose proof Hinv as [Hh [Hb Hb16] He Hc Ht Hne Hs Hm].
  pose proof (live_bounds _ _ _ _ Hs Hlive) as (B1 & B2 & B3 & _).
  destruct (live_split _ _ _ _ Hlive) as (l & r & -> & Ep).
  pose proof Hs as Hs2. apply sizes_app in Hs2 as [Hl Hr]. pose proof (total_nonneg l Hl).
  pose proof (chain_at _ _ _ _ _ Hc) as (Ha & nx & E & Hnx & Hcr). cbn [fst snd int_of] in *.
  unfold kfree, ptr_to_hdr. rewrite (proj2 (Z.eqb_neq p 0)) by lia.
  rewrite header_size, sub64_small by lia.
  replace (p - 32) with (g_heap_base st + total l) by lia.
  rewrite E. bind. cbn [size next]. set (hs := <[_ := _]> (hdrs st)).
  assert (Hs1 : sizes_ok (l ++ (s, true) :: r)).
  { apply sizes_app. split; [done|]. apply sizes_cons in Hr. by apply sizes_cons. }
  assert (Hc1 : chain hs (g_heap_base st) (l ++ (s, true) :: r)).
  { eapply chain_tail; [exact Hs|exact Hc| |].
    - intros x Hx. unfold hs. by rewrite lookup_insert_ne by lia.
    - intros _. split; [lia|]. exists nx. unfold hs. rewrite lookup_insert_eq.
      split_and!; [done|done|]. destruct r as [|b r]; [done|]. rewrite (Hnx ltac:(done)) in *.
      apply (chain_ext (hdrs st)); [|intros x Hx|done].
      + by apply sizes_cons in Hr as [_ Hr].
      + rewrite lookup_insert_ne; [done|]. apply sizes_cons in Hr as [[H0 _] _]. cbn [fst] in H0. lia. }
  rewrite Ep, release_at by done. rewrite Hh.
  pose proof (chain_length _ _ _ Hs1 Hc1) as Hlen.
  assert (Ht1 : total (l ++ (s, true) :: r) = g_heap_size st).
  { rewrite <- Ht, !total_app. done. }
  destruct (l ++ (s, true) :: r) as [|[s0 f0] r0] eqn:El; [by destruct l|].
  destruct (coalesce_spec (enough hs) hs (g_heap_base st) s0 f0 r0) as (hs' & F1 & F2 & F3);
    [apply Nat.lt_succ_r, Nat.lt_le_incl, Hlen|done|lia|done|].
  destruct (merge_ok r0 s0 f0 Hs1) as (G1 & G2 & s1 & r1 & G3).
  rewrite F1. bind. eexists. split; [done|]. split; [|done].
  change (l ++ (s, true) :: r) with (l ++ (s, true) :: r : list blk). rewrite El.
  cbn [merge_all]. constructor; cbn [set_hdrs g_head g_heap_base g_heap_size hdrs]; try done.
  - by rewrite G1.
  - by rewrite G3.
  - by apply merge_coalesced.
Qed.

Lemma usable_size p s :
  (p, s) ∈ live (g_heap_base st) bs -> kmalloc_usable_size st p = Some s.
Proof.
  intros Hlive. pose proof Hinv as [_ [Hb _] He Hc Ht _ Hs _].
  pose proof (live_bounds _ _ _ _ Hs Hlive) as (B1 & B2 & B3 & _).
  destruct (live_split _ _ _ _ Hlive) as (l & r & -> & Ep).
  pose proof (chain_at _ _ _ _ _ Hc) as (Ha & nx & E & _).
  unfold kmalloc_usable_size, ptr_to_hdr. rewrite (proj2 (Z.eqb_neq p 0)) by lia.
  rewrite header_size, sub64_small by lia.
  replace (p - 32) with (g_heap_base st + total l) by lia. by rewrite E.
Qed.

End refine.

Lemma first_fit_live a n bs p bs' :
  first_fit a n bs = Some (p, bs') ->
  exists l1 l2 s, live a bs = l1 ++ l2 /\ live a bs' = l1 ++ (p, s) :: l2 /\ n <= s < n + 48.
Proof.
  intros E. pose proof (first_fit_split n bs a) as H. rewrite E in H.
  destruct H as (l & s & r & -> & Hns & _ & -> & ->).
  exists (live a l), (live (a + total l + 32 + s) r). rewrite !live_app.
  destruct (Z.leb_spec (n + 48) s).
  - exists n. cbn [live app].
    replace (a + total l + 32 + n + 32 + (s - n - 32)) with (a + total l + 32 + s) by lia.
    split_and!; done || lia.
  - exists s. cbn [live app]. split_and!; try done; lia.
Qed.

Lemma live_merge_all a bs : live a (merge_all bs) = live a bs.
Proof. destruct bs as [|[s f] r]; [done|]. apply live_merge. Qed.

Lemma live_nodup bs : forall a, sizes_ok bs -> NoDup (live a bs).*1.
Proof.
  induction bs as [|[s f] bs IH]; intros a Hs; [constructor|].
  apply sizes_cons in Hs as [[H0 _] Hs]. cbn [live fst] in *.
  destruct f; cbn [app]; [by apply IH|]. rewrite fmap_cons. constructor; [|by apply IH].
  intros H. apply list_elem_of_fmap in H as ([q t] & E & H).
  pose proof (live_bounds _ _ _ _ Hs H). cbn in E. lia.
Qed.

Lemma release_live a bs p s :
  sizes_ok bs -> (p, s) ∈ live a bs ->
  exists l1 l2, live a bs = l1 ++ (p, s) :: l2 /\
    live a (merge_all (release a p bs)) = l1 ++ l2.
Proof.
  intros Hs H. destruct (live_split _ _ _ _ H) as (l & r & -> & ->).
  apply sizes_app in Hs as [Hl _]. rewrite release_at by done.
  exists (live a l), (live (a + total l + 32 + s) r). split.
  - by rewrite live_app.
  - by rewrite live_merge_all, live_app.
Qed.

Lemma live_remove_fresh a bs l1 l2 p s t :
  sizes_ok bs -> live a bs = l1 ++ (p, s) :: l2 -> (p, t) ∈ l1 ++ l2 -> False.
Proof.
  intros Hs E Ht. pose proof (live_nodup bs a Hs) as H. rewrite E, fmap_app in H. cbn in H.
  apply list.NoDup_app in H as (_ & H1 & H2). inversion H2 as [|x l H3 _]; subst.
  apply elem_of_app in Ht as [Ht|Ht]; apply (list_elem_of_fmap_2 fst) in Ht.
  - apply (H1 _ Ht). apply elem_of_cons. by left.
  - done.
Qed.

(** Memory of the heap [hb .. hb + hn) outside the blocks in use. *)
Definition unused (bs : list blk) (hb hn a : Z) : Prop :=
  hb <= a < hb + hn /\ forall p s, (p, s) ∈ live hb bs -> ~ p <= a < p + s.

(** First fit takes unused memory. *)
Lemma first_fit_unused a n bs p bs' : sizes_ok bs -> 0 <= n -> first_fit a n bs = Some (p, bs') ->
  forall x, p <= x < p + n -> unused bs a (total bs) x.
Proof.
  intros Hs Hn E x Hx. pose proof (first_fit_split n bs a) as H. rewrite E in H.
  destruct H as (l & s & r & -> & Hns & _ & -> & _).
  apply sizes_app in Hs as [Hl Hr]. apply sizes_cons in Hr as [_ Hr].
  pose proof (total_nonneg l Hl). pose proof (total_nonneg r Hr).
  split; [rewrite total_app; cbn [total fst]; lia|].
  intros q t. rewrite live_app. cbn [live app]. intros Ht.
  apply elem_of_app in Ht as [Ht|Ht]; apply live_bounds in Ht; (done || lia).
Qed.

(** An allocation that a free block can serve leaves room: that block, or what is
    left of it, is free. *)
Lemma first_fit_room a n bs s r : (s, true) ∈ bs -> 0 <= n -> n + 48 + r <= s -> 0 <= r ->
  exists p bs' s', first_fit a n bs = Some (p, bs') /\ (s', true) ∈ bs' /\ r <= s'.
Proof.
  intros Hs Hn Hr Hr0. pose proof (first_fit_split n bs a) as F. destruct (first_fit a n bs) as [[q bs']|].
  - destruct F as (l & s1 & r1 & -> & H1 & _ & _ & ->). eexists q, _.
    assert (Hin : (s, true) ∈ l \/ s1 = s \/ (s, true) ∈ r1) by set_solver.
    destruct Hin as [Hin|[->|Hin]].
    + exists s. split_and!; [done|set_solver|lia].
    + rewrite (proj2 (Z.leb_le _ s)) by lia. exists (s - n - 32). split_and!; [done|set_solver|lia].
    + exists s. split_and!; [done| |lia]. destruct (_ <=? s1); set_solver.
  - rewrite list.Forall_forall in F. specialize (F _ Hs). cbn [fst snd andb] in F. apply Z.leb_gt in F. lia.
Qed.

Lemma kmalloc_room st bs n s r :
  inv st bs -> 0 < n <= 2^64 - 16 -> (s, true) ∈ bs -> ALIGN_UP n 16 + 48 + r <= s -> 0 <= r ->
  exists p st' bs' s', kmalloc st n = Some (p, st') /\ 0 < p /\ inv st' bs' /\
    g_heap_base st' = g_heap_base st /\ g_heap_size st' = g_heap_size st /\ (s', true) ∈ bs' /\ r <= s'.
Proof.
  intros Hi Hn Hs Hr Hr0. destruct (kmalloc_step st bs Hi n Hn) as (p & st' & E & H).
  destruct (align16 n Hn) as (_ & Ha & _).
  destruct (first_fit_room (g_heap_base st) (ALIGN_UP n 16) bs s r) as (q & bs' & s' & F & F1 & F2); try done; [lia|].
  rewrite F in H. destruct H as (-> & Hp & Hi' & Hb & Hz). by exists q, st', bs', s'.
Qed.

(** Releasing the block first fit has taken gives the former blocks. *)
Lemma free_fit base n bs p bs1 st1 : first_fit base n bs = Some (p, bs1) -> sizes_ok bs -> coalesced bs ->
  inv st1 bs1 -> g_heap_base st1 = base -> exists st2, kfree st1 p = Some st2 /\ inv st2 bs /\
    g_heap_base st2 = g_heap_base st1 /\ g_heap_size st2 = g_heap_size st1.
Proof.
  intros F Hs Hm Hinv1 Hb. destruct (first_fit_live _ _ _ _ _ F) as (l1 & l2 & s & _ & L2 & _).
  destruct (kfree_step st1 bs1 Hinv1 p s) as (st2 & E2 & Hinv2 & Hb2 & Hz2).
  { rewrite Hb, L2. apply elem_of_app. right. apply elem_of_cons. by left. }
  exists st2. split; [done|]. split; [|done]. rewrite Hb in Hinv2. clear L2 E2 Hinv1.
  pose proof (first_fit_split n bs base) as H. rewrite F in H.
  destruct H as (l & s1 & r & -> & Hns & _ & -> & ->).
  apply sizes_app in Hs as [Hl _]. pose proof Hm as Hm'. apply coalesced_app in Hm' as [Hm1 Hm2].
  destruct (Z.leb_spec (n + 48) s1); rewrite release_at, merge_prefix in Hinv2;
    try done; try (by apply (coalesced_resize l s1 _ true [])).
  - cbn [merge andb] in Hinv2.
    replace (n + (32 + (s1 - n - 32))) with s1 in Hinv2 by lia.
    by rewrite merge_id in Hinv2.
  - by rewrite merge_id in Hinv2.
Qed.

(** A block just allocated can be released again, whatever was allocated and
    released in between: the heap then has its former blocks. *)
Lemma malloc_free_any st bs n p st1 :
  inv st bs -> 0 < n <= 2^64 - 16 -> kmalloc st n = Some (p, st1) -> p <> 0 ->
  exists bs1, inv st1 bs1 /\ g_heap_base st1 = g_heap_base st /\ g_heap_size st1 = g_heap_size st /\
    forall st1', inv st1' bs1 -> g_heap_base st1' = g_heap_base st -> exists st2,
      kfree st1' p = Some st2 /\ inv st2 bs /\
      g_heap_base st2 = g_heap_base st1' /\ g_heap_size st2 = g_heap_size st1'.
Proof.
  intros Hinv Hn E Hp. destruct (kmalloc_step st bs Hinv n Hn) as (p' & st1' & E' & H).
  rewrite E in E'. injection E' as <- <-.
  destruct (first_fit _ _ bs) as [[q bs1]|] eqn:F; [|by destruct H].
  destruct H as (-> & _ & Hinv1 & Hb & Hz). exists bs1. split_and!; try done.
  intros st1' Hinv1' Hb'. eapply free_fit; [exact F|apply Hinv|apply Hinv|done|done].
Qed.

(** Releasing a block keeps the room there is. *)
Lemma merge_room bs : forall t s f, (t, true) ∈ ((s, f) :: bs) -> sizes_ok ((s, f) :: bs) ->
  exists t', t <= t' /\ (t', true) ∈ merge s f bs.
Proof.
  induction bs as [|[s2 f2] bs IH]; intros t s f Ht Hs; cbn [merge]; [by exists t|].
  apply sizes_cons in Hs as [[H1 H2] Hs]. pose proof Hs as Hs2. apply sizes_cons in Hs2 as [[H3 H4] Hs2]. cbn [fst] in *.
  destruct (f && f2) eqn:E.
  - apply andb_prop in E as [-> ->].
    assert (Hs' : sizes_ok ((s + (32 + s2), true) :: bs)) by (apply sizes_cons; cbn [fst]; split; [split; [lia|zmod]|done]).
    assert (Ht' : exists u, t <= u /\ (u, true) ∈ ((s + (32 + s2), true) :: bs)).
    { apply elem_of_cons in Ht as [[= ->]|Ht]; [eexists; split; [|left]; lia|].
      apply elem_of_cons in Ht as [[= ->]|Ht]; [eexists; split; [|left]; lia|]. exists t. split; [lia|by right]. }
    destruct Ht' as (u & Hu & Hin). destruct (IH u _ true Hin Hs') as (t' & L & Hin'). exists t'. split; [lia|done].
  - apply elem_of_cons in Ht as [Ht|Ht]; [exists t; split; [lia|rewrite Ht; left]|].
    destruct (IH t s2 f2 Ht Hs) as (t' & L & Hin). exists t'. split; [done|by right].
Qed.

Lemma release_room p t bs : forall a, (t, true) ∈ bs -> (t, true) ∈ release a p bs.
Proof.
  induction bs as [|[s f] bs IH]; intros a Ht; [done|]. cbn [release].
  apply elem_of_cons in Ht as [[= -> <-]|Ht]; destruct (_ =? p); try (by left); right; auto.
Qed.

Lemma release_sizes p bs : forall a, sizes_ok bs -> sizes_ok (release a p bs).
Proof.
  induction bs as [|[s f] bs IH]; intros a Hs; [done|]. apply sizes_cons in Hs as [H Hs]. cbn [release].
  destruct (_ =? p); apply sizes_cons; auto.
Qed.

Lemma kfree_room st bs p z t : inv st bs -> (p, z) ∈ live (g_heap_base st) bs -> (t, true) ∈ bs ->
  exists st' bs' l1 l2 t', kfree st p = Some st' /\ inv st' bs' /\
    g_heap_base st' = g_heap_base st /\ g_heap_size st' = g_heap_size st /\
    live (g_heap_base st) bs = l1 ++ (p, z) :: l2 /\ live (g_heap_base st) bs' = l1 ++ l2 /\
    t <= t' /\ (t', true) ∈ bs'.
Proof.
  intros Hinv Hl Ht. destruct (kfree_step st bs Hinv p z Hl) as (st' & E & Hinv' & Hb & Hz).
  destruct (release_live _ _ _ _ (inv_sizes _ _ Hinv) Hl) as (l1 & l2 & L1 & L2).
  pose proof (release_room p t bs (g_heap_base st) Ht) as Hr.
  pose proof (release_sizes p bs (g_heap_base st) (inv_sizes _ _ Hinv)) as Hs.
  exists st', (merge_all (release (g_heap_base st) p bs)), l1, l2.
  destruct (release (g_heap_base st) p bs) as [|[s f] r] eqn:Er; [by apply elem_of_nil in Hr|].
  destruct (merge_room r t s f Hr Hs) as (t' & T1 & T2). exists t'. by split_and!.
Qed.

(** A block to be kept while others are allocated: it leaves the unused memory. *)
Lemma kmalloc_keep st bs n s r :
  inv st bs -> 0 < n <= 2^64 - 16 -> (s, true) ∈ bs -> ALIGN_UP n 16 + 48 + r <= s -> 0 <= r ->
  exists p st' bs' s', kmalloc st n = Some (p, st') /\ 0 < p /\ inv st' bs' /\
    g_heap_base st' = g_heap_base st /\ g_heap_size st' = g_heap_size st /\ (s', true) ∈ bs' /\ r <= s' /\
    (forall a, p <= a < p + n -> unused bs (g_heap_base st) (g_heap_size st) a /\
       ~ unused bs' (g_heap_base st) (g_heap_size st) a) /\
    (forall a, unused bs' (g_heap_base st) (g_heap_size st) a -> unused bs (g_heap_base st) (g_heap_size st) a) /\
    (exists t, n <= t /\ (p, t) ∈ live (g_heap_base st) bs') /\
    (forall x, x ∈ live (g_heap_base st) bs -> x ∈ live (g_heap_base st) bs') /\
    forall st1', inv st1' bs' -> g_heap_base st1' = g_heap_base st -> exists st2,
      kfree st1' p = Some st2 /\ inv st2 bs /\
      g_heap_base st2 = g_heap_base st1' /\ g_heap_size st2 = g_heap_size st1'.
Proof.
  intros Hi Hn Hs Hr Hr0. destruct (kmalloc_step st bs Hi n Hn) as (p & st' & E & H).
  destruct (align16 n Hn) as (_ & Ha & _).
  destruct (first_fit_room (g_heap_base st) (ALIGN_UP n 16) bs s r) as (q & bs' & s' & F & F1 & F2); try done; [lia|].
  rewrite F in H. destruct H as (-> & Hp & Hi' & Hb & Hz). exists q, st', bs', s'.
  destruct (first_fit_live _ _ _ _ _ F) as (l1 & l2 & t & L1 & L2 & Ht). split_and!; try done.
  - intros a Hqa. split.
    + rewrite <- (inv_total _ _ Hi). eapply first_fit_unused; [apply Hi| |exact F|]; lia.
    + intros [_ Hu]. apply (Hu q t); [rewrite L2; set_solver|lia].
  - intros a [H1 H2]. split; [done|]. intros x y Hx. apply H2. rewrite L1 in Hx. rewrite L2. set_solver.
  - exists t. split; [lia|]. rewrite L2. set_solver.
  - intros x Hx. rewrite L1 in Hx. rewrite L2. set_solver.
  - intros st1' Hinv1' Hb'. eapply free_fit; [exact F|apply Hi|apply Hi|done|done].
Qed.

Lemma malloc_free st bs n p st1 :
  inv st bs -> 0 < n <= 2^64 - 16 -> kmalloc st n = Some (p, st1) -> p <> 0 ->
  exists st2, kfree st1 p = Some st2 /\ inv st2 bs /\
    g_heap_base st2 = g_heap_base st /\ g_heap_size st2 = g_heap_size st.
Proof.
  intros Hinv Hn E Hp. destruct (malloc_free_any st bs n p st1 Hinv Hn E Hp) as (bs1 & Hi & Hb & Hz & Hf).
  destruct (Hf st1 Hi Hb) as (st2 & E2 & Hi2 & Hb2 & Hz2). exists st2. split_and!; congruence || done.
Qed.

(** ** Contracts *)

(** C10. [kmalloc] always ends and is first fit: it returns NULL, changing
    nothing, only when no free block has [n] bytes rounded up to 16; otherwise
    it returns the payload of the first block that fits, split off if the rest
    can hold a header and 16 bytes.  The new block is added to the blocks in
    use, which otherwise stay as they are. *)
Theorem kmalloc_correct st bs n :
  inv st bs -> 0 < n <= 2^64 - 16 ->
  exists p st', kmalloc st n = Some (p, st') /\
    match first_fit (g_heap_base st) (ALIGN_UP n 16) bs with
    | None => p = 0 /\ st' = st /\ Forall (fun b => b.2 = true -> b.1 < n) bs
    | Some (q, bs') => p = q /\ inv st' bs' /\ 0 < p /\ p mod 16 = 0 /\
        exists l1 l2 s, live (g_heap_base st) bs = l1 ++ l2 /\
          live (g_heap_base st) bs' = l1 ++ (p, s) :: l2 /\ n <= s < n + 63 /\
          kmalloc_usable_size st' p = Some s
    end.
Proof.
  intros Hinv Hn. destruct (kmalloc_step st bs Hinv n Hn) as (p & st' & E & H).
  destruct (align16 n Hn) as (Ea & Ha & _). exists p, st'. split; [done|].
  destruct (first_fit _ _ bs) as [[q bs']|] eqn:F.
  - destruct H as (-> & Hp & Hinv' & Hb & _). split_and!; [done|done|done| |].
    + destruct (first_fit_live _ _ _ _ _ F) as (l1 & l2 & s & _ & L2 & _).
      eapply live_bounds; [exact (inv_sizes _ _ Hinv')| |apply (inv_base _ _ Hinv)].
      rewrite L2. apply elem_of_app. right. apply elem_of_cons. by left.
    + destruct (first_fit_live _ _ _ _ _ F) as (l1 & l2 & s & L1 & L2 & Hs).
      exists l1, l2, s. split_and!; [done|done|lia|lia|]. apply (usable_size st' bs' Hinv').
      rewrite Hb, L2. apply elem_of_app. right. apply elem_of_cons. by left.
  - destruct H as [-> ->]. split_and!; [done|done|].
    pose proof (first_fit_split (ALIGN_UP n 16) bs (g_heap_base st)) as H. rewrite F in H.
    pose proof (inv_sizes _ _ Hinv) as Hs. clear -H Hs Ea Ha.
    induction H as [|[s f] bs Hb _ IH]; constructor; apply sizes_cons in Hs as [[_ H16] Hs]; [|auto].
    cbn [fst snd] in *. intros ->. cbn [andb] in Hb. apply Z.leb_gt in Hb. rewrite Ea in Hb. zmod.
Qed.

(** C11. Freeing a block in use always ends, removes exactly that block from
    the blocks in use, and leaves no two free blocks next to each other. *)
Theorem kfree_correct st bs p s :
  inv st bs -> (p, s) ∈ live (g_heap_base st) bs ->
  exists st' bs' l1 l2, kfree st p = Some st' /\ inv st' bs' /\ coalesced bs' /\
    live (g_heap_base st) bs = l1 ++ (p, s) :: l2 /\
    live (g_heap_base st') bs' = l1 ++ l2.
Proof.
  intros Hinv Hl. destruct (kfree_step st bs Hinv p s Hl) as (st' & E & Hinv' & Hb & _).
  destruct (release_live _ _ _ _ (inv_sizes _ _ Hinv) Hl) as (l1 & l2 & L1 & L2).
  exists st', (merge_all (release (g_heap_base st) p bs)), l1, l2. rewrite Hb.
  split_and!; try done. apply Hinv'.
Qed.

(** Freeing what was just allocated restores the block list exactly. *)
Theorem kmalloc_kfree_roundtrip st bs n p st1 :
  inv st bs -> 0 < n <= 2^64 - 16 -> kmalloc st n = Some (p, st1) -> p <> 0 ->
  exists st2, kfree st1 p = Some st2 /\ inv st2 bs.
Proof.
  intros Hinv Hn E Hp. destruct (malloc_free st bs n p st1 Hinv Hn E Hp) as (st2 & E2 & H & _).
  by exists st2.
Qed.

(** ** Clients

    A client holds pointers, with the sizes it asked for. *)

Definition client : Type := kheap * gmap Z Z.

Inductive step : client -> client -> Prop :=
  | step_kmalloc st held n p st' :
      0 < n <= 2^64 - 16 -> kmalloc st n = Some (p, st') -> p <> 0 ->
      step (st, held) (st', <[p := n]> held)
  | step_kmalloc_null st held n st' :
      0 < n <= 2^64 - 16 -> kmalloc st n = Some (0, st') -> step (st, held) (st', held)
  | step_kfree st held p st' :
      is_Some (held !! p) -> kfree st p = Some st' -> step (st, held) (st', delete p held).

(** The pointers held are the blocks in use. *)
Definition client_inv (b n : Z) (c : client) : Prop :=
  exists bs, inv c.1 bs /\ g_heap_base c.1 = b /\ g_heap_size c.1 = n /\
    (forall p k, c.2 !! p = Some k -> exists s, (p, s) ∈ live b bs /\ k <= s) /\
    (forall p s, (p, s) ∈ live b bs -> is_Some (c.2 !! p)).

Lemma kclient_step b n c c' : client_inv b n c -> step c c' -> client_inv b n c'.
Proof.
  intros (bs & Hinv & Hb & Hn & H1 & H2) Hs.
  destruct Hs as [st held k p st' Hk E Hp|st held k st' Hk E|st held p st' Hp E];
    cbn [fst snd] in *; subst b n.
  - destruct (kmalloc_step st bs Hinv k Hk) as (p' & st'' & E' & H). rewrite E in E'.
    injection E' as <- <-. destruct (align16 k Hk) as (_ & Ha & _).
    destruct (first_fit _ _ bs) as [[q bs']|] eqn:F; [|by destruct H].
    destruct H as (-> & _ & Hinv' & Hb & Hn).
    destruct (first_fit_live _ _ _ _ _ F) as (l1 & l2 & s & L1 & L2 & Hs). exists bs'.
    split_and!; try done; cbn [fst snd]; rewrite L2.
    + intros x j. destruct (decide (x = q)) as [->|Hx].
      * rewrite lookup_insert_eq. intros [= <-]. exists s. split; [|lia].
        apply elem_of_app. right. apply elem_of_cons. by left.
      * rewrite lookup_insert_ne by done. intros (t & Ht & Hj)%H1. exists t. split; [|done].
        rewrite L1 in Ht. apply elem_of_app in Ht. apply elem_of_app. rewrite elem_of_cons. tauto.
    + intros x t Ht. destruct (decide (x = q)) as [->|Hx]; [by rewrite lookup_insert_eq|].
      rewrite lookup_insert_ne by done. apply (H2 x t). rewrite L1. apply elem_of_app in Ht.
      rewrite elem_of_cons in Ht. apply elem_of_app.
      destruct Ht as [|[?|]]; [tauto|congruence|tauto].
  - destruct (kmalloc_step st bs Hinv k Hk) as (p' & st'' & E' & H). rewrite E in E'.
    injection E' as <- <-. destruct (first_fit _ _ bs) as [[q bs']|].
    + destruct H as (-> & ? & _). lia.
    + destruct H as [_ ->]. by exists bs.
  - destruct Hp as [k Hk]. destruct (H1 p k Hk) as (s & Hs & _).
    destruct (kfree_step st bs Hinv p s Hs) as (st'' & E' & Hinv' & Hb & Hn).
    rewrite E in E'. injection E' as <-.
    destruct (release_live _ _ _ _ (inv_sizes _ _ Hinv) Hs) as (l1 & l2 & L1 & L2).
    assert (Huniq : forall t, (p, t) ∈ l1 ++ l2 -> False).
    { intros t Ht. exact (live_remove_fresh _ _ _ _ _ _ _ (inv_sizes _ _ Hinv) L1 Ht). }
    exists (merge_all (release (g_heap_base st) p bs)). split_and!; try done; cbn [fst snd]; rewrite L2.
    + intros x j Hx. apply lookup_delete_Some in Hx as [Hne Hx].
      destruct (H1 x j Hx) as (t & Ht & Hj). exists t. split; [|done].
      rewrite L1 in Ht. apply elem_of_app in Ht. rewrite elem_of_cons in Ht. apply elem_of_app.
      destruct Ht as [|[?|]]; [tauto|congruence|tauto].
    + intros x t Ht. rewrite lookup_delete_ne by (intros <-; eauto). apply (H2 x t).
      rewrite L1. apply elem_of_app in Ht. apply elem_of_app. rewrite elem_of_cons. tauto.
Qed.

Lemma init_inv st b n :
  0 < b -> b mod 16 = 0 -> 32 <= n -> n mod 16 = 0 -> b + n < 2^63 ->
  inv (kmalloc_init st b n) [(n - 32, true)].
Proof.
  intros Hb Hb16 Hn Hn16 He. constructor; cbn [kmalloc_init g_head g_heap_base g_heap_size hdrs];
    try done.
  - split; [done|]. exists 0. rewrite lookup_insert_eq, header_size, sub64_small by lia. done.
  - simpl. lia.
  - constructor; [cbn [fst]; split; [lia|zmod]|constructor].
Qed.

(** Without blocks in use the heap is one free block. *)
Lemma no_live_single b bs :
  coalesced bs -> bs <> [] -> live b bs = [] -> bs = [(total bs - 32, true)].
Proof.
  intros Hc Hne Hl. destruct bs as [|[s f] r]; [done|]. destruct f; [|done].
  destruct r as [|[s' f'] r].
  - simpl. do 2 f_equal. lia.
  - destruct f'; [by destruct Hc|done].
Qed.

(** C12. From a fresh heap, whatever sequence of [kmalloc] and [kfree] calls
    runs: every pointer held is 16-byte aligned, lies with its header and the
    bytes asked for inside the heap, and can be freed; what is held at two
    pointers does not overlap; and when nothing is held the heap is again one
    free block of the full size. *)
Theorem kheap_clients_safe st0 b n c :
  0 < b -> b mod 16 = 0 -> 32 <= n -> n mod 16 = 0 -> b + n < 2^63 ->
  rtc step (kmalloc_init st0 b n, ∅) c ->
  (forall p k, c.2 !! p = Some k ->
     p mod 16 = 0 /\ b + HEADER_SIZE <= p /\ p + k <= b + n /\
     exists s st', kmalloc_usable_size c.1 p = Some s /\ k <= s /\ kfree c.1 p = Some st') /\
  (forall p k p' k', c.2 !! p = Some k -> c.2 !! p' = Some k' -> p <> p' ->
     p + k + HEADER_SIZE <= p' \/ p' + k' + HEADER_SIZE <= p) /\
  (c.2 = ∅ -> inv c.1 [(n - HEADER_SIZE, true)]).
Proof.
  intros Hb Hb16 Hn Hn16 He Hrun.
  assert (Hc : client_inv b n c).
  { assert (H0 : client_inv b n (kmalloc_init st0 b n, ∅)).
    { eexists. split_and!; [by apply init_inv|done|done|intros p k H; cbn [snd] in H; by rewrite lookup_empty in H|].
      intros p s H. by apply elem_of_nil in H. }
    revert H0. induction Hrun as [c|c c1 c2 Hs _ IH]; [done|].
    intros H. apply IH. by eapply kclient_step. }
  destruct Hc as (bs & Hinv & Eb & En & H1 & H2). rewrite header_size. split_and!.
  - intros p k Hp. destruct (H1 p k Hp) as (s & Hs & Hk).
    pose proof (live_bounds _ _ _ _ (inv_sizes _ _ Hinv) Hs) as (B1 & B2 & B3 & B4).
    rewrite (inv_total _ _ Hinv), En in B2. rewrite <- Eb in Hs.
    split_and!; [auto|lia|lia|]. destruct (kfree_step _ _ Hinv p s Hs) as (st' & E & _).
    exists s, st'. split_and!; [by eapply usable_size|done|done].
  - intros p k p' k' Hp Hp' Hne. destruct (H1 p k Hp) as (s & Hs & Hk).
    destruct (H1 p' k' Hp') as (s' & Hs' & Hk').
    destruct (live_apart _ _ _ _ _ _ (inv_sizes _ _ Hinv) Hs Hs') as [[? _]|H]; [done|lia].
  - intros Hempty. rewrite <- En, <- (inv_total _ _ Hinv).
    rewrite <- (no_live_single b bs); [done|apply Hinv|apply Hinv|].
    destruct (live b bs) as [|[p s] l] eqn:El; [done|].
    destruct (H2 p s) as [k Hk]; [apply elem_of_cons; by left|].
    by rewrite Hempty, lookup_empty in Hk.
Qed.

(** A request within 15 bytes of 2^64 wraps to size 0 when it is rounded
    up: if any block is free, [kmalloc] returns the first one, cut down to an
    empty payload when it has at least 48 bytes. *)
Theorem kmalloc_huge_wraps st bs n l s r :
  inv st bs -> 2^64 - 16 < n < 2^64 -> bs = l ++ (s, true) :: r ->
  Forall (fun b => b.2 = false) l -> 48 <= s ->
  exists st', kmalloc st n = Some (g_heap_base st + total l + 32, st') /\
    inv st' (l ++ (0, false) :: (s - 32, true) :: r).
Proof.
  intros Hinv Hn -> Hl Hs. pose proof Hinv as [Hh [Hb _] _ _ _ _ _ _].
  assert (Ea : ALIGN_UP n 16 = 0).
  { change (ALIGN_UP n 16) with (align_up n (2^4)). rewrite align_up_pow2 by lia.
    replace (u64 (n + (2^4 - 1))) with (n + 15 - 2^64) by (unfold u64; zmod). zmod. }
  assert (F : forall a, first_fit a 0 (l ++ (s, true) :: r)
    = Some (a + total l + 32, l ++ (0, false) :: (s - 32, true) :: r)).
  { clear -Hl Hs. induction Hl as [|[s1 f1] l Hf _ IH]; intros a; cbn [app first_fit total fst].
    - rewrite (proj2 (Z.leb_le 0 s)), (proj2 (Z.leb_le (0 + 48) s)) by lia. cbn [andb].
      replace (s - 0 - 32) with (s - 32) by lia. by rewrite Z.add_0_r.
    - cbn [snd] in Hf. subst f1. cbn [andb]. rewrite IH. bind. do 2 f_equal. lia. }
  pose proof (kmalloc_place st _ Hinv 0 ltac:(lia) eq_refl) as H. rewrite F in H.
  destruct H as (Hp & hs & h & E1 & E2 & E3 & E4).
  unfold kmalloc. rewrite Ea, (proj2 (Z.eqb_neq n 0)), (proj2 (Z.eqb_neq (g_head st) 0)) by lia.
  cbn [orb]. rewrite E1. bind. rewrite (proj2 (Z.eqb_neq (_ - 32) 0)) by lia.
  rewrite E2. bind. rewrite E3. bind. eexists. split; [|exact E4].
  rewrite header_size, add64_small by lia. do 2 f_equal. lia.
Qed.

(** ** Instances *)

Definition kzero : kheap := Kheap 0 0 0 ∅.
Definition demo : kheap := kmalloc_init kzero 0x1000 0x200.

Lemma kdemo_inv : inv demo [(0x1E0, true)].
Proof. apply (init_inv kzero 0x1000 0x200); lia || done. Qed.

Lemma kmalloc_correct_witness :
  exists p st', kmalloc demo 100 = Some (p, st') /\ p = 0x1020.
Proof.
  destruct (kmalloc_correct demo _ 100 kdemo_inv ltac:(lia)) as (p & st' & E & H).
  exists p, st'. split; [exact E|]. destruct H as [-> _]. reflexivity.
Defined.

Definition demo1 : kheap := snd (default (0, demo) (kmalloc demo 100)).

Lemma demo1_inv : inv demo1 [(112, false); (336, true)].
Proof.
  destruct (kmalloc_step demo _ kdemo_inv 100 ltac:(lia)) as (p & st' & E & H).
  unfold demo1. rewrite E. destruct H as (_ & _ & H & _). exact H.
Qed.

Lemma kfree_correct_witness : exists st', kfree demo1 0x1020 = Some st'.
Proof.
  destruct (kfree_correct demo1 _ 0x1020 112 demo1_inv) as (st' & bs' & l1 & l2 & E & _).
  { apply elem_of_cons. by left. }
  exists st'. exact E.
Defined.

Lemma kmalloc_kfree_roundtrip_witness : exists st2,
  kfree demo1 0x1020 = Some st2 /\ inv st2 [(0x1E0, true)].
Proof.
  apply (kmalloc_kfree_roundtrip demo _ 100 0x1020 demo1 kdemo_inv); [lia|by vm_compute|lia].
Defined.

Lemma kheap_clients_safe_witness :
  exists c, rtc step (demo, ∅) c /\ c.2 !! 0x1020 = Some 100 /\
    exists s st', kmalloc_usable_size c.1 0x1020 = Some s /\ 100 <= s /\
      kfree c.1 0x1020 = Some st'.
Proof.
  exists (demo1, <[0x1020 := 100]> ∅).
  assert (Hrun : rtc step (demo, ∅) (demo1, <[0x1020 := 100]> ∅)).
  { eapply rtc_l; [|apply rtc_refl]. apply (step_kmalloc demo ∅ 100 0x1020 demo1); [lia|by vm_compute|lia]. }
  split; [exact Hrun|]. split; [reflexivity|].
  destruct (kheap_clients_safe kzero 0x1000 0x200 _ ltac:(lia) eq_refl ltac:(lia) eq_refl
    ltac:(lia) Hrun) as (H & _ & _).
  destruct (H 0x1020 100 eq_refl) as (_ & _ & _ & H'). exact H'.
Defined.

Lemma kmalloc_huge_wraps_witness :
  exists st', kmalloc demo (2^64 - 1) = Some (0x1020, st') /\
    inv st' [(0, false); (0x1C0, true)].
Proof.
  apply (kmalloc_huge_wraps demo _ (2^64 - 1) [] 0x1E0 [] kdemo_inv);
    [lia|reflexivity|constructor|lia].
Defined.

End KmallocProps.
