(* ===== verification/Mem.v ===== *)
(** * Memory and string routines ([src/kernel64/lib/mem.c])

    Byte memory; a cell that is read is an [unsigned char].  The loops over [n]
    bytes run [n] times; the string loops stop at a NUL byte, so they take fuel
    and have a result exactly when they reach one in time. *)

From S2P Require Import Prelude.

Module Mem.

(** [for (i = i0; n times; ++i) d[i] = v] *)
Fixpoint fill (n : nat) (i : Z) (m : mem) (d v : Z) : mem :=
  match n with
  | O => m
  | S n' => fill n' (i + 1) (wr m (d + i) v) d v
  end.

Definition memset (m : mem) (dst c n : Z) : mem := fill (Z.to_nat n) 0 m dst (u8 c).

(** [for (i = i0; n times; ++i) d[i] = s[i]] *)
Fixpoint copy_up (n : nat) (i : Z) (m : mem) (d s : Z) : mem :=
  match n with
  | O => m
  | S n' => copy_up n' (i + 1) (wr m (d + i) (rd8 m (s + i))) d s
  end.

(** [for (i = n; i != 0; --i) d[i - 1] = s[i - 1]] *)
Fixpoint copy_down (n : nat) (m : mem) (d s : Z) : mem :=
  match n with
  | O => m
  | S n' => copy_down n' (wr m (d + Z.of_nat n') (rd8 m (s + Z.of_nat n'))) d s
  end.

Definition memcpy (m : mem) (dst src n : Z) : mem := copy_up (Z.to_nat n) 0 m dst src.

Definition memmove (m : mem) (dst src n : Z) : mem :=
  if (dst =? src) || (n =? 0) then m
  else if dst <? src then copy_up (Z.to_nat n) 0 m dst src
  else copy_down (Z.to_nat n) m dst src.

Fixpoint cmp_loop (n : nat) (i : Z) (m : mem) (x y : Z) : Z :=
  match n with
  | O => 0
  | S n' =>
      if negb (rd8 m (x + i) =? rd8 m (y + i)) then rd8 m (x + i) - rd8 m (y + i)
      else cmp_loop n' (i + 1) m x y
  end.

Definition memcmp (m : mem) (a b n : Z) : Z := cmp_loop (Z.to_nat n) 0 m a b.

Fixpoint strlen_loop (fuel : nat) (m : mem) (s n : Z) : option Z :=
  match fuel with
  | O => None
  | S fuel' =>
      if negb (s =? 0) && negb (rd8 m s =? 0) then strlen_loop fuel' m (s + 1) (n + 1)
      else Some n
  end.

Definition strlen (fuel : nat) (m : mem) (s : Z) : option Z := strlen_loop fuel m s 0.

Fixpoint strcmp (fuel : nat) (m : mem) (a b : Z) : option Z :=
  match fuel with
  | O => None
  | S fuel' =>
      if negb (rd8 m a =? 0) && negb (rd8 m b =? 0) && (rd8 m a =? rd8 m b)
      then strcmp fuel' m (a + 1) (b + 1)
      else Some (rd8 m a - rd8 m b)
  end.

(** ** Blocks of bytes *)

Definition bytes_ok (m : mem) : Prop := forall a, is_u8 (rd m a).

Lemma rd8_wr m a b v : is_u8 v -> rd8 (wr m a v) b = if a =? b then v else rd8 m b.
Proof. intros Hv. unfold rd8. rewrite rd_wr. zcase; [by apply u8_small|done]. Qed.

Lemma fill_spec n : forall i m d v a,
  is_u8 v -> rd8 (fill n i m d v) a
  = if (d + i <=? a) && (a <? d + i + Z.of_nat n) then v else rd8 m a.
Proof.
  induction n as [|n IH]; intros i m d v a Hv; cbn [fill].
  - destruct (Z.leb_spec (d + i) a), (Z.ltb_spec a (d + i + Z.of_nat 0)); done || lia.
  - rewrite IH, rd8_wr by done.
    destruct (Z.leb_spec (d + (i + 1)) a), (Z.ltb_spec a (d + (i + 1) + Z.of_nat n)),
      (Z.leb_spec (d + i) a), (Z.ltb_spec a (d + i + Z.of_nat (S n))), (Z.eqb_spec (d + i) a);
      done || lia.
Qed.

(** Copying upwards is right when the destination does not start inside the
    source. *)
Lemma copy_up_spec n d s : forall i m a,
  0 <= i -> d <= s \/ s + i + Z.of_nat n <= d ->
  rd8 (copy_up n i m d s) a
  = if (d + i <=? a) && (a <? d + i + Z.of_nat n) then rd8 m (s + (a - d)) else rd8 m a.
Proof.
  induction n as [|n IH]; intros i m a Hi Hd; cbn [copy_up].
  - destruct (Z.leb_spec (d + i) a), (Z.ltb_spec a (d + i + Z.of_nat 0)); done || lia.
  - rewrite IH, !rd8_wr by (lia || apply rd8_range).
    destruct (Z.leb_spec (d + (i + 1)) a), (Z.ltb_spec a (d + (i + 1) + Z.of_nat n)),
      (Z.leb_spec (d + i) a), (Z.ltb_spec a (d + i + Z.of_nat (S n))), (Z.eqb_spec (d + i) a);
      cbn [andb]; try lia; try done; try (by subst a; do 2 f_equal; lia).
    destruct (Z.eqb_spec (d + i) (s + (a - d))); [|done]. lia.
Qed.

(** Copying downwards is right when the source does not start inside the
    destination. *)
Lemma copy_down_spec n d s : forall m a,
  s <= d \/ d + Z.of_nat n <= s ->
  rd8 (copy_down n m d s) a
  = if (d <=? a) && (a <? d + Z.of_nat n) then rd8 m (s + (a - d)) else rd8 m a.
Proof.
  induction n as [|n IH]; intros m a Hd; cbn [copy_down].
  - destruct (Z.leb_spec d a), (Z.ltb_spec a (d + Z.of_nat 0)); done || lia.
  - rewrite IH, !rd8_wr by (lia || apply rd8_range).
    destruct (Z.leb_spec d a), (Z.ltb_spec a (d + Z.of_nat n)),
      (Z.ltb_spec a (d + Z.of_nat (S n))), (Z.eqb_spec (d + Z.of_nat n) a);
      cbn [andb]; try lia; try done; try (by subst a; do 2 f_equal; lia).
    destruct (Z.eqb_spec (d + Z.of_nat n) (s + (a - d))); [|done]. lia.
Qed.

(** The comparison is the difference at the first byte that differs. *)
Lemma cmp_loop_spec n m x y : forall i,
  (cmp_loop n i m x y = 0 /\
   forall j, i <= j < i + Z.of_nat n -> rd8 m (x + j) = rd8 m (y + j)) \/
  (exists k, i <= k < i + Z.of_nat n /\ rd8 m (x + k) <> rd8 m (y + k) /\
   (forall j, i <= j < k -> rd8 m (x + j) = rd8 m (y + j)) /\
   cmp_loop n i m x y = rd8 m (x + k) - rd8 m (y + k)).
Proof.
  induction n as [|n IH]; intros i; cbn [cmp_loop]; [left; split; [done|lia]|].
  destruct (Z.eqb_spec (rd8 m (x + i)) (rd8 m (y + i))) as [E|E]; cbn [negb].
  - destruct (IH (i + 1)) as [[-> H]|(k & Hk & Hne & H & ->)]; [left|right].
    + split; [done|]. intros j Hj. destruct (decide (j = i)) as [->|]; [done|]. apply H. lia.
    + exists k. split_and!; [lia|lia|done| |done]. intros j Hj.
      destruct (decide (j = i)) as [->|]; [done|]. apply H. lia.
  - right. exists i. split_and!; [lia|lia|done|lia|done].
Qed.

(** ** Strings *)

(** The NUL-terminated string at address [a]. *)
Fixpoint cstr (m : mem) (a : Z) (l : list Z) : Prop :=
  match l with
  | [] => rd8 m a = 0
  | c :: r => c <> 0 /\ rd8 m a = c /\ cstr m (a + 1) r
  end.

(** Lexicographic comparison of byte strings, the end counting as 0. *)
Fixpoint lex (l k : list Z) : Z :=
  match l, k with
  | [], [] => 0
  | [], c :: _ => 0 - c
  | c :: _, [] => c - 0
  | c :: l', d :: k' => if c =? d then lex l' k' else c - d
  end.

Lemma lex_eq_0 l : forall k,
  Forall (fun c => 0 < c) l -> Forall (fun c => 0 < c) k -> lex l k = 0 <-> l = k.
Proof.
  induction l as [|c l IH]; intros [|d k] Hl Hk; simpl; try done.
  - inversion Hk; subst. split; [lia|done].
  - inversion Hl; subst. split; [lia|done].
  - inversion Hl; inversion Hk; subst. zcase; subst.
    + rewrite IH by done. split; [by intros ->|by intros [= ->]].
    + split; [lia|by intros [= ? _]].
Qed.

Lemma cstr_pos m l : forall a, cstr m a l -> Forall (fun c => 0 < c) l.
Proof.
  induction l as [|c l IH]; intros a H; [constructor|]. destruct H as (H1 & H2 & H3).
  constructor; [pose proof (rd8_range m a); lia|eauto].
Qed.

Lemma strlen_loop_spec m l : forall fuel a n,
  0 < a -> cstr m a l -> (length l < fuel)%nat ->
  strlen_loop fuel m a n = Some (n + Z.of_nat (length l)).
Proof.
  induction l as [|c l IH]; intros [|fuel] a n Ha Hc Hf; simpl in Hf; try lia;
    cbn [strlen_loop length]; rewrite (proj2 (Z.eqb_neq a 0)) by lia; simpl in Hc.
  - rewrite Hc. cbn [negb andb Z.eqb]. f_equal. lia.
  - destruct Hc as (H1 & H2 & H3). rewrite H2, (proj2 (Z.eqb_neq c 0)) by done. cbn [negb andb].
    rewrite IH by (done || lia). f_equal. lia.
Qed.

Lemma strcmp_lex m l : forall k fuel a b,
  cstr m a l -> cstr m b k -> (length l < fuel)%nat -> strcmp fuel m a b = Some (lex l k).
Proof.
  induction l as [|c l IH]; intros k [|fuel] a b Ha Hb Hf; simpl in Hf; try lia;
    cbn [strcmp]; simpl in Ha.
  - rewrite Ha. cbn. destruct k as [|d k]; simpl in Hb; [by rewrite Hb|].
    by destruct Hb as (_ & -> & _).
  - destruct Ha as (H1 & H2 & H3). rewrite H2, (proj2 (Z.eqb_neq c 0)) by done. cbn [negb].
    destruct k as [|d k]; simpl in Hb; [by rewrite Hb|]. destruct Hb as (H4 & H5 & H6).
    rewrite H5, (proj2 (Z.eqb_neq d 0)) by done. cbn [negb andb lex].
    destruct (Z.eqb_spec c d); [|done]. apply IH; done || lia.
Qed.

(** ** Contracts *)

(** C35. [memmove] copies the source as it was, however the two areas overlap,
    and changes nothing else; [memcpy] does the same unless the destination
    starts inside the source. *)
Theorem memmove_correct m dst src n a :
  0 <= n ->
  let copied := if (dst <=? a) && (a <? dst + n) then rd8 m (src + (a - dst)) else rd8 m a in
  rd8 (memmove m dst src n) a = copied /\
  (dst <= src \/ src + n <= dst -> rd8 (memcpy m dst src n) a = copied).
Proof.
  intros Hn. cbv zeta. unfold memmove, memcpy. split.
  - destruct (Z.eqb_spec dst src) as [->|]; cbn [orb].
    { replace (src + (a - src)) with a by lia. by destruct (_ && _). }
    destruct (Z.eqb_spec n 0) as [->|].
    { destruct (Z.leb_spec dst a), (Z.ltb_spec a (dst + 0)); done || lia. }
    destruct (Z.ltb_spec dst src).
    + rewrite copy_up_spec by lia. by rewrite Z.add_0_r, Z2Nat.id.
    + rewrite copy_down_spec by lia. by rewrite Z2Nat.id.
  - intros Hd. rewrite copy_up_spec by lia. by rewrite Z.add_0_r, Z2Nat.id.
Qed.

(** On NUL-terminated strings [strlen] returns the length and [strcmp]
    the lexicographic comparison of the bytes, which is 0 exactly on equal
    strings; both end after at most one step more than the length. *)
Theorem strcmp_correct m a b l k fuel :
  0 < a -> cstr m a l -> cstr m b k -> (length l < fuel)%nat ->
  strlen fuel m a = Some (Z.of_nat (length l)) /\
  strcmp fuel m a b = Some (lex l k) /\ (strcmp fuel m a b = Some 0 <-> l = k).
Proof.
  intros Hp Ha Hb Hf. unfold strlen. rewrite (strlen_loop_spec m l), (strcmp_lex m l k) by done.
  split_and!; [done|done|]. rewrite <- (lex_eq_0 l k) by (by eapply cstr_pos).
  split; [by intros [=]|by intros ->].
Qed.

(** [memset] fills exactly the area with the low byte of its argument;
    [memcmp] is 0 exactly when the areas agree, and otherwise has the sign of
    the first difference. *)
Theorem memset_memcmp_correct m dst c n x y :
  0 <= n ->
  (forall a, rd8 (memset m dst c n) a
     = if (dst <=? a) && (a <? dst + n) then u8 c else rd8 m a) /\
  ((memcmp m x y n = 0 /\ forall j, 0 <= j < n -> rd8 m (x + j) = rd8 m (y + j)) \/
   (exists k, 0 <= k < n /\ rd8 m (x + k) <> rd8 m (y + k) /\
    (forall j, 0 <= j < k -> rd8 m (x + j) = rd8 m (y + j)) /\
    memcmp m x y n = rd8 m (x + k) - rd8 m (y + k))).
Proof.
  intros Hn. split.
  - intros a. unfold memset. rewrite fill_spec by apply u8_range. by rewrite Z.add_0_r, Z2Nat.id.
  - pose proof (cmp_loop_spec (Z.to_nat n) m x y 0) as H. by rewrite Z2Nat.id in H.
Qed.

(** ** Instances *)

Definition demo : mem := wr (wr (wr (wr ∅ 10 97) 11 98) 20 97) 21 99.

Lemma memmove_correct_witness :
  rd8 (memmove demo 11 10 2) 12 = 98 /\ rd8 (memmove demo 11 10 2) 11 = 97.
Proof.
  split.
  - exact (proj1 (memmove_correct demo 11 10 2 12 ltac:(lia))).
  - exact (proj1 (memmove_correct demo 11 10 2 11 ltac:(lia))).
Defined.

Lemma strcmp_correct_witness :
  strlen 3 demo 10 = Some 2 /\ strcmp 3 demo 10 20 = Some (-1) /\
  (strcmp 3 demo 10 20 = Some 0 <-> [97; 98] = [97; 99]).
Proof.
  apply (strcmp_correct demo 10 20 [97; 98] [97; 99] 3); [lia| | |simpl; lia];
    repeat split; done.
Defined.

Lemma memset_memcmp_correct_witness :
  rd8 (memset demo 10 0x141 3) 12 = 0x41.
Proof. exact (proj1 (memset_memcmp_correct demo 10 0x141 3 10 20 ltac:(lia)) 12). Defined.

End Mem.
