(* ===== verification/Sched.v ===== *)
(** * Cooperative scheduler ([src/kernel64/sched/sched.c])

    Threads live in the array [g_threads]; a [thread_t*] is an index into it or
    [NULL].  The run queue is linked through the [next] fields.  The context
    switch is modelled on the registers RSP and RIP and on the words of the
    thread stacks. *)

From S2P Require Import Prelude.

Module Sched.

Record thread := Thread {
  next : option nat;
  rsp : Z;
  entry : Z;
  arg : Z;
  state : Z;
  id : Z
}.

(** What the scheduler prints. *)
Inductive message := NoNextThread | EmptyRunq.

Record sched := MkSched {
  g_runq : option nat;
  g_current : option nat;
  g_threads : list thread;
  g_thread_count : Z;
  cpu_rsp : Z;
  cpu_rip : Z;
  stack : mem;
  console : list message;
  halted : bool
}.

Definition MAX_THREADS : Z := 8.
Definition STACK_SIZE : Z := 16 * 1024.

Definition set_next (t : thread) (n : option nat) : thread :=
  Thread n (rsp t) (entry t) (arg t) (state t) (id t).
Definition set_state (t : thread) (s : Z) : thread :=
  Thread (next t) (rsp t) (entry t) (arg t) s (id t).
Definition set_rsp (t : thread) (r : Z) : thread :=
  Thread (next t) r (entry t) (arg t) (state t) (id t).

Definition with_runq (st : sched) (q : option nat) : sched :=
  MkSched q (g_current st) (g_threads st) (g_thread_count st) (cpu_rsp st) (cpu_rip st)
    (stack st) (console st) (halted st).
Definition with_current (st : sched) (c : option nat) : sched :=
  MkSched (g_runq st) c (g_threads st) (g_thread_count st) (cpu_rsp st) (cpu_rip st)
    (stack st) (console st) (halted st).
Definition with_threads (st : sched) (ts : list thread) : sched :=
  MkSched (g_runq st) (g_current st) ts (g_thread_count st) (cpu_rsp st) (cpu_rip st)
    (stack st) (console st) (halted st).
Definition with_count (st : sched) (n : Z) : sched :=
  MkSched (g_runq st) (g_current st) (g_threads st) n (cpu_rsp st) (cpu_rip st)
    (stack st) (console st) (halted st).
Definition with_cpu (st : sched) (sp ip : Z) (m : mem) : sched :=
  MkSched (g_runq st) (g_current st) (g_threads st) (g_thread_count st) sp ip
    m (console st) (halted st).
Definition print (st : sched) (msg : message) : sched :=
  MkSched (g_runq st) (g_current st) (g_threads st) (g_thread_count st) (cpu_rsp st) (cpu_rip st)
    (stack st) (msg :: console st) (halted st).
Definition halt (st : sched) : sched :=
  MkSched (g_runq st) (g_current st) (g_threads st) (g_thread_count st) (cpu_rsp st) (cpu_rip st)
    (stack st) (console st) true.

(** Write through a thread pointer; no result outside the array. *)
Definition update (st : sched) (t : nat) (f : thread -> thread) : option sched :=
  th ← g_threads st !! t; Some (with_threads st (<[t := f th]> (g_threads st))).

(** [while (p->next) p = p->next] *)
Fixpoint last_of (fuel : nat) (ts : list thread) (p : nat) : option nat :=
  match fuel with
  | O => None
  | S fuel' =>
      th ← ts !! p;
      match next th with
      | None => Some p
      | Some p' => last_of fuel' ts p'
      end
  end.

(** A queue of distinct threads is shorter than this. *)
Definition walk_fuel : nat := S (Z.to_nat MAX_THREADS).

Definition enqueue (st : sched) (t : nat) : option sched :=
  st ← update st t (fun th => set_next th None);
  match g_runq st with
  | None => Some (with_runq st (Some t))
  | Some p =>
      p ← last_of walk_fuel (g_threads st) p;
      update st p (fun th => set_next th (Some t))
  end.

Definition dequeue (st : sched) : option (option nat * sched) :=
  match g_runq st with
  | None => Some (None, st)
  | Some t => th ← g_threads st !! t; Some (Some t, with_runq st (next th))
  end.

(** [sched_context_switch(&old->rsp, new_rsp)] called with return address
    [ret]: the call pushes it, the body saves RSP ([None]: into a local that
    is never read), loads the new one and returns. *)
Definition sched_context_switch (st : sched) (ret : Z) (old : option nat) (new_rsp : Z)
    : option sched :=
  let sp := cpu_rsp st - 8 in
  let m := wr (stack st) sp ret in
  st ← match old with
       | Some t => update st t (fun th => set_rsp th sp)
       | None => Some st
       end;
  Some (with_cpu st (new_rsp + 8) (rd m new_rsp) m).

(** Make [next] current and switch to it. *)
Definition switch_to (st : sched) (ret : Z) (prev : option nat) (nxt : nat) : option sched :=
  st ← update (with_current st (Some nxt)) nxt (fun th => set_state th 1);
  th ← g_threads st !! nxt;
  sched_context_switch st ret prev (rsp th).

Section code.

(** Addresses fixed by the linker: the stacks, the entry of
    [thread_trampoline], and the return addresses of the three calls of
    [sched_context_switch]. *)
Context (g_stacks trampoline ret_exit ret_yield ret_start : Z).

(** The call [thread_trampoline] makes: the entry and argument of the
    current thread. *)
Definition trampoline_call (st : sched) : option (Z * Z) :=
  c ← g_current st;
  th ← g_threads st !! c;
  Some (entry th, arg th).

(** [thread_trampoline] after the entry function has returned. *)
Definition trampoline_exit (st : sched) : option sched :=
  c ← g_current st;
  st ← update st c (fun th => set_state th 2);
  '(nxt, st) ← dequeue st;
  match nxt with
  | None => Some (halt (print st NoNextThread))
  | Some nxt => switch_to st ret_exit (Some c) nxt
  end.

Definition sched_create (st : sched) (ent ar : Z) : option (Z * sched) :=
  if MAX_THREADS <=? g_thread_count st then Some (-1, st)
  else
    let t := Z.to_nat (g_thread_count st) in
    let stack_top := Z.land (g_stacks + g_thread_count st * STACK_SIZE + STACK_SIZE)
                       (u64 (Z.lnot 0xF)) in
    let sp := stack_top - 8 in
    st ← update st t (fun _ => Thread None sp ent ar 0 (g_thread_count st));
    let st := with_cpu st (cpu_rsp st) (cpu_rip st) (wr (stack st) sp trampoline) in
    st ← enqueue st t;
    Some (0, with_count st (g_thread_count st + 1)).

Definition sched_yield (st : sched) : option sched :=
  match g_current st with
  | None => Some st
  | Some c =>
      '(nxt, st) ← dequeue st;
      match nxt with
      | None => Some st
      | Some nxt =>
          if decide (nxt = c) then enqueue st nxt
          else
            th ← g_threads st !! c;
            st ← (if state th =? 1 then
                    st ← update st c (fun th => set_state th 0); enqueue st c
                  else Some st);
            switch_to st ret_yield (Some c) nxt
      end
  end.

Definition sched_start (st : sched) : option sched :=
  match g_current st with
  | Some _ => Some st
  | None =>
      '(nxt, st) ← dequeue st;
      match nxt with
      | None => Some (print st EmptyRunq)
      | Some nxt => switch_to st ret_start None nxt
      end
  end.

End code.

Record thread_info := Info { info_id : Z; info_state : Z; info_rsp : Z }.

(** [out] is non-null or not; the entries written. *)
Definition sched_enumerate (st : sched) (out : bool) (max : Z) : Z * list thread_info :=
  if negb out || (max <=? 0) then (0, [])
  else
    let n := if g_thread_count st <? max then g_thread_count st else max in
    (n, (fun th => Info (id th) (state th) (rsp th)) <$> take (Z.to_nat n) (g_threads st)).

Definition sched_current_id (st : sched) : option Z :=
  match g_current st with
  | None => Some (-1)
  | Some c => th ← g_threads st !! c; Some (id th)
  end.

End Sched.
