(* ===== verification/SchedSpec.v ===== *)
(** * Correctness of the scheduler

    The linked run queue is refined to a list of threads.  The invariant says
    that exactly the current thread is running, that the ready threads are
    those in the queue, and that each of them has an intact saved context on
    its own stack. *)

From S2P Require Import Prelude Sched.

Module SchedSpec.

Import Sched.

(** ** The run queue *)

(** The threads linked from [p]. *)
Fixpoint qrep (ts : list thread) (p : option nat) (q : list nat) : Prop :=
  match q with
  | [] => p = None
  | t :: r => p = Some t /\ exists th, ts !! t = Some th /\ qrep ts (next th) r
  end.

(** The fields of a thread other than the link. *)
Record core := Core { c_rsp : Z; c_entry : Z; c_arg : Z; c_state : Z; c_id : Z }.

Definition core_of (th : thread) : core :=
  Core (rsp th) (entry th) (arg th) (state th) (id th).

Definition cores (st : sched) : list core := core_of <$> g_threads st.

Lemma qrep_insert ts p q t th th' :
  ts !! t = Some th -> next th' = next th -> qrep ts p q -> qrep (<[t := th']> ts) p q.
Proof.
  intros Ht Hn. revert p. induction q as [|a r IH]; intros p Hq; [done|].
  destruct Hq as (-> & x & Ha & Hr). split; [done|].
  destruct (decide (a = t)) as [->|Hne].
  - exists th'. rewrite list_lookup_insert_eq by (by eapply lookup_lt_Some).
    rewrite Hn. simplify_eq. auto.
  - exists x. rewrite list_lookup_insert_ne by done. auto.
Qed.

Lemma qrep_insert_ne ts p q t th' : t ∉ q -> qrep ts p q -> qrep (<[t := th']> ts) p q.
Proof.
  revert p. induction q as [|a r IH]; intros p Hn Hq; [done|].
  destruct Hq as (-> & x & Ha & Hr). apply not_elem_of_cons in Hn as [H1 H2].
  split; [done|]. exists x. rewrite list_lookup_insert_ne by done. auto.
Qed.

Lemma last_of_spec ts q l : forall p fuel,
  qrep ts (Some p) (q ++ [l]) -> (length q < fuel)%nat -> last_of fuel ts p = Some l.
Proof.
  induction q as [|a r IH]; intros p [|fuel] Hq Hf; simpl in Hf; try lia;
    destruct Hq as ([= ->] & x & Ha & Hr); cbn [last_of]; rewrite Ha; bind.
  - simpl in Hr. by rewrite Hr.
  - destruct (next x) as [p'|]; [|by destruct r; destruct Hr]. apply IH; [done|lia].
Qed.

Lemma qrep_snoc ts p q l t th thl :
  qrep ts p (q ++ [l]) -> NoDup (q ++ [l]) -> t ∉ q ++ [l] ->
  ts !! t = Some th -> next th = None -> ts !! l = Some thl ->
  qrep (<[l := set_next thl (Some t)]> ts) p (q ++ [l; t]).
Proof.
  revert p. induction q as [|a r IH]; intros p Hq Hd Hn Ht Hth Hl.
  - destruct Hq as (-> & x & Ha & Hr). apply not_elem_of_cons in Hn as [Hne _].
    split; [done|]. exists (set_next thl (Some t)).
    rewrite list_lookup_insert_eq by (by eapply lookup_lt_Some). split; [done|].
    split; [done|]. exists th. by rewrite list_lookup_insert_ne.
  - destruct Hq as (-> & x & Ha & Hr). apply list.NoDup_cons in Hd as [Hd1 Hd2].
    apply not_elem_of_cons in Hn as [Hn1 Hn2].
    assert (a <> l) by (intros ->; apply Hd1; apply elem_of_app; right; by apply list_elem_of_singleton).
    split; [done|]. exists x. rewrite list_lookup_insert_ne by done. split; [done|]. by apply IH.
Qed.

(** Distinct indices below 8 are at most 8. *)
Lemma queue_length (q : list nat) n :
  NoDup q -> Forall (fun t => (t < n)%nat) q -> (length q <= n)%nat.
Proof.
  intros Hd Hf. transitivity (length (seq 0 n)); [|by rewrite length_seq].
  apply submseteq_length, NoDup_submseteq; [done|].
  intros t Ht. apply elem_of_seq. rewrite list.Forall_forall in Hf. specialize (Hf t Ht). lia.
Qed.

Lemma update_spec st t f th :
  g_threads st !! t = Some th ->
  update st t f = Some (with_threads st (<[t := f th]> (g_threads st))).
Proof. intros H. unfold update. by rewrite H. Qed.

(** [enqueue] appends to the queue and changes links only. *)
Lemma enqueue_spec st q t :
  length (g_threads st) = 8%nat -> qrep (g_threads st) (g_runq st) q -> NoDup q ->
  Forall (fun a => (a < 8)%nat) q -> t ∉ q -> (t < 8)%nat ->
  exists p ts, enqueue st t = Some (with_runq (with_threads st ts) p) /\
    qrep ts p (q ++ [t]) /\ core_of <$> ts = core_of <$> g_threads st.
Proof.
  intros Hlen Hq Hd Hf Hn Ht.
  destruct (lookup_lt_is_Some_2 (g_threads st) t ltac:(lia)) as [th Hth].
  unfold enqueue. rewrite (update_spec st t _ th Hth). bind. cbn [with_threads g_runq].
  set (ts1 := <[t := _]> (g_threads st)).
  assert (Hq1 : qrep ts1 (g_runq st) q) by (by apply qrep_insert_ne).
  assert (Ht1 : ts1 !! t = Some (set_next th None)) by (apply list_lookup_insert_eq; lia).
  assert (Hc1 : core_of <$> ts1 = core_of <$> g_threads st).
  { unfold ts1. rewrite list_fmap_insert. apply list_insert_id. by rewrite list_lookup_fmap, Hth. }
  destruct q as [|a r] using rev_ind.
  - simpl in Hq. rewrite Hq. exists (Some t), ts1. split; [done|]. split; [|done].
    split; [done|]. by exists (set_next th None).
  - clear IHr. destruct (g_runq st) as [p|] eqn:Ep; [|by destruct r; destruct Hq].
    pose proof (queue_length _ _ Hd Hf) as Hl. rewrite length_app in Hl. simpl in Hl.
    cbn [g_threads]. rewrite (last_of_spec ts1 r a p); [|done|unfold walk_fuel, MAX_THREADS; lia].
    bind. apply Forall_app in Hf as [_ Hfa]. inversion Hfa; subst.
    destruct (lookup_lt_is_Some_2 ts1 a) as [tha Ha]; [unfold ts1; rewrite length_insert; lia|].
    erewrite update_spec by exact Ha. eexists (Some p), _. split; [unfold with_runq, with_threads; cbn; rewrite Ep; reflexivity|].
    rewrite <- app_assoc. split; [by eapply qrep_snoc|].
    cbn [with_threads g_threads]. rewrite list_fmap_insert, <- Hc1.
    apply list_insert_id. by rewrite list_lookup_fmap, Ha.
Qed.

Lemma dequeue_cons st t r :
  qrep (g_threads st) (g_runq st) (t :: r) ->
  exists p, dequeue st = Some (Some t, with_runq st p) /\ qrep (g_threads st) p r.
Proof.
  intros (E & th & Ht & Hr). exists (next th). unfold dequeue. by rewrite E, Ht.
Qed.

Lemma dequeue_nil st : qrep (g_threads st) (g_runq st) [] -> dequeue st = Some (None, st).
Proof. intros E. unfold dequeue. by rewrite E. Qed.

(** ** The invariant *)

Section spec.
Context (g_stacks trampoline ret_exit ret_yield ret_start : Z).
Hypothesis stacks_aligned : 0 < g_stacks /\ g_stacks mod 16 = 0 /\ g_stacks < 2^47.

(** First byte of the stack of thread [t]. *)
Definition stack_base (t : nat) : Z := g_stacks + Z.of_nat t * STACK_SIZE.

(** A saved stack pointer and the return address it points to. *)
Definition ctx_ok (st : sched) (t : nat) (k : core) : Prop :=
  stack_base t <= c_rsp k /\ c_rsp k + 8 <= stack_base t + STACK_SIZE /\
  (rd (stack st) (c_rsp k) = trampoline \/ rd (stack st) (c_rsp k) = ret_yield).

Definition state_of (st : sched) (q : list nat) (t : nat) : Z :=
  if decide (g_current st = Some t) then (if halted st then 2 else 1)
  else if decide (t ∈ q) then 0 else 2.

Record inv (st : sched) (q : list nat) : Prop := Inv {
  si_len : length (g_threads st) = 8%nat;
  si_count : 0 <= g_thread_count st <= 8;
  si_queue : qrep (g_threads st) (g_runq st) q;
  si_nodup : NoDup q;
  si_below t : t ∈ q -> Z.of_nat t < g_thread_count st;
  si_current c : g_current st = Some c -> Z.of_nat c < g_thread_count st /\ c ∉ q;
  (** 1 is the current thread, 0 the threads in the queue, 2 the others. *)
  si_state t k : cores st !! t = Some k -> Z.of_nat t < g_thread_count st ->
    c_id k = Z.of_nat t /\ c_state k = state_of st q t;
  si_ctx t k : t ∈ q -> cores st !! t = Some k -> ctx_ok st t k;
  (** The running thread is on its own stack, with room for a return address. *)
  si_cpu c : g_current st = Some c -> halted st = false ->
    stack_base c + 8 <= cpu_rsp st <= stack_base c + STACK_SIZE;
  (** Before the start the processor is on a stack of its own. *)
  si_boot : g_current st = None ->
    cpu_rsp st <= g_stacks \/ g_stacks + MAX_THREADS * STACK_SIZE + 8 <= cpu_rsp st
}.

Lemma nodup_snoc {A} (l : list A) x : NoDup l -> x ∉ l -> NoDup (l ++ [x]).
Proof.
  intros Hl Hx. apply list.NoDup_app. split_and!; [done|by intros y Hy ->%list_elem_of_singleton|apply NoDup_singleton].
Qed.

Lemma inv_below8 st q : inv st q -> Forall (fun t => (t < 8)%nat) q.
Proof.
  intros H. apply list.Forall_forall. intros t Ht. pose proof (si_below _ _ H t Ht).
  pose proof (si_count _ _ H). lia.
Qed.

Lemma core_lookup st t : length (g_threads st) = 8%nat -> (t < 8)%nat ->
  exists th, g_threads st !! t = Some th /\ cores st !! t = Some (core_of th).
Proof.
  intros Hl Ht. destruct (lookup_lt_is_Some_2 (g_threads st) t ltac:(lia)) as [th E].
  exists th. unfold cores. by rewrite list_lookup_fmap, E.
Qed.

Definition k_state (k : core) (s : Z) : core := Core (c_rsp k) (c_entry k) (c_arg k) s (c_id k).
Definition k_rsp (k : core) (r : Z) : core := Core r (c_entry k) (c_arg k) (c_state k) (c_id k).

(** The effect of a switch from [prev] to [n]. *)
Record switched (st st' : sched) (ret : Z) (prev : option nat) (n : nat) (kn : core)
    (cs : list core) : Prop := Switched {
  sw_current : g_current st' = Some n;
  sw_count : g_thread_count st' = g_thread_count st;
  sw_halted : halted st' = halted st;
  sw_console : console st' = console st;
  sw_stack : stack st' = wr (stack st) (cpu_rsp st - 8) ret;
  sw_rsp : cpu_rsp st' = c_rsp kn + 8;
  sw_rip : cpu_rip st' = rd (stack st') (c_rsp kn);
  sw_cores : cores st' = match prev with
    | Some c => alter (fun k => k_rsp k (cpu_rsp st - 8)) c (alter (fun k => k_state k 1) n cs)
    | None => alter (fun k => k_state k 1) n cs
    end
}.

Lemma core_alter (ts : list thread) (t : nat) th f g :
  ts !! t = Some th -> core_of (f th) = g (core_of th) ->
  core_of <$> <[t := f th]> ts = alter g t (core_of <$> ts).
Proof.
  intros Ht E. rewrite list_fmap_insert, E. apply list_eq. intros i.
  destruct (decide (i = t)) as [->|Hne].
  - rewrite list_lookup_alter_eq, list_lookup_fmap, Ht.
    rewrite list_lookup_insert_eq by (rewrite length_fmap; by eapply lookup_lt_Some). done.
  - by rewrite list_lookup_alter_ne, list_lookup_insert_ne by done.
Qed.

Lemma switch_to_spec st ret prev n thn q :
  length (g_threads st) = 8%nat -> g_threads st !! n = Some thn ->
  (forall c, prev = Some c -> (c < 8)%nat) -> prev <> Some n ->
  qrep (g_threads st) (g_runq st) q ->
  exists st', switch_to st ret prev n = Some st' /\
    switched st st' ret prev n (core_of thn) (cores st) /\
    length (g_threads st') = 8%nat /\ qrep (g_threads st') (g_runq st') q.
Proof.
  intros Hl Hn Hp Hne Hq. unfold switch_to, update. cbn [with_current g_threads].
  rewrite Hn. bind. cbn [with_threads g_threads with_current].
  rewrite list_lookup_insert_eq by (by eapply lookup_lt_Some). bind.
  pose proof (core_alter _ _ _ (fun th => set_state th 1) (fun k => k_state k 1) Hn eq_refl) as HC.
  pose proof (qrep_insert _ _ _ n thn (set_state thn 1) Hn eq_refl Hq) as HQ.
  unfold sched_context_switch. destruct prev as [c|].
  - assert (Hcn : n <> c) by congruence.
    destruct (lookup_lt_is_Some_2 (g_threads st) c) as [thc Hc]; [specialize (Hp c eq_refl); lia|].
    unfold update. cbn [g_threads with_threads with_current cpu_rsp].
    rewrite list_lookup_insert_ne, Hc by done. bind.
    assert (Hc' : <[n := set_state thn 1]> (g_threads st) !! c = Some thc)
      by (by rewrite list_lookup_insert_ne).
    pose proof (core_alter _ _ _ (fun th => set_rsp th (cpu_rsp st - 8))
      (fun k => k_rsp k (cpu_rsp st - 8)) Hc' eq_refl) as HC'.
    eexists. split; [done|]. split; [constructor; try done|].
    + unfold cores. cbn [with_cpu with_threads g_threads with_current]. cbn in HC'.
      rewrite HC'. f_equal. exact HC.
    + cbn. rewrite !length_insert. split; [done|]. by eapply qrep_insert.
  - eexists. split; [done|]. split; [by constructor|]. cbn. by rewrite length_insert.
Qed.

Lemma alter_lookup (f : core -> core) (i j : nat) (l : list core) (k : core) :
  alter f i l !! j = Some k -> exists k0, l !! j = Some k0 /\ k = if decide (i = j) then f k0 else k0.
Proof.
  rewrite list_lookup_alter. case_decide as E.
  - subst. destruct (l !! j) as [k0|]; [|done]. intros [= <-]. by exists k0.
  - intros ->. by exists k.
Qed.

(** Pushing the return address leaves the other stacks alone. *)
Lemma ctx_push st st' t c k v :
  ctx_ok st t k -> t <> c -> stack_base c + 8 <= cpu_rsp st <= stack_base c + STACK_SIZE ->
  stack st' = wr (stack st) (cpu_rsp st - 8) v -> ctx_ok st' t k.
Proof.
  unfold ctx_ok. intros (H1 & H2 & H3) Hne Hc ->. split; [done|]. split; [done|].
  rewrite rd_wr_ne; [done|]. unfold stack_base, STACK_SIZE in *.
  destruct (decide (t < c)%nat); lia.
Qed.

(** ** [sched_yield] *)

Lemma yield_alone st : inv st [] -> sched_yield ret_yield st = Some st.
Proof.
  intros H. unfold sched_yield. destruct (g_current st); [|done].
  rewrite dequeue_nil by apply H. done.
Qed.

Lemma yield_switch st c n r :
  inv st (n :: r) -> g_current st = Some c -> halted st = false ->
  exists st' kn, sched_yield ret_yield st = Some st' /\ cores st !! n = Some kn /\
    switched st st' ret_yield (Some c) n kn (alter (fun k => k_state k 0) c (cores st)) /\
    length (g_threads st') = 8%nat /\ qrep (g_threads st') (g_runq st') (r ++ [c]).
Proof.
  intros Hinv Hc Hh. pose proof Hinv as [Hl Hk Hq Hd Hb Hcur Hst Hctx Hcpu Hboot].
  destruct (Hcur c Hc) as [Hc8 Hcq]. apply not_elem_of_cons in Hcq as [Hcn Hcr].
  pose proof (Hb n ltac:(left)) as Hn8. apply list.NoDup_cons in Hd as [Hnr Hdr].
  pose proof (inv_below8 _ _ Hinv) as H8. apply list.Forall_cons in H8 as [Hn8' H8r].
  destruct (dequeue_cons _ _ _ Hq) as (p & E & Hr). unfold sched_yield. rewrite Hc, E. bind.
  rewrite decide_False by done. cbn [with_runq g_threads].
  destruct (core_lookup st c Hl ltac:(lia)) as (thc & Ec & Kc). rewrite Ec. bind.
  destruct (Hst _ _ Kc Hc8) as [_ Hsc]. unfold state_of in Hsc.
  rewrite decide_True, Hh in Hsc by done. cbn in Hsc. rewrite Hsc. cbn [Z.eqb Pos.eqb].
  rewrite (update_spec _ _ _ thc) by done. bind. cbn [with_runq g_threads].
  set (ts0 := <[c := set_state thc 0]> (g_threads st)).
  set (st1 := with_threads (with_runq st p) ts0).
  destruct (enqueue_spec st1 r c) as (p' & ts1 & E1 & Hq1 & Hc1); try done; try lia.
  { cbn. unfold ts0. by rewrite length_insert. }
  { cbn. by eapply qrep_insert. }
  rewrite E1. bind. assert (Hl1 : length ts1 = 8%nat).
  { rewrite <- (length_fmap core_of), Hc1, length_fmap. cbn. unfold ts0. by rewrite length_insert. }
  destruct (lookup_lt_is_Some_2 ts1 n ltac:(lia)) as [thn Hn].
  destruct (switch_to_spec (with_runq (with_threads st1 ts1) p') ret_yield (Some c) n thn (r ++ [c]))
    as (st' & E2 & Hsw & Hl2 & Hq2); try done; [intros ? [= <-]; lia|congruence|].
  exists st', (core_of thn). split; [done|].
  assert (HK : core_of <$> ts1 = alter (fun k => k_state k 0) c (cores st)).
  { rewrite Hc1. cbn. by apply (core_alter _ _ _ (fun th => set_state th 0)). }
  split; [|split; [|done]].
  - assert (Hx : (core_of <$> ts1) !! n = Some (core_of thn)) by (by rewrite list_lookup_fmap, Hn).
    rewrite HK, list_lookup_alter_ne in Hx by done. done.
  - destruct Hsw as [S1 S2 S3 S4 S5 S6 S7 S8]. constructor; try done.
    rewrite S8. cbn. by rewrite HK.
Qed.

(** A switch away from [c] keeps the invariant: [c] is queued again (yield) or
    is done (exit). *)
(** The fields of a thread after a switch from [c] to [n]. *)
Lemma switched_lookup st st' ret c n s kn :
  switched st st' ret (Some c) n kn (alter (fun k => k_state k s) c (cores st)) -> n <> c ->
  forall t k, cores st' !! t = Some k -> exists k0, cores st !! t = Some k0 /\
    k = if decide (c = t) then k_rsp (k_state k0 s) (cpu_rsp st - 8)
        else if decide (n = t) then k_state k0 1 else k0.
Proof.
  intros Hsw Hne t k Hkt. rewrite (sw_cores _ _ _ _ _ _ _ Hsw) in Hkt. apply alter_lookup in Hkt as (k1 & Hkt & ->).
  apply alter_lookup in Hkt as (k2 & Hkt & ->). apply alter_lookup in Hkt as (k3 & Hkt & ->).
  exists k3. split; [done|]. by destruct (decide (c = t)), (decide (n = t)); subst.
Qed.

Lemma switched_inv st st' ret c n r q' s kn :
  inv st (n :: r) -> g_current st = Some c -> halted st = false -> cores st !! n = Some kn ->
  switched st st' ret (Some c) n kn (alter (fun k => k_state k s) c (cores st)) ->
  length (g_threads st') = 8%nat -> qrep (g_threads st') (g_runq st') q' ->
  (q' = r ++ [c] /\ s = 0 /\ ret = ret_yield) \/ (q' = r /\ s = 2) -> inv st' q'.
Proof.
  intros Hinv Hc Hh Kn Hsw Hl' Hq' Hcase. pose proof Hsw as [S1 S2 S3 S4 S5 S6 S7 S8].
  pose proof Hinv as [Hl Hk Hq Hd Hb Hcur Hst Hctx Hcpu Hboot].
  destruct (Hcur c Hc) as [Hc8 Hcq]. apply not_elem_of_cons in Hcq as [Hcn Hcr].
  pose proof (Hb n ltac:(left)) as Hn8. apply list.NoDup_cons in Hd as [Hnr Hdr].
  pose proof (Hcpu c Hc Hh) as Hsp.
  assert (Hmem : forall t, t ∈ q' -> t = c \/ t ∈ r).
  { intros t Ht. destruct Hcase as [(-> & _)|(-> & _)]; [|by right].
    apply elem_of_app in Ht as [ | ->%list_elem_of_singleton]; auto. }
  assert (Hr' : forall t, t ∈ r -> t ∈ q').
  { intros t Ht. destruct Hcase as [(-> & _)|(-> & _)]; [|done]. apply elem_of_app. by left. }
  pose proof (switched_lookup st st' ret c n s kn Hsw ltac:(congruence)) as Hlook.
  constructor; try done.
  - by rewrite S2.
  - destruct Hcase as [(-> & _)|(-> & _)]; [by apply nodup_snoc|done].
  - intros t Ht. rewrite S2. destruct (Hmem t Ht) as [->|H]; [done|]. apply Hb. by right.
  - intros x Hx. rewrite S1 in Hx. injection Hx as <-. rewrite S2. split; [done|].
    intros [->|]%Hmem; done.
  - intros t k Hkt Ht8. rewrite S2 in Ht8. destruct (Hlook t k Hkt) as (k0 & Hk0 & ->).
    destruct (Hst t k0 Hk0 Ht8) as [Hid Hs0]. unfold state_of in *. rewrite S1, S3, Hc, Hh in *.
    destruct (decide (c = t)) as [<-|Hct].
    + split; [done|]. cbn. rewrite decide_False by congruence.
      destruct Hcase as [(-> & -> & _)|(-> & ->)].
      * rewrite decide_True; [done|]. apply elem_of_app. right. by apply list_elem_of_singleton.
      * by rewrite decide_False.
    + rewrite decide_False in Hs0 by congruence. destruct (decide (n = t)) as [<-|Hnt].
      * split; [done|]. by rewrite decide_True.
      * split; [done|]. rewrite Hs0, (decide_False (P := Some n = Some t)) by congruence.
        destruct (decide (t ∈ n :: r)) as [H|H], (decide (t ∈ q')) as [H'|H']; try done.
        -- apply elem_of_cons in H as [|H]; [congruence|]. by destruct H'; apply Hr'.
        -- destruct H. right. by destruct (Hmem t H') as [|].
  - intros t k Ht Hkt. destruct (Hlook t k Hkt) as (k0 & Hk0 & ->).
    destruct (decide (c = t)) as [<-|Hct].
    + destruct Hcase as [(-> & -> & ->)|(-> & ->)]; [|done]. unfold ctx_ok. cbn. rewrite S5.
      rewrite rd_wr_eq. split_and!; [lia|lia|by right].
    + destruct (Hmem t Ht) as [|H]; [congruence|].
      rewrite decide_False by (intros ->; done).
      eapply (ctx_push st st' t c); [|congruence|done|done]. apply Hctx; [by right|done].
  - intros x Hx _. rewrite S1 in Hx. injection Hx as <-. rewrite S6.
    destruct (Hctx n kn ltac:(left) Kn) as (H1 & H2 & _). lia.
  - by rewrite S1.
Qed.

(** ** [thread_trampoline] after the entry function *)

Lemma exit_switch st c n r :
  inv st (n :: r) -> g_current st = Some c -> halted st = false ->
  exists st' kn, trampoline_exit ret_exit st = Some st' /\ cores st !! n = Some kn /\
    switched st st' ret_exit (Some c) n kn (alter (fun k => k_state k 2) c (cores st)) /\
    length (g_threads st') = 8%nat /\ qrep (g_threads st') (g_runq st') r.
Proof.
  intros Hinv Hc Hh. pose proof Hinv as [Hl Hk Hq Hd Hb Hcur Hst Hctx Hcpu Hboot].
  destruct (Hcur c Hc) as [Hc8 Hcq]. apply not_elem_of_cons in Hcq as [Hcn Hcr].
  pose proof (Hb n ltac:(left)) as Hn8.
  destruct (core_lookup st c Hl ltac:(lia)) as (thc & Ec & Kc).
  destruct (core_lookup st n Hl ltac:(lia)) as (thn & En & Kn).
  unfold trampoline_exit. rewrite Hc. bind. rewrite (update_spec _ _ _ thc) by done. bind.
  set (ts0 := <[c := _]> (g_threads st)).
  destruct (dequeue_cons (with_threads st ts0) n r) as (p & E & Hr).
  { cbn [g_threads g_runq with_threads]. by eapply qrep_insert. }
  rewrite E. bind.
  assert (Hn : ts0 !! n = Some thn) by (unfold ts0; by rewrite list_lookup_insert_ne).
  destruct (switch_to_spec (with_runq (with_threads st ts0) p) ret_exit (Some c) n thn r)
    as (st' & E2 & Hsw & Hl2 & Hq2); try done; [cbn; unfold ts0; by rewrite length_insert
    |intros ? [= <-]; lia|congruence|].
  exists st', (core_of thn). split_and!; [done|done| |done|done].
  destruct Hsw as [S1 S2 S3 S4 S5 S6 S7 S8]. constructor; try done. rewrite S8.
  unfold cores at 1. cbn [with_runq with_threads g_threads cpu_rsp]. unfold ts0.
  rewrite (core_alter _ _ _ (fun th => set_state th 2) (fun k => k_state k 2) Ec eq_refl). done.
Qed.

(** The last thread ends: the machine halts. *)
Lemma exit_halt st c :
  inv st [] -> g_current st = Some c -> halted st = false ->
  exists st', trampoline_exit ret_exit st = Some st' /\ inv st' [] /\ halted st' = true /\
    console st' = NoNextThread :: console st /\ g_thread_count st' = g_thread_count st /\
    g_current st' = Some c /\ cores st' = alter (fun k => k_state k 2) c (cores st).
Proof.
  intros Hinv Hc Hh. pose proof Hinv as [Hl Hk Hq Hd Hb Hcur Hst Hctx Hcpu Hboot].
  destruct (Hcur c Hc) as [Hc8 Hcq].
  destruct (core_lookup st c Hl ltac:(lia)) as (thc & Ec & Kc).
  unfold trampoline_exit. rewrite Hc. bind. rewrite (update_spec _ _ _ thc) by done. bind.
  rewrite dequeue_nil by done. bind. eexists. split; [done|].
  assert (HK : core_of <$> <[c := set_state thc 2]> (g_threads st)
    = alter (fun k => k_state k 2) c (cores st)) by (by apply (core_alter _ _ _ (fun th => set_state th 2))).
  split; [|by split_and!]. constructor; cbn; try done.
  - by rewrite length_insert.
  - intros t k Hkt Ht8. unfold cores in Hkt. cbn in Hkt. rewrite HK in Hkt.
    apply alter_lookup in Hkt as (k0 & Hk0 & ->). destruct (Hst t k0 Hk0 Ht8) as [Hid Hs0].
    unfold state_of in *. cbn. rewrite Hc, Hh in *. destruct (decide (c = t)) as [<-|Hct].
    + split; [done|]. by rewrite decide_True.
    + by rewrite decide_False in * by congruence.
  - intros t k Ht. by apply elem_of_nil in Ht.
Qed.

(** ** [sched_start] *)

Lemma start_switch st n r :
  inv st (n :: r) -> g_current st = None -> halted st = false ->
  exists st' kn, sched_start ret_start st = Some st' /\ cores st !! n = Some kn /\
    switched st st' ret_start None n kn (cores st) /\ inv st' r.
Proof.
  intros Hinv Hc Hh. pose proof Hinv as [Hl Hk Hq Hd Hb Hcur Hst Hctx Hcpu Hboot].
  pose proof (Hb n ltac:(left)) as Hn8. apply list.NoDup_cons in Hd as [Hnr Hdr].
  destruct (dequeue_cons _ _ _ Hq) as (p & E & Hr). unfold sched_start. rewrite Hc, E. bind.
  destruct (core_lookup st n Hl ltac:(lia)) as (thn & En & Kn).
  destruct (switch_to_spec (with_runq st p) ret_start None n thn r)
    as (st' & E2 & Hsw & Hl2 & Hq2); try done.
  exists st', (core_of thn). split; [done|]. split; [done|].
  destruct Hsw as [S1 S2 S3 S4 S5 S6 S7 S8]. cbn in S2, S3, S4, S5. unfold cores in S8 at 2.
  cbn in S8. fold (cores st) in S8. split; [by constructor|].
  specialize (Hboot Hc). unfold MAX_THREADS in Hboot. constructor; try done.
  - by rewrite S2.
  - intros t Ht. rewrite S2. apply Hb. by right.
  - intros x Hx. rewrite S1 in Hx. injection Hx as <-. by rewrite S2.
  - intros t k Hkt Ht8. rewrite S2 in Ht8. rewrite S8 in Hkt.
    apply alter_lookup in Hkt as (k0 & Hk0 & ->). destruct (Hst t k0 Hk0 Ht8) as [Hid Hs0].
    unfold state_of in *. rewrite S1, S3, Hc, Hh in *. rewrite decide_False in Hs0 by done.
    destruct (decide (n = t)) as [<-|Hnt]; [by rewrite decide_True|].
    rewrite (decide_False (P := Some n = Some t)) by congruence. split; [done|]. rewrite Hs0.
    apply decide_ext. rewrite elem_of_cons. split; [intros [|]; [congruence|done]|by right].
  - intros t k Ht Hkt. rewrite S8 in Hkt. apply alter_lookup in Hkt as (k0 & Hk0 & ->).
    rewrite decide_False by (intros ->; done).
    destruct (Hctx t k0 ltac:(by right) Hk0) as (H1 & H2 & H3). unfold ctx_ok.
    split_and!; [done|done|]. rewrite S5, rd_wr_ne; [done|].
    assert (Z.of_nat t < g_thread_count st) by (apply Hb; by right).
    unfold stack_base, STACK_SIZE in *. lia.
  - intros x Hx _. rewrite S1 in Hx. injection Hx as <-. rewrite S6.
    destruct (Hctx n _ ltac:(left) Kn) as (H1 & H2 & _). lia.
  - by rewrite S1.
Qed.

(** ** [sched_create] *)

Lemma stack_top_eq t :
  (t < 8)%nat -> Z.land (g_stacks + Z.of_nat t * STACK_SIZE + STACK_SIZE) (u64 (Z.lnot 0xF))
  = stack_base t + STACK_SIZE.
Proof.
  intros Ht. destruct stacks_aligned as (H1 & H2 & H3). unfold stack_base, STACK_SIZE.
  pose proof (align_down_pow2 (g_stacks + Z.of_nat t * (16 * 1024) + 16 * 1024) 4 ltac:(lia) ltac:(lia))
    as E. unfold align_down in E. change (2^4 - 1) with 0xF in E. rewrite E. zmod.
Qed.

(** A thread [t] was added to [st], with its context on top of its stack. *)
Record created (st st' : sched) (t : nat) (ent ar : Z) : Prop := Created {
  cr_core : cores st' = <[t := Core (stack_base t + STACK_SIZE - 8) ent ar 0 (Z.of_nat t)]> (cores st);
  cr_stack : stack st' = wr (stack st) (stack_base t + STACK_SIZE - 8) trampoline;
  cr_count : g_thread_count st' = g_thread_count st + 1;
  cr_current : g_current st' = g_current st;
  cr_halted : halted st' = halted st
}.

Lemma created_lookup st st' t ent ar x k : created st st' t ent ar -> length (g_threads st) = 8%nat -> (t < 8)%nat ->
  cores st' !! x = Some k ->
  (x = t /\ k = Core (stack_base t + STACK_SIZE - 8) ent ar 0 (Z.of_nat t)) \/ (x <> t /\ cores st !! x = Some k).
Proof.
  intros [-> _ _ _ _] Hl Ht Hx. destruct (decide (x = t)) as [->|Hne]; [left|right].
  - rewrite list_lookup_insert_eq in Hx by (unfold cores; rewrite length_fmap; lia). by injection Hx as <-.
  - by rewrite list_lookup_insert_ne in Hx.
Qed.

Lemma created_state st st' q t ent ar x k : inv st q -> created st st' t ent ar -> Z.of_nat t = g_thread_count st -> (t < 8)%nat ->
  cores st' !! x = Some k -> Z.of_nat x < g_thread_count st' -> c_id k = Z.of_nat x /\ c_state k = state_of st' (q ++ [t]) x.
Proof.
  intros [Hl _ _ _ _ Hcur Hst _ _ _] Hcr Et Ht Hx Hx8. pose proof Hcr as [_ _ Hn Hc Hh]. unfold state_of. rewrite Hc, Hh.
  destruct (created_lookup _ _ _ _ _ _ _ Hcr Hl Ht Hx) as [[-> ->]|[Hne Hx']].
  - split; [done|]. cbn. rewrite decide_False by (intros H; apply Hcur in H; lia).
    rewrite decide_True; [done|]. apply elem_of_app. right. by apply list_elem_of_singleton.
  - destruct (Hst x k Hx' ltac:(lia)) as [H1 H2]. split; [done|]. rewrite H2. unfold state_of.
    destruct (decide (g_current st = Some x)); [done|]. apply decide_ext.
    rewrite elem_of_app, list_elem_of_singleton. split; [by left|]. intros [|]; [done|congruence].
Qed.

Lemma created_ctx st st' q t ent ar x k : inv st q -> created st st' t ent ar -> (t < 8)%nat ->
  x ∈ q ++ [t] -> cores st' !! x = Some k -> ctx_ok st' x k.
Proof.
  intros [Hl _ _ _ _ _ _ Hctx _ _] Hcr Ht Hx Hxk. unfold ctx_ok. rewrite (cr_stack _ _ _ _ _ Hcr).
  destruct (created_lookup _ _ _ _ _ _ _ Hcr Hl Ht Hxk) as [[-> ->]|[Hne Hxk']].
  - cbn. rewrite rd_wr_eq. unfold STACK_SIZE. split_and!; [lia|lia|by left].
  - apply elem_of_app in Hx as [Hx| ->%list_elem_of_singleton]; [|done].
    destruct (Hctx x k Hx Hxk') as (H1 & H2 & H3). split_and!; [done|done|].
    rewrite rd_wr_ne; [done|]. unfold stack_base, STACK_SIZE in *. destruct (decide (x < t)%nat); lia.
Qed.

Lemma create_spec st q ent ar :
  inv st q -> g_thread_count st < 8 ->
  let t := Z.to_nat (g_thread_count st) in
  exists st', sched_create g_stacks trampoline st ent ar = Some (0, st') /\
    inv st' (q ++ [t]) /\ g_thread_count st' = g_thread_count st + 1 /\
    g_current st' = g_current st /\ halted st' = halted st /\
    cores st' = <[t := Core (stack_base t + STACK_SIZE - 8) ent ar 0 (Z.of_nat t)]> (cores st) /\
    stack st' = wr (stack st) (stack_base t + STACK_SIZE - 8) trampoline.
Proof.
  intros Hinv H8 t. pose proof Hinv as [Hl Hk Hq Hd Hb Hcur Hst Hctx Hcpu Hboot].
  assert (Et : Z.of_nat t = g_thread_count st) by (unfold t; lia).
  assert (Ht : (t < 8)%nat) by lia. unfold sched_create, MAX_THREADS.
  rewrite (proj2 (Z.leb_gt _ _)) by lia. fold t. rewrite <- Et, stack_top_eq by done.
  set (sp := stack_base t + STACK_SIZE - 8). set (th0 := Thread None sp ent ar 0 (Z.of_nat t)).
  destruct (lookup_lt_is_Some_2 (g_threads st) t ltac:(lia)) as [th E].
  rewrite (update_spec _ _ _ th) by done. bind. set (st1 := with_cpu _ _ _ _).
  assert (Htq : t ∉ q) by (intros H; apply Hb in H; lia).
  destruct (enqueue_spec st1 q t) as (p & ts & E1 & Hq1 & HC); try done.
  { cbn. by rewrite length_insert. }
  { cbn [st1 with_cpu with_threads g_threads g_runq]. by apply qrep_insert_ne. }
  { by eapply inv_below8. }
  rewrite E1. bind. eexists. split; [done|]. cbn in HC. rewrite list_fmap_insert in HC.
  assert (Hts : length ts = 8%nat).
  { rewrite <- (length_fmap core_of), HC, length_insert, length_fmap. done. }
  match goal with |- inv ?s _ /\ _ => assert (Hcr : created st s t ent ar) by (constructor; cbn; (done || lia)) end.
  split; [|split_and!; try apply Hcr; cbn; lia].
  constructor; try (cbn; done || lia).
  - by apply nodup_snoc.
  - intros x Hx. rewrite (cr_count _ _ _ _ _ Hcr). apply elem_of_app in Hx as [Hx| ->%list_elem_of_singleton]; [|lia].
    specialize (Hb x Hx). lia.
  - intros c Hc. destruct (Hcur c Hc) as [H1 H2]. rewrite (cr_count _ _ _ _ _ Hcr). split; [lia|].
    intros [H| ->%list_elem_of_singleton]%elem_of_app; [done|lia].
  - intros x k. by eapply created_state.
  - intros x k. by eapply created_ctx.
Qed.

End spec.

End SchedSpec.
