(* ===== verification/SchedProps.v ===== *)
(** * Properties of the scheduler

    Every interleaving of thread work, creations, yields and exits keeps the
    invariant of [SchedSpec]; yields are round robin; a thread that yields
    resumes where it was. *)

From S2P Require Import Prelude Sched SchedSpec.

Module SchedProps.

Import Sched SchedSpec.

Section props.
Context (g_stacks trampoline ret_exit ret_yield ret_start : Z).
Context (stacks_aligned : 0 < g_stacks /\ g_stacks mod 16 = 0 /\ g_stacks < 2^47).

Abbreviation inv := (inv g_stacks trampoline ret_yield).
Abbreviation create := (sched_create g_stacks trampoline).
Abbreviation yield := (sched_yield ret_yield).

(** What can happen: the kernel creates threads and starts the scheduler, the
    running thread creates threads, yields, ends, or does work of its own,
    which may change its registers and its own stack. *)
Inductive step : sched -> sched -> Prop :=
  | step_create st ent ar r st' :
      halted st = false -> create st ent ar = Some (r, st') -> step st st'
  | step_start st st' : halted st = false -> sched_start ret_start st = Some st' -> step st st'
  | step_yield st st' : halted st = false -> yield st = Some st' -> step st st'
  | step_exit st st' :
      halted st = false -> is_Some (g_current st) -> trampoline_exit ret_exit st = Some st' ->
      step st st'
  | step_work st c sp ip m :
      halted st = false -> g_current st = Some c ->
      stack_base g_stacks c + 8 <= sp <= stack_base g_stacks c + STACK_SIZE ->
      (forall a, ~ stack_base g_stacks c <= a < stack_base g_stacks c + STACK_SIZE ->
         rd m a = rd (stack st) a) ->
      step st (with_cpu st sp ip m).

(** The saved context of [t]: its stack pointer and return address. *)
Definition saved (st : sched) (t : nat) (sp ip : Z) : Prop :=
  exists k, cores st !! t = Some k /\ c_rsp k = sp /\ rd (stack st) sp = ip.

(** A ready thread stays ready with its context, or is resumed. *)
Definition kept (st' : sched) (q' : list nat) (t : nat) (sp ip : Z) : Prop :=
  (t ∈ q' /\ saved st' t sp ip) \/
  (g_current st' = Some t /\ cpu_rsp st' = sp + 8 /\ cpu_rip st' = ip).

Lemma switched_kept st st' ret prev n r q q' kn cs t sp ip :
  inv st q -> q = n :: r -> cores st !! n = Some kn -> halted st = false ->
  switched st st' ret prev n kn cs -> g_current st = prev ->
  (forall k, t <> n -> prev <> Some t -> cores st !! t = Some k -> cores st' !! t = Some k) ->
  (forall x, x ∈ r -> x ∈ q') ->
  t ∈ q -> saved st t sp ip -> kept st' q' t sp ip.
Proof.
  intros Hinv -> Kn Hh [S1 S2 S3 S4 S5 S6 S7 S8] Hc Hcs Hr Ht (k & Hk & <- & <-).
  pose proof (si_ctx _ _ _ _ _ Hinv t k Ht Hk) as (C1 & C2 & _).
  pose proof (si_below _ _ _ _ _ Hinv t Ht) as Hb. pose proof (si_count _ _ _ _ _ Hinv).
  assert (Hne : cpu_rsp st - 8 <> c_rsp k).
  { unfold stack_base, STACK_SIZE, MAX_THREADS in *. destruct (g_current st) as [c|] eqn:Ec.
    - destruct (si_current _ _ _ _ _ Hinv c Ec) as [_ Hcq].
      pose proof (si_cpu _ _ _ _ _ Hinv c Ec Hh) as Hs. unfold stack_base, STACK_SIZE in Hs.
      assert (c <> t) by (intros ->; done). destruct (decide (c < t)%nat); lia.
    - pose proof (si_boot _ _ _ _ _ Hinv Ec) as Hs. unfold STACK_SIZE, MAX_THREADS in Hs. lia. }
  destruct (decide (t = n)) as [->|Htn].
  - right. simplify_eq. split_and!; [done|done|]. rewrite S7, S5. by rewrite rd_wr_ne.
  - left. apply elem_of_cons in Ht as [|Ht]; [done|]. split; [auto|]. exists k.
    split_and!; [|done|rewrite S5; by rewrite rd_wr_ne]. apply Hcs; [done| |done].
    intros Ec. subst prev. destruct (si_current _ _ _ _ _ Hinv t Ec) as [_ H']. apply H'. by right.
Qed.

(** The invariant holds again, and ready threads stay ready or are resumed. *)
Definition carries (st : sched) (q : list nat) (st' : sched) : Prop := exists q', inv st' q' /\
  forall t sp ip, t ∈ q -> saved st t sp ip -> kept st' q' t sp ip.

Lemma carries_same st q : inv st q -> carries st q st.
Proof. intros Hi. exists q. split; [done|]. intros. by left. Qed.

Lemma create_carries st q ent ar r st' : inv st q -> create st ent ar = Some (r, st') -> carries st q st'.
Proof.
  intros Hinv E. destruct (decide (g_thread_count st < 8)) as [H8|H8].
  - destruct (create_spec g_stacks trampoline ret_yield stacks_aligned st q ent ar Hinv H8)
      as (st1 & E1 & Hinv' & Hn & _ & _ & HC & HS). rewrite E in E1. injection E1 as -> <-.
    eexists. split; [exact Hinv'|]. intros t sp ip Ht (k & Hk & <- & <-). left.
    split; [apply elem_of_app; by left|]. pose proof (si_below _ _ _ _ _ Hinv t Ht) as Hb.
    destruct (si_ctx _ _ _ _ _ Hinv t k Ht Hk) as (C1 & C2 & _).
    exists k. rewrite HC, HS, list_lookup_insert_ne by lia. split_and!; [done|done|].
    apply rd_wr_ne. unfold stack_base, STACK_SIZE in *. lia.
  - unfold sched_create, MAX_THREADS in E. rewrite (proj2 (Z.leb_le _ _)) in E by lia.
    injection E as <- <-. by apply carries_same.
Qed.

Lemma start_carries st q st' : inv st q -> halted st = false -> sched_start ret_start st = Some st' -> carries st q st'.
Proof.
  intros Hinv Hh E. destruct (g_current st) as [c|] eqn:Hc.
  { unfold sched_start in E. rewrite Hc in E. injection E as <-. by apply carries_same. }
  destruct q as [|n r].
  { unfold sched_start in E. rewrite Hc, dequeue_nil in E by apply Hinv. injection E as <-.
    exists []. split; [destruct Hinv; by constructor|]. intros. by left. }
  destruct (start_switch _ _ ret_yield ret_start st n r Hinv Hc Hh)
    as (st1 & kn & E1 & Kn & Hsw & Hinv'). rewrite E in E1. injection E1 as <-.
  exists r. split; [done|]. intros t sp ip Ht Hsv.
  eapply (switched_kept st st' _ _ n r (n :: r)); try done. intros k Htn _ Hk. rewrite (sw_cores _ _ _ _ _ _ _ Hsw).
  by rewrite list_lookup_alter_ne.
Qed.

Lemma yield_carries st q st' : inv st q -> halted st = false -> yield st = Some st' -> carries st q st'.
Proof.
  intros Hinv Hh E. destruct (g_current st) as [c|] eqn:Hc.
  2: { unfold sched_yield in E. rewrite Hc in E. injection E as <-. by apply carries_same. }
  destruct q as [|n r].
  { rewrite (yield_alone _ _ _ _ Hinv) in E. injection E as <-. by apply carries_same. }
  destruct (yield_switch _ _ _ st c n r Hinv Hc Hh) as (st1 & kn & E1 & Kn & Hsw & Hl & Hq).
  rewrite E in E1. injection E1 as <-. exists (r ++ [c]). split.
  { eapply switched_inv; try done. left. by split_and!. }
  intros t sp ip Ht Hsv. eapply (switched_kept st st' _ _ n r (n :: r)); try done.
  - intros k Htn Htc Hk. rewrite (sw_cores _ _ _ _ _ _ _ Hsw). by rewrite !list_lookup_alter_ne by congruence.
  - intros x Hx. apply elem_of_app. by left.
Qed.

Lemma exit_carries st q c st' : inv st q -> halted st = false -> g_current st = Some c ->
  trampoline_exit ret_exit st = Some st' -> carries st q st'.
Proof.
  intros Hinv Hh Hc E. destruct q as [|n r].
  { destruct (exit_halt _ _ ret_exit _ st c Hinv Hc Hh) as (st1 & E1 & Hinv' & _).
    rewrite E in E1. injection E1 as <-. exists []. split; [done|]. intros t sp ip Ht. by apply elem_of_nil in Ht. }
  destruct (exit_switch _ _ ret_exit _ st c n r Hinv Hc Hh) as (st1 & kn & E1 & Kn & Hsw & Hl & Hq).
  rewrite E in E1. injection E1 as <-. exists r. split.
  { eapply switched_inv; try done. right. by split. }
  intros t sp ip Ht Hsv. eapply (switched_kept st st' _ _ n r (n :: r)); try done.
  intros k Htn Htc Hk. rewrite (sw_cores _ _ _ _ _ _ _ Hsw). by rewrite !list_lookup_alter_ne by congruence.
Qed.

(** Work of the running thread stays on its own stack. *)
Lemma work_carries st q c sp ip m : inv st q -> g_current st = Some c ->
  stack_base g_stacks c + 8 <= sp <= stack_base g_stacks c + STACK_SIZE ->
  (forall a, ~ stack_base g_stacks c <= a < stack_base g_stacks c + STACK_SIZE -> rd m a = rd (stack st) a) ->
  carries st q (with_cpu st sp ip m).
Proof.
  intros Hinv Hc Hsp Hm.
  assert (Hkeep : forall t k, t ∈ q -> cores st !! t = Some k -> rd m (c_rsp k) = rd (stack st) (c_rsp k)).
  { intros t k Ht Hk. destruct (si_ctx _ _ _ _ _ Hinv t k Ht Hk) as (C1 & C2 & _).
    destruct (si_current _ _ _ _ _ Hinv c Hc) as [_ Hcq]. assert (c <> t) by (intros ->; done).
    apply Hm. unfold stack_base, STACK_SIZE in *. destruct (decide (c < t)%nat); lia. }
  exists q. split.
  - destruct Hinv as [Hl Hk Hq Hd Hb Hcur Hst Hctx Hcpu Hboot]. constructor; try done.
    + intros t k Ht Hkt. destruct (Hctx t k Ht Hkt) as (C1 & C2 & C3). unfold ctx_ok. cbn. by rewrite (Hkeep t k).
    + cbn. intros x Hx _. rewrite Hc in Hx. by injection Hx as <-.
    + cbn. by rewrite Hc.
  - intros t sp' ip' Ht (k & Hk & <- & <-). left. split; [done|]. exists k.
    split_and!; [done|done|]. cbn. by eapply Hkeep.
Qed.

(** Every step keeps the invariant and the contexts of the ready threads. *)
Lemma step_spec st st' q : inv st q -> step st st' -> carries st q st'.
Proof.
  intros Hinv Hs. destruct Hs as [st ent ar r st' Hh E|st st' Hh E|st st' Hh E|st st' Hh [c Hc] E|st c sp ip m Hh Hc Hsp Hm].
  - by apply (create_carries st q ent ar r).
  - by apply start_carries.
  - by apply yield_carries.
  - by apply (exit_carries st q c).
  - by apply (work_carries st q c).
Qed.

(** ** Contracts *)

(** The state before the first [sched_create], on the boot stack. *)
Definition boot (sp ip : Z) : sched :=
  MkSched None None (replicate 8 (Thread None 0 0 0 0 0)) 0 sp ip ∅ [] false.

Lemma boot_inv sp ip :
  sp <= g_stacks \/ g_stacks + MAX_THREADS * STACK_SIZE + 8 <= sp -> inv (boot sp ip) [].
Proof.
  intros Hsp. constructor; cbn; try done; try (by constructor);
    try (intros t Ht; by apply elem_of_nil in Ht); try (intros t k Ht; by apply elem_of_nil in Ht).
  intros t k _ Ht. lia.
Qed.

Lemma steps_inv st st' q : inv st q -> rtc step st st' -> exists q', inv st' q'.
Proof.
  intros Hi Hs. revert q Hi. induction Hs as [st|st st1 st2 Hs _ IH]; intros q Hi; [by exists q|].
  destruct (step_spec _ _ _ Hi Hs) as (q' & Hi' & _). by eapply IH.
Qed.

(** C13. Whatever the threads do, at any time the run queue is a list of
    distinct created threads; the state field is 1 exactly for the current
    thread (until the machine halts), 0 exactly for the queued threads and 2
    for the others; ids are indices; and every scheduler operation has a
    result, so no list walk runs off or cycles. *)
Theorem sched_invariant sp ip st :
  sp <= g_stacks \/ g_stacks + MAX_THREADS * STACK_SIZE + 8 <= sp ->
  rtc step (boot sp ip) st ->
  exists q, qrep (g_threads st) (g_runq st) q /\ NoDup q /\
    (forall t th, g_threads st !! t = Some th -> Z.of_nat t < g_thread_count st ->
       id th = Z.of_nat t /\ state th = state_of st q t) /\
    (halted st = false ->
       is_Some (yield st) /\ is_Some (sched_start ret_start st) /\
       (is_Some (g_current st) -> is_Some (trampoline_exit ret_exit st)) /\
       forall ent ar, is_Some (create st ent ar)).
Proof.
  intros Hsp Hs. destruct (steps_inv _ _ _ (boot_inv sp ip Hsp) Hs) as [q Hi].
  exists q. split_and!; [apply Hi|apply Hi| |].
  { intros t th Ht Hb. apply (si_state _ _ _ _ _ Hi t (core_of th)); [|done].
    unfold cores. by rewrite list_lookup_fmap, Ht. }
  intros Hh. split_and!.
  - destruct (g_current st) as [c|] eqn:Hc; [|unfold sched_yield; rewrite Hc; by eexists].
    destruct q as [|n r]; [rewrite (yield_alone _ _ _ _ Hi); by eexists|].
    destruct (yield_switch _ _ _ st c n r Hi Hc Hh) as (st1 & kn & -> & _). by eexists.
  - destruct (g_current st) as [c|] eqn:Hc; [unfold sched_start; rewrite Hc; by eexists|].
    destruct q as [|n r].
    + unfold sched_start. rewrite Hc, dequeue_nil by apply Hi. by eexists.
    + destruct (start_switch _ _ ret_yield ret_start st n r Hi Hc Hh) as (st1 & kn & -> & _).
      by eexists.
  - intros [c Hc]. destruct q as [|n r].
    + destruct (exit_halt _ _ ret_exit _ st c Hi Hc Hh) as (st1 & -> & _). by eexists.
    + destruct (exit_switch _ _ ret_exit _ st c n r Hi Hc Hh) as (st1 & kn & -> & _). by eexists.
  - intros ent ar. destruct (decide (g_thread_count st < 8)) as [H8|H8].
    + destruct (create_spec g_stacks trampoline ret_yield stacks_aligned st q ent ar Hi H8)
        as (st1 & -> & _). by eexists.
    + unfold sched_create, MAX_THREADS. rewrite (proj2 (Z.leb_le _ _)) by lia. by eexists.
Qed.

(** [sched_create] fails, changing nothing, exactly when 8 threads exist;
    otherwise the new thread is last in the queue, with the next id, its entry
    and argument, and a stack on which the first switch to it returns into the
    trampoline. *)
Theorem sched_create_correct st q ent ar :
  inv st q ->
  exists r st', create st ent ar = Some (r, st') /\
    (r = -1 /\ st' = st /\ g_thread_count st = 8 \/
     r = 0 /\ g_thread_count st < 8 /\ g_thread_count st' = g_thread_count st + 1 /\
     let t := Z.to_nat (g_thread_count st) in
     inv st' (q ++ [t]) /\ g_current st' = g_current st /\
     saved st' t (stack_base g_stacks t + STACK_SIZE - 8) trampoline /\
     exists th, g_threads st' !! t = Some th /\ entry th = ent /\ arg th = ar /\
       id th = Z.of_nat t /\ state th = 0).
Proof.
  intros Hi. pose proof (si_count _ _ _ _ _ Hi) as Hk.
  destruct (decide (g_thread_count st < 8)) as [H8|H8].
  - destruct (create_spec g_stacks trampoline ret_yield stacks_aligned st q ent ar Hi H8)
      as (st1 & E & Hi' & Hn & Hc & _ & HC & HS). exists 0, st1. split; [done|]. right.
    set (t := Z.to_nat (g_thread_count st)) in *.
    assert (Hl : (t < length (cores st))%nat).
    { unfold cores. rewrite length_fmap, (si_len _ _ _ _ _ Hi). lia. }
    assert (HK : cores st1 !! t = Some (Core (stack_base g_stacks t + STACK_SIZE - 8) ent ar 0 (Z.of_nat t)))
      by (rewrite HC; by apply list_lookup_insert_eq).
    do 3 (split; [done|]). split; [exact Hi'|]. split; [exact Hc|]. split.
    + eexists. split; [exact HK|]. split; [done|]. rewrite HS. apply rd_wr_eq.
    + unfold cores in HK. rewrite list_lookup_fmap in HK.
      destruct (g_threads st1 !! t) as [th|]; [|done]. exists th. injection HK. auto.
  - exists (-1), st. unfold sched_create, MAX_THREADS. rewrite (proj2 (Z.leb_le _ _)) by lia.
    split; [done|]. left. split_and!; [done|done|lia].
Qed.

(** [n] successive yields. *)
Fixpoint yields (n : nat) (st : sched) : option sched :=
  match n with O => Some st | S n' => st ← yield st; yields n' st end.

Lemma yield_rotate st c n r :
  inv st (n :: r) -> g_current st = Some c -> halted st = false ->
  exists st', yield st = Some st' /\ inv st' (r ++ [c]) /\ g_current st' = Some n /\
    halted st' = false.
Proof.
  intros Hi Hc Hh.
  destruct (yield_switch _ _ _ st c n r Hi Hc Hh) as (st1 & kn & E & Kn & Hsw & Hl & Hq).
  exists st1. split; [done|]. pose proof (sw_current _ _ _ _ _ _ _ Hsw).
  pose proof (sw_halted _ _ _ _ _ _ _ Hsw). split_and!; [|done|congruence].
  eapply switched_inv; try done. left. by split_and!.
Qed.

Lemma yields_spec q1 : forall st c t q2,
  inv st (q1 ++ t :: q2) -> g_current st = Some c -> halted st = false ->
  exists st', yields (S (length q1)) st = Some st' /\ g_current st' = Some t /\
    inv st' (q2 ++ c :: q1) /\ halted st' = false.
Proof.
  induction q1 as [|n r IH]; intros st c t q2 Hi Hc Hh.
  - destruct (yield_rotate st c t q2 Hi Hc Hh) as (st1 & E & Hi1 & Hc1 & Hh1).
    exists st1. cbn. by rewrite E.
  - destruct (yield_rotate st c n _ Hi Hc Hh) as (st1 & E & Hi1 & Hc1 & Hh1).
    rewrite <- app_assoc in Hi1. destruct (IH st1 n t (q2 ++ [c]) Hi1 Hc1 Hh1)
      as (st2 & E2 & Hc2 & Hi2 & Hh2). exists st2. rewrite <- app_assoc in Hi2.
    split_and!; try done. cbn [length yields]. rewrite E. exact E2.
Qed.

(** C14. Scheduling is round robin and fair: a thread at position [k] of the
    run queue runs after exactly [k + 1] yields, the threads that ran before
    it being queued behind the others in the order they ran; so after one
    yield of every thread the current one runs again and the queue is as it
    was. *)
Theorem sched_round_robin st c q :
  inv st q -> g_current st = Some c -> halted st = false ->
  (forall q1 t q2, q = q1 ++ t :: q2 ->
     exists st', yields (S (length q1)) st = Some st' /\ g_current st' = Some t /\
       qrep (g_threads st') (g_runq st') (q2 ++ c :: q1)) /\
  (exists st', yields (S (length q)) st = Some st' /\ g_current st' = Some c /\
     qrep (g_threads st') (g_runq st') q).
Proof.
  intros Hi Hc Hh. split.
  - intros q1 t q2 ->. destruct (yields_spec q1 st c t q2 Hi Hc Hh) as (st' & E & Hc' & Hi' & _).
    exists st'. split_and!; [done|done|apply Hi'].
  - destruct q as [|n r].
    { exists st. cbn. rewrite (yield_alone _ _ _ _ Hi). split_and!; [done|done|apply Hi]. }
    destruct (yield_rotate st c n r Hi Hc Hh) as (st1 & E & Hi1 & Hc1 & Hh1).
    destruct (yields_spec r st1 n c [] Hi1 Hc1 Hh1) as (st2 & E2 & Hc2 & Hi2 & _).
    exists st2. split_and!; [|done|apply Hi2]. cbn [length yields]. rewrite E. exact E2.
Qed.

(** A step after which [c] is not running. *)
Definition step_away (c : nat) (st st' : sched) : Prop := step st st' /\ g_current st' <> Some c.

Lemma away_kept c sp ip st st' : forall q,
  inv st q -> c ∈ q -> saved st c sp ip -> rtc (step_away c) st st' ->
  exists q', inv st' q' /\ c ∈ q' /\ saved st' c sp ip.
Proof.
  intros q Hi Hq Hs Hr. revert q Hi Hq Hs.
  induction Hr as [st|st st1 st2 [H1 Hne] _ IH]; intros q Hi Hq Hs; [by exists q|].
  destruct (step_spec _ _ _ Hi H1) as (q' & Hi' & Hk).
  destruct (Hk c sp ip Hq Hs) as [[Hq' Hs']|(Hc & _)]; [by eapply IH|done].
Qed.

(** C15. A thread that yields to another is resumed, whatever the others do in
    between on their own stacks, at the return of its own call of the context
    switch and with the stack pointer it had. *)
Theorem sched_yield_resumes st q c st1 st2 st3 :
  inv st q -> g_current st = Some c -> halted st = false ->
  yield st = Some st1 -> q <> [] ->
  rtc (step_away c) st1 st2 -> step st2 st3 -> g_current st3 = Some c ->
  cpu_rsp st3 = cpu_rsp st /\ cpu_rip st3 = ret_yield.
Proof.
  intros Hi Hc Hh E Hq Hr Hs Hc3. destruct q as [|n r]; [done|].
  destruct (yield_switch _ _ _ st c n r Hi Hc Hh) as (st1' & kn & E1 & Kn & Hsw & Hl & Hq1).
  rewrite E in E1. injection E1 as <-.
  assert (Hi1 : inv st1 (r ++ [c])).
  { eapply switched_inv; try done. left. by split_and!. }
  assert (Hcn : n <> c).
  { intros ->. destruct (si_current _ _ _ _ _ Hi c Hc) as [_ H]. apply H. by left. }
  assert (Hsv : saved st1 c (cpu_rsp st - 8) ret_yield).
  { destruct (core_lookup st c (si_len _ _ _ _ _ Hi)) as (th & _ & Kc).
    { pose proof (si_current _ _ _ _ _ Hi c Hc). pose proof (si_count _ _ _ _ _ Hi). lia. }
    eexists. rewrite (sw_cores _ _ _ _ _ _ _ Hsw), list_lookup_alter_eq.
    rewrite list_lookup_alter_ne, list_lookup_alter_eq, Kc by done.
    split_and!; [done|done|]. rewrite (sw_stack _ _ _ _ _ _ _ Hsw). apply rd_wr_eq. }
  assert (Hcq : c ∈ r ++ [c]) by (apply elem_of_app; right; by apply list_elem_of_singleton).
  destruct (away_kept c _ _ st1 st2 _ Hi1 Hcq Hsv Hr) as (q2 & Hi2 & Hq2 & Hsv2).
  destruct (step_spec _ _ _ Hi2 Hs) as (q3 & Hi3 & Hk).
  destruct (Hk c _ _ Hq2 Hsv2) as [[Hq3 _]|(_ & -> & ->)]; [|split; [lia|done]].
  destruct (si_current _ _ _ _ _ Hi3 c Hc3) as [_ H]. done.
Qed.

End props.

(** ** Instances

    Stacks at 0x10000; two threads are created and the first is started. *)

Definition demo_stacks : Z := 0x10000.

Lemma demo_aligned : 0 < demo_stacks /\ demo_stacks mod 16 = 0 /\ demo_stacks < 2^47.
Proof. done. Qed.

Definition demo_boot : sched := boot 0x8000 0.
Definition demo_create (st : sched) (ent : Z) : sched :=
  snd (default (0, st) (sched_create demo_stacks 1 st ent 7)).
Definition demo_two : sched := demo_create (demo_create demo_boot 100) 200.
Definition demo_run : sched := default demo_two (sched_start 4 demo_two).
Definition demo_yielded : sched := default demo_run (sched_yield 3 demo_run).
Definition demo_back : sched := default demo_run (sched_yield 3 demo_yielded).

Lemma demo_boot_inv : SchedSpec.inv demo_stacks 1 3 demo_boot [].
Proof. apply boot_inv. by left. Qed.

Lemma demo_create_inv st q ent :
  SchedSpec.inv demo_stacks 1 3 st q -> g_thread_count st < 8 ->
  SchedSpec.inv demo_stacks 1 3 (demo_create st ent) (q ++ [Z.to_nat (g_thread_count st)]).
Proof.
  intros Hi H8. destruct (create_spec demo_stacks 1 3 demo_aligned st q ent 7 Hi H8)
    as (st' & E & H & _). unfold demo_create. rewrite E. exact H.
Qed.

Lemma demo_run_inv : SchedSpec.inv demo_stacks 1 3 demo_run [1%nat].
Proof.
  pose proof (demo_create_inv _ _ 200 (demo_create_inv _ _ 100 demo_boot_inv ltac:(done)) ltac:(done)) as Hi.
  destruct (start_switch demo_stacks 1 3 4 demo_two 0 [1%nat] Hi eq_refl eq_refl)
    as (st' & kn & E & _ & _ & H). unfold demo_run. rewrite E. exact H.
Qed.

Lemma sched_invariant_witness : exists q,
  qrep (g_threads demo_two) (g_runq demo_two) q /\ NoDup q.
Proof.
  destruct (sched_invariant demo_stacks 1 2 3 4 demo_aligned 0x8000 0 demo_two)
    as (q & H1 & H2 & _); [by left| |by exists q].
  eapply rtc_l; [apply (step_create _ _ _ _ _ demo_boot 100 7 0 (demo_create demo_boot 100)); by vm_compute|].
  eapply rtc_l; [|apply rtc_refl].
  by apply (step_create _ _ _ _ _ (demo_create demo_boot 100) 200 7 0 demo_two); vm_compute.
Defined.

Lemma sched_create_correct_witness :
  exists r st', sched_create demo_stacks 1 demo_run 300 7 = Some (r, st').
Proof.
  destruct (sched_create_correct demo_stacks 1 3 demo_aligned demo_run [1%nat] 300 7 demo_run_inv)
    as (r & st' & E & _).
  exists r, st'. exact E.
Defined.

Lemma sched_round_robin_witness :
  exists st', yields 3 2 demo_run = Some st' /\ g_current st' = Some 0%nat.
Proof.
  destruct (sched_round_robin demo_stacks 1 3 demo_run 0 [1%nat] demo_run_inv eq_refl eq_refl)
    as [_ (st' & E & H & _)].
  exists st'. split; [exact E|exact H].
Defined.

Lemma sched_yield_resumes_witness :
  cpu_rsp demo_back = cpu_rsp demo_run /\ cpu_rip demo_back = 3.
Proof.
  apply (sched_yield_resumes demo_stacks 1 2 3 4 demo_aligned demo_run [1%nat] 0 demo_yielded
    demo_yielded demo_back demo_run_inv);
    [by vm_compute|by vm_compute|by vm_compute|discriminate|apply rtc_refl| |by vm_compute].
  apply (step_yield _ _ _ _ _ demo_yielded demo_back); by vm_compute.
Defined.

End SchedProps.
