(* ===== verification/Block.v ===== *)
(** * Block devices ([src/kernel64/block/])

    The device registry, RAM disks, memory disks and MBR partitions.  A device
    structure never changes after it is registered, so a pointer to one is the
    structure itself; the driver behind [ops] is determined by [priv].  Data
    moves between addresses of one byte memory, as in the code. *)

From S2P Require Import Prelude Mb2 Pmm Kmalloc Mem.

Module Block.

(** ** Devices *)

Inductive device :=
  | Dev (name : list Z) (sector_size sector_count : Z) (p : priv)
with priv :=
  | RamPriv (data bytes : Z)
  | MemPriv (mbase bytes writable : Z)
  | PartPriv (parent : device) (lba_base lba_count : Z).

Definition name (d : device) : list Z := match d with Dev n _ _ _ => n end.
Definition sector_size (d : device) : Z := match d with Dev _ s _ _ => s end.
Definition sector_count (d : device) : Z := match d with Dev _ _ c _ => c end.

(** ** Drivers

    A driver gets the sector size of the device, the LBA, the buffer and the
    number of sectors; it returns the result and the new memory. *)

Definition rd_read (ss data bytes lba buf count : Z) (m : mem) : Z * mem :=
  if count =? 0 then (0, m)
  else
    let off := (lba * ss)%u64 in
    let len := (count * ss)%u64 in
    if bytes <? (off + len)%u64 then (-1, m)
    else (s32 count, Mem.copy_up (Z.to_nat len) 0 m buf (data + off)%u64).

Definition rd_write (ss data bytes lba buf count : Z) (m : mem) : Z * mem :=
  let off := (lba * ss)%u64 in
  let len := (count * ss)%u64 in
  if bytes <? (off + len)%u64 then (-1, m)
  else (s32 count, Mem.copy_up (Z.to_nat len) 0 m (data + off)%u64 buf).

Definition mem_read (ss mbase bytes lba buf count : Z) (m : mem) : Z * mem :=
  if buf =? 0 then (-1, m)
  else
    let off := (lba * ss)%u64 in
    let need := (count * ss)%u64 in
    if bytes <? (off + need)%u64 then (-1, m)
    else (s32 count, Mem.copy_up (Z.to_nat need) 0 m buf (mbase + off)%u64).

Definition mem_write (ss mbase bytes writable lba buf count : Z) (m : mem) : Z * mem :=
  if (buf =? 0) || (writable =? 0) then (-1, m)
  else
    let off := (lba * ss)%u64 in
    let need := (count * ss)%u64 in
    if bytes <? (off + need)%u64 then (-1, m)
    else (s32 count, Mem.copy_up (Z.to_nat need) 0 m (mbase + off)%u64 buf).

Definition driver : Type := Z -> Z -> Z -> mem -> Z * mem.

(** [op] is the driver of the parent. *)
Definition part_read (op : driver) (lba_base lba_count lba buf count : Z) (m : mem) : Z * mem :=
  if lba_count <? (lba + count)%u64 then (-1, m)
  else op (lba_base + lba)%u64 buf count m.

Definition part_write (op : driver) (lba_base lba_count lba buf count : Z) (m : mem) : Z * mem :=
  if lba_count <? (lba + count)%u64 then (-1, m)
  else op (lba_base + lba)%u64 buf count m.

(** [d->ops->read(d, lba, buf, count)] *)
Fixpoint dev_read (d : device) : driver :=
  match d with
  | Dev _ ss _ p => fun lba buf count m =>
      match p with
      | RamPriv data bytes => rd_read ss data bytes lba buf count m
      | MemPriv mbase bytes _ => mem_read ss mbase bytes lba buf count m
      | PartPriv parent b n => part_read (dev_read parent) b n lba buf count m
      end
  end.

(** [d->ops->write(d, lba, buf, count)] *)
Fixpoint dev_write (d : device) : driver :=
  match d with
  | Dev _ ss _ p => fun lba buf count m =>
      match p with
      | RamPriv data bytes => rd_write ss data bytes lba buf count m
      | MemPriv mbase bytes w => mem_write ss mbase bytes w lba buf count m
      | PartPriv parent b n => part_write (dev_write parent) b n lba buf count m
      end
  end.

(** ** Registry *)

(** The registered devices, latest first; the heap the structures come from;
    the frames; memory. *)
Record blk := MkBlk {
  g_head : list device;
  heap : Kmalloc.kheap;
  frames : Pmm.pmm;
  memory : mem
}.

Definition set_head (st : blk) (l : list device) : blk :=
  MkBlk l (heap st) (frames st) (memory st).
Definition set_heap (st : blk) (h : Kmalloc.kheap) : blk :=
  MkBlk (g_head st) h (frames st) (memory st).
Definition set_frames (st : blk) (f : Pmm.pmm) : blk :=
  MkBlk (g_head st) (heap st) f (memory st).
Definition set_memory (st : blk) (m : mem) : blk :=
  MkBlk (g_head st) (heap st) (frames st) m.

Definition block_register (st : blk) (d : device) : blk := set_head st (d :: g_head st).

(** The comparison loop of [block_find] on NUL-terminated strings. *)
Fixpoint name_eq (a b : list Z) : bool :=
  match a, b with
  | [], [] => true
  | x :: a', y :: b' => (x =? y) && name_eq a' b'
  | _, _ => false
  end.

Fixpoint find_in (l : list device) (n : list Z) : option device :=
  match l with
  | [] => None
  | d :: l' => if name_eq n (name d) then Some d else find_in l' n
  end.

Definition block_find (st : blk) (n : list Z) : option device := find_in (g_head st) n.

Definition block_default_sector : Z := 512.

Definition block_first (st : blk) : option device := head (g_head st).

(** Sizes of the structures allocated with [kmalloc]. *)
Definition sizeof_block_device : Z := 56.
Definition sizeof_part_priv : Z := 24.
Definition sizeof_memdisk_priv : Z := 24.
Definition sizeof_ramdisk : Z := 16.

(** [kmalloc(n)] on the heap of the state. *)
Definition alloc (st : blk) (n : Z) : option (Z * blk) :=
  '(p, h) ← Kmalloc.kmalloc (heap st) n; Some (p, set_heap st h).

(** ** Factories *)

(** A name is copied up to 15 bytes. *)
Definition copy_name (n : list Z) : list Z := take 15 n.

Definition memdisk_register (st : blk) (n : option (list Z)) (mbase bytes ss writable : Z)
    : option (Z * blk) :=
  match n with
  | None => Some (-1, st)
  | Some n =>
      if (mbase =? 0) || (bytes =? 0) || (ss =? 0) then Some (-1, st)
      else if negb (bytes mod ss =? 0) then Some (-1, st)
      else
        '(d, st) ← alloc st sizeof_block_device;
        if d =? 0 then Some (-1, st)
        else
          '(p, st) ← alloc st sizeof_memdisk_priv;
          if p =? 0 then Some (-1, st)
          else
            Some (0, block_register st
                       (Dev (copy_name n) ss (bytes / ss) (MemPriv mbase bytes writable)))
  end.

Definition ramdisk_create (st : blk) (n : option (list Z)) (bytes : Z) : option (Z * blk) :=
  match n with
  | None => Some (-1, st)
  | Some n =>
      if bytes =? 0 then Some (-1, st)
      else
        let sec := block_default_sector in
        let rounded := ((((bytes + sec)%u64 - 1)%u64 / sec) * sec)%u64 in
        '(rd, st) ← alloc st sizeof_ramdisk;
        if rd =? 0 then Some (-1, st)
        else
          let pages := (rounded + 4095)%u64 / 4096 in
          '(paddr, f) ← Pmm.pmm_alloc_frames_below (frames st) pages (2^30);
          let st := set_frames st f in
          if paddr =? 0 then Some (-1, st)
          else
            let st := set_memory st (Mem.fill (Z.to_nat rounded) 0 (memory st) paddr 0) in
            '(bd, st) ← alloc st sizeof_block_device;
            if bd =? 0 then Some (-1, st)
            else
              Some (0, block_register st
                         (Dev (copy_name n) sec (rounded / sec) (RamPriv paddr rounded)))
  end.

(** ** Partitions *)

(** Name of partition [i]: at most 12 bytes of the parent's name, 'p', and the
    number counted from '1'. *)
Definition part_name (n : list Z) (i : Z) : list Z := take 12 (take 15 n) ++ [112; 49 + i].

(** One entry of the partition table read into [mbr]. *)
Definition scan_entry (mbr : Z) (d : device) (i : Z) (st : blk) : option blk :=
  let p := mbr + 446 + i * 16 in
  let type := rd8 (memory st) (p + 4) in
  let start := rd32 (memory st) (p + 8) in
  let count := rd32 (memory st) (p + 12) in
  if (type =? 0) || (count =? 0) then Some st
  else
    '(pd, st) ← alloc st sizeof_block_device;
    if pd =? 0 then Some st
    else
      '(pp, st) ← alloc st sizeof_part_priv;
      if pp =? 0 then Some st
      else
        Some (block_register st
                (Dev (part_name (name d) i) (sector_size d) count (PartPriv d start count))).

(** One device of the scan. *)
Definition scan_device (mbr : Z) (st : blk) (d : device) : option blk :=
  if negb (sector_size d =? 512) then Some st
  else
    let '(r, m) := dev_read d 0 mbr 1 (memory st) in
    let st := set_memory st m in
    if negb (r =? 1) then Some st
    else if negb (rd8 (memory st) (mbr + 510) =? 0x55) || negb (rd8 (memory st) (mbr + 511) =? 0xAA)
    then Some st
    else for_range 0 4 (scan_entry mbr d) st.

Fixpoint scan_devices (mbr : Z) (st : blk) (l : list device) : option blk :=
  match l with
  | [] => Some st
  | d :: l' => st ← scan_device mbr st d; scan_devices mbr st l'
  end.

(** [mbr] is the address of the local buffer.  Devices registered during the
    scan go to the front of the list, so the loop does not meet them. *)
Definition block_scan_partitions (mbr : Z) (st : blk) : option blk :=
  scan_devices mbr st (g_head st).

End Block.
