(* ===== verification/BlockSpec.v ===== *)
(** * Correctness of the block layer

    Every well-formed device, however deeply its partitions nest, is a window
    of consecutive sectors in memory.  The class [BlockDev] states that for
    the clients of the layer. *)

From S2P Require Import Prelude Mb2 Pmm PmmSpec Kmalloc KmallocSpec KmallocProps Mem Block.

(** What a file system may assume of a device: sectors [0 .. count) live at
    [bd_base], reads and writes in range copy whole sectors and report their
    number, and nothing else changes. *)
Class BlockDev (D : Type) := {
  bd_read : D -> Z -> Z -> Z -> mem -> Z * mem;
  bd_write : D -> Z -> Z -> Z -> mem -> Z * mem;
  bd_sector_size : D -> Z;
  bd_sector_count : D -> Z;
  bd_ok : D -> Prop;
  bd_writable : D -> Prop;
  bd_base : D -> Z;
  bd_geometry d : bd_ok d ->
    0 < bd_sector_size d < 2^32 /\ 0 <= bd_sector_count d /\ 0 < bd_base d /\
    bd_base d + bd_sector_count d * bd_sector_size d < 2^63;
  bd_read_ok d lba buf count m :
    bd_ok d -> 0 <= lba -> 0 < count < 2^31 -> lba + count <= bd_sector_count d -> buf <> 0 ->
    bd_read d lba buf count m
    = (count, Mem.copy_up (Z.to_nat (count * bd_sector_size d)) 0 m buf
                (bd_base d + lba * bd_sector_size d));
  bd_write_ok d lba buf count m :
    bd_ok d -> bd_writable d -> 0 <= lba -> 0 < count < 2^31 ->
    lba + count <= bd_sector_count d -> buf <> 0 ->
    bd_write d lba buf count m
    = (count, Mem.copy_up (Z.to_nat (count * bd_sector_size d)) 0 m
                (bd_base d + lba * bd_sector_size d) buf)
}.

Module BlockSpec.

Import Block.

(** ** Windows *)

Fixpoint base_of (d : device) : Z :=
  match d with
  | Dev _ ss _ p =>
      match p with
      | RamPriv data _ => data
      | MemPriv mbase _ _ => mbase
      | PartPriv parent b _ => base_of parent + b * ss
      end
  end.

(** Geometry that the factories establish. *)
Fixpoint dev_ok (d : device) : Prop :=
  match d with
  | Dev _ ss count p =>
      0 < ss < 2^32 /\ 0 <= count /\
      match p with
      | RamPriv data bytes => bytes = count * ss /\ 0 < data /\ data + bytes < 2^63
      | MemPriv mbase bytes _ => bytes = count * ss /\ 0 < mbase /\ mbase + bytes < 2^63
      | PartPriv parent b n =>
          dev_ok parent /\ sector_size parent = ss /\ n = count /\ 0 <= b /\
          b + n <= sector_count parent
      end
  end.

Fixpoint writable (d : device) : Prop :=
  match d with
  | Dev _ _ _ p =>
      match p with
      | RamPriv _ _ => True
      | MemPriv _ _ w => w <> 0
      | PartPriv parent _ _ => writable parent
      end
  end.

(** Induction through the parents. *)
Lemma device_ind' (P : device -> Prop) :
  (forall n ss c data bytes, P (Dev n ss c (RamPriv data bytes))) ->
  (forall n ss c b bytes w, P (Dev n ss c (MemPriv b bytes w))) ->
  (forall n ss c parent b k, P parent -> P (Dev n ss c (PartPriv parent b k))) ->
  forall d, P d.
Proof.
  intros HR HM HP. fix IH 1. intros [n ss c [data bytes|b bytes w|parent b k]];
    [apply HR|apply HM|apply HP, IH].
Qed.

Lemma dev_geometry d :
  dev_ok d ->
  0 < sector_size d < 2^32 /\ 0 <= sector_count d /\ 0 < base_of d /\
  base_of d + sector_count d * sector_size d < 2^63.
Proof.
  induction d as [n ss c data bytes|n ss c b bytes w|n ss c parent b k IH] using device_ind';
    cbn [dev_ok sector_size sector_count base_of].
  - intros (H1 & H2 & -> & H4 & H5). lia.
  - intros (H1 & H2 & -> & H4 & H5). lia.
  - intros (H1 & H2 & H3 & H4 & -> & H5 & H6). destruct (IH H3) as (G1 & G2 & G3 & G4).
    rewrite H4 in *. nia.
Qed.

Lemma in_range ss lba count c base :
  0 < ss < 2^32 -> 0 <= lba -> 0 < count < 2^31 -> lba + count <= c -> 0 < base ->
  base + c * ss < 2^63 ->
  (lba * ss)%u64 = lba * ss /\ (count * ss)%u64 = count * ss /\
  (lba * ss + count * ss)%u64 = lba * ss + count * ss /\ lba * ss + count * ss <= c * ss /\
  (base + lba * ss)%u64 = base + lba * ss.
Proof.
  intros H1 H2 H3 H4 H5 H6.
  assert (0 <= lba * ss) by nia. assert (0 < count * ss) by nia.
  assert (lba * ss + count * ss <= c * ss) by nia.
  split_and!; try (apply mul64_small; lia); try (apply add64_small; lia). lia.
Qed.

Lemma dev_read_ok d : forall lba buf count m,
  dev_ok d -> 0 <= lba -> 0 < count < 2^31 -> lba + count <= sector_count d -> buf <> 0 ->
  dev_read d lba buf count m
  = (count, Mem.copy_up (Z.to_nat (count * sector_size d)) 0 m buf
              (base_of d + lba * sector_size d)).
Proof.
  induction d as [n ss c data bytes|n ss c b bytes w|n ss c parent b k IH] using device_ind';
    intros lba buf count m; cbn [dev_ok sector_size sector_count base_of dev_read].
  - intros (H1 & H2 & -> & H4 & H5) Hl Hc Hr Hb. unfold rd_read.
    destruct (in_range ss lba count c data) as (E1 & E2 & E3 & E4 & E5); try lia.
    rewrite (proj2 (Z.eqb_neq count 0)) by lia. rewrite E1, E2, E3, E5.
    rewrite (proj2 (Z.ltb_ge _ _)) by lia. by rewrite s32_small by lia.
  - intros (H1 & H2 & -> & H4 & H5) Hl Hc Hr Hb. unfold mem_read.
    destruct (in_range ss lba count c b) as (E1 & E2 & E3 & E4 & E5); try lia.
    rewrite (proj2 (Z.eqb_neq buf 0)) by lia. rewrite E1, E2, E3, E5.
    rewrite (proj2 (Z.ltb_ge _ _)) by lia. by rewrite s32_small by lia.
  - intros (H1 & H2 & H3 & H4 & -> & H5 & H6) Hl Hc Hr Hb. unfold part_read.
    destruct (dev_geometry parent H3) as (G1 & G2 & G3 & G4).
    assert (sector_count parent <= sector_count parent * sector_size parent) by nia.
    rewrite !add64_small by lia. rewrite (proj2 (Z.ltb_ge _ _)) by lia.
    rewrite IH by (done || lia). rewrite H4. do 2 f_equal. lia.
Qed.

Lemma dev_write_ok d : forall lba buf count m,
  dev_ok d -> writable d -> 0 <= lba -> 0 < count < 2^31 -> lba + count <= sector_count d ->
  buf <> 0 ->
  dev_write d lba buf count m
  = (count, Mem.copy_up (Z.to_nat (count * sector_size d)) 0 m
              (base_of d + lba * sector_size d) buf).
Proof.
  induction d as [n ss c data bytes|n ss c b bytes w|n ss c parent b k IH] using device_ind';
    intros lba buf count m; cbn [dev_ok sector_size sector_count base_of dev_write writable].
  - intros (H1 & H2 & -> & H4 & H5) _ Hl Hc Hr Hb. unfold rd_write.
    destruct (in_range ss lba count c data) as (E1 & E2 & E3 & E4 & E5); try lia.
    rewrite E1, E2, E3, E5.
    rewrite (proj2 (Z.ltb_ge _ _)) by lia. by rewrite s32_small by lia.
  - intros (H1 & H2 & -> & H4 & H5) Hw Hl Hc Hr Hb. unfold mem_write.
    destruct (in_range ss lba count c b) as (E1 & E2 & E3 & E4 & E5); try lia.
    rewrite (proj2 (Z.eqb_neq buf 0)), (proj2 (Z.eqb_neq w 0)) by lia. cbn [orb].
    rewrite E1, E2, E3, E5.
    rewrite (proj2 (Z.ltb_ge _ _)) by lia. by rewrite s32_small by lia.
  - intros (H1 & H2 & H3 & H4 & -> & H5 & H6) Hw Hl Hc Hr Hb. unfold part_write.
    destruct (dev_geometry parent H3) as (G1 & G2 & G3 & G4).
    assert (sector_count parent <= sector_count parent * sector_size parent) by nia.
    rewrite !add64_small by lia. rewrite (proj2 (Z.ltb_ge _ _)) by lia.
    rewrite IH by (done || lia). rewrite H4. do 2 f_equal. lia.
Qed.

(** Out of range, as long as the end of the request does not wrap around. *)
Lemma dev_range_error d : forall lba buf count m,
  dev_ok d -> 0 <= lba -> 0 < count < 2^31 -> sector_count d < lba + count ->
  (lba + count) * sector_size d < 2^64 ->
  dev_read d lba buf count m = (-1, m) /\ dev_write d lba buf count m = (-1, m).
Proof.
  induction d as [n ss c data bytes|n ss c b bytes w|n ss c parent b k IH] using device_ind';
    intros lba buf count m; cbn [dev_ok sector_size sector_count dev_read dev_write].
  - intros (H1 & H2 & -> & H4 & H5) Hl Hc Hr Hw. unfold rd_read, rd_write.
    rewrite (proj2 (Z.eqb_neq count 0)) by lia.
    assert (0 <= lba * ss) by nia. assert (0 < count * ss) by nia. assert (c * ss < lba * ss + count * ss) by nia.
    usimp. by rewrite (proj2 (Z.ltb_lt _ _)) by lia.
  - intros (H1 & H2 & -> & H4 & H5) Hl Hc Hr Hw. unfold mem_read, mem_write.
    assert (0 <= lba * ss) by nia. assert (0 < count * ss) by nia. assert (c * ss < lba * ss + count * ss) by nia.
    usimp. rewrite (proj2 (Z.ltb_lt _ _)) by lia. by destruct (buf =? 0), (w =? 0).
  - intros (H1 & H2 & H3 & H4 & -> & H5 & H6) Hl Hc Hr Hw. unfold part_read, part_write.
    assert (lba + count < 2^64) by nia. usimp. by rewrite (proj2 (Z.ltb_lt _ _)) by lia.
Qed.

End BlockSpec.

#[export] Instance device_block_dev : BlockDev Block.device := {
  bd_read := Block.dev_read;
  bd_write := Block.dev_write;
  bd_sector_size := Block.sector_size;
  bd_sector_count := Block.sector_count;
  bd_ok := BlockSpec.dev_ok;
  bd_writable := BlockSpec.writable;
  bd_base := BlockSpec.base_of;
  bd_geometry := BlockSpec.dev_geometry;
  bd_read_ok d lba buf count m := BlockSpec.dev_read_ok d lba buf count m;
  bd_write_ok d lba buf count m := BlockSpec.dev_write_ok d lba buf count m
}.
