(* ===== verification/BlockProps.v ===== *)
(** * Properties of the block layer

    Transfers on any device, the devices the factories build, and what the
    partition scan registers. *)

From S2P Require Import Prelude Mb2 Pmm PmmSpec Kmalloc KmallocSpec KmallocProps Mem Block BlockSpec.

Module BlockProps.

Import Block BlockSpec.

(** ** Transfers *)

(** [len] bytes at [a] and at [b] do not overlap. *)
Definition disjoint (a b len : Z) : Prop := a + len <= b \/ b + len <= a.

(** A copy between areas that do not overlap. *)
Lemma copy_disjoint m d s n a :
  0 <= n -> disjoint d s n ->
  rd8 (Mem.copy_up (Z.to_nat n) 0 m d s) a
  = if (d <=? a) && (a <? d + n) then rd8 m (s + (a - d)) else rd8 m a.
Proof.
  intros Hn Hd. rewrite Mem.copy_up_spec by (unfold disjoint in Hd; lia).
  by rewrite Z.add_0_r, Z2Nat.id.
Qed.

Lemma copy_in m d s n i :
  0 <= n -> disjoint d s n -> 0 <= i < n ->
  rd8 (Mem.copy_up (Z.to_nat n) 0 m d s) (d + i) = rd8 m (s + i).
Proof.
  intros Hn Hd Hi. rewrite copy_disjoint by done.
  rewrite (proj2 (Z.leb_le _ _)), (proj2 (Z.ltb_lt _ _)) by lia. cbn [andb]. f_equal. lia.
Qed.

Lemma copy_out m d s n a :
  0 <= n -> disjoint d s n -> ~ d <= a < d + n ->
  rd8 (Mem.copy_up (Z.to_nat n) 0 m d s) a = rd8 m a.
Proof.
  intros Hn Hd Ha. rewrite copy_disjoint by done.
  destruct (Z.leb_spec d a), (Z.ltb_spec a (d + n)); done || lia.
Qed.

(** C22. Reading sectors of a well-formed device, partitions of partitions
    included, returns the number of sectors and copies exactly their bytes to
    the buffer; writing changes exactly the bytes of these sectors, inside the
    window of the device; a request past the end of the device is refused with
    -1 and changes nothing (as long as its end does not wrap around). *)
Theorem block_transfer_correct d lba buf count m :
  dev_ok d -> 0 <= lba -> 0 < count < 2^31 -> 0 < buf ->
  let n := count * sector_size d in
  let at_ := base_of d + lba * sector_size d in
  (lba + count <= sector_count d -> disjoint buf at_ n ->
     (exists m', dev_read d lba buf count m = (count, m') /\
        (forall i, 0 <= i < n -> rd8 m' (buf + i) = rd8 m (at_ + i)) /\
        (forall a, ~ buf <= a < buf + n -> rd8 m' a = rd8 m a)) /\
     (writable d -> exists m', dev_write d lba buf count m = (count, m') /\
        base_of d <= at_ /\ at_ + n <= base_of d + sector_count d * sector_size d /\
        (forall i, 0 <= i < n -> rd8 m' (at_ + i) = rd8 m (buf + i)) /\
        (forall a, ~ at_ <= a < at_ + n -> rd8 m' a = rd8 m a))) /\
  (sector_count d < lba + count -> (lba + count) * sector_size d < 2^64 ->
     dev_read d lba buf count m = (-1, m) /\ dev_write d lba buf count m = (-1, m)).
Proof.
  intros Hd Hl Hc Hb n at_. destruct (dev_geometry d Hd) as (G1 & G2 & G3 & G4).
  assert (Hn : 0 <= n) by (unfold n; nia). split.
  - intros Hr Hdis. split.
    + rewrite dev_read_ok by lia || done. eexists. split; [done|].
      split; intros; [by apply copy_in|by apply copy_out].
    + intros Hw. rewrite dev_write_ok by lia || done. eexists. split; [done|].
      assert (disjoint at_ buf n) by (unfold disjoint in *; lia).
      split_and!; [unfold at_; nia|unfold at_, n; nia|..]; intros; [by apply copy_in|by apply copy_out].
  - intros Hr Hw. by apply dev_range_error.
Qed.

(** What is written to sectors of a device is read back from them. *)
Theorem block_write_read d lba buf buf' count m :
  dev_ok d -> writable d -> 0 <= lba -> 0 < count < 2^31 -> lba + count <= sector_count d ->
  0 < buf -> 0 < buf' ->
  let n := count * sector_size d in
  disjoint buf (base_of d + lba * sector_size d) n ->
  disjoint buf' (base_of d + lba * sector_size d) n ->
  exists m1 m2, dev_write d lba buf count m = (count, m1) /\
    dev_read d lba buf' count m1 = (count, m2) /\
    forall i, 0 <= i < n -> rd8 m2 (buf' + i) = rd8 m (buf + i).
Proof.
  intros Hd Hw Hl Hc Hr Hb Hb' n D1 D2. destruct (dev_geometry d Hd) as (G1 & G2 & G3 & G4).
  rewrite dev_write_ok by lia || done. eexists _, _. split; [done|].
  rewrite dev_read_ok by lia || done. split; [done|]. intros i Hi.
  assert (Hn : 0 <= n) by lia. fold n. rewrite copy_in by done.
  apply copy_in; [done| |done]. unfold disjoint in *. lia.
Qed.

(** C40. The range check of a partition adds without a guard: a request whose
    end wraps around to 0 passes it and reaches the parent before the start of
    the partition. *)
Theorem partition_wrap_escapes n ss c parent b k count buf m :
  0 <= k -> 0 < count <= b -> b < 2^32 ->
  let d := Dev n ss c (PartPriv parent b k) in
  dev_write d (2^64 - count) buf count m = dev_write parent (b - count) buf count m /\
  dev_read d (2^64 - count) buf count m = dev_read parent (b - count) buf count m.
Proof.
  intros Hk Hc Hb. cbn [dev_write dev_read]. unfold part_write, part_read.
  replace (2^64 - count + count)%u64 with 0 by (unfold add64, u64; zmod).
  replace (b + (2^64 - count))%u64 with (b - count) by (unfold add64, u64; zmod).
  by rewrite (proj2 (Z.ltb_ge k 0)) by lia.
Qed.

(** ** Factories *)

(** An allocation on a good heap has a result and keeps the rest. *)
Lemma alloc_spec st bs n :
  KmallocSpec.inv (heap st) bs -> 0 < n <= 2^64 - 16 ->
  exists p h bs', alloc st n = Some (p, set_heap st h) /\ KmallocSpec.inv h bs'.
Proof.
  intros Hi Hn. destruct (KmallocProps.kmalloc_step _ _ Hi n Hn) as (p & h & E & H).
  unfold alloc. rewrite E. exists p, h. destruct (KmallocSpec.first_fit _ _ bs) as [[q bs']|].
  - destruct H as (_ & _ & H & _). by exists bs'.
  - destruct H as [_ ->]. by exists bs.
Qed.

Lemma fill_zero m d n a :
  0 <= n -> rd8 (Mem.fill (Z.to_nat n) 0 m d 0) a
  = if (d <=? a) && (a <? d + n) then 0 else rd8 m a.
Proof. intros Hn. rewrite Mem.fill_spec by done. by rewrite Z.add_0_r, Z2Nat.id. Qed.

Definition heap_ok (st : blk) : Prop := exists bs, KmallocSpec.inv (heap st) bs.

(** [ramdisk_create] ends with 0 or -1; on 0 it has registered a writable
    well-formed device of whole 512-byte sectors with at least the requested
    size, all zero, in frames below 1 GiB that were free; on -1 the registry is
    as before. *)
Theorem ramdisk_create_correct st nm bytes :
  heap_ok st -> PmmSpec.inv (frames st) -> 0 < bytes <= 2^30 ->
  exists r st', ramdisk_create st (Some nm) bytes = Some (r, st') /\
    heap_ok st' /\ PmmSpec.inv (frames st') /\
    ((r = -1 /\ g_head st' = g_head st) \/
     (r = 0 /\ exists d, g_head st' = d :: g_head st /\ name d = copy_name nm /\
        dev_ok d /\ writable d /\ sector_size d = 512 /\
        bytes <= sector_count d * 512 < bytes + 512 /\
        base_of d + sector_count d * 512 <= 2^30 /\
        (exists f, Pmm.pmm_alloc_frames_below (frames st)
           ((sector_count d * 512 + 4095) / 4096) (2^30) = Some (base_of d, f)) /\
        forall i, 0 <= i < sector_count d * 512 -> rd8 (memory st') (base_of d + i) = 0)).
Proof.
  intros [bs Hh] Hp Hb. unfold ramdisk_create, block_default_sector.
  rewrite (proj2 (Z.eqb_neq bytes 0)) by lia.
  set (c := (bytes + 511) / 512).
  assert (Hc : bytes <= c * 512 < bytes + 512) by (unfold c; zmod).
  replace (((((bytes + 512)%u64 - 1)%u64 / 512) * 512)%u64) with (c * 512).
  2: { usimp. replace (bytes + 512 - 1) with (bytes + 511) by lia. fold c. by usimp. }
  clearbody c. destruct (alloc_spec st bs sizeof_ramdisk Hh ltac:(done)) as (rd & h1 & bs1 & E1 & Hh1).
  rewrite E1. bind. destruct (rd =? 0).
  { eexists _, _. split; [done|]. split; [by exists bs1|]. split; [done|]. by left. }
  cbn [frames set_heap]. rewrite (add64_small (c * 512)) by lia.
  set (pages := (c * 512 + 4095) / 4096). assert (Hpg : c * 512 <= pages * 4096) by (unfold pages; zmod).
  assert (Hpg' : 0 <= pages < 2^64) by (unfold pages; zmod).
  destruct (PmmSpec.alloc_below_total (frames st) pages (2^30) Hp Hpg' ltac:(lia)) as (pa & f & E2 & Hf & Hr).
  rewrite E2. bind. destruct (Z.eqb_spec pa 0) as [->|Hpa].
  { eexists _, _. split; [done|]. split; [by exists bs1|]. split; [done|]. by left. }
  destruct Hr as [(? & _)|(_ & _ & Ha)]; [done|]. pose proof (PmmSpec.inv_wf _ Hp) as Hwf.
  pose proof (PmmSpec.frames_spec _ Hwf) as [Hfr _]. pose proof Hwf as [].
  assert (Hbi : 0 <= PmmSpec.below_idx (frames st) (2^30) <= Pmm.frames (frames st)) by (unfold PmmSpec.below_idx; lia).
  destruct (PmmSpec.allocated_bounds _ _ _ _ _ Hwf (proj2 Hbi) Ha) as (_ & B1 & B2).
  assert (B3 : pa + pages * 4096 <= 2^30).
  { assert (1 <= pages) by lia. destruct Ha as (s & A1 & A2 & A3 & _). clear - A1 A2 A3 H.
    unfold PmmSpec.frame_addr, PmmSpec.below_idx, Pmm.PMM_FRAME_SIZE in *. zmod. }
  set (st2 := set_memory _ _).
  destruct (alloc_spec st2 bs1 sizeof_block_device Hh1 ltac:(done)) as (bd & h2 & bs2 & E3 & Hh2).
  rewrite E3. bind. destruct (bd =? 0).
  { eexists _, _. split; [done|]. split; [by exists bs2|]. split; [done|]. by left. }
  eexists 0, _. split; [done|]. split; [by exists bs2|]. split; [done|]. right. split; [done|].
  eexists. split; [done|]. cbn [name sector_size sector_count base_of dev_ok writable].
  rewrite Z.div_mul by lia. split_and!; try done; try lia.
  - exists f. exact E2.
  - intros i Hi. cbn [memory set_heap set_head block_register st2 set_memory].
    rewrite fill_zero by lia. by rewrite (proj2 (Z.leb_le _ _)), (proj2 (Z.ltb_lt _ _)) by lia.
Qed.

(** ** Partition scan *)

(** The partition of entry [i] of the table in sector 0 of [d]. *)
Definition entry_part (m : mem) (tbl : Z) (d : device) (i : Z) : list device :=
  let e := tbl + 446 + i * 16 in
  if (rd8 m (e + 4) =? 0) || (rd32 m (e + 12) =? 0) then []
  else [Dev (part_name (name d) i) (sector_size d) (rd32 m (e + 12))
          (PartPriv d (rd32 m (e + 8)) (rd32 m (e + 12)))].

(** The partitions of [d], as its first sector describes them. *)
Definition parts (m : mem) (tbl : Z) (d : device) : list device :=
  if (sector_size d =? 512) && (1 <=? sector_count d) &&
     (rd8 m (tbl + 510) =? 0x55) && (rd8 m (tbl + 511) =? 0xAA)
  then entry_part m tbl d 0 ++ entry_part m tbl d 1 ++ entry_part m tbl d 2 ++ entry_part m tbl d 3
  else [].

Lemma rd32_shift m m' a b :
  (forall i, 0 <= i < 4 -> rd8 m' (b + i) = rd8 m (a + i)) -> rd32 m' b = rd32 m a.
Proof.
  intros H. unfold rd32, rd16. rewrite <- !Z.add_assoc.
  pose proof (H 0 ltac:(lia)) as H0. rewrite !Z.add_0_r in H0.
  rewrite H0, (H 1), (H (2 + 1)), (H 2) by lia. done.
Qed.

(** The description only depends on the 512 bytes of the sector. *)
Lemma entry_shift m m' a b d i :
  (forall j, 0 <= j < 512 -> rd8 m' (b + j) = rd8 m (a + j)) -> 0 <= i < 4 ->
  entry_part m' b d i = entry_part m a d i.
Proof.
  intros H Hi. unfold entry_part.
  assert (E : forall k, 0 <= k <= 12 -> rd32 m' (b + 446 + i * 16 + k) = rd32 m (a + 446 + i * 16 + k)).
  { intros k Hk. apply rd32_shift. intros j Hj. rewrite <- !Z.add_assoc. apply H. lia. }
  rewrite !E by lia. rewrite <- !(Z.add_assoc _ 446), <- !(Z.add_assoc _ (446 + _)).
  by rewrite H by lia.
Qed.

Lemma parts_shift m m' a b d :
  (forall i, 0 <= i < 512 -> rd8 m' (b + i) = rd8 m (a + i)) -> parts m' b d = parts m a d.
Proof.
  intros H. unfold parts. rewrite !H by lia. rewrite !(entry_shift m m' a b) by (lia || done). done.
Qed.

(** Some free block has at least [n] bytes. *)
Definition room (n : Z) (st : blk) : Prop :=
  exists bs s, KmallocSpec.inv (heap st) bs /\ (s, true) ∈ bs /\ n <= s.

Lemma room_le n n' st : n' <= n -> room n st -> room n' st.
Proof. intros Hle (bs & s & H1 & H2 & H3). exists bs, s. split_and!; [done|done|lia]. Qed.

Lemma alloc_room st n k :
  0 < n <= 2^64 - 16 -> 0 <= k -> room (Kmalloc.ALIGN_UP n 16 + 48 + k) st ->
  exists p h, alloc st n = Some (p, set_heap st h) /\ p <> 0 /\ room k (set_heap st h).
Proof.
  intros Hn Hk (bs & s & Hi & Hs & Hle). unfold alloc.
  destruct (KmallocProps.kmalloc_room _ bs n s k Hi Hn Hs Hle Hk) as (p & h & bs' & s' & E & Hp & Hi' & _ & _ & H).
  rewrite E. bind. exists p, h. split_and!; [done|lia|]. by exists bs', s'.
Qed.

(** Bytes of heap one table entry may take: 64 and 32 with headers and slack. *)
Definition entry_room : Z := 192.

Lemma scan_entry_spec mbr d i k st :
  0 <= k -> room (entry_room + k) st ->
  exists h, scan_entry mbr d i st
    = Some (set_head (set_heap st h) (entry_part (memory st) mbr d i ++ g_head st)) /\
    room k (set_heap st h).
Proof.
  intros Hk Hr. unfold scan_entry, entry_part.
  destruct ((rd8 _ _ =? 0) || _).
  { exists (heap st). split; [by destruct st|]. apply (room_le (entry_room + k)); [unfold entry_room; lia|].
    by destruct st. }
  destruct (alloc_room st sizeof_block_device (80 + k)) as (p & h & E & Hp & Hr1); [done|lia| |].
  { eapply room_le; [|exact Hr]. unfold entry_room.
    change (Kmalloc.ALIGN_UP sizeof_block_device 16) with 64. lia. }
  rewrite E. bind. rewrite (proj2 (Z.eqb_neq p 0)) by done.
  destruct (alloc_room (set_heap st h) sizeof_part_priv k) as (p' & h' & E' & Hp' & Hr2); [done|lia| |].
  { eapply room_le; [|exact Hr1]. change (Kmalloc.ALIGN_UP sizeof_part_priv 16) with 32. lia. }
  rewrite E'. bind. rewrite (proj2 (Z.eqb_neq p' 0)) by done. exists h'. split; [done|exact Hr2].
Qed.

(** Memory is unchanged outside the scan buffer. *)
Definition same_outside (mbr : Z) (m m' : mem) : Prop :=
  forall a, ~ mbr <= a < mbr + 512 -> rd8 m' a = rd8 m a.

(** The window of [d] is clear of the scan buffer. *)
Definition clear_of (mbr : Z) (d : device) : Prop :=
  mbr + 512 <= base_of d \/ base_of d + sector_count d * sector_size d <= mbr.

Lemma scan_entries mbr d k st :
  0 <= k -> room (4 * entry_room + k) st ->
  exists h, for_range 0 4 (scan_entry mbr d) st
    = Some (set_head (set_heap st h)
        (rev (entry_part (memory st) mbr d 0 ++ entry_part (memory st) mbr d 1 ++
              entry_part (memory st) mbr d 2 ++ entry_part (memory st) mbr d 3) ++ g_head st)) /\
    room k (set_heap st h).
Proof.
  intros Hk Hr. assert (Hrev : forall i, rev (entry_part (memory st) mbr d i) = entry_part (memory st) mbr d i).
  { intros i. unfold entry_part. by destruct (_ || _). }
  change (for_range 0 4 (scan_entry mbr d) st)
    with (s ← scan_entry mbr d 0 st; s ← scan_entry mbr d 1 s; s ← scan_entry mbr d 2 s;
          s ← scan_entry mbr d 3 s; Some s).
  destruct (scan_entry_spec mbr d 0 (3 * entry_room + k) st) as (h0 & E0 & R0);
    [unfold entry_room; lia|eapply room_le; [|exact Hr]; lia|]. rewrite E0. bind.
  set (st1 := set_head (set_heap st h0) _).
  destruct (scan_entry_spec mbr d 1 (2 * entry_room + k) st1) as (h1 & E1 & R1);
    [unfold entry_room; lia|eapply room_le; [|exact R0]; lia|]. rewrite E1. bind.
  set (st2 := set_head (set_heap st1 h1) _).
  destruct (scan_entry_spec mbr d 2 (1 * entry_room + k) st2) as (h2 & E2 & R2);
    [unfold entry_room; lia|eapply room_le; [|exact R1]; lia|]. rewrite E2. bind.
  set (st3 := set_head (set_heap st2 h2) _).
  destruct (scan_entry_spec mbr d 3 k st3) as (h3 & E3 & R3);
    [done|eapply room_le; [|exact R2]; lia|]. rewrite E3. bind. exists h3. split; [|exact R3].
  unfold st3, st2, st1.
  cbn [memory set_head set_heap g_head]. unfold set_head, set_heap. cbn. rewrite !rev_app_distr, !Hrev.
  by rewrite <- !app_assoc.
Qed.

Lemma scan_device_spec mbr d k st :
  0 < mbr -> dev_ok d -> clear_of mbr d -> 0 <= k -> room (4 * entry_room + k) st ->
  exists h m, scan_device mbr st d
    = Some (MkBlk (rev (parts (memory st) (base_of d) d) ++ g_head st) h (frames st) m) /\
    room k (set_heap st h) /\ same_outside mbr (memory st) m.
Proof.
  intros Hm Hd Hcl Hk Hr. unfold scan_device, parts.
  assert (Hr' : room k st) by (eapply room_le; [|exact Hr]; unfold entry_room; lia).
  destruct (dev_geometry d Hd) as (G1 & G2 & G3 & G4).
  destruct (Z.eqb_spec (sector_size d) 512) as [Es|]; cbn [negb andb];
    [|exists (heap st), (memory st); split_and!; [by destruct st|by destruct st|done]].
  destruct (Z.leb_spec 1 (sector_count d)); cbn [andb].
  2: { destruct (dev_range_error d 0 mbr 1 (memory st)) as [-> _]; [done|lia|lia|lia|lia|].
       exists (heap st), (memory st). split_and!; [by destruct st|by destruct st|done]. }
  rewrite dev_read_ok by lia || done. rewrite Es. change (1 * 512) with 512.
  replace (base_of d + 0 * 512) with (base_of d) by lia.
  set (m := Mem.copy_up _ _ _ _ _). cbn [negb Z.eqb Pos.eqb].
  assert (Hdis : disjoint mbr (base_of d) 512).
  { unfold clear_of in Hcl. rewrite Es in Hcl. unfold disjoint. lia. }
  assert (Hin : forall i, 0 <= i < 512 -> rd8 m (mbr + i) = rd8 (memory st) (base_of d + i))
    by (intros; by apply copy_in).
  assert (Hout : same_outside mbr (memory st) m) by (intros a Ha; by apply copy_out).
  cbn [memory set_memory]. rewrite !Hin by lia.
  destruct (rd8 _ (base_of d + 510) =? 0x55); cbn [negb orb andb];
    [|exists (heap st), m; split_and!; [done|by destruct st|done]].
  destruct (rd8 _ (base_of d + 511) =? 0xAA); cbn [negb orb andb];
    [|exists (heap st), m; split_and!; [done|by destruct st|done]].
  destruct (scan_entries mbr d k (set_memory st m) Hk) as (h & E & R); [exact Hr|].
  rewrite E. exists h, m. split_and!; [|exact R|done].
  cbn [memory set_memory]. unfold set_head, set_heap, set_memory. cbn. do 4 f_equal.
  by rewrite !(entry_shift (memory st) m (base_of d) mbr) by (lia || done).
Qed.

(** Registering more partitions does not change what the others say. *)
Lemma parts_outside mbr m m' d :
  dev_ok d -> clear_of mbr d -> same_outside mbr m m' -> parts m' (base_of d) d = parts m (base_of d) d.
Proof.
  intros Hd Hcl Hs. destruct (dev_geometry d Hd) as (G1 & G2 & G3 & G4).
  destruct (decide (sector_size d = 512 /\ 1 <= sector_count d)) as [[E1 E2]|Hn].
  - apply parts_shift. intros i Hi. apply Hs. unfold clear_of in Hcl. rewrite E1 in Hcl. lia.
  - unfold parts. destruct (Z.eqb_spec (sector_size d) 512), (Z.leb_spec 1 (sector_count d));
      done || (destruct Hn; split; lia).
Qed.

Lemma scan_devices_spec mbr l : forall st,
  0 < mbr -> Forall (fun d => dev_ok d /\ clear_of mbr d) l ->
  room (4 * entry_room * Z.of_nat (length l)) st ->
  exists st', scan_devices mbr st l = Some st' /\
    g_head st' = rev (concat ((fun d => parts (memory st) (base_of d) d) <$> l)) ++ g_head st /\
    frames st' = frames st /\ same_outside mbr (memory st) (memory st') /\ room 0 st'.
Proof.
  induction l as [|d l IH]; intros st Hm Hl Hr.
  { exists st. split_and!; try done. }
  apply list.Forall_cons in Hl as [[Hd Hc] Hl]. cbn [scan_devices].
  destruct (scan_device_spec mbr d (4 * entry_room * Z.of_nat (length l)) st) as (h & m & E & R & S);
    try done; [unfold entry_room; lia|eapply room_le; [|exact Hr]; cbn [length]; lia|].
  rewrite E. bind. set (st1 := MkBlk _ _ _ _).
  destruct (IH st1 Hm Hl R) as (st' & E' & H1 & H2 & H3 & H4). exists st'.
  split; [done|]. split_and!; [|done| |done].
  - rewrite H1. cbn [st1 g_head memory]. rewrite fmap_cons. cbn [concat]. rewrite rev_app_distr, <- app_assoc.
    do 3 f_equal. apply list_fmap_ext. intros i x Hx. apply list_elem_of_lookup_2 in Hx.
    rewrite list.Forall_forall in Hl. destruct (Hl x Hx). by apply (parts_outside mbr).
  - intros a Ha. rewrite H3 by done. cbn [st1 memory]. by apply S.
Qed.

(** C23. The scan registers, in front of the devices it found, exactly the
    partitions with a type and a size that the partition tables of the 512-byte
    devices with a boot signature describe, each named after its parent and
    confined to the range of its entry; it writes nothing but its buffer. *)
Theorem block_scan_correct mbr st :
  0 < mbr -> Forall (fun d => dev_ok d /\ clear_of mbr d) (g_head st) ->
  room (4 * entry_room * Z.of_nat (length (g_head st))) st ->
  exists st', block_scan_partitions mbr st = Some st' /\
    g_head st' = rev (concat ((fun d => parts (memory st) (base_of d) d) <$> g_head st)) ++ g_head st /\
    frames st' = frames st /\ same_outside mbr (memory st) (memory st').
Proof.
  intros Hm Hl Hr. destruct (scan_devices_spec mbr (g_head st) st Hm Hl Hr)
    as (st' & E & H1 & H2 & H3 & _). by exists st'.
Qed.

(** ** Instances *)

(** A 2 KiB memory disk at 0x8000 with a partition table: one partition of
    type 7, start 1, 3 sectors. *)
Definition demo_disk : mem :=
  wr (wr (wr (wr (wr ∅ (0x8000 + 450) 7) (0x8000 + 454) 1) (0x8000 + 458) 3)
    (0x8000 + 510) 0x55) (0x8000 + 511) 0xAA.
Definition demo_dev : device := Dev [109; 100] 512 4 (MemPriv 0x8000 2048 1).
Definition demo_part : device := Dev [109; 100; 112; 49] 512 3 (PartPriv demo_dev 1 3).
Definition demo_blk : blk :=
  MkBlk [demo_dev] (Kmalloc.kmalloc_init KmallocProps.kzero 0x1000 0x400) PmmSpec.demo demo_disk.

Lemma demo_part_ok : dev_ok demo_part.
Proof. cbn. lia. Qed.

Lemma demo_heap : KmallocSpec.inv (heap demo_blk) [(0x400 - 32, true)].
Proof. apply KmallocProps.init_inv; done. Qed.

Lemma block_transfer_correct_witness :
  exists m', dev_write demo_part 0 0x20000 1 demo_disk = (1, m') /\
    rd8 m' 0x8200 = rd8 demo_disk 0x20000.
Proof.
  destruct (block_transfer_correct demo_part 0 0x20000 1 demo_disk demo_part_ok ltac:(lia)
    ltac:(lia) ltac:(lia)) as [H _].
  destruct (H ltac:(cbn; lia) ltac:(unfold disjoint; cbn; lia)) as [_ H2].
  destruct (H2 ltac:(cbn; lia)) as (m' & E & _ & _ & H3 & _). exists m'. split; [exact E|].
  exact (H3 0 ltac:(cbn; lia)).
Defined.

Lemma block_write_read_witness :
  exists m1 m2, dev_write demo_part 0 0x20000 1 demo_disk = (1, m1) /\
    dev_read demo_part 0 0x30000 1 m1 = (1, m2) /\
    forall i, 0 <= i < 512 -> rd8 m2 (0x30000 + i) = rd8 demo_disk (0x20000 + i).
Proof.
  apply (block_write_read demo_part 0 0x20000 0x30000 1 demo_disk demo_part_ok); cbn; try lia;
    unfold disjoint; cbn; lia.
Defined.

Lemma partition_wrap_escapes_witness :
  dev_write demo_part (2^64 - 1) 0x20000 1 demo_disk = dev_write demo_dev 0 0x20000 1 demo_disk.
Proof.
  exact (proj1 (partition_wrap_escapes [109; 100; 112; 49] 512 3 demo_dev 1 3 1 0x20000 demo_disk
    ltac:(lia) ltac:(lia) ltac:(lia))).
Defined.

Lemma ramdisk_create_correct_witness :
  exists r st', ramdisk_create demo_blk (Some [114]) 1000 = Some (r, st') /\ heap_ok st'.
Proof.
  destruct (ramdisk_create_correct demo_blk [114] 1000 (ex_intro _ _ demo_heap) PmmSpec.demo_inv
    ltac:(lia)) as (r & st' & E & H & _).
  exists r, st'. split; [exact E|exact H].
Defined.

Lemma block_scan_correct_witness :
  exists st', block_scan_partitions 0x20000 demo_blk = Some st' /\
    g_head st' = [demo_part; demo_dev].
Proof.
  destruct (block_scan_correct 0x20000 demo_blk ltac:(lia)) as (st' & E & H & _).
  - constructor; [split; [cbn; lia|right; cbn; lia]|constructor].
  - exists [(0x400 - 32, true)], (0x400 - 32). split; [exact demo_heap|]. split; [left|].
    unfold entry_room. cbn. lia.
  - exists st'. split; [exact E|]. rewrite H. vm_compute. reflexivity.
Defined.

End BlockProps.
