(* ===== verification/Devfs.v ===== *)
(** * Device file system ([src/kernel64/fs/devfs.c])

    Block devices as files.  Reads and writes at byte granularity are made of
    sector transfers, with a bounce buffer from the kernel heap for partial
    sectors; they work on any device that implements [BlockDev]. *)

From S2P Require Import Prelude Kmalloc Mem Block BlockSpec.

Module Devfs.

(** ** Reading and writing *)

Section io.
Context {D : Type} `{BD : BlockDev D}.

Record devfs_node := Node {
  is_dir : Z;
  nname : list Z;
  size : Z;
  bdev : option D
}.

(** The kernel heap and memory. *)
Abbreviation io := (Kmalloc.kheap * mem)%type.

(** Position in the file and in the buffer. *)
Record cursor := Cursor { first_lba : Z; pos : Z; remaining : Z }.

(** Copy of the part of the first sector from [head_off] on. *)
Definition read_head (b : D) (out head_off : Z) (c : cursor) (s : io)
    : option (option cursor * io) :=
  let sec := bd_sector_size b in
  '(tmp, h) ← Kmalloc.kmalloc s.1 sec;
  if tmp =? 0 then Some (None, (h, s.2))
  else
    let '(r, m) := bd_read b (first_lba c) tmp 1 s.2 in
    if negb (r =? 1) then h ← Kmalloc.kfree h tmp; Some (None, (h, m))
    else
      let take := u32 (sec - head_off) in
      let take := if remaining c <? take then u32 (remaining c) else take in
      let m := Mem.copy_up (Z.to_nat take) 0 m (out + pos c) (tmp + head_off) in
      h ← Kmalloc.kfree h tmp;
      Some (Some (Cursor (first_lba c + 1)%u64 (pos c + take)%u64 (remaining c - take)%u64), (h, m)).

(** Whole sectors, at most 128 at a time. *)
Fixpoint read_middle (fuel : nat) (b : D) (out : Z) (c : cursor) (m : mem)
    : option (option cursor * mem) :=
  match fuel with
  | O => None
  | S fuel' =>
      let sec := bd_sector_size b in
      if sec <=? remaining c then
        let cnt := u32 (remaining c / sec) in
        let cnt := if 128 <? cnt then 128 else cnt in
        let '(r, m) := bd_read b (first_lba c) (out + pos c) cnt m in
        if negb (r =? s32 cnt) then Some (None, m)
        else
          let adv := (cnt * sec)%u64 in
          read_middle fuel' b out
            (Cursor (first_lba c + cnt)%u64 (pos c + adv)%u64 (remaining c - adv)%u64) m
      else Some (Some c, m)
  end.

(** The rest of the last sector. *)
Definition read_tail (b : D) (out : Z) (c : cursor) (s : io) : option (option cursor * io) :=
  '(tmp, h) ← Kmalloc.kmalloc s.1 (bd_sector_size b);
  if tmp =? 0 then Some (None, (h, s.2))
  else
    let '(r, m) := bd_read b (first_lba c) tmp 1 s.2 in
    if negb (r =? 1) then h ← Kmalloc.kfree h tmp; Some (None, (h, m))
    else
      let m := Mem.copy_up (Z.to_nat (remaining c)) 0 m (out + pos c) tmp in
      h ← Kmalloc.kfree h tmp;
      Some (Some (Cursor (first_lba c) (pos c + remaining c)%u64 0), (h, m)).

(** More iterations than the middle loop can make: each takes a byte. *)
Definition loop_fuel (n : Z) : nat := S (Z.to_nat n).

(** The three parts of a read of [len] bytes at [off], which lie inside the
    device. *)
Definition read_range (b : D) (off buf len : Z) (s : io) : option (Z * io) :=
  let sec := bd_sector_size b in
  let head_off := u32 (off mod sec) in
  let c := Cursor (off / sec) 0 len in
  '(c, s) ← (if negb (head_off =? 0) then read_head b buf head_off c s else Some (Some c, s));
  match c with
  | None => Some (-1, s)
  | Some c =>
      '(c, m) ← read_middle (loop_fuel len) b buf c s.2;
      let s := (s.1, m) in
      match c with
      | None => Some (-1, s)
      | Some c =>
          '(c, s) ← (if 0 <? remaining c then read_tail b buf c s else Some (Some c, s));
          match c with
          | None => Some (-1, s)
          | Some c => Some (s32 (pos c), s)
          end
      end
  end.

Definition devfs_read (n : option devfs_node) (off buf len : Z) (s : io) : option (Z * io) :=
  match n with
  | None => Some (-1, s)
  | Some dn =>
      if buf =? 0 then Some (-1, s)
      else if negb (is_dir dn =? 0) then Some (-1, s)
      else
        match bdev dn with
        | None => Some (-1, s)
        | Some b =>
            let end_ := (off + len)%u64 in
            let end_ := if size dn <? end_ then size dn else end_ in
            if end_ <=? off then Some (0, s)
            else read_range b off buf (end_ - off) s
        end
  end.

(** Read, patch and write back the first sector. *)
Definition write_head (b : D) (inp head_off : Z) (c : cursor) (s : io)
    : option (option cursor * io) :=
  let sec := bd_sector_size b in
  '(tmp, h) ← Kmalloc.kmalloc s.1 sec;
  if tmp =? 0 then Some (None, (h, s.2))
  else
    let '(r, m) := bd_read b (first_lba c) tmp 1 s.2 in
    if negb (r =? 1) then h ← Kmalloc.kfree h tmp; Some (None, (h, m))
    else
      let put := u32 (sec - head_off) in
      let put := if remaining c <? put then u32 (remaining c) else put in
      let m := Mem.copy_up (Z.to_nat put) 0 m (tmp + head_off) (inp + pos c) in
      let '(r, m) := bd_write b (first_lba c) tmp 1 m in
      if negb (r =? 1) then h ← Kmalloc.kfree h tmp; Some (None, (h, m))
      else
        h ← Kmalloc.kfree h tmp;
        Some (Some (Cursor (first_lba c + 1)%u64 (pos c + put)%u64 (remaining c - put)%u64), (h, m)).

Fixpoint write_middle (fuel : nat) (b : D) (inp : Z) (c : cursor) (m : mem)
    : option (option cursor * mem) :=
  match fuel with
  | O => None
  | S fuel' =>
      let sec := bd_sector_size b in
      if sec <=? remaining c then
        let cnt := u32 (remaining c / sec) in
        let cnt := if 128 <? cnt then 128 else cnt in
        let '(r, m) := bd_write b (first_lba c) (inp + pos c) cnt m in
        if negb (r =? s32 cnt) then Some (None, m)
        else
          let adv := (cnt * sec)%u64 in
          write_middle fuel' b inp
            (Cursor (first_lba c + cnt)%u64 (pos c + adv)%u64 (remaining c - adv)%u64) m
      else Some (Some c, m)
  end.

Definition write_tail (b : D) (inp : Z) (c : cursor) (s : io) : option (option cursor * io) :=
  '(tmp, h) ← Kmalloc.kmalloc s.1 (bd_sector_size b);
  if tmp =? 0 then Some (None, (h, s.2))
  else
    let '(r, m) := bd_read b (first_lba c) tmp 1 s.2 in
    if negb (r =? 1) then h ← Kmalloc.kfree h tmp; Some (None, (h, m))
    else
      let m := Mem.copy_up (Z.to_nat (remaining c)) 0 m tmp (inp + pos c) in
      let '(r, m) := bd_write b (first_lba c) tmp 1 m in
      if negb (r =? 1) then h ← Kmalloc.kfree h tmp; Some (None, (h, m))
      else
        h ← Kmalloc.kfree h tmp;
        Some (Some (Cursor (first_lba c) (pos c + remaining c)%u64 0), (h, m)).

(** The three parts of a write of [len] bytes at [off], which lie inside the
    device. *)
Definition write_range (b : D) (off buf len : Z) (s : io) : option (Z * io) :=
  let sec := bd_sector_size b in
  let head_off := u32 (off mod sec) in
  let c := Cursor (off / sec) 0 len in
  '(c, s) ← (if negb (head_off =? 0) then write_head b buf head_off c s else Some (Some c, s));
  match c with
  | None => Some (-1, s)
  | Some c =>
      '(c, m) ← write_middle (loop_fuel len) b buf c s.2;
      let s := (s.1, m) in
      match c with
      | None => Some (-1, s)
      | Some c =>
          '(c, s) ← (if 0 <? remaining c then write_tail b buf c s else Some (Some c, s));
          match c with
          | None => Some (-1, s)
          | Some c => Some (s32 (pos c), s)
          end
      end
  end.

Definition devfs_write (n : option devfs_node) (off buf len : Z) (s : io) : option (Z * io) :=
  match n with
  | None => Some (-1, s)
  | Some dn =>
      if buf =? 0 then Some (-1, s)
      else if negb (is_dir dn =? 0) then Some (-1, s)
      else
        b ← bdev dn;
        let end_ := (off + len)%u64 in
        let end_ := if size dn <? end_ then size dn else end_ in
        if end_ <=? off then Some (0, s)
        else write_range b off buf (end_ - off) s
  end.

End io.

Arguments devfs_node D : clear implicits.
Arguments Node {D}.

(** ** Names *)

Import Block.

(** [sizeof(devfs_node_t)] and [sizeof(vfs_node_t)] *)
Definition sizeof_devfs_node : Z := 40.
Definition sizeof_vfs_node : Z := 24.

(** A path is NULL or a string; '/' is 47. *)
Definition path_is_root (sub : option (list Z)) : bool :=
  match sub with
  | None => true
  | Some [] => true
  | Some [c] => c =? 47
  | Some _ => false
  end.

(** Strip one leading slash. *)
Definition strip_slash (p : list Z) : list Z :=
  match p with
  | c :: r => if c =? 47 then r else p
  | [] => []
  end.

Definition dir_node : devfs_node device := Node 1 [] 0 None.

Definition file_node (b : device) : devfs_node device :=
  Node 0 (take 15 (name b)) (sector_count b * sector_size b)%u64 (Some b).

(** The new node, or NULL; both structures come from the heap and are freed
    again when the name is unknown. *)
Definition devfs_open (st : blk) (path : option (list Z))
    : option (option (devfs_node device) * blk) :=
  '(dn, st) ← alloc st sizeof_devfs_node;
  if dn =? 0 then Some (None, st)
  else
    '(vn, st) ← alloc st sizeof_vfs_node;
    if vn =? 0 then h ← Kmalloc.kfree (heap st) dn; Some (None, set_heap st h)
    else if path_is_root path then Some (Some dir_node, st)
    else
      let q := strip_slash (default [] path) in
      match q with
      | [] => Some (Some dir_node, st)
      | _ =>
          match block_find st q with
          | None =>
              h ← Kmalloc.kfree (heap st) dn;
              h ← Kmalloc.kfree h vn;
              Some (None, set_heap st h)
          | Some b => Some (Some (file_node b), st)
          end
      end.

(** Result, and the size and directory flag it stores. *)
Definition devfs_stat (st : blk) (path : option (list Z)) : Z * option (Z * Z) :=
  if path_is_root path then (0, Some (0, 1))
  else
    let q := strip_slash (default [] path) in
    match q with
    | [] => (0, Some (0, 1))
    | _ =>
        match block_find st q with
        | None => (-1, None)
        | Some b => (0, Some ((sector_count b * sector_size b)%u64, 0))
        end
    end.

(** Entry [idx] of the directory: the result and the name, of which at most
    [maxlen - 1] bytes are stored. *)
Definition devfs_readdir (st : blk) (n : option (devfs_node device)) (idx maxlen : Z)
    : Z * option (list Z) :=
  match n with
  | None => (-1, None)
  | Some dn =>
      if maxlen =? 0 then (-1, None)
      else if is_dir dn =? 0 then (0, Some [])
      else
        match g_head st !! Z.to_nat idx with
        | Some b => (1, Some (take (Z.to_nat (maxlen - 1)) (name b)))
        | None => (0, Some [])
        end
  end.

End Devfs.
