(* ===== verification/DevfsSpec.v ===== *)
(** * Correctness of the device file system

    Reads and writes at any offset transfer exactly the requested part of the
    device, although they are made of whole sectors. *)

From S2P Require Import Prelude Kmalloc KmallocSpec KmallocProps Mem Block BlockSpec Devfs.

Module DevfsSpec.

Import Devfs.

(** ** Bounce buffers *)

Lemma kmalloc_fits h bs n s :
  KmallocSpec.inv h bs -> 0 < n <= 2^64 - 16 -> (s, true) ∈ bs -> Kmalloc.ALIGN_UP n 16 <= s ->
  exists tmp h1 h2, Kmalloc.kmalloc h n = Some (tmp, h1) /\ 0 < tmp /\
    Kmalloc.g_heap_base h <= tmp /\ tmp + n <= Kmalloc.g_heap_base h + Kmalloc.g_heap_size h /\
    Kmalloc.kfree h1 tmp = Some h2 /\ KmallocSpec.inv h2 bs /\
    Kmalloc.g_heap_base h2 = Kmalloc.g_heap_base h /\ Kmalloc.g_heap_size h2 = Kmalloc.g_heap_size h /\
    forall a, tmp <= a < tmp + n -> KmallocProps.unused bs (Kmalloc.g_heap_base h) (Kmalloc.g_heap_size h) a.
Proof.
  intros Hi Hn Hs Hle. destruct (KmallocProps.kmalloc_step h bs Hi n Hn) as (p & h1 & E & H).
  pose proof (KmallocSpec.first_fit_split (Kmalloc.ALIGN_UP n 16) bs (Kmalloc.g_heap_base h)) as F.
  destruct (KmallocSpec.first_fit _ _ bs) as [[q bs']|] eqn:EF.
  - destruct H as (-> & Hp & Hi' & Hb & Hz). exists q, h1. clear F.
    destruct (KmallocProps.first_fit_live _ _ _ _ _ EF) as (l1 & l2 & s' & _ & L & Hs').
    assert (Hl : (q, s') ∈ KmallocSpec.live (Kmalloc.g_heap_base h) bs')
      by (rewrite L; apply elem_of_app; right; left).
    destruct (KmallocSpec.live_bounds _ _ _ _ (KmallocSpec.inv_sizes _ _ Hi') Hl) as (B1 & B2 & _).
    rewrite (KmallocSpec.inv_total _ _ Hi'), Hz in B2.
    destruct (KmallocProps.align16 n Hn) as (_ & Ha & _).
    destruct (KmallocProps.malloc_free h bs n q h1 Hi Hn E ltac:(lia)) as (h2 & E2 & Hi2 & Hb2 & Hz2).
    exists h2. split_and!; [done|done|lia|lia|done|exact Hi2|done|done|].
    intros a Ha2. rewrite <- (KmallocSpec.inv_total _ _ Hi).
    eapply KmallocProps.first_fit_unused; [apply (KmallocSpec.inv_sizes _ _ Hi)| |exact EF|]; lia.
  - rewrite list.Forall_forall in F. specialize (F _ Hs). cbn [fst snd andb] in F.
    apply Z.leb_gt in F. lia.
Qed.

(** ** Transfers *)

(** Two areas of [n] and [k] bytes do not overlap. *)
Definition apart (a n b k : Z) : Prop := a + n <= b \/ b + k <= a.

Lemma copy_spec m d s n a :
  0 <= n -> apart d n s n ->
  rd8 (Mem.copy_up (Z.to_nat n) 0 m d s) a = if inb d n a then rd8 m (s + (a - d)) else rd8 m a.
Proof.
  intros Hn Hd. rewrite Mem.copy_up_spec by (unfold apart in Hd; lia).
  by rewrite Z.add_0_r, Z2Nat.id.
Qed.

Section transfer.
(** The memory before, the heap area, the two areas of [len] bytes. *)
Context (m0 : mem) (hb hn dst src len : Z).
Context (Hds : apart dst len src len) (Hdh : apart dst len hb hn) (Hsh : apart src len hb hn).

(** Outside the heap, the first [k] bytes have been transferred and nothing
    else has changed. *)
Definition xfer (k : Z) (m : mem) : Prop :=
  forall a, ~ hb <= a < hb + hn ->
    rd8 m a = if inb dst k a then rd8 m0 (src + (a - dst)) else rd8 m0 a.

Lemma xfer_0 : xfer 0 m0.
Proof. intros a Ha. inb_cases; [lia|done]. Qed.

(** Changes inside the heap do not matter. *)
Lemma xfer_heap k m m' :
  xfer k m -> (forall a, ~ hb <= a < hb + hn -> rd8 m' a = rd8 m a) -> xfer k m'.
Proof. intros H Hs a Ha. rewrite Hs by done. by apply H. Qed.

Lemma xfer_step k j m m' :
  0 <= k -> 0 <= j -> k + j <= len -> xfer k m ->
  (forall a, ~ hb <= a < hb + hn ->
     rd8 m' a = if inb (dst + k) j a then rd8 m (src + (a - dst)) else rd8 m a) ->
  xfer (k + j) m'.
Proof.
  intros Hk Hj Hle Hx Hs a Ha. rewrite Hs by done. unfold apart in *.
  destruct (inb (dst + k) j a) eqn:E1; [apply inb_true in E1|apply inb_false in E1].
  - rewrite Hx by lia. inb_cases; try lia; done.
  - rewrite Hx by done. inb_cases; try lia; done.
Qed.

End transfer.

(** ** Reading *)

Section io.
Context {D : Type} `{BD : BlockDev D}.
Context (b : D) (Hb : bd_ok b) (Hcount : bd_sector_count b < 2^32).

Abbreviation sec := (bd_sector_size b).
Abbreviation win := (bd_base b).
Abbreviation total := (bd_sector_count b * bd_sector_size b).

(** The request: [len] bytes at [off], inside the device; the buffer; the heap
    area, with a block free for a sector. *)
Context (m0 : mem) (off len buf : Z) (bs : list KmallocSpec.blk) (hb hn fs : Z).
Context (Hoff : 0 <= off) (Hlen : 0 < len) (Hend : off + len <= total) (Hbuf : 0 < buf).
Context (Hbw : apart buf len win total) (Hbh : apart buf len hb hn) (Hwh : apart win total hb hn).
Context (Hfit : (fs, true) ∈ bs) (Hfs : Kmalloc.ALIGN_UP sec 16 <= fs).

Definition heap_ok (h : Kmalloc.kheap) : Prop :=
  KmallocSpec.inv h bs /\ Kmalloc.g_heap_base h = hb /\ Kmalloc.g_heap_size h = hn.

Lemma geometry :
  0 < sec < 2^32 /\ 0 <= bd_sector_count b /\ 0 < win /\ win + total < 2^63.
Proof. by apply bd_geometry. Qed.

Lemma bounce h :
  heap_ok h -> exists tmp h1 h2, Kmalloc.kmalloc h sec = Some (tmp, h1) /\ 0 < tmp /\
    hb <= tmp /\ tmp + sec <= hb + hn /\ Kmalloc.kfree h1 tmp = Some h2 /\ heap_ok h2.
Proof.
  intros (Hi & E1 & E2). destruct geometry as (G1 & _).
  assert (Hs : 0 < sec <= 2^64 - 16) by lia. destruct (kmalloc_fits h bs _ fs Hi Hs Hfit Hfs)
    as (tmp & h1 & h2 & H1 & H2 & H3 & H4 & H5 & H6 & H7 & H8 & _).
  exists tmp, h1, h2. rewrite E1, E2 in *. by split_and!.
Qed.

(** Sector [lba] in a bounce buffer. *)
Lemma sector_in lba tmp m :
  0 <= lba < bd_sector_count b -> 0 < tmp -> hb <= tmp -> tmp + sec <= hb + hn ->
  exists m1, bd_read b lba tmp 1 m = (1, m1) /\ forall a,
    rd8 m1 a = if inb tmp sec a then rd8 m (win + lba * sec + (a - tmp)) else rd8 m a.
Proof.
  intros Hl Ht Hlo Hhi. destruct geometry as (G1 & G2 & G3 & G4).
  rewrite bd_read_ok by (done || lia). eexists. split; [done|]. rewrite Z.mul_1_l.
  intros a. apply copy_spec; [lia|]. unfold apart in *. nia.
Qed.

(** A piece of [j] bytes of sector [lba], from [ho] on, through the bounce
    buffer to position [k] of the buffer. *)
Lemma piece_in lba ho k j tmp m :
  0 <= lba < bd_sector_count b -> 0 < tmp -> hb <= tmp -> tmp + sec <= hb + hn ->
  0 <= ho -> 0 <= j -> ho + j <= sec -> 0 <= k -> k + j <= len -> lba * sec + ho = off + k ->
  xfer m0 hb hn buf (win + off) k m ->
  exists m1, bd_read b lba tmp 1 m = (1, m1) /\
    xfer m0 hb hn buf (win + off) (k + j) (Mem.copy_up (Z.to_nat j) 0 m1 (buf + k) (tmp + ho)).
Proof.
  intros Hl Ht Hlo Hhi Hho Hj Hle Hk Hkl Eo Hx. destruct geometry as (G1 & G2 & G3 & G4).
  destruct (sector_in lba tmp m Hl Ht Hlo Hhi) as (m1 & E & H1). exists m1. split; [done|].
  assert (Hsec : lba * sec + sec <= total) by nia. unfold apart in *.
  apply (xfer_step _ _ _ _ _ len) with (m := m); try done; unfold apart; try lia.
  intros a Ha. rewrite copy_spec by (unfold apart; lia).
  destruct (inb (buf + k) j a) eqn:Ea; [apply inb_true in Ea|apply inb_false in Ea].
  - rewrite H1. inb_cases; try lia. f_equal. lia.
  - rewrite H1. inb_cases; [lia|done].
Qed.

Lemma read_head_spec h :
  heap_ok h -> off mod sec <> 0 ->
  let j := Z.min (sec - off mod sec) len in
  exists h' m', read_head b buf (u32 (off mod sec)) (Cursor (off / sec) 0 len) (h, m0)
    = Some (Some (Cursor (off / sec + 1) j (len - j)), (h', m')) /\
    heap_ok h' /\ xfer m0 hb hn buf (win + off) j m'.
Proof.
  intros Hh Hne j. destruct geometry as (G1 & G2 & G3 & G4).
  assert (Hs0 : sec <> 0) by lia.
  pose proof (Z.mod_pos_bound off _ (proj1 G1)) as Hm. pose proof (Z.div_mod off _ Hs0) as Hdm.
  assert (Hd : 0 <= off / sec) by (apply Z.div_pos; lia).
  assert (Hlba : off / sec < bd_sector_count b) by nia.
  unfold read_head. cbn [fst snd first_lba pos remaining].
  destruct (bounce h Hh) as (tmp & h1 & h2 & E1 & T1 & T2 & T3 & E2 & Hh2). rewrite E1. bind.
  rewrite (proj2 (Z.eqb_neq tmp 0)) by lia.
  rewrite (u32_small (off mod sec)), (u32_small (sec - off mod sec)) by lia.
  assert (Ej : (if len <? sec - off mod sec then u32 len else sec - off mod sec) = j).
  { unfold j. destruct (Z.ltb_spec len (sec - off mod sec)); [rewrite u32_small by lia|]; lia. }
  rewrite Ej. destruct (piece_in (off / sec) (off mod sec) 0 j tmp m0) as (m1 & E3 & Hx);
    try lia; [apply xfer_0|]. rewrite E3. cbn [Z.eqb Pos.eqb negb]. rewrite E2. bind.
  eexists h2, _. split; [|split; [done|]].
  - rewrite !add64_small, sub64_small by lia. by rewrite Z.add_0_l.
  - by rewrite Z.add_0_l, Z.add_0_r in *.
Qed.

(** The read up to a sector boundary, if it does not start at one. *)
Lemma read_start h :
  heap_ok h -> exists lba k h1 m1,
    (if negb (u32 (off mod sec) =? 0)
     then read_head b buf (u32 (off mod sec)) (Cursor (off / sec) 0 len) (h, m0)
     else Some (Some (Cursor (off / sec) 0 len), (h, m0)))
    = Some (Some (Cursor lba k (len - k)), (h1, m1)) /\
    0 <= lba /\ 0 <= k <= len /\ (k = len \/ lba * sec = off + k) /\
    heap_ok h1 /\ xfer m0 hb hn buf (win + off) k m1.
Proof.
  intros Hh. destruct geometry as (G1 & G2 & G3 & G4). assert (Hs0 : sec <> 0) by lia.
  pose proof (Z.mod_pos_bound off _ (proj1 G1)) as Hm. pose proof (Z.div_mod off _ Hs0) as Hdm.
  assert (Hd : 0 <= off / sec) by (apply Z.div_pos; lia).
  destruct (Z.eqb_spec (u32 (off mod sec)) 0) as [E0|E0]; rewrite u32_small in E0 by lia; cbn [negb].
  - exists (off / sec), 0, h, m0. rewrite Z.sub_0_r.
    split; [done|]. split; [done|]. split; [lia|]. split; [right; lia|].
    split; [done|apply xfer_0].
  - destruct (read_head_spec h Hh E0) as (h1 & m1 & E & H1 & H2).
    eexists _, _, h1, m1. split; [exact E|]. split; [lia|]. split; [lia|].
    split; [|by split].
    destruct (Z.le_gt_cases len (sec - off mod sec)); [left; lia|right].
    rewrite Z.mul_add_distr_r. lia.
Qed.

Lemma read_middle_spec fuel : forall lba k m,
  (Z.to_nat (len - k) < fuel)%nat -> 0 <= k <= len -> 0 <= lba -> k = len \/ lba * sec = off + k ->
  xfer m0 hb hn buf (win + off) k m ->
  exists lba' k' m', read_middle fuel b buf (Cursor lba k (len - k)) m
    = Some (Some (Cursor lba' k' (len - k')), m') /\
    k <= k' <= len /\ len - k' < sec /\ (k' = len \/ lba' * sec = off + k') /\ 0 <= lba' /\
    xfer m0 hb hn buf (win + off) k' m'.
Proof.
  destruct geometry as (G1 & G2 & G3 & G4).
  induction fuel as [|fuel IH]; intros lba k m Hf Hk Hl Hal Hx; [lia|].
  cbn [read_middle first_lba pos remaining]. destruct (Z.leb_spec sec (len - k)) as [Hge|Hlt].
  2: { exists lba, k, m. split_and!; try done; lia. }
  destruct Hal as [->|Hal]; [lia|]. set (q := (len - k) / sec).
  assert (Hq : 1 <= q /\ q * sec <= len - k).
  { split; [apply Z.div_le_lower_bound; lia|]. rewrite Z.mul_comm. apply Z.mul_div_le. lia. }
  assert (Hq32 : q < 2^32) by nia. rewrite (u32_small q) by lia.
  set (cnt := if 128 <? q then 128 else q).
  assert (Hc : 1 <= cnt <= q /\ cnt <= 128) by (unfold cnt; destruct (Z.ltb_spec 128 q); lia).
  clearbody cnt. assert (Hcs : 0 < cnt * sec <= len - k) by nia.
  assert (Hlc : lba + cnt <= bd_sector_count b).
  { apply (Z.mul_le_mono_pos_r _ _ _ (proj1 G1)). rewrite Z.mul_add_distr_r. lia. }
  rewrite bd_read_ok by (done || lia). rewrite s32_small by lia. rewrite Z.eqb_refl. cbn [negb].
  rewrite (mul64_small cnt) by lia. rewrite !add64_small, sub64_small by lia.
  replace (len - k - cnt * sec) with (len - (k + cnt * sec)) by lia.
  destruct (IH (lba + cnt) (k + cnt * sec) (Mem.copy_up (Z.to_nat (cnt * sec)) 0 m (buf + k)
    (win + lba * sec))) as (lba' & k' & m' & E & H1 & H2 & H3 & H4 & H5); try lia.
  - unfold apart in *. apply (xfer_step _ _ _ _ _ len) with (m := m); try done; unfold apart; try lia.
    intros a Ha. rewrite copy_spec by (unfold apart; lia). inb_cases; [f_equal; lia|done].
  - exists lba', k', m'. split_and!; try done; lia.
Qed.

Lemma read_tail_spec h lba k m :
  heap_ok h -> 0 <= k -> 0 < len - k < sec -> 0 <= lba -> lba * sec = off + k ->
  xfer m0 hb hn buf (win + off) k m ->
  exists h' m', read_tail b buf (Cursor lba k (len - k)) (h, m)
    = Some (Some (Cursor lba len 0), (h', m')) /\
    heap_ok h' /\ xfer m0 hb hn buf (win + off) len m'.
Proof.
  intros Hh Hk Hr Hl Hal Hx. destruct geometry as (G1 & G2 & G3 & G4).
  unfold read_tail. cbn [fst snd first_lba pos remaining].
  destruct (bounce h Hh) as (tmp & h1 & h2 & E1 & T1 & T2 & T3 & E2 & Hh2). rewrite E1. bind.
  rewrite (proj2 (Z.eqb_neq tmp 0)) by lia.
  destruct (piece_in lba 0 k (len - k) tmp m) as (m1 & E3 & Hx'); try lia; try done; [nia|].
  rewrite E3. cbn [Z.eqb Pos.eqb negb]. rewrite E2. bind. rewrite Z.add_0_r in Hx'.
  replace (k + (len - k)) with len in * by lia. eexists h2, _. split; [|by split].
  rewrite add64_small by lia. do 4 f_equal. lia.
Qed.

Lemma read_range_spec h :
  heap_ok h -> exists h' m', read_range b off buf len (h, m0) = Some (s32 len, (h', m')) /\
    heap_ok h' /\ xfer m0 hb hn buf (win + off) len m'.
Proof.
  intros Hh. unfold read_range, loop_fuel. cbv zeta.
  destruct (read_start h Hh) as (lba & k & h1 & m1 & E & L1 & L2 & L3 & Hh1 & X1).
  rewrite E. bind. cbn [fst snd].
  assert (Hf : (Z.to_nat (len - k) < S (Z.to_nat len))%nat) by lia.
  destruct (read_middle_spec _ lba k m1 Hf L2 L1 L3 X1)
    as (lba' & k' & m2 & E2 & K1 & K2 & K3 & K4 & X2).
  rewrite E2. bind. cbn [remaining fst snd]. destruct (Z.ltb_spec 0 (len - k')) as [Hpos|Hz].
  - destruct K3 as [->|K3]; [lia|].
    destruct (read_tail_spec h1 lba' k' m2 Hh1 ltac:(lia) (conj Hpos K2) K4 K3 X2)
      as (h3 & m3 & E3 & H1 & X3).
    rewrite E3. bind. exists h3, m3. by split.
  - bind. replace k' with len in X2 by lia. exists h1, m2. cbn [pos].
    replace k' with len by lia. by split.
Qed.

(** ** Writing *)

Context (Hw : bd_writable b).

(** [j] bytes from position [k] of the buffer into sector [lba] from [ho] on:
    the sector is read, patched and written back. *)
Lemma piece_out lba ho k j tmp m :
  0 <= lba < bd_sector_count b -> 0 < tmp -> hb <= tmp -> tmp + sec <= hb + hn ->
  0 <= ho -> 0 <= j -> ho + j <= sec -> 0 <= k -> k + j <= len -> lba * sec + ho = off + k ->
  xfer m0 hb hn (win + off) buf k m ->
  exists m1 m2, bd_read b lba tmp 1 m = (1, m1) /\
    bd_write b lba tmp 1 (Mem.copy_up (Z.to_nat j) 0 m1 (tmp + ho) (buf + k)) = (1, m2) /\
    xfer m0 hb hn (win + off) buf (k + j) m2.
Proof.
  intros Hl Ht Hlo Hhi Hho Hj Hle Hk Hkl Eo Hx. destruct geometry as (G1 & G2 & G3 & G4).
  destruct (sector_in lba tmp m Hl Ht Hlo Hhi) as (m1 & E & H1).
  assert (Hsec : 0 <= lba * sec /\ lba * sec + sec <= total) by nia.
  exists m1. rewrite bd_write_ok by (done || lia). rewrite Z.mul_1_l. eexists.
  split; [done|]. split; [done|]. unfold apart in *.
  apply (xfer_step _ _ _ _ _ len) with (m := m); try done; unfold apart; try lia.
  intros a Ha. rewrite copy_spec by (unfold apart; lia).
  destruct (inb (win + lba * sec) sec a) eqn:Ea; [apply inb_true in Ea|apply inb_false in Ea].
  - rewrite copy_spec by (unfold apart; lia).
    destruct (inb (win + off + k) j a) eqn:Eb; [apply inb_true in Eb|apply inb_false in Eb].
    + rewrite !H1. inb_cases; try lia. f_equal. lia.
    + rewrite !H1. inb_cases; try lia. f_equal. lia.
  - rewrite copy_spec by (unfold apart; lia). rewrite !H1. inb_cases; lia || done.
Qed.

Lemma write_head_spec h :
  heap_ok h -> off mod sec <> 0 ->
  let j := Z.min (sec - off mod sec) len in
  exists h' m', write_head b buf (u32 (off mod sec)) (Cursor (off / sec) 0 len) (h, m0)
    = Some (Some (Cursor (off / sec + 1) j (len - j)), (h', m')) /\
    heap_ok h' /\ xfer m0 hb hn (win + off) buf j m'.
Proof.
  intros Hh Hne j. destruct geometry as (G1 & G2 & G3 & G4). assert (Hs0 : sec <> 0) by lia.
  pose proof (Z.mod_pos_bound off _ (proj1 G1)) as Hm. pose proof (Z.div_mod off _ Hs0) as Hdm.
  assert (Hd : 0 <= off / sec) by (apply Z.div_pos; lia).
  assert (Hlba : off / sec < bd_sector_count b) by nia.
  unfold write_head. cbn [fst snd first_lba pos remaining].
  destruct (bounce h Hh) as (tmp & h1 & h2 & E1 & T1 & T2 & T3 & E2 & Hh2). rewrite E1. bind.
  rewrite (proj2 (Z.eqb_neq tmp 0)) by lia.
  rewrite (u32_small (off mod sec)), (u32_small (sec - off mod sec)) by lia.
  assert (Ej : (if len <? sec - off mod sec then u32 len else sec - off mod sec) = j).
  { unfold j. destruct (Z.ltb_spec len (sec - off mod sec)); [rewrite u32_small by lia|]; lia. }
  rewrite Ej. destruct (piece_out (off / sec) (off mod sec) 0 j tmp m0) as (m1 & m2 & E3 & E4 & Hx);
    try lia; [apply xfer_0|]. rewrite E3. cbn [Z.eqb Pos.eqb negb]. rewrite E4.
  cbn [Z.eqb Pos.eqb negb]. rewrite E2. bind.
  eexists h2, _. split; [|split; [done|exact Hx]].
  by rewrite !add64_small, sub64_small by lia.
Qed.

(** The write up to a sector boundary, if it does not start at one. *)
Lemma write_start h :
  heap_ok h -> exists lba k h1 m1,
    (if negb (u32 (off mod sec) =? 0)
     then write_head b buf (u32 (off mod sec)) (Cursor (off / sec) 0 len) (h, m0)
     else Some (Some (Cursor (off / sec) 0 len), (h, m0)))
    = Some (Some (Cursor lba k (len - k)), (h1, m1)) /\
    0 <= lba /\ 0 <= k <= len /\ (k = len \/ lba * sec = off + k) /\
    heap_ok h1 /\ xfer m0 hb hn (win + off) buf k m1.
Proof.
  intros Hh. destruct geometry as (G1 & G2 & G3 & G4). assert (Hs0 : sec <> 0) by lia.
  pose proof (Z.mod_pos_bound off _ (proj1 G1)) as Hm. pose proof (Z.div_mod off _ Hs0) as Hdm.
  assert (Hd : 0 <= off / sec) by (apply Z.div_pos; lia).
  destruct (Z.eqb_spec (u32 (off mod sec)) 0) as [E0|E0]; rewrite u32_small in E0 by lia; cbn [negb].
  - exists (off / sec), 0, h, m0. rewrite Z.sub_0_r.
    split; [done|]. split; [done|]. split; [lia|]. split; [right; lia|].
    split; [done|apply xfer_0].
  - destruct (write_head_spec h Hh E0) as (h1 & m1 & E & H1 & H2).
    eexists _, _, h1, m1. split; [exact E|]. split; [lia|]. split; [lia|].
    split; [|by split].
    destruct (Z.le_gt_cases len (sec - off mod sec)); [left; lia|right].
    rewrite Z.mul_add_distr_r. lia.
Qed.

Lemma write_middle_spec fuel : forall lba k m,
  (Z.to_nat (len - k) < fuel)%nat -> 0 <= k <= len -> 0 <= lba -> k = len \/ lba * sec = off + k ->
  xfer m0 hb hn (win + off) buf k m ->
  exists lba' k' m', write_middle fuel b buf (Cursor lba k (len - k)) m
    = Some (Some (Cursor lba' k' (len - k')), m') /\
    k <= k' <= len /\ len - k' < sec /\ (k' = len \/ lba' * sec = off + k') /\ 0 <= lba' /\
    xfer m0 hb hn (win + off) buf k' m'.
Proof.
  destruct geometry as (G1 & G2 & G3 & G4).
  induction fuel as [|fuel IH]; intros lba k m Hf Hk Hl Hal Hx; [lia|].
  cbn [write_middle first_lba pos remaining]. destruct (Z.leb_spec sec (len - k)) as [Hge|Hlt].
  2: { exists lba, k, m. split_and!; try done; lia. }
  destruct Hal as [->|Hal]; [lia|]. set (q := (len - k) / sec).
  assert (Hq : 1 <= q /\ q * sec <= len - k).
  { split; [apply Z.div_le_lower_bound; lia|]. rewrite Z.mul_comm. apply Z.mul_div_le. lia. }
  assert (Hq32 : q < 2^32) by nia. rewrite (u32_small q) by lia.
  set (cnt := if 128 <? q then 128 else q).
  assert (Hc : 1 <= cnt <= q /\ cnt <= 128) by (unfold cnt; destruct (Z.ltb_spec 128 q); lia).
  clearbody cnt. assert (Hcs : 0 < cnt * sec <= len - k) by nia.
  assert (Hlc : lba + cnt <= bd_sector_count b).
  { apply (Z.mul_le_mono_pos_r _ _ _ (proj1 G1)). rewrite Z.mul_add_distr_r. lia. }
  rewrite bd_write_ok by (done || lia). rewrite s32_small by lia. rewrite Z.eqb_refl. cbn [negb].
  rewrite (mul64_small cnt) by lia. rewrite !add64_small, sub64_small by lia.
  replace (len - k - cnt * sec) with (len - (k + cnt * sec)) by lia.
  destruct (IH (lba + cnt) (k + cnt * sec) (Mem.copy_up (Z.to_nat (cnt * sec)) 0 m
    (win + lba * sec) (buf + k))) as (lba' & k' & m' & E & H1 & H2 & H3 & H4 & H5); try lia.
  - unfold apart in *. apply (xfer_step _ _ _ _ _ len) with (m := m); try done; unfold apart; try lia.
    intros a Ha. rewrite copy_spec by (unfold apart; lia).
    inb_cases; lia || done || (f_equal; lia).
  - exists lba', k', m'. split_and!; try done; lia.
Qed.

Lemma write_tail_spec h lba k m :
  heap_ok h -> 0 <= k -> 0 < len - k < sec -> 0 <= lba -> lba * sec = off + k ->
  xfer m0 hb hn (win + off) buf k m ->
  exists h' m', write_tail b buf (Cursor lba k (len - k)) (h, m)
    = Some (Some (Cursor lba len 0), (h', m')) /\
    heap_ok h' /\ xfer m0 hb hn (win + off) buf len m'.
Proof.
  intros Hh Hk Hr Hl Hal Hx. destruct geometry as (G1 & G2 & G3 & G4).
  unfold write_tail. cbn [fst snd first_lba pos remaining].
  destruct (bounce h Hh) as (tmp & h1 & h2 & E1 & T1 & T2 & T3 & E2 & Hh2). rewrite E1. bind.
  rewrite (proj2 (Z.eqb_neq tmp 0)) by lia.
  destruct (piece_out lba 0 k (len - k) tmp m) as (m1 & m2 & E3 & E4 & Hx'); try lia; try done; [nia|].
  rewrite E3. cbn [Z.eqb Pos.eqb negb]. rewrite Z.add_0_r in E4. rewrite E4.
  cbn [Z.eqb Pos.eqb negb]. rewrite E2. bind. replace (k + (len - k)) with len in * by lia.
  eexists h2, _. split; [|by split]. rewrite add64_small by lia. do 4 f_equal. lia.
Qed.

Lemma write_range_spec h :
  heap_ok h -> exists h' m', write_range b off buf len (h, m0) = Some (s32 len, (h', m')) /\
    heap_ok h' /\ xfer m0 hb hn (win + off) buf len m'.
Proof.
  intros Hh. unfold write_range, loop_fuel. cbv zeta.
  destruct (write_start h Hh) as (lba & k & h1 & m1 & E & L1 & L2 & L3 & Hh1 & X1).
  rewrite E. bind. cbn [fst snd].
  assert (Hf : (Z.to_nat (len - k) < S (Z.to_nat len))%nat) by lia.
  destruct (write_middle_spec _ lba k m1 Hf L2 L1 L3 X1)
    as (lba' & k' & m2 & E2 & K1 & K2 & K3 & K4 & X2).
  rewrite E2. bind. cbn [remaining fst snd]. destruct (Z.ltb_spec 0 (len - k')) as [Hpos|Hz].
  - destruct K3 as [->|K3]; [lia|].
    destruct (write_tail_spec h1 lba' k' m2 Hh1 ltac:(lia) (conj Hpos K2) K4 K3 X2)
      as (h3 & m3 & E3 & H1 & X3).
    rewrite E3. bind. exists h3, m3. by split.
  - bind. replace k' with len in X2 by lia. exists h1, m2. cbn [pos].
    replace k' with len by lia. by split.
Qed.

End io.

End DevfsSpec.
