(* ===== verification/DevfsProps.v ===== *)
(** * Properties of the device file system *)

From S2P Require Import Prelude Mb2 Pmm PmmSpec Kmalloc KmallocSpec KmallocProps Mem.
From S2P Require Import Block BlockSpec BlockProps Devfs DevfsSpec.

Module DevfsProps.

Import Devfs DevfsSpec.

Section props.
Context {D : Type} `{BD : BlockDev D}.

(** The number of bytes a request of [len] at [off] can transfer. *)
Definition clipped (size off len : Z) : Z := Z.max 0 (Z.min (off + len) size - off).

(** An open device file and a request whose buffer, device window and heap do
    not overlap; the heap has a free block for one sector. *)
Record request (dn : devfs_node D) (b : D) (off len buf : Z) (h : Kmalloc.kheap)
    (bs : list KmallocSpec.blk) : Prop := Request {
  rq_file : is_dir dn = 0;
  rq_dev : bdev dn = Some b;
  rq_size : size dn = bd_sector_count b * bd_sector_size b;
  rq_ok : bd_ok b;
  rq_count : bd_sector_count b < 2^32;
  rq_range : 0 <= off /\ 0 <= len /\ off + len < 2^64;
  rq_buf : 0 < buf;
  rq_heap : KmallocSpec.inv h bs;
  rq_room : exists s, (s, true) ∈ bs /\ Kmalloc.ALIGN_UP (bd_sector_size b) 16 <= s;
  rq_buf_win : apart buf (clipped (size dn) off len) (bd_base b) (size dn);
  rq_buf_heap : apart buf (clipped (size dn) off len) (Kmalloc.g_heap_base h) (Kmalloc.g_heap_size h);
  rq_win_heap : apart (bd_base b) (size dn) (Kmalloc.g_heap_base h) (Kmalloc.g_heap_size h)
}.

(** What every request does first. *)
Lemma clip_end size off len :
  0 <= off -> 0 <= len -> off + len < 2^64 -> 0 <= size < 2^63 ->
  let e := if size <? (off + len)%u64 then size else (off + len)%u64 in
  (e <=? off) = (clipped size off len =? 0) /\ (0 < clipped size off len -> e - off = clipped size off len).
Proof.
  intros H1 H2 H3 H4. rewrite add64_small by lia. unfold clipped.
  destruct (Z.ltb_spec size (off + len)); cbv zeta;
    match goal with |- (?a <=? ?b) = (?c =? 0) /\ _ =>
      destruct (Z.leb_spec a b), (Z.eqb_spec c 0) end; split; try done; lia.
Qed.

Lemma clipped_bounds dn b off len buf h bs :
  request dn b off len buf h bs -> 0 < clipped (size dn) off len ->
  off + clipped (size dn) off len <= bd_sector_count b * bd_sector_size b.
Proof. intros Hr H. rewrite (rq_size _ _ _ _ _ _ _ Hr) in *. unfold clipped in *. lia. Qed.

Lemma devfs_read_spec dn b off len buf h m bs :
  request dn b off len buf h bs ->
  let n := clipped (size dn) off len in
  exists h' m', devfs_read (Some dn) off buf len (h, m) = Some (s32 n, (h', m')) /\
    KmallocSpec.inv h' bs /\ Kmalloc.g_heap_base h' = Kmalloc.g_heap_base h /\
    Kmalloc.g_heap_size h' = Kmalloc.g_heap_size h /\
    xfer m (Kmalloc.g_heap_base h) (Kmalloc.g_heap_size h) buf (bd_base b + off) n m'.
Proof.
  intros Hr n. pose proof Hr as [R1 R2 R3 R4 R5 (R6 & R7 & R8) R9 R10 (s & R11 & R12) R13 R14 R15].
  destruct (bd_geometry b R4) as (G1 & G2 & G3 & G4). unfold devfs_read.
  rewrite (proj2 (Z.eqb_neq buf 0)) by lia. rewrite R1, R2. cbn [Z.eqb negb]. 
  destruct (clip_end (size dn) off len R6 R7 R8 ltac:(nia)) as [Hz He]. fold n in Hz, He, R13, R14.
  rewrite Hz. assert (Hn0 : 0 <= n) by (unfold n, clipped; lia).
  destruct (Z.eqb_spec n 0) as [En|Hne].
  { exists h, m. rewrite En. split_and!; [done|exact R10|done|done|apply xfer_0]. }
  assert (Hn : 0 < n) by lia. rewrite (He Hn). clear Hz He.
  pose proof (clipped_bounds _ _ _ _ _ _ _ Hr Hn) as Hend. fold n in Hend. rewrite R3 in *.
  destruct (read_range_spec b R4 R5 m off n buf bs _ _ s R6 Hn Hend R9 R13 R14 R15 R11 R12 h)
    as (h' & m' & E & H & X); [done|]. exists h', m'. split_and!; [exact E|apply H|apply H|apply H|exact X].
Qed.

(** C21. A read from a device file returns the number of requested bytes that
    lie inside the device and copies exactly these bytes of the device to the
    buffer, at any alignment; it changes no other byte outside the heap and
    gives back every bounce buffer. *)
Theorem devfs_read_correct dn b off len buf h m bs :
  request dn b off len buf h bs ->
  let n := clipped (size dn) off len in
  exists h' m', devfs_read (Some dn) off buf len (h, m) = Some (s32 n, (h', m')) /\
    KmallocSpec.inv h' bs /\ Kmalloc.g_heap_base h' = Kmalloc.g_heap_base h /\
    Kmalloc.g_heap_size h' = Kmalloc.g_heap_size h /\
    xfer m (Kmalloc.g_heap_base h) (Kmalloc.g_heap_size h) buf (bd_base b + off) n m'.
Proof. apply devfs_read_spec. Qed.

Lemma devfs_write_spec dn b off len buf h m bs :
  request dn b off len buf h bs -> bd_writable b ->
  let n := clipped (size dn) off len in
  exists h' m', devfs_write (Some dn) off buf len (h, m) = Some (s32 n, (h', m')) /\
    KmallocSpec.inv h' bs /\ Kmalloc.g_heap_base h' = Kmalloc.g_heap_base h /\
    Kmalloc.g_heap_size h' = Kmalloc.g_heap_size h /\
    xfer m (Kmalloc.g_heap_base h) (Kmalloc.g_heap_size h) (bd_base b + off) buf n m'.
Proof.
  intros Hr Hw n. pose proof Hr as [R1 R2 R3 R4 R5 (R6 & R7 & R8) R9 R10 (s & R11 & R12) R13 R14 R15].
  destruct (bd_geometry b R4) as (G1 & G2 & G3 & G4). unfold devfs_write.
  rewrite (proj2 (Z.eqb_neq buf 0)) by lia. rewrite R1, R2. cbn [Z.eqb negb]. bind.
  destruct (clip_end (size dn) off len R6 R7 R8 ltac:(nia)) as [Hz He]. fold n in Hz, He, R13, R14.
  rewrite Hz. assert (Hn0 : 0 <= n) by (unfold n, clipped; lia).
  destruct (Z.eqb_spec n 0) as [En|Hne].
  { exists h, m. rewrite En. split_and!; [done|exact R10|done|done|apply xfer_0]. }
  assert (Hn : 0 < n) by lia. rewrite (He Hn). clear Hz He.
  pose proof (clipped_bounds _ _ _ _ _ _ _ Hr Hn) as Hend. fold n in Hend. rewrite R3 in *.
  destruct (write_range_spec b R4 R5 m off n buf bs _ _ s R6 Hn Hend R9 R13 R14 R15 R11 R12 Hw h)
    as (h' & m' & E & H & X); [done|]. exists h', m'. split_and!; [exact E|apply H|apply H|apply H|exact X].
Qed.

(** A write to a writable device file returns the number of requested
    bytes that lie inside the device and replaces exactly these bytes of the
    device by those of the buffer, at any alignment: the bytes around them,
    also those in the same sectors, keep their values; every bounce buffer is
    given back. *)
Theorem devfs_write_correct dn b off len buf h m bs :
  request dn b off len buf h bs -> bd_writable b ->
  let n := clipped (size dn) off len in
  exists h' m', devfs_write (Some dn) off buf len (h, m) = Some (s32 n, (h', m')) /\
    KmallocSpec.inv h' bs /\ Kmalloc.g_heap_base h' = Kmalloc.g_heap_base h /\
    Kmalloc.g_heap_size h' = Kmalloc.g_heap_size h /\
    xfer m (Kmalloc.g_heap_base h) (Kmalloc.g_heap_size h) (bd_base b + off) buf n m'.
Proof. apply devfs_write_spec. Qed.

End props.

(** ** Instances

    A request that starts inside the first sector of the demonstration
    partition and ends inside the second. *)

Definition demo_node : devfs_node Block.device := Node 0 [] 1536 (Some BlockProps.demo_part).

Lemma demo_request :
  request demo_node BlockProps.demo_part 100 600 0x20000 (Block.heap BlockProps.demo_blk)
    [(0x400 - 32, true)].
Proof.
  constructor; try done.
  - exact BlockProps.demo_heap.
  - exists (0x400 - 32). split; [left|done].
  - right. done.
  - right. done.
  - right. done.
Qed.

Lemma devfs_read_correct_witness :
  exists h' m', devfs_read (Some demo_node) 100 0x20000 600
      (Block.heap BlockProps.demo_blk, BlockProps.demo_disk) = Some (600, (h', m')) /\
    rd8 m' 0x20000 = rd8 BlockProps.demo_disk (0x8200 + 100).
Proof.
  destruct (devfs_read_correct demo_node BlockProps.demo_part 100 600 0x20000 _
    BlockProps.demo_disk _ demo_request) as (h' & m' & E & _ & _ & _ & X).
  exists h', m'. split; [exact E|]. refine (X 0x20000 _). cbn. lia.
Defined.

Lemma devfs_write_correct_witness :
  exists h' m', devfs_write (Some demo_node) 100 0x20000 600
      (Block.heap BlockProps.demo_blk, BlockProps.demo_disk) = Some (600, (h', m')) /\
    rd8 m' (0x8200 + 699) = rd8 BlockProps.demo_disk (0x20000 + 599).
Proof.
  destruct (devfs_write_correct demo_node BlockProps.demo_part 100 600 0x20000 _
    BlockProps.demo_disk _ demo_request) as (h' & m' & E & _ & _ & _ & X); [cbn; lia|].
  exists h', m'. split; [exact E|]. refine (X (0x8200 + 699) _). cbn. lia.
Defined.

End DevfsProps.
