(* ===== verification/Exfat.v ===== *)
(** * exFAT file system ([src/kernel64/fs/exfat.c])

    Files in the root directory of a volume, as chains of clusters linked
    through the FAT.  Memory, the heap and the disk are those of the block
    layer; [sp] is the address of the local sector buffer of a function.  An
    undefined shift or division, and an access outside that buffer, has no
    result. *)

From S2P Require Import Prelude Kmalloc Mem Block BlockSpec.

Module Exfat.

(** A directory entry as [dir_scan_root] reads it. *)
Record exfat_dirent := MkDirent {
  de_first_cluster : Z;
  de_size : Z;
  de_is_dir : Z;
  de_name : list Z
}.

Inductive message := MountEnter | NeedSectors512 | MountExit | MkfsEnter | MkfsExit.

Definition EOC : Z := 0xFFFFFFFF.
Definition fat_is_eoc (v : Z) : bool := v =? EOC.

Definition sizeof_exfat_fs : Z := 40.
Definition sizeof_exfat_node : Z := 24.
Definition sizeof_vfs_node : Z := 24.

(** A path is NULL or a string; '/' is 47. *)
Definition path_is_root (sub : option (list Z)) : bool :=
  match sub with
  | None => true
  | Some [] => true
  | Some [c] => c =? 47
  | Some _ => false
  end.

Definition strip_slash (p : list Z) : list Z :=
  match p with
  | c :: r => if c =? 47 then r else p
  | [] => []
  end.

(** ** Directory entries in memory

    A directory of [csz] bytes at [buf]; entries have 32 bytes. *)

(** The 15 characters of a name entry at [e], as far as [name] has room for
    63; those beyond ASCII become '?'. *)
Definition name_chars (m : mem) (e : Z) (name : list Z) : list Z :=
  fold_left (fun name k =>
    if Z.of_nat (length name) <? 63 then
      let c := rd16 m (e + 2 + k * 2) in
      if c =? 0 then name else name ++ [if c <? 128 then c else 63]
    else name) (seqZ 0 15) name.

Fixpoint name_entries (fuel : nat) (m : mem) (buf csz j : Z) (name : list Z) : option (Z * list Z) :=
  match fuel with
  | O => None
  | S fuel' =>
      if (j + 32 <=? csz) && (rd8 m (buf + j) =? 0xC1)
      then name_entries fuel' m buf csz (j + 32) (name_chars m (buf + j) name)
      else Some (j, name)
  end.

(** More entries than a directory has. *)
Definition dir_fuel (csz : Z) : nat := S (Z.to_nat csz).

(** The file whose primary entry is at [i], and the end of its entries. *)
Definition file_entry (m : mem) (buf csz i : Z) : option (exfat_dirent * Z) :=
  let attr := rd16 m (buf + i + 4) in
  let is_dir := if Z.land attr 0x10 =? 0 then 0 else 1 in
  let j := i + 32 in
  let stream := (j + 32 <=? csz) && (rd8 m (buf + j) =? 0xC0) in
  let first_cl := if stream then rd32 m (buf + j + 20) else 0 in
  let size := if stream then rd64 m (buf + j + 24) else 0 in
  '(j, name) ← name_entries (dir_fuel csz) m buf csz (if stream then j + 32 else j) [];
  Some (MkDirent first_cl size is_dir name, j).

Fixpoint scan_dir (fuel : nat) (m : mem) (buf csz max_ents i : Z) (ents : list exfat_dirent)
    : option (list exfat_dirent) :=
  match fuel with
  | O => None
  | S fuel' =>
      if i + 32 <=? csz then
        let et := rd8 m (buf + i) in
        if et =? 0 then Some ents
        else if Z.land et 0x7F =? 0x05 then
          '(e, j) ← file_entry m buf csz i;
          scan_dir fuel' m buf csz max_ents j
            (if Z.of_nat (length ents) <? max_ents then ents ++ [e] else ents)
        else scan_dir fuel' m buf csz max_ents (i + 32) ents
      else Some ents
  end.

Definition find_entry (q : list Z) (ents : list exfat_dirent) : option exfat_dirent :=
  find (fun e => bool_decide (q = de_name e)) ents.

(** The primary entry whose stream entry has first cluster [old_first]. *)
Fixpoint find_stream (fuel : nat) (m : mem) (buf csz old_first i : Z) : option (option Z) :=
  match fuel with
  | O => None
  | S fuel' =>
      if (i + 64 <=? csz) && negb (rd8 m (buf + i) =? 0) then
        if (Z.land (rd8 m (buf + i)) 0x7F =? 0x05) && (rd8 m (buf + i + 32) =? 0xC0)
           && (rd32 m (buf + i + 32 + 20) =? old_first)
        then Some (Some i)
        else find_stream fuel' m buf csz old_first (i + 32)
      else Some None
  end.

(** The first unused entry. *)
Fixpoint find_end (fuel : nat) (m : mem) (buf csz di : Z) : option Z :=
  match fuel with
  | O => None
  | S fuel' =>
      if (di + 32 <=? csz) && negb (rd8 m (buf + di) =? 0) then find_end fuel' m buf csz (di + 32)
      else Some di
  end.

(** [for (z = 0; z < 32; ++z) p[z] = 0] *)
Definition zero_entry (m : mem) (a : Z) : mem := Mem.fill 32 0 m a 0.

Definition put_primary (m : mem) (a total_secs : Z) : mem :=
  wr16 (wr8 (wr8 (zero_entry m a) a 0x85) (a + 1) total_secs) (a + 4) 0x20.

Definition put_stream (m : mem) (a name_len cl : Z) : mem :=
  wr64 (wr32 (wr8 (wr8 (zero_entry m a) a 0xC0) (a + 3) name_len) (a + 20) cl) (a + 24) 0.

(** Name entry [e] at [a]: characters [15 e .. 15 e + 15) of the name. *)
Definition put_name (m : mem) (a : Z) (q : list Z) (e : Z) : mem :=
  fold_left (fun m k => wr16 m (a + 2 + k * 2) (nth (Z.to_nat (e * 15 + k)) q 0)) (seqZ 0 15)
    (wr8 (zero_entry m a) a 0xC1).

Definition put_names (m : mem) (a : Z) (q : list Z) (n : Z) : mem :=
  fold_left (fun m e => put_name m (a + e * 32) q e) (seqZ 0 n) m.

(** Name entries for a name of [n] characters. *)
Definition name_count (n : Z) : Z := (n + 14) / 15.

(** The end of the entries of file [q] at [di]. *)
Definition endpos (di : Z) (q : list Z) : Z := di + (2 + name_count (Z.of_nat (length q))) * 32.

(** The entries of a new file [q] with first cluster [cl] at [di], and the end
    marker behind them. *)
Definition put_file (m : mem) (dir csz di : Z) (q : list Z) (cl : Z) : mem :=
  let name_len := Z.of_nat (length q) in
  let m := put_primary m (dir + di) (1 + name_count name_len) in
  let m := put_stream m (dir + di + 32) name_len cl in
  let m := put_names m (dir + di + 64) q (name_count name_len) in
  if endpos di q <? csz then wr8 m (dir + endpos di q) 0 else m.

(** The comparison name of [exfat_unlink]: an entry ends at its first 0. *)
Fixpoint unlink_chars (n : nat) (m : mem) (e k : Z) (name : list Z) : list Z :=
  match n with
  | O => name
  | S n' =>
      if Z.of_nat (length name) <? 63 then
        let c := rd16 m (e + 2 + k * 2) in
        if c =? 0 then name
        else unlink_chars n' m e (k + 1) (name ++ [if c <? 128 then c else 63])
      else name
  end.

Fixpoint unlink_name (fuel : nat) (m : mem) (buf csz j : Z) (name : list Z) : option (Z * list Z) :=
  match fuel with
  | O => None
  | S fuel' =>
      if (j + 32 <=? csz) && (rd8 m (buf + j) =? 0xC1)
      then unlink_name fuel' m buf csz (j + 32) (unlink_chars 15 m (buf + j) 0 name)
      else Some (j, name)
  end.

(** The entries [i .. j) of the file named [q]. *)
Fixpoint find_name (fuel : nat) (m : mem) (buf csz : Z) (q : list Z) (i : Z)
    : option (option (Z * Z)) :=
  match fuel with
  | O => None
  | S fuel' =>
      if (i + 32 <=? csz) && negb (rd8 m (buf + i) =? 0) then
        if (Z.land (rd8 m (buf + i)) 0x7F =? 0x05) && (i + 64 <=? csz) && (rd8 m (buf + i + 32) =? 0xC0)
        then
          '(j, name) ← unlink_name (dir_fuel csz) m buf csz (i + 64) [];
          if bool_decide (q = name) then Some (Some (i, j))
          else find_name fuel' m buf csz q (i + 32)
        else find_name fuel' m buf csz q (i + 32)
      else Some None
  end.

(** ** The volume *)

Section volume.
Context {D : Type} `{BD : BlockDev D}.

(** The kernel heap and memory. *)
Abbreviation io := (Kmalloc.kheap * mem)%type.

Record exfat_fs := MkFs {
  bdev : D;
  fat_offset : Z;
  fat_length : Z;
  cluster_heap_off : Z;
  bytes_per_sector : Z;
  sectors_per_cluster : Z;
  cluster_size : Z;
  root_dir_cluster : Z
}.

Record exfat_node := MkNode { fs : exfat_fs; first_cluster : Z; is_dir : Z; size : Z }.

(** "EXFAT   " at offset 3 of the boot sector. *)
Definition is_vbr (m : mem) (vbr : Z) : bool :=
  bool_decide (map (fun k => rd8 m (vbr + k)) (seqZ 3 8) = [69; 88; 70; 65; 84; 32; 32; 32]).

(** The volume the boot sector describes. *)
Definition vbr_fs (b : D) (m : mem) (vbr : Z) : option exfat_fs :=
  let bps_shift := rd8 m (vbr + 0x6C) in
  let spc := rd8 m (vbr + 0x6D) in
  if 32 <=? bps_shift then None
  else
    let bps := u32 (Z.shiftl 1 bps_shift) in
    Some (MkFs b (rd32 m (vbr + 0x80)) (rd32 m (vbr + 0x84)) (rd32 m (vbr + 0x88)) bps spc
            (u32 (bps * spc)) (rd32 m (vbr + 0xA0))).

(** The volume assumed without one. *)
Definition default_fs (b : D) : exfat_fs := MkFs b 128 1024 1152 512 1 512 2.

Definition exfat_mount (sp : Z) (b : D) (out_priv : Z) (s : io)
    : option (Z * option exfat_fs * io * list message) :=
  if out_priv =? 0 then Some (-1, None, s, [MountEnter])
  else if negb (bd_sector_size b =? 512) then Some (-1, None, s, [MountEnter; NeedSectors512])
  else
    '(p, h) ← Kmalloc.kmalloc s.1 sizeof_exfat_fs;
    if p =? 0 then Some (-1, None, (h, s.2), [MountEnter])
    else
      let '(r, m) := bd_read b 0 sp 1 s.2 in
      f ← (if (r =? 1) && is_vbr m sp then vbr_fs b m sp else Some (default_fs b));
      Some (0, Some f, (h, m), [MountEnter; MountExit]).

Definition exfat_umount (f : exfat_fs) (s : io) : io := s.

Definition cl_to_lba (f : exfat_fs) (cl : Z) : Z :=
  u32 (cluster_heap_off f + u32 (u32 (cl - 2) * sectors_per_cluster f)).

Definition read_cluster (f : exfat_fs) (cl buf : Z) (m : mem) : Z * mem :=
  let '(r, m) := bd_read (bdev f) (cl_to_lba f cl) buf (sectors_per_cluster f) m in
  (if r =? s32 (sectors_per_cluster f) then 0 else -1, m).

Definition write_cluster (f : exfat_fs) (cl buf : Z) (m : mem) : Z * mem :=
  let '(r, m) := bd_write (bdev f) (cl_to_lba f cl) buf (sectors_per_cluster f) m in
  (if r =? s32 (sectors_per_cluster f) then 0 else -1, m).

(** Sector and offset of a FAT entry. *)
Definition fat_sector (f : exfat_fs) (cl : Z) : Z :=
  u32 (fat_offset f + u32 (cl * 4) / bytes_per_sector f).
Definition fat_off (f : exfat_fs) (cl : Z) : Z := u32 (cl * 4) mod bytes_per_sector f.

Definition fat_get (sp : Z) (f : exfat_fs) (cl : Z) (m : mem) : option (Z * mem) :=
  if bytes_per_sector f =? 0 then None
  else
    let '(r, m) := bd_read (bdev f) (fat_sector f cl) sp 1 m in
    if r <? 1 then Some (0, m)
    else if fat_off f cl + 4 <=? 512 then Some (rd32 m (sp + fat_off f cl), m) else None.

Definition fat_set (sp : Z) (f : exfat_fs) (cl val : Z) (m : mem) : option (Z * mem) :=
  if bytes_per_sector f =? 0 then None
  else
    let '(r, m) := bd_read (bdev f) (fat_sector f cl) sp 1 m in
    if r <? 1 then Some (-1, m)
    else if fat_off f cl + 4 <=? 512 then
      let m := wr32 m (sp + fat_off f cl) val in
      let '(r, m) := bd_write (bdev f) (fat_sector f cl) sp 1 m in
      Some (if r =? 1 then 0 else -1, m)
    else None.

(** ** Lookup *)

Definition dir_scan_root (f : exfat_fs) (max_ents : Z) (s : io) : option (list exfat_dirent * io) :=
  '(clbuf, h) ← Kmalloc.kmalloc s.1 (cluster_size f);
  if clbuf =? 0 then Some ([], (h, s.2))
  else
    let '(rc, m) := read_cluster f (root_dir_cluster f) clbuf s.2 in
    if negb (rc =? 0) then h ← Kmalloc.kfree h clbuf; Some ([], (h, m))
    else
      let csz := s32 (cluster_size f) in
      ents ← scan_dir (dir_fuel csz) m clbuf csz max_ents 0 [];
      h ← Kmalloc.kfree h clbuf;
      Some (ents, (h, m)).

Definition exfat_open (f : exfat_fs) (path : option (list Z)) (s : io)
    : option (option exfat_node * io) :=
  '(n, h) ← Kmalloc.kmalloc s.1 sizeof_exfat_node;
  if n =? 0 then Some (None, (h, s.2))
  else
    '(vn, h) ← Kmalloc.kmalloc h sizeof_vfs_node;
    if vn =? 0 then h ← Kmalloc.kfree h n; Some (None, (h, s.2))
    else if path_is_root path then Some (Some (MkNode f (root_dir_cluster f) 1 0), (h, s.2))
    else
      let q := strip_slash (default [] path) in
      '(ents, s) ← dir_scan_root f 32 (h, s.2);
      match find_entry q ents with
      | Some e => Some (Some (MkNode f (de_first_cluster e) (de_is_dir e) (de_size e)), s)
      | None =>
          h ← Kmalloc.kfree s.1 n;
          h ← Kmalloc.kfree h vn;
          Some (None, (h, s.2))
      end.

(** Result, and the size and directory flag it stores. *)
Definition exfat_stat (f : exfat_fs) (path : option (list Z)) (s : io)
    : option (Z * option (Z * Z) * io) :=
  if path_is_root path then Some (0, Some (0, 1), s)
  else
    let q := strip_slash (default [] path) in
    '(ents, s) ← dir_scan_root f 32 s;
    match find_entry q ents with
    | Some e => Some (0, Some (de_size e, de_is_dir e), s)
    | None => Some (-1, None, s)
    end.

(** Result, and the bytes stored before the NUL, if any are. *)
Definition exfat_readdir (n : option exfat_node) (idx name_out maxlen : Z) : Z * option (list Z) :=
  match n with
  | None => (-1, None)
  | Some en =>
      if (name_out =? 0) || (maxlen =? 0) then (-1, None)
      else if is_dir en =? 0 then (0, Some [])
      else if idx =? 0 then (1, if 1 <? maxlen then Some [46] else None)
      else (0, Some [])
  end.

(** ** Reading *)

(** Follow the chain for [n] clusters, or to its end. *)
Fixpoint skip_chain (n : nat) (sp : Z) (f : exfat_fs) (cl : Z) (m : mem) : option (Z * mem) :=
  match n with
  | O => Some (cl, m)
  | S n' =>
      '(next, m) ← fat_get sp f cl m;
      if (next =? EOC) || (next =? 0) then Some (cl, m) else skip_chain n' sp f next m
  end.

(** The result is the number of bytes copied. *)
Fixpoint read_loop (fuel : nat) (sp : Z) (f : exfat_fs) (out len cl skip done : Z) (s : io)
    : option (Z * io) :=
  match fuel with
  | O => None
  | S fuel' =>
      if (done <? len) && (2 <=? cl) then
        '(tmp, h) ← Kmalloc.kmalloc s.1 (cluster_size f);
        if tmp =? 0 then Some (done, (h, s.2))
        else
          let '(rc, m) := read_cluster f cl tmp s.2 in
          if negb (rc =? 0) then h ← Kmalloc.kfree h tmp; Some (done, (h, m))
          else
            let avail := (cluster_size f - skip)%u64 in
            let take := if (len - done)%u64 <? avail then (len - done)%u64 else avail in
            let m := Mem.copy_up (Z.to_nat take) 0 m (out + done) (tmp + skip) in
            let done := (done + take)%u64 in
            h ← Kmalloc.kfree h tmp;
            if len <=? done then Some (done, (h, m))
            else
              '(next, m) ← fat_get sp f cl m;
              if (next =? 0) || (next =? EOC) then Some (done, (h, m))
              else read_loop fuel' sp f out len next 0 done (h, m)
      else Some (done, s)
  end.

(** More iterations than a transfer of [n] bytes can make: each copies one. *)
Definition loop_fuel (n : Z) : nat := S (Z.to_nat n).

Definition exfat_read (sp : Z) (n : option exfat_node) (off buf len : Z) (s : io)
    : option (Z * io) :=
  match n with
  | None => Some (-1, s)
  | Some en =>
      if buf =? 0 then Some (-1, s)
      else if negb (is_dir en =? 0) then Some (-1, s)
      else if size en <=? off then Some (0, s)
      else
        let remaining := (size en - off)%u64 in
        let len := if remaining <? len then remaining else len in
        let f := fs en in
        if cluster_size f =? 0 then None
        else
          '(cl, m) ← skip_chain (Z.to_nat (off / cluster_size f)) sp f (first_cluster en) s.2;
          '(done, s) ← read_loop (loop_fuel len) sp f buf len cl (off mod cluster_size f) 0 (s.1, m);
          Some (s32 done, s)
  end.

(** ** Writing *)

(** The loop of [fat_alloc] over the [n] clusters from [cl] on; 0 if none is
    free or the disk or the heap fails. *)
Fixpoint alloc_scan (n : nat) (sp : Z) (f : exfat_fs) (cl : Z) (s : io) : option (Z * io) :=
  match n with
  | O => Some (0, s)
  | S n' =>
      '(v, m) ← fat_get sp f cl s.2;
      if v =? 0 then
        '(rc, m) ← fat_set sp f cl EOC m;
        if negb (rc =? 0) then Some (0, (s.1, m))
        else
          '(zero, h) ← Kmalloc.kmalloc s.1 (cluster_size f);
          if zero =? 0 then Some (0, (h, m))
          else
            let m := Mem.fill (Z.to_nat (cluster_size f)) 0 m zero 0 in
            let '(_, m) := write_cluster f cl zero m in
            h ← Kmalloc.kfree h zero;
            Some (cl, (h, m))
      else alloc_scan n' sp f (cl + 1) (s.1, m)
  end.

Definition fat_alloc (sp : Z) (f : exfat_fs) (s : io) : option (Z * io) :=
  let entries := u32 (fat_length f * bytes_per_sector f) / 4 in
  alloc_scan (Z.to_nat (entries - 2)) sp f 2 s.

Definition dir_update_stream_by_first_cluster (f : exfat_fs) (old_first new_first new_size : Z)
    (s : io) : option (Z * io) :=
  '(dir, h) ← Kmalloc.kmalloc s.1 (cluster_size f);
  if dir =? 0 then Some (-1, (h, s.2))
  else
    let '(rc, m) := read_cluster f (root_dir_cluster f) dir s.2 in
    if negb (rc =? 0) then h ← Kmalloc.kfree h dir; Some (-1, (h, m))
    else
      let csz := s32 (cluster_size f) in
      r ← find_stream (dir_fuel csz) m dir csz old_first 0;
      match r with
      | None => h ← Kmalloc.kfree h dir; Some (-1, (h, m))
      | Some i =>
          let ste := dir + i + 32 in
          let m := if (2 <=? new_first) && negb (new_first =? rd32 m (ste + 20))
                   then wr32 m (ste + 20) new_first else m in
          let m := wr64 m (ste + 24) new_size in
          let '(rc, m) := write_cluster f (root_dir_cluster f) dir m in
          h ← Kmalloc.kfree h dir;
          Some (rc, (h, m))
      end.

(** Last cluster and length of the chain from [cur]; no result within [fuel]
    if the chain is a cycle. *)
Fixpoint chain_end (fuel : nat) (sp : Z) (f : exfat_fs) (cur count : Z) (m : mem)
    : option (Z * Z * mem) :=
  match fuel with
  | O => None
  | S fuel' =>
      '(next, m) ← fat_get sp f cur m;
      if negb (fat_is_eoc next) && negb (next =? 0)
      then chain_end fuel' sp f next (count + 1) m
      else Some (cur, count, m)
  end.

(** Append [n] clusters; 0 if the volume is full. *)
Fixpoint extend (n : nat) (sp : Z) (f : exfat_fs) (cur : Z) (s : io) : option (Z * io) :=
  match n with
  | O => Some (cur, s)
  | S n' =>
      '(ncl, s) ← fat_alloc sp f s;
      if ncl =? 0 then Some (0, s)
      else
        '(_, m) ← fat_set sp f cur ncl s.2;
        '(_, m) ← fat_set sp f ncl EOC m;
        extend n' sp f ncl (s.1, m)
  end.

(** Last cluster (0 on failure), first cluster. *)
Definition ensure_chain_length (fuel : nat) (sp : Z) (f : exfat_fs) (first needed : Z) (s : io)
    : option (Z * Z * io) :=
  '(first, s, ok) ←
    (if first <? 2 then
       '(cl, s) ← fat_alloc sp f s;
       Some (if cl =? 0 then first else cl, s, negb (cl =? 0))
     else Some (first, s, true));
  if negb (ok : bool) then Some (0, first, s)
  else
    '(cur, count, m) ← chain_end fuel sp f first 1 s.2;
    '(cur, s) ← extend (Z.to_nat (needed - count)) sp f cur (s.1, m);
    Some (cur, first, s).

(** The next cluster of the chain, a new one at its end; 0 if there is none. *)
Definition next_or_new (sp : Z) (f : exfat_fs) (cl : Z) (s : io) : option (Z * io) :=
  '(nxt, m) ← fat_get sp f cl s.2;
  if fat_is_eoc nxt || (nxt =? 0) then
    '(ncl, s) ← fat_alloc sp f (s.1, m);
    if ncl =? 0 then Some (0, s)
    else
      '(_, m) ← fat_set sp f cl ncl s.2;
      '(_, m) ← fat_set sp f ncl EOC m;
      Some (ncl, (s.1, m))
  else Some (nxt, (s.1, m)).

Fixpoint walk_or_new (n : nat) (sp : Z) (f : exfat_fs) (cl : Z) (s : io) : option (option Z * io) :=
  match n with
  | O => Some (Some cl, s)
  | S n' =>
      '(cl, s) ← next_or_new sp f cl s;
      if cl =? 0 then Some (None, s) else walk_or_new n' sp f cl s
  end.

(** [true] if all [len] bytes are written. *)
Fixpoint write_loop (fuel : nat) (sp : Z) (f : exfat_fs) (inp len cl skip done : Z) (s : io)
    : option (bool * io) :=
  match fuel with
  | O => None
  | S fuel' =>
      if done <? len then
        '(tmp, h) ← Kmalloc.kmalloc s.1 (cluster_size f);
        if tmp =? 0 then Some (false, (h, s.2))
        else
          let '(rc, m) := read_cluster f cl tmp s.2 in
          if negb (rc =? 0) then h ← Kmalloc.kfree h tmp; Some (false, (h, m))
          else
            let avail := (cluster_size f - skip)%u64 in
            let take := if (len - done)%u64 <? avail then (len - done)%u64 else avail in
            let m := Mem.copy_up (Z.to_nat take) 0 m (tmp + skip) (inp + done) in
            let '(rc, m) := write_cluster f cl tmp m in
            if negb (rc =? 0) then h ← Kmalloc.kfree h tmp; Some (false, (h, m))
            else
              h ← Kmalloc.kfree h tmp;
              let done := (done + take)%u64 in
              if len <=? done then Some (true, (h, m))
              else
                '(nxt, s) ← next_or_new sp f cl (h, m);
                if nxt =? 0 then Some (false, s)
                else write_loop fuel' sp f inp len nxt 0 done s
      else Some (true, s)
  end.

(** Result and the node, whose first cluster and size may change; [fuel]
    bounds the length of the existing chain. *)
Definition exfat_write (fuel : nat) (sp : Z) (n : option exfat_node) (off buf len : Z) (s : io)
    : option (Z * option exfat_node * io) :=
  match n with
  | None => Some (-1, n, s)
  | Some en =>
      if buf =? 0 then Some (-1, n, s)
      else if negb (is_dir en =? 0) then Some (-1, n, s)
      else if len =? 0 then Some (0, n, s)
      else
        let f := fs en in
        let csz := cluster_size f in
        let end_pos := (off + len)%u64 in
        if csz =? 0 then None
        else
          let needed := ((end_pos + csz)%u64 - 1)%u64 / csz in
          let old_first := first_cluster en in
          '(last, first, s) ← ensure_chain_length fuel sp f old_first needed s;
          let en := MkNode f first (is_dir en) (size en) in
          if last =? 0 then Some (-1, Some en, s)
          else
            '(cl, s) ← walk_or_new (Z.to_nat (off / csz)) sp f first s;
            match cl with
            | None => Some (-1, Some en, s)
            | Some cl =>
                '(ok, s) ← write_loop (loop_fuel len) sp f buf len cl (off mod csz) 0 s;
                if negb (ok : bool) then Some (-1, Some en, s)
                else
                  let en := MkNode f first (is_dir en)
                              (if size en <? end_pos then end_pos else size en) in
                  '(_, s) ← dir_update_stream_by_first_cluster f
                              (if negb (old_first =? 0) then old_first else first) first (size en) s;
                  Some (s32 len, Some en, s)
            end
  end.

(** ** Creating and removing files *)

Definition exfat_create (sp : Z) (f : exfat_fs) (path : option (list Z)) (s : io) : option (Z * io) :=
  match path with
  | None => Some (-1, s)
  | Some p =>
      let q := strip_slash p in
      match q with
      | [] => Some (-1, s)
      | _ =>
          '(dir, h) ← Kmalloc.kmalloc s.1 (cluster_size f);
          if dir =? 0 then Some (-1, (h, s.2))
          else
            let '(rc, m) := read_cluster f (root_dir_cluster f) dir s.2 in
            if negb (rc =? 0) then h ← Kmalloc.kfree h dir; Some (-1, (h, m))
            else
              let csz := s32 (cluster_size f) in
              di ← find_end (dir_fuel csz) m dir csz 0;
              if csz <? endpos di q then h ← Kmalloc.kfree h dir; Some (-1, (h, m))
              else
                '(cl, s) ← fat_alloc sp f (h, m);
                if cl =? 0 then h ← Kmalloc.kfree s.1 dir; Some (-1, (h, s.2))
                else
                  let m := put_file s.2 dir csz di q cl in
                  let '(rc, m) := write_cluster f (root_dir_cluster f) dir m in
                  h ← Kmalloc.kfree s.1 dir;
                  Some (rc, (h, m))
      end
  end.

(** Free the chain from [cl]. *)
Fixpoint free_chain (fuel : nat) (sp : Z) (f : exfat_fs) (cl : Z) (m : mem) : option mem :=
  match fuel with
  | O => None
  | S fuel' =>
      if 2 <=? cl then
        '(next, m) ← fat_get sp f cl m;
        '(_, m) ← fat_set sp f cl 0 m;
        if (next =? 0) || (next =? EOC) then Some m else free_chain fuel' sp f next m
      else Some m
  end.

Definition exfat_unlink (fuel : nat) (sp : Z) (f : exfat_fs) (path : list Z) (s : io)
    : option (Z * io) :=
  let q := strip_slash path in
  match q with
  | [] => Some (-1, s)
  | _ =>
      '(dir, h) ← Kmalloc.kmalloc s.1 (cluster_size f);
      if dir =? 0 then Some (-1, (h, s.2))
      else
        let '(rc, m) := read_cluster f (root_dir_cluster f) dir s.2 in
        if negb (rc =? 0) then h ← Kmalloc.kfree h dir; Some (-1, (h, m))
        else
          let csz := s32 (cluster_size f) in
          r ← find_name (dir_fuel csz) m dir csz q 0;
          match r with
          | None => h ← Kmalloc.kfree h dir; Some (-1, (h, m))
          | Some (i, j) =>
              m ← free_chain fuel sp f (rd32 m (dir + i + 32 + 20)) m;
              let m := wr8 (Mem.fill (Z.to_nat (j - i)) 0 m (dir + i) 0) (dir + i) 0 in
              let '(rc, m) := write_cluster f (root_dir_cluster f) dir m in
              h ← Kmalloc.kfree h dir;
              Some (rc, (h, m))
          end
  end.

(** The "mkfs" writes nothing. *)
Definition exfat_format_device (s : io) : Z * io * list message := (0, s, [MkfsEnter; MkfsExit]).

End volume.

Arguments exfat_fs D : clear implicits.
Arguments exfat_node D : clear implicits.

End Exfat.
