(* ===== verification/ExfatSpec.v ===== *)
(** * Correctness of exFAT: reading and allocation

    The FAT and the clusters are areas of the device window.  A file is a chain
    of clusters; a read returns the bytes of the chain, whatever the offset. *)

From S2P Require Import Prelude Kmalloc KmallocSpec KmallocProps Mem Block BlockSpec.
From S2P Require Import Devfs DevfsSpec Exfat.

Module ExfatSpec.

Import Exfat DevfsSpec.

(** ** Volumes *)

(** The window of the device. *)
Abbreviation win f := (bd_base (bdev f)).
Abbreviation wlen f := (bd_sector_count (bdev f) * 512).

Section volume.
Context {D : Type} `{BD : BlockDev D}.

(** A volume with sectors of 512 bytes whose FAT and clusters lie, in this
    order, on its device. *)
Record vol_ok (f : exfat_fs D) : Prop := VolOk {
  vo_dev : bd_ok (bdev f);
  vo_sec : bd_sector_size (bdev f) = 512;
  vo_count : bd_sector_count (bdev f) < 2^30;
  vo_bps : bytes_per_sector f = 512;
  vo_spc : 0 < sectors_per_cluster f < 2^8;
  vo_csz : cluster_size f = 512 * sectors_per_cluster f;
  vo_fat : 0 <= fat_offset f /\ 0 <= fat_length f /\
           fat_offset f + fat_length f <= cluster_heap_off f <= bd_sector_count (bdev f)
}.

(** A cluster with a FAT entry and sectors on the device. *)
Definition valid (f : exfat_fs D) (cl : Z) : Prop :=
  2 <= cl < fat_length f * 128 /\
  cluster_heap_off f + (cl - 1) * sectors_per_cluster f <= bd_sector_count (bdev f).

Definition fat_addr (f : exfat_fs D) (cl : Z) : Z :=
  bd_base (bdev f) + fat_offset f * 512 + 4 * cl.
Definition cl_addr (f : exfat_fs D) (cl : Z) : Z :=
  bd_base (bdev f) + (cluster_heap_off f + (cl - 2) * sectors_per_cluster f) * 512.

(** The FAT entry of a cluster, and a byte of it. *)
Definition fatv (f : exfat_fs D) (m : mem) (cl : Z) : Z := rd32 m (fat_addr f cl).
Definition cbyte (f : exfat_fs D) (m : mem) (cl i : Z) : Z := rd8 m (cl_addr f cl + i).

(** A scan that finds a cluster finds it in a longer scan too. *)
Lemma alloc_scan_more f sp n k : forall cl s c s', c <> 0 ->
  alloc_scan n sp f cl s = Some (c, s') -> alloc_scan (n + k) sp f cl s = Some (c, s').
Proof.
  induction n as [|n IH]; intros cl s c s' Hc H; cbn [alloc_scan Nat.add] in *; [congruence|].
  destruct (fat_get sp f cl s.2) as [[v m]|]; [|done]. cbn [mbind option_bind] in *.
  destruct (v =? 0); [exact H|]. by apply IH.
Qed.

Context (f : exfat_fs D) (Hf : vol_ok f).

Lemma vol_window : 0 < win f /\ win f + wlen f < 2^63.
Proof.
  destruct Hf. destruct (bd_geometry _ vo_dev0) as (_ & _ & H1 & H2). rewrite vo_sec0 in H2. lia.
Qed.

Lemma fat_addr_in cl : valid f cl ->
  win f <= fat_addr f cl /\ fat_addr f cl + 4 <= win f + wlen f /\
  fat_addr f cl + 4 <= win f + cluster_heap_off f * 512.
Proof. intros [Hc _]. destruct Hf. unfold fat_addr. lia. Qed.

Lemma cl_addr_in cl : valid f cl ->
  win f + cluster_heap_off f * 512 <= cl_addr f cl /\
  cl_addr f cl + cluster_size f <= win f + wlen f.
Proof. intros [Hc H]. destruct Hf. unfold cl_addr. rewrite vo_csz0. nia. Qed.

(** The arithmetic of the code does not wrap. *)
Lemma lba_ok cl : valid f cl ->
  cl_to_lba f cl = cluster_heap_off f + (cl - 2) * sectors_per_cluster f.
Proof.
  intros [Hc H]. destruct Hf. unfold cl_to_lba.
  assert (0 <= (cl - 2) * sectors_per_cluster f < 2^30) by nia.
  assert (cl - 2 <= (cl - 2) * sectors_per_cluster f) by nia.
  rewrite (u32_small (cl - 2)) by lia. rewrite (u32_small (_ * _)) by lia. apply u32_small. lia.
Qed.

Lemma fat_place cl : valid f cl ->
  fat_sector f cl = fat_offset f + cl / 128 /\ fat_off f cl = 4 * (cl mod 128) /\
  0 <= fat_sector f cl /\ fat_sector f cl < bd_sector_count (bdev f) /\
  win f + fat_sector f cl * 512 + fat_off f cl = fat_addr f cl.
Proof.
  intros [Hc H]. destruct Hf. unfold fat_sector, fat_off, fat_addr. rewrite vo_bps0.
  assert (cl - 1 <= (cl - 1) * sectors_per_cluster f) by nia.
  rewrite (u32_small (cl * 4)) by lia.
  assert (E : cl * 4 / 512 = cl / 128) by zmod. assert (E2 : (cl * 4) mod 512 = 4 * (cl mod 128)) by zmod.
  assert (0 <= cl / 128 < fat_length f) by zmod. rewrite E, E2.
  rewrite u32_small by lia. split; [done|]. split; [done|]. split; [lia|]. split; [lia|]. zmod.
Qed.

(** ** Sector and cluster transfers *)

(** [m'] is [m] with [n] bytes from [s] at [d]. *)
Definition copied (m m' : mem) (d s n : Z) : Prop :=
  forall a, rd8 m' a = if inb d n a then rd8 m (s + (a - d)) else rd8 m a.

Lemma read_cluster_spec cl buf m : valid f cl -> 0 < buf -> apart buf (cluster_size f) (win f) (wlen f) ->
  exists m', read_cluster f cl buf m = (0, m') /\ copied m m' buf (cl_addr f cl) (cluster_size f).
Proof.
  intros Hv Hb Ha. pose proof (cl_addr_in cl Hv). pose proof (lba_ok cl Hv) as El.
  destruct Hf. destruct Hv as [Hc Hs]. unfold read_cluster.
  assert (0 <= (cl - 2) * sectors_per_cluster f) by nia.
  rewrite bd_read_ok by (done || lia). rewrite s32_small, Z.eqb_refl by lia.
  eexists. split; [done|]. intros a. rewrite vo_sec0, El, vo_csz0 in *.
  rewrite (Z.mul_comm (sectors_per_cluster f) 512). fold (cl_addr f cl).
  apply copy_spec; [lia|]. unfold apart in *. lia.
Qed.

Lemma write_cluster_spec cl buf m : valid f cl -> bd_writable (bdev f) -> 0 < buf ->
  apart buf (cluster_size f) (win f) (wlen f) ->
  exists m', write_cluster f cl buf m = (0, m') /\ copied m m' (cl_addr f cl) buf (cluster_size f).
Proof.
  intros Hv Hw Hb Ha. pose proof (cl_addr_in cl Hv). pose proof (lba_ok cl Hv) as El.
  destruct Hf. destruct Hv as [Hc Hs]. unfold write_cluster.
  assert (0 <= (cl - 2) * sectors_per_cluster f) by nia.
  rewrite bd_write_ok by (done || lia). rewrite s32_small, Z.eqb_refl by lia.
  eexists. split; [done|]. intros a. rewrite vo_sec0, El, vo_csz0 in *.
  rewrite (Z.mul_comm (sectors_per_cluster f) 512). fold (cl_addr f cl).
  apply copy_spec; [lia|]. unfold apart in *. lia.
Qed.

(** ** The FAT *)

Lemma fat_get_spec sp cl m : valid f cl -> 0 < sp -> apart sp 512 (win f) (wlen f) ->
  exists m', fat_get sp f cl m = Some (fatv f m cl, m') /\
    forall a, ~ sp <= a < sp + 512 -> rd8 m' a = rd8 m a.
Proof.
  intros Hv Hs Ha. destruct (fat_place cl Hv) as (_ & Eo & F1 & F2 & F3).
  pose proof Hf as [V1 V2 V3 V4 V5 V6 V7]. unfold fat_get. rewrite V4. cbn [Z.eqb].
  rewrite bd_read_ok by (done || lia). rewrite V2, Z.mul_1_l. cbn [Z.ltb Z.compare].
  assert (0 <= cl mod 128 < 128) by (apply Z.mod_pos_bound; lia).
  change (1 <? 1) with false. cbn match. rewrite (proj2 (Z.leb_le _ _)) by lia.
  assert (Hc : forall a, rd8 (Mem.copy_up (Z.to_nat 512) 0 m sp (win f + fat_sector f cl * 512)) a
    = if inb sp 512 a then rd8 m (win f + fat_sector f cl * 512 + (a - sp)) else rd8 m a).
  { intros a. apply copy_spec; [lia|]. unfold apart in *. lia. }
  eexists. split.
  - do 2 f_equal. unfold fatv. rewrite <- F3. apply rd32_ext. intros i Hi. rewrite Hc.
    inb_cases; [|lia]. f_equal. lia.
  - intros a Hna. rewrite Hc. inb_cases; [lia|done].
Qed.

Lemma fat_set_spec sp cl v m : valid f cl -> bd_writable (bdev f) -> 0 <= v < 2^32 ->
  0 < sp -> apart sp 512 (win f) (wlen f) ->
  exists m', fat_set sp f cl v m = Some (0, m') /\ fatv f m' cl = v /\
    forall a, ~ sp <= a < sp + 512 -> ~ fat_addr f cl <= a < fat_addr f cl + 4 -> rd8 m' a = rd8 m a.
Proof.
  intros Hv Hw Hval Hs Ha. destruct (fat_place cl Hv) as (_ & Eo & F1 & F2 & F3).
  pose proof Hf as [V1 V2 V3 V4 V5 V6 V7]. unfold fat_set. rewrite V4. cbn [Z.eqb].
  rewrite bd_read_ok by (done || lia). rewrite V2, Z.mul_1_l. change (1 <? 1) with false. cbn match.
  assert (0 <= cl mod 128 < 128) by (apply Z.mod_pos_bound; lia).
  rewrite (proj2 (Z.leb_le _ _)) by lia. rewrite bd_write_ok by (done || lia). rewrite V2, Z.mul_1_l.
  set (sec := win f + fat_sector f cl * 512) in *.
  set (m1 := Mem.copy_up (Z.to_nat 512) 0 m sp sec).
  assert (H1 : forall a, rd8 m1 a = if inb sp 512 a then rd8 m (sec + (a - sp)) else rd8 m a).
  { intros a. apply copy_spec; [lia|]. unfold apart, sec in *. lia. }
  set (m2 := wr32 m1 (sp + fat_off f cl) v).
  assert (H2 : forall a, rd8 (Mem.copy_up (Z.to_nat 512) 0 m2 sec sp) a
    = if inb sec 512 a then rd8 m2 (sp + (a - sec)) else rd8 m2 a).
  { intros a. apply copy_spec; [lia|]. unfold apart, sec in *. lia. }
  assert (Hsec : win f <= sec /\ sec + 512 <= win f + wlen f) by (unfold sec; lia). clearbody sec.
  eexists. split; [done|]. split.
  - unfold fatv. rewrite <- (rd32_wr32 m1 (sp + fat_off f cl) v Hval). fold m2. apply rd32_ext.
    intros i Hi. rewrite H2. inb_cases; [|lia]. f_equal. lia.
  - intros a Hna Hne. rewrite H2. unfold m2. inb_cases.
    + rewrite rd8_wr32_ne, H1 by lia. inb_cases; [|lia]. f_equal. lia.
    + rewrite rd8_wr32_ne, H1 by lia. inb_cases; [lia|done].
Qed.

(** ** Files *)

(** Consecutive clusters of a chain. *)
Definition linked (m : mem) (l : list Z) : Prop :=
  Forall (valid f) l /\
  forall i c d, l !! i = Some c -> l !! S i = Some d -> fatv f m c = d.

(** Byte [i] of the file with clusters [l]. *)
Definition content (m : mem) (l : list Z) (i : Z) : Z :=
  match l !! Z.to_nat (i / cluster_size f) with
  | Some cl => cbyte f m cl (i mod cluster_size f)
  | None => 0
  end.

(** The heap, with room for a cluster. *)
Context (hb hn : Z) (bs : list KmallocSpec.blk) (room : Z).
Context (Hroom : (room, true) ∈ bs) (Hfit : Kmalloc.ALIGN_UP (cluster_size f) 16 <= room).

(** The disk, the heap and the sector buffer do not overlap. *)
Context (sp : Z) (m0 : mem) (Hsp : 0 < sp) (Hsw : apart sp 512 (win f) (wlen f)).
Context (Hhw : apart hb hn (win f) (wlen f)).

(** Memory that functions may use freely: what the heap does not have in use,
    and the sector buffer. *)
Definition scratch (a : Z) : Prop := KmallocProps.unused bs hb hn a \/ sp <= a < sp + 512.

Lemma not_scratch a : ~ hb <= a < hb + hn -> ~ sp <= a < sp + 512 -> ~ scratch a.
Proof. intros H1 H2 [[H _]|H]; [exact (H1 H)|exact (H2 H)]. Qed.

Lemma scratch_disk a : win f <= a < win f + wlen f -> ~ scratch a.
Proof. intros Ha. unfold apart in *. apply not_scratch; lia. Qed.

(** A cluster-sized buffer in unused heap memory. *)
Definition bounce (tmp : Z) : Prop :=
  0 < tmp /\ hb <= tmp /\ tmp + cluster_size f <= hb + hn /\
  forall a, tmp <= a < tmp + cluster_size f -> scratch a.

Lemma cluster_buffer h : heap_ok bs hb hn h -> exists tmp h1 h2,
  Kmalloc.kmalloc h (cluster_size f) = Some (tmp, h1) /\ bounce tmp /\
  Kmalloc.kfree h1 tmp = Some h2 /\ heap_ok bs hb hn h2.
Proof.
  intros (Hi & E1 & E2). destruct Hf. assert (Hs : 0 < cluster_size f <= 2^64 - 16) by lia.
  destruct (kmalloc_fits h bs _ room Hi Hs Hroom Hfit)
    as (tmp & h1 & h2 & H1 & H2 & H3 & H4 & H5 & H6 & H7 & H8 & H9).
  exists tmp, h1, h2. rewrite E1, E2 in *.
  split; [done|]. split; [|done]. split_and!; [done..|]. intros a Ha. left. by apply H9.
Qed.

(** ** Allocation *)

(** [m] is [m0] outside the scratch areas. *)
Definition same (m : mem) : Prop := forall a, ~ scratch a -> rd8 m a = rd8 m0 a.

Lemma same_fat m cl : same m -> valid f cl -> fatv f m cl = fatv f m0 cl.
Proof.
  intros Hs Hv. destruct (fat_addr_in cl Hv) as (F1 & F2 & _).
  apply rd32_ext. intros i Hi. apply Hs, scratch_disk. lia.
Qed.

(** Cluster [c] was given to a new file: the last of its chain, and zero. *)
Definition allocated (c : Z) (m : mem) : Prop :=
  fatv f m c = EOC /\ (forall i, 0 <= i < cluster_size f -> cbyte f m c i = 0) /\
  forall a, ~ scratch a -> ~ fat_addr f c <= a < fat_addr f c + 4 ->
    ~ cl_addr f c <= a < cl_addr f c + cluster_size f -> rd8 m a = rd8 m0 a.

(** A zeroed buffer written to cluster [c]. *)
Lemma zero_cluster c tmp m : valid f c -> bd_writable (bdev f) -> bounce tmp -> exists m',
    write_cluster f c tmp (Mem.fill (Z.to_nat (cluster_size f)) 0 m tmp 0) = (0, m') /\
    (forall i, 0 <= i < cluster_size f -> cbyte f m' c i = 0) /\
    forall a, ~ scratch a -> ~ cl_addr f c <= a < cl_addr f c + cluster_size f -> rd8 m' a = rd8 m a.
Proof.
  intros Hv Hw (Ht & Hlo & Hhi & Hsc). pose proof (cl_addr_in c Hv) as [C1 C2]. unfold apart in *.
  pose proof Hf as [V1 V2 V3 V4 V5 V6 V7].
  destruct (write_cluster_spec c tmp (Mem.fill (Z.to_nat (cluster_size f)) 0 m tmp 0) Hv Hw Ht)
    as (m' & E & H); [unfold apart; lia|].
  assert (Hz : forall a, rd8 (Mem.fill (Z.to_nat (cluster_size f)) 0 m tmp 0) a
    = if inb tmp (cluster_size f) a then 0 else rd8 m a).
  { intros a. rewrite Mem.fill_spec by (unfold is_u8; lia). rewrite Z.add_0_r, Z2Nat.id by lia. done. }
  exists m'. split; [exact E|]. split.
  - intros i Hi. unfold cbyte. rewrite H. inb_cases; [|lia]. rewrite Hz. inb_cases; [done|lia].
  - intros a Ha Hc. rewrite H. inb_cases; [lia|]. rewrite Hz. inb_cases; [exfalso; by apply Ha, Hsc|done].
Qed.

(** Taking the free cluster [c]. *)
Lemma take_cluster c h m : heap_ok bs hb hn h -> same m -> valid f c -> bd_writable (bdev f) ->
  exists h1 h2 tmp m1 m2, fat_set sp f c EOC m = Some (0, m1) /\
    Kmalloc.kmalloc h (cluster_size f) = Some (tmp, h1) /\ tmp <> 0 /\
    write_cluster f c tmp (Mem.fill (Z.to_nat (cluster_size f)) 0 m1 tmp 0) = (0, m2) /\
    Kmalloc.kfree h1 tmp = Some h2 /\ heap_ok bs hb hn h2 /\ allocated c m2.
Proof.
  intros Hh Hs Hv Hw. assert (He : 0 <= EOC < 2^32) by (unfold EOC; lia).
  destruct (fat_set_spec sp c EOC m Hv Hw He Hsp Hsw) as (m1 & E1 & F1 & K1).
  destruct (cluster_buffer h Hh) as (tmp & h1 & h2 & E2 & T1 & E3 & Hh2).
  destruct (zero_cluster c tmp m1 Hv Hw T1) as (m2 & E4 & Z1 & K2).
  exists h1, h2, tmp, m1, m2. split; [done|]. split; [done|]. split; [destruct T1; lia|]. split; [done|].
  split; [done|]. split; [done|]. split; [|split; [exact Z1|]].
  - rewrite <- F1. pose proof (cl_addr_in c Hv). pose proof (fat_addr_in c Hv) as (A1 & A2 & A3).
    apply rd32_ext. intros i Hi. apply K2; [apply scratch_disk; lia|lia].
  - intros a Ha Hna Hnc. rewrite K2, K1 by (done || (unfold scratch in Ha; lia)). by apply Hs.
Qed.

Lemma alloc_scan_spec n : bd_writable (bdev f) -> forall cl h m, heap_ok bs hb hn h -> same m ->
  2 <= cl -> (forall i, cl <= i < cl + Z.of_nat n -> valid f i) ->
  exists c h' m', alloc_scan n sp f cl (h, m) = Some (c, (h', m')) /\ heap_ok bs hb hn h' /\
    ((c = 0 /\ same m' /\ forall i, cl <= i < cl + Z.of_nat n -> fatv f m0 i <> 0) \/
     (cl <= c < cl + Z.of_nat n /\ fatv f m0 c = 0 /\ allocated c m' /\
      forall i, cl <= i < c -> fatv f m0 i <> 0)).
Proof.
  intros Hw. induction n as [|n IH]; intros cl h m Hh Hs H2 Hv.
  { exists 0, h, m. split; [done|]. split; [done|]. left. split; [done|]. split; [done|lia]. }
  assert (Hvc : valid f cl) by (apply Hv; lia). cbn [alloc_scan fst snd].
  destruct (fat_get_spec sp cl m Hvc Hsp Hsw) as (m1 & E & K). rewrite E. bind.
  rewrite (same_fat m cl Hs Hvc).
  assert (Hs1 : same m1).
  { intros a Ha. rewrite K by (unfold scratch in Ha; lia). by apply Hs. }
  destruct (Z.eqb_spec (fatv f m0 cl) 0) as [E0|Hne].
  - destruct (take_cluster cl h m1 Hh Hs1 Hvc Hw) as (h1 & h2 & tmp & m2 & m3 & -> & T2 & T3 & T4 & T5 & T6 & T7).
    bind. cbn [Z.eqb negb]. rewrite T2. bind. rewrite (proj2 (Z.eqb_neq tmp 0) T3), T4, T5. bind.
    exists cl, h2, m3. split; [done|]. split; [done|]. right. split; [lia|]. split; [done|].
    split; [done|lia].
  - destruct (IH (cl + 1) h m1 Hh Hs1) as (c & h' & m' & E' & Hh' & H); [lia|intros; apply Hv; lia|].
    exists c, h', m'. split; [exact E'|]. split; [done|].
    assert (Hall : forall j, (forall i, cl + 1 <= i < j -> fatv f m0 i <> 0) ->
      forall i, cl <= i < j -> fatv f m0 i <> 0).
    { intros j Hj i Hi. destruct (decide (i = cl)) as [->|]; [done|]. apply Hj. lia. }
    destruct H as [(-> & H1 & H3)|(H1 & H3 & H4 & H5)]; [left|right].
    + split; [done|]. split; [done|]. apply Hall. intros i Hi. apply H3. lia.
    + split; [lia|]. split; [done|]. split; [done|]. by apply Hall.
Qed.

(** The caller's buffer is apart from the other areas. *)
Context (buf len : Z) (Hbw : apart buf len (win f) (wlen f)).
Context (Hbh : apart buf len hb hn) (Hbs : apart buf len sp 512).

Context (l : list Z) (Hl : linked m0 l) (off : Z).

(** The first [k] bytes are in the buffer; nothing else has changed. *)
Definition got (k : Z) (m : mem) : Prop :=
  forall a, ~ scratch a -> rd8 m a = if inb buf k a then content m0 l (off + (a - buf)) else rd8 m0 a.

(** Then the disk is as before. *)
Lemma got_disk k m a : 0 <= k <= len -> got k m -> win f <= a < win f + wlen f -> rd8 m a = rd8 m0 a.
Proof.
  intros Hk Hg Ha. rewrite Hg by (by apply scratch_disk). unfold apart in *. inb_cases; [lia|done].
Qed.

Lemma got_fat k m cl : 0 <= k <= len -> got k m -> valid f cl -> fatv f m cl = fatv f m0 cl.
Proof.
  intros Hk Hg Hv. destruct (fat_addr_in cl Hv) as (F1 & F2 & _).
  apply rd32_ext. intros i Hi. apply (got_disk k); [done|done|lia].
Qed.

Lemma got_scratch k m m' : got k m -> (forall a, ~ scratch a -> rd8 m' a = rd8 m a) -> got k m'.
Proof. intros Hg H a Ha. rewrite H by done. by apply Hg. Qed.

Lemma chain_valid i c : l !! i = Some c -> valid f c.
Proof. destruct Hl as [H _]. rewrite list.Forall_lookup in H. apply H. Qed.

(** The next cluster, when there is one. *)
Lemma next_spec k m i c d : 0 <= k <= len -> got k m -> l !! i = Some c -> l !! S i = Some d ->
  exists m', fat_get sp f c m = Some (d, m') /\ got k m' /\ (d =? EOC) = false /\ (d =? 0) = false.
Proof.
  intros Hk Hg Hc Hd. destruct (fat_get_spec sp c m (chain_valid i c Hc) Hsp Hsw) as (m' & E & Hm').
  rewrite (got_fat k m c Hk Hg (chain_valid i c Hc)), (proj2 Hl i c d Hc Hd) in E.
  exists m'. split; [exact E|]. split.
  - apply (got_scratch k m); [done|]. intros a Ha. apply Hm'. unfold scratch in Ha. lia.
  - destruct (chain_valid (S i) d Hd) as [Hv Hv2]. destruct Hf.
    split; apply Z.eqb_neq; [unfold EOC|]; nia.
Qed.

Lemma skip_spec n : forall i c m, got 0 m -> 0 <= len -> l !! i = Some c -> (i + n < length l)%nat ->
  exists c' m', skip_chain n sp f c m = Some (c', m') /\ l !! (i + n)%nat = Some c' /\ got 0 m'.
Proof.
  induction n as [|n IH]; intros i c m Hg Hlen Hc Hlt.
  - exists c, m. by rewrite Nat.add_0_r.
  - destruct (lookup_lt_is_Some_2 l (S i)) as [d Hd]; [lia|]. cbn [skip_chain].
    destruct (next_spec 0 m i c d ltac:(lia) Hg Hc Hd) as (m' & -> & Hg' & E1 & E2). bind.
    rewrite E1, E2. cbn [orb].
    destruct (IH (S i) d m' Hg' Hlen Hd ltac:(lia)) as (c' & m2 & E & Hc' & Hg2).
    exists c', m2. by replace (i + S n)%nat with (S i + n)%nat by lia.
Qed.

(** A part of a cluster goes into the buffer. *)
Lemma piece_spec idx cl skip k j tmp m : l !! idx = Some cl ->
  0 <= skip -> 0 <= j -> skip + j <= cluster_size f -> 0 <= k -> k + j <= len ->
  Z.of_nat idx * cluster_size f + skip = off + k ->
  bounce tmp -> got k m ->
  exists m1, read_cluster f cl tmp m = (0, m1) /\
    got (k + j) (Mem.copy_up (Z.to_nat j) 0 m1 (buf + k) (tmp + skip)).
Proof.
  intros Hi Hs Hj Hsj Hk Hkj Hpos (Ht & Hlo & Hhi & Hsc) Hg. pose proof (chain_valid idx cl Hi) as Hv.
  pose proof (cl_addr_in cl Hv) as [C1 C2]. unfold apart in *.
  destruct (read_cluster_spec cl tmp m Hv Ht) as (m1 & E & H1); [unfold apart; lia|].
  exists m1. split; [exact E|]. intros a Ha. rewrite copy_spec by (unfold apart; lia).
  pose proof (vo_fat f Hf).
  destruct (inb (buf + k) j a) eqn:Ea; [apply inb_true in Ea|apply inb_false in Ea].
  - rewrite H1. inb_cases; try lia. rewrite (got_disk k m) by (done || lia).
    unfold content. assert (Hq : off + (a - buf) = Z.of_nat idx * cluster_size f + (skip + (a - buf - k))) by lia.
    rewrite Hq, (Z.add_comm (_ * _)), Z.div_add, Z.mod_add, Z.div_small, Z.mod_small by lia.
    rewrite Z.add_0_l, Nat2Z.id, Hi. unfold cbyte. f_equal. lia.
  - rewrite H1. destruct (inb tmp (cluster_size f) a) eqn:Et; [apply inb_true in Et; exfalso; by apply Ha, Hsc|].
    rewrite Hg by done. inb_cases; lia || done.
Qed.

(** The transfer loop. *)
Lemma read_loop_spec fuel : forall idx cl skip k h m,
  (Z.to_nat (len - k) < fuel)%nat -> len < 2^63 ->
  off + len <= Z.of_nat (length l) * cluster_size f ->
  l !! idx = Some cl -> 0 <= skip < cluster_size f -> 0 <= k < len ->
  Z.of_nat idx * cluster_size f + skip = off + k ->
  heap_ok bs hb hn h -> got k m -> exists h' m',
    read_loop fuel sp f buf len cl skip k (h, m) = Some (len, (h', m')) /\
    heap_ok bs hb hn h' /\ got len m'.
Proof.
  induction fuel as [|fuel IH]; intros idx cl skip k h m Hfu Hlen Hend Hi Hs Hk Hpos Hh Hg; [lia|].
  pose proof (chain_valid idx cl Hi) as [Hv _]. pose proof Hf as [V1 V2 V3 V4 V5 V6 V7].
  cbn [read_loop fst snd]. rewrite (proj2 (Z.ltb_lt k len)), (proj2 (Z.leb_le 2 cl)) by lia. cbn [andb].
  destruct (cluster_buffer h Hh) as (tmp & h1 & h2 & E1 & T1 & E2 & Hh2). rewrite E1. bind.
  rewrite (proj2 (Z.eqb_neq tmp 0)) by (destruct T1; lia). rewrite !sub64_small by lia.
  set (j := if len - k <? cluster_size f - skip then len - k else cluster_size f - skip).
  assert (Hj : j = Z.min (len - k) (cluster_size f - skip))
    by (unfold j; destruct (Z.ltb_spec (len - k) (cluster_size f - skip)); lia). clearbody j.
  destruct (piece_spec idx cl skip k j tmp m Hi) as (m1 & E3 & G1); try lia; [exact T1|exact Hg|].
  rewrite E3. cbn [Z.eqb negb]. rewrite E2. bind. rewrite (add64_small k j) by lia.
  destruct (Z.leb_spec len (k + j)).
  - exists h2. eexists. replace (k + j) with len in * by lia. by split.
  - assert (Hnext : (S idx < length l)%nat) by nia.
    destruct (lookup_lt_is_Some_2 l (S idx) Hnext) as [d Hd].
    destruct (next_spec (k + j) _ idx cl d ltac:(lia) G1 Hi Hd) as (m2 & -> & G2 & N1 & N2). bind.
    rewrite N1, N2. cbn [orb]. apply (IH (S idx)); try lia; try done.
Qed.

End volume.

End ExfatSpec.
