(* ===== verification/ExfatProps.v ===== *)
(** * Properties of exFAT

    Reading a file, allocating a cluster, and what allocation does to a volume
    that was never formatted. *)

From S2P Require Import Prelude Kmalloc KmallocSpec KmallocProps Mem Block BlockSpec.
From S2P Require Import Devfs DevfsSpec Exfat ExfatSpec.

Module ExfatProps.

Import Exfat DevfsSpec ExfatSpec.

Section props.
Context {D : Type} `{BD : BlockDev D}.

(** The areas a function works with: the disk of [f], the heap [hb .. hb + hn)
    with the blocks [bs] and room for a cluster, and the sector buffer at [sp].
    They do not overlap. *)
Record areas (f : exfat_fs D) (bs : list KmallocSpec.blk) (hb hn sp : Z) : Prop := Areas {
  ar_vol : vol_ok f;
  ar_room : exists room, (room, true) ∈ bs /\ Kmalloc.ALIGN_UP (cluster_size f) 16 <= room;
  ar_sp : 0 < sp;
  ar_stack : apart sp 512 (win f) (wlen f);
  ar_heap : apart hb hn (win f) (wlen f);
  ar_local : apart hb hn sp 512
}.

(** The caller's buffer does not overlap them. *)
Record buffer (f : exfat_fs D) (hb hn sp buf len : Z) : Prop := Buffer {
  bf_pos : 0 < buf;
  bf_disk : apart buf len (win f) (wlen f);
  bf_heap : apart buf len hb hn;
  bf_stack : apart buf len sp 512
}.

Lemma apart_le a n b k n' : 0 <= n' <= n -> apart a n b k -> apart a n' b k.
Proof. unfold apart. lia. Qed.

Lemma exfat_read_spec f bs hb hn sp buf len off h m l n :
  areas f bs hb hn sp -> buffer f hb hn sp buf len -> heap_ok bs hb hn h -> linked f m l ->
  fs n = f -> l !! 0%nat = Some (first_cluster n) -> is_dir n = 0 ->
  0 <= off -> 0 <= len -> size n < 2^63 -> size n <= Z.of_nat (length l) * cluster_size f ->
  let k := Z.max 0 (Z.min len (size n - off)) in
  exists h' m', exfat_read sp (Some n) off buf len (h, m) = Some (s32 k, (h', m')) /\
    heap_ok bs hb hn h' /\
    forall a, ~ scratch hb hn bs sp a ->
      rd8 m' a = if inb buf k a then content f m l (off + (a - buf)) else rd8 m a.
Proof.
  intros [L1 (room & L2 & L3) L4 L6 L7 _] [L5 L8 L9 L10] Hh Hl Hfs H0 Hd Hoff Hlen Hsz Hcov k.
  assert (Hkl : 0 <= k <= len) by lia.
  unfold exfat_read. rewrite (proj2 (Z.eqb_neq buf 0)), Hd by lia. cbn [Z.eqb negb].
  destruct (Z.leb_spec (size n) off).
  { exists h, m. replace k with 0 by lia. split; [done|]. split; [done|]. intros a _.
    inb_cases; [lia|done]. }
  rewrite sub64_small by lia.
  replace (if size n - off <? len then size n - off else len) with k
    by (destruct (Z.ltb_spec (size n - off) len); lia).
  rewrite Hfs. cbn [fst snd]. pose proof L1 as [V1 V2 V3 V4 V5 V6 V7].
  assert (Hcs : 0 < cluster_size f) by lia. rewrite (proj2 (Z.eqb_neq (cluster_size f) 0)) by lia.
  pose proof (Z.mod_pos_bound off _ Hcs). pose proof (Z.div_mod off (cluster_size f) ltac:(lia)).
  assert (0 <= off / cluster_size f) by (apply Z.div_pos; lia).
  assert (Hq : off / cluster_size f < Z.of_nat (length l)) by nia.
  assert (G0 : got f hb hn bs sp m buf l off 0 m) by (intros a _; inb_cases; [lia|done]).
  destruct (skip_spec f L1 hb hn bs sp m L4 L6 L7 buf k (apart_le _ _ _ _ k Hkl L8)
    (apart_le _ _ _ _ k Hkl L10) l Hl off (Z.to_nat (off / cluster_size f)) 0 (first_cluster n) m G0 ltac:(lia) H0 ltac:(lia))
    as (cl & m1 & -> & Hcl & G1). bind. cbn [fst]. unfold loop_fuel.
  destruct (Z.eqb_spec k 0) as [Ek|Hk].
  - rewrite Ek. cbn [Z.to_nat read_loop]. exists h, m1. split; [done|]. split; [done|].
    exact G1.
  - destruct (read_loop_spec f L1 hb hn bs room L2 L3 sp m L4 L6 L7 buf k
      (apart_le _ _ _ _ k Hkl L8) (apart_le _ _ _ _ k Hkl L9)
      (apart_le _ _ _ _ k Hkl L10) l Hl off
      (S (Z.to_nat k)) (Z.to_nat (off / cluster_size f)) cl (off mod cluster_size f) 0 h m1)
      as (h' & m' & -> & Hh' & G'); try lia; try done. bind. by exists h', m'.
Qed.

(** C18. Reading a file returns the bytes of its cluster chain: for any offset
    and length the result is the number of bytes up to the end of the file, as
    many bytes of the chain from the offset on are in the buffer, and apart from
    unused heap memory and the local sector buffer nothing else changes; the bounce buffers
    are given back. *)
Theorem exfat_read_correct f bs hb hn sp buf len off h m l n :
  areas f bs hb hn sp -> buffer f hb hn sp buf len -> heap_ok bs hb hn h -> linked f m l ->
  fs n = f -> l !! 0%nat = Some (first_cluster n) -> is_dir n = 0 ->
  0 <= off -> 0 <= len -> size n < 2^63 -> size n <= Z.of_nat (length l) * cluster_size f ->
  let k := Z.max 0 (Z.min len (size n - off)) in
  exists h' m', exfat_read sp (Some n) off buf len (h, m) = Some (s32 k, (h', m')) /\
    heap_ok bs hb hn h' /\
    forall a, ~ scratch hb hn bs sp a ->
      rd8 m' a = if inb buf k a then content f m l (off + (a - buf)) else rd8 m a.
Proof. apply exfat_read_spec. Qed.

Lemma fat_alloc_spec f bs hb hn sp h m :
  areas f bs hb hn sp -> heap_ok bs hb hn h -> bd_writable (bdev f) -> fat_length f < 2^23 ->
  (forall i, 2 <= i < fat_length f * 128 -> valid f i) ->
  exists c h' m', fat_alloc sp f (h, m) = Some (c, (h', m')) /\ heap_ok bs hb hn h' /\
    ((c = 0 /\ same hb hn bs sp m m' /\ forall i, 2 <= i < fat_length f * 128 -> fatv f m i <> 0) \/
     (2 <= c < fat_length f * 128 /\ fatv f m c = 0 /\ allocated f hb hn bs sp m c m' /\
      forall i, 2 <= i < c -> fatv f m i <> 0)).
Proof.
  intros [A1 (room & A2 & A3) A4 A5 A6 _] Hh Hw Hlen Hv. pose proof A1 as [V1 V2 V3 V4 V5 V6 V7].
  unfold fat_alloc. rewrite V4, u32_small by lia.
  replace (fat_length f * 512 / 4) with (fat_length f * 128) by zmod.
  destruct (alloc_scan_spec f A1 hb hn bs room A2 A3 sp m A4 A5 A6 (Z.to_nat (fat_length f * 128 - 2)) Hw
    2 h m Hh) as (c & h' & m' & E & Hh' & H); [by intros a _|lia|intros i Hi; apply Hv; lia|].
  exists c, h', m'. split; [exact E|]. split; [exact Hh'|].
  destruct H as [(-> & H1 & H2)|(H1 & H2 & H3 & H4)]; [left|right].
  - split; [done|]. split; [exact H1|]. intros i Hi. apply H2. lia.
  - split; [lia|]. by split.
Qed.

(** Allocating a cluster takes the first one whose FAT entry is 0: it
    becomes the end of a chain and its bytes are zero on the disk; if every
    cluster is in use the result is 0.  Nothing else on the disk changes. *)
Theorem fat_alloc_correct f bs hb hn sp h m :
  areas f bs hb hn sp -> heap_ok bs hb hn h -> bd_writable (bdev f) -> fat_length f < 2^23 ->
  (forall i, 2 <= i < fat_length f * 128 -> valid f i) ->
  exists c h' m', fat_alloc sp f (h, m) = Some (c, (h', m')) /\ heap_ok bs hb hn h' /\
    ((c = 0 /\ same hb hn bs sp m m' /\ forall i, 2 <= i < fat_length f * 128 -> fatv f m i <> 0) \/
     (2 <= c < fat_length f * 128 /\ fatv f m c = 0 /\ allocated f hb hn bs sp m c m' /\
      forall i, 2 <= i < c -> fatv f m i <> 0)).
Proof. apply fat_alloc_spec. Qed.

(** On a device without a boot sector the volume has its root directory in
    cluster 2, whose FAT entry nobody sets: the first allocation, the one of the
    first file created, returns the root directory itself and erases it. *)
Theorem exfat_first_file_takes_root b bs hb hn sp h m :
  areas (default_fs b) bs hb hn sp -> heap_ok bs hb hn h -> bd_writable b ->
  valid (default_fs b) 2 -> fatv (default_fs b) m 2 = 0 ->
  exists h' m', fat_alloc sp (default_fs b) (h, m)
      = Some (root_dir_cluster (default_fs b), (h', m')) /\ heap_ok bs hb hn h' /\
    forall i, 0 <= i < 512 -> cbyte (default_fs b) m' (root_dir_cluster (default_fs b)) i = 0.
Proof.
  intros [A1 (room & A2 & A3) A4 A5 A6 _] Hh Hw Hv H0.
  destruct (alloc_scan_spec (default_fs b) A1 hb hn bs room A2 A3 sp m A4 A5 A6 1 Hw 2 h m Hh)
    as (c & h' & m' & E & Hh' & H); [by intros a _|lia|intros i Hi; by replace i with 2 by lia|].
  destruct H as [(-> & _ & H)|(H1 & _ & (_ & Hz & _) & _)]; [by destruct (H 2 ltac:(lia))|].
  replace c with 2 in * by lia. exists h', m'. split; [|split; [exact Hh'|exact Hz]].
  unfold fat_alloc. change (u32 (fat_length (default_fs b) * bytes_per_sector (default_fs b)) / 4 - 2)
    with 131070. replace (Z.to_nat 131070) with (1 + Z.to_nat 131069)%nat by lia.
  by apply alloc_scan_more.
Qed.

End props.

(** ** A blank disk of 1200 sectors, and a file of two clusters on it *)

Definition demo_ram : Block.device := Block.Dev [114] 512 1200 (Block.RamPriv 0x100000 614400).
Definition demo_vol : exfat_fs Block.device := default_fs demo_ram.
Definition demo_kheap : Kmalloc.kheap := Kmalloc.kmalloc_init KmallocProps.kzero 0x1000 0x400.
(** FAT entry 3 is 5, entry 5 the end. *)
Definition demo_fat : mem :=
  wr32 (wr32 ∅ (0x100000 + 128 * 512 + 12) 5) (0x100000 + 128 * 512 + 20) EOC.

Lemma demo_areas : areas demo_vol [(0x400 - 32, true)] 0x1000 0x400 0x8000.
Proof.
  constructor; [constructor; cbn; lia| |done|left; cbn; lia|left; cbn; lia|left; cbn; lia].
  exists (0x400 - 32). split; [left|done].
Qed.

Lemma demo_kheap_ok : heap_ok [(0x400 - 32, true)] 0x1000 0x400 demo_kheap.
Proof. split; [apply KmallocProps.init_inv; done|done]. Qed.

Lemma demo_valid i : 2 <= i < 50 -> valid demo_vol i.
Proof. intros Hi. split; cbn; lia. Qed.

Lemma exfat_read_correct_witness : exists h' m',
  exfat_read 0x8000 (Some (MkNode demo_vol 3 0 700)) 500 0x20000 300 (demo_kheap, demo_fat)
    = Some (200, (h', m')) /\
  rd8 m' (0x20000 + 12) = cbyte demo_vol demo_fat 5 0.
Proof.
  destruct (exfat_read_correct demo_vol [(0x400 - 32, true)] 0x1000 0x400 0x8000 0x20000 300 500
    demo_kheap demo_fat [3; 5] (MkNode demo_vol 3 0 700)) as (h' & m' & E & _ & H);
    [exact demo_areas|constructor; unfold apart; cbn; lia|exact demo_kheap_ok| |done|done|done|lia|lia|cbn; lia|cbn; lia|].
  { split; [constructor; [apply demo_valid; lia|constructor; [apply demo_valid; lia|constructor]]|].
    intros [|[|i]] c d Hc Hd; [|discriminate..]. injection Hc as <-. injection Hd as <-. reflexivity. }
  exists h', m'. split; [exact E|]. rewrite H by (apply not_scratch; lia). reflexivity.
Defined.

Lemma exfat_first_file_takes_root_witness : exists h' m',
  fat_alloc 0x8000 demo_vol (demo_kheap, ∅) = Some (2, (h', m')).
Proof.
  destruct (exfat_first_file_takes_root demo_ram [(0x400 - 32, true)] 0x1000 0x400 0x8000 demo_kheap ∅)
    as (h' & m' & E & _); [exact demo_areas|exact demo_kheap_ok|exact I|apply demo_valid; lia|reflexivity|].
  exists h', m'. exact E.
Defined.

(** A volume whose FAT is one sector. *)
Definition demo_small : exfat_fs Block.device := MkFs demo_ram 1 1 2 512 1 512 2.

Lemma fat_alloc_correct_witness : exists c h' m',
  fat_alloc 0x8000 demo_small (demo_kheap, ∅) = Some (c, (h', m')) /\ c <> 0.
Proof.
  destruct (fat_alloc_correct demo_small [(0x400 - 32, true)] 0x1000 0x400 0x8000 demo_kheap ∅)
    as (c & h' & m' & E & _ & H).
  - constructor; [constructor; cbn; lia| |done|left; cbn; lia|left; cbn; lia|left; cbn; lia].
    exists (0x400 - 32). split; [left|done].
  - exact demo_kheap_ok.
  - exact I.
  - cbn; lia.
  - intros i Hi. cbn in Hi. split; cbn; lia.
  - exists c, h', m'. split; [exact E|]. destruct H as [(_ & _ & H)|(H & _)]; [|lia].
    destruct (H 2); [cbn; lia|reflexivity].
Defined.

End ExfatProps.
