(* ===== verification/ExfatDir.v ===== *)
(** * Directory entries of exFAT

    What [exfat_create] writes into a directory is what the scan reads: the new
    file, after the files that were there. *)

From S2P Require Import Prelude Mem Exfat ExfatSpec.

Module ExfatDir.

Import Exfat ExfatSpec.

(** ** Stores *)

Lemma rd8_zero m a b : rd8 (zero_entry m a) b = if inb a 32 b then 0 else rd8 m b.
Proof. unfold zero_entry. rewrite Mem.fill_spec by (unfold is_u8; lia). by rewrite Z.add_0_r. Qed.

(** Only the [n] bytes from [a] differ. *)
Definition within (a n : Z) (m m' : mem) : Prop := forall b, ~ a <= b < a + n -> rd8 m' b = rd8 m b.

Lemma put_primary_spec m a t : within a 32 m (put_primary m a t) /\
  rd8 (put_primary m a t) a = 0x85 /\ rd16 (put_primary m a t) (a + 4) = 0x20.
Proof.
  unfold put_primary. split; [|split].
  - intros b Hb. rewrite rd8_wr16_ne, !rd8_wr8, rd8_zero by lia.
    rewrite !(proj2 (Z.eqb_neq _ _)) by lia. inb_cases; [lia|done].
  - rewrite rd8_wr16_ne, !rd8_wr8 by lia. by rewrite Z.eqb_refl, (proj2 (Z.eqb_neq _ _)) by lia.
  - apply rd16_wr16. lia.
Qed.

Lemma put_stream_spec m a n cl : 0 <= cl < 2^32 -> within a 32 m (put_stream m a n cl) /\
  rd8 (put_stream m a n cl) a = 0xC0 /\ rd32 (put_stream m a n cl) (a + 20) = cl /\
  rd64 (put_stream m a n cl) (a + 24) = 0.
Proof.
  intros Hcl. unfold put_stream. split; [|split; [|split]].
  - intros b Hb. rewrite rd8_wr64_ne, rd8_wr32_ne, !rd8_wr8, rd8_zero by lia.
    rewrite !(proj2 (Z.eqb_neq _ _)) by lia. inb_cases; [lia|done].
  - rewrite rd8_wr64_ne, rd8_wr32_ne, !rd8_wr8 by lia.
    by rewrite Z.eqb_refl, (proj2 (Z.eqb_neq _ _)) by lia.
  - set (m1 := wr32 _ _ cl). rewrite (rd32_ext m1 _ (a + 20) (a + 20)).
    + by apply rd32_wr32.
    + intros i Hi. apply rd8_wr64_ne. lia.
  - set (m1 := wr32 _ _ cl). unfold rd64, wr64. change (0 / 2^32) with 0.
    rewrite (rd32_wr32 _ (a + 24 + 4)) by lia.
    rewrite (rd32_ext (wr32 m1 (a + 24) 0) _ (a + 24) (a + 24)); [by rewrite rd32_wr32 by lia|].
    intros i Hi. apply rd8_wr32_ne. lia.
Qed.

Lemma fold_seqZ_S {A} (g : A -> Z -> A) x n :
  fold_left g (seqZ 0 (Z.of_nat (S n))) x = g (fold_left g (seqZ 0 (Z.of_nat n)) x) (Z.of_nat n).
Proof. rewrite Nat2Z.inj_succ, <- Z.add_1_r, seqZ_app by lia. rewrite fold_left_app. done. Qed.

(** The characters of one name entry. *)
Lemma put_chars_spec n a q e m : Forall (fun c => 0 < c < 128) q -> 0 <= e ->
  let m' := fold_left (fun m k => wr16 m (a + 2 + k * 2) (nth (Z.to_nat (e * 15 + k)) q 0))
              (seqZ 0 (Z.of_nat n)) m in
  within (a + 2) (2 * Z.of_nat n) m m' /\
  forall k, 0 <= k < Z.of_nat n -> rd16 m' (a + 2 + k * 2) = nth (Z.to_nat (e * 15 + k)) q 0.
Proof.
  intros Hq He. assert (Hc : forall j, 0 <= nth j q 0 < 2^16).
  { intros j. destruct (nth_in_or_default j q 0) as [Hin| ->]; [|lia].
    rewrite list.Forall_forall in Hq. apply list_elem_of_In, Hq in Hin. lia. }
  induction n as [|n [IH1 IH2]]; cbn zeta; [split; [by intros b _|lia]|].
  rewrite fold_seqZ_S. set (m1 := fold_left _ _ m) in *. split.
  - intros b Hb. rewrite rd8_wr16_ne by lia. apply IH1. lia.
  - intros k Hk. destruct (decide (k = Z.of_nat n)) as [->|]; [apply rd16_wr16, Hc|].
    rewrite (rd16_ext m1 _ _ (a + 2 + k * 2)); [apply IH2; lia|apply rd8_wr16_ne; lia..].
Qed.

Lemma put_name_spec m a q e : Forall (fun c => 0 < c < 128) q -> 0 <= e ->
  within a 32 m (put_name m a q e) /\ rd8 (put_name m a q e) a = 0xC1 /\
  forall k, 0 <= k < 15 -> rd16 (put_name m a q e) (a + 2 + k * 2) = nth (Z.to_nat (e * 15 + k)) q 0.
Proof.
  intros Hq He. unfold put_name. change 15 with (Z.of_nat 15) at 1 3 4 7.
  destruct (put_chars_spec 15 a q e (wr8 (zero_entry m a) a 193) Hq He) as [H1 H2].
  split; [|split; [|exact H2]].
  - intros b Hb. rewrite H1 by lia. rewrite rd8_wr8, rd8_zero, (proj2 (Z.eqb_neq _ _)) by lia.
    inb_cases; [lia|done].
  - rewrite H1 by lia. rewrite rd8_wr8, Z.eqb_refl. done.
Qed.

(** A name entry at [a] that holds part [e] of the name. *)
Definition name_at (m : mem) (a : Z) (q : list Z) (e : Z) : Prop :=
  rd8 m a = 0xC1 /\ forall k, 0 <= k < 15 -> rd16 m (a + 2 + k * 2) = nth (Z.to_nat (e * 15 + k)) q 0.

Lemma name_at_within m m' a q e b n : within b n m m' -> a + 32 <= b \/ b + n <= a ->
  name_at m a q e -> name_at m' a q e.
Proof.
  intros Hw Hd [H1 H2]. split; [rewrite Hw by lia; done|]. intros k Hk. rewrite <- H2 by done.
  apply rd16_ext; apply Hw; lia.
Qed.

Lemma put_names_spec n m a q : Forall (fun c => 0 < c < 128) q ->
  within a (32 * Z.of_nat n) m (put_names m a q (Z.of_nat n)) /\
  forall e, 0 <= e < Z.of_nat n -> name_at (put_names m a q (Z.of_nat n)) (a + e * 32) q e.
Proof.
  intros Hq. unfold put_names. induction n as [|n [IH1 IH2]]; [split; [by intros b _|lia]|].
  rewrite fold_seqZ_S. set (m1 := fold_left _ _ m) in *.
  destruct (put_name_spec m1 (a + Z.of_nat n * 32) q (Z.of_nat n) Hq ltac:(lia)) as (P1 & P2 & P3). split.
  - intros b Hb. rewrite P1 by lia. apply IH1. lia.
  - intros e He. destruct (decide (e = Z.of_nat n)) as [->|]; [by split|].
    eapply name_at_within; [exact P1|lia|]. apply IH2. lia.
Qed.

(** ** Reading the name back *)

(** Fifteen characters of the name are appended. *)
Lemma name_chars_spec m a q e : Forall (fun c => 0 < c < 128) q -> (length q <= 63)%nat -> 0 <= e ->
  name_at m a q e -> name_chars m a (take (Z.to_nat (e * 15)) q) = take (Z.to_nat (e * 15 + 15)) q.
Proof.
  intros Hq Hlen He [_ Hk]. unfold name_chars.
  assert (H : forall n, (n <= 15)%nat -> fold_left (fun name k =>
      if Z.of_nat (length name) <? 63 then
        let c := rd16 m (a + 2 + k * 2) in
        if c =? 0 then name else name ++ [if c <? 128 then c else 63]
      else name) (seqZ 0 (Z.of_nat n)) (take (Z.to_nat (e * 15)) q)
    = take (Z.to_nat (e * 15 + Z.of_nat n)) q); [|exact (H 15%nat ltac:(lia))].
  induction n as [|n IH]; intros Hn; [by rewrite Z.add_0_r|].
  rewrite fold_seqZ_S, IH by lia. rewrite Hk by lia. cbn zeta.
  replace (Z.to_nat (e * 15 + Z.of_nat (S n))) with (S (Z.to_nat (e * 15 + Z.of_nat n))) by lia.
  set (p := Z.to_nat (e * 15 + Z.of_nat n)). destruct (q !! p) as [c|] eqn:Ec.
  - rewrite (nth_lookup_Some _ _ _ _ Ec), (take_S_r _ _ _ Ec).
    pose proof (lookup_lt_Some _ _ _ Ec). rewrite length_take, (proj2 (Z.ltb_lt _ _)) by lia.
    rewrite list.Forall_lookup in Hq. specialize (Hq _ _ Ec). cbn in Hq.
    by rewrite (proj2 (Z.eqb_neq _ _)), (proj2 (Z.ltb_lt _ _)) by lia.
  - apply lookup_ge_None in Ec. rewrite nth_overflow, !take_ge by lia. cbn [Z.eqb].
    by destruct (_ <? _).
Qed.

(** All name entries from part [e] on, up to an entry of another type. *)
Lemma name_entries_spec fuel m buf csz j q n : forall e,
  Forall (fun c => 0 < c < 128) q -> (length q <= 63)%nat ->
  n = name_count (Z.of_nat (length q)) -> 0 <= e <= n ->
  (forall e, 0 <= e < n -> name_at m (buf + j + e * 32) q e) ->
  j + n * 32 <= csz -> (j + n * 32 + 32 <= csz -> rd8 m (buf + (j + n * 32)) <> 0xC1) ->
  (Z.to_nat (n - e) < fuel)%nat ->
  name_entries fuel m buf csz (j + e * 32) (take (Z.to_nat (e * 15)) q) = Some (j + n * 32, q).
Proof.
  induction fuel as [|fuel IH]; intros e Hq Hlen Hn He Hat Hend Hstop Hf; [lia|].
  cbn [name_entries]. destruct (decide (e = n)) as [->|Hne].
  - unfold name_count in Hn. rewrite take_ge by (zify; zmod).
    destruct (Z.leb_spec (j + n * 32 + 32) csz); [|done].
    by rewrite (proj2 (Z.eqb_neq _ _)) by (by apply Hstop).
  - pose proof (Hat e ltac:(lia)) as Ha. rewrite (proj2 (Z.leb_le _ _)) by lia.
    rewrite (Z.add_assoc buf), (proj1 Ha). cbn [Z.eqb andb Pos.eqb].
    rewrite (name_chars_spec m _ q e) by (done || lia).
    replace (j + e * 32 + 32) with (j + (e + 1) * 32) by lia.
    replace (e * 15 + 15) with ((e + 1) * 15) by lia. apply IH; try done; lia.
Qed.

(** The comparison name of [exfat_unlink] is the same name. *)
Lemma unlink_chars_spec m a q e n : Forall (fun c => 0 < c < 128) q -> (length q <= 63)%nat -> 0 <= e ->
  name_at m a q e -> (n <= 15)%nat ->
  unlink_chars n m a (15 - Z.of_nat n) (take (Z.to_nat (e * 15 + (15 - Z.of_nat n))) q)
    = take (Z.to_nat (e * 15 + 15)) q.
Proof.
  intros Hq Hlen He [_ Hk]. induction n as [|n IH]; intros Hn; [cbn; by rewrite Z.sub_0_r|]. cbn [unlink_chars].
  rewrite Hk by lia. set (p := Z.to_nat (e * 15 + (15 - Z.of_nat (S n)))).
  destruct (q !! p) as [c|] eqn:Ec.
  - rewrite (nth_lookup_Some _ _ _ _ Ec). pose proof (lookup_lt_Some _ _ _ Ec).
    rewrite length_take, (proj2 (Z.ltb_lt _ _)) by lia.
    rewrite list.Forall_lookup in Hq. specialize (Hq _ _ Ec). cbn in Hq.
    rewrite (proj2 (Z.eqb_neq _ _)), (proj2 (Z.ltb_lt c 128)), <- (take_S_r _ _ _ Ec) by lia.
    replace (15 - Z.of_nat (S n) + 1) with (15 - Z.of_nat n) by lia.
    replace (S p) with (Z.to_nat (e * 15 + (15 - Z.of_nat n))) by lia. apply IH. lia.
  - apply lookup_ge_None in Ec. rewrite nth_overflow, !take_ge by lia. cbn [Z.eqb]. by destruct (_ <? _).
Qed.

Lemma unlink_name_spec fuel m buf csz j q n : forall e,
  Forall (fun c => 0 < c < 128) q -> (length q <= 63)%nat ->
  n = name_count (Z.of_nat (length q)) -> 0 <= e <= n ->
  (forall e, 0 <= e < n -> name_at m (buf + j + e * 32) q e) ->
  j + n * 32 <= csz -> (j + n * 32 + 32 <= csz -> rd8 m (buf + (j + n * 32)) <> 0xC1) ->
  (Z.to_nat (n - e) < fuel)%nat ->
  unlink_name fuel m buf csz (j + e * 32) (take (Z.to_nat (e * 15)) q) = Some (j + n * 32, q).
Proof.
  induction fuel as [|fuel IH]; intros e Hq Hlen Hn He Hat Hend Hstop Hf; [lia|].
  cbn [unlink_name]. destruct (decide (e = n)) as [->|Hne].
  - unfold name_count in Hn. rewrite take_ge by (zify; zmod).
    destruct (Z.leb_spec (j + n * 32 + 32) csz); [|done].
    by rewrite (proj2 (Z.eqb_neq _ _)) by (by apply Hstop).
  - pose proof (Hat e ltac:(lia)) as Ha. rewrite (proj2 (Z.leb_le _ _)) by lia.
    rewrite (Z.add_assoc buf), (proj1 Ha). cbn [Z.eqb andb Pos.eqb].
    pose proof (unlink_chars_spec m _ q e 15 Hq Hlen ltac:(lia) Ha ltac:(lia)) as Hu.
    change (15 - Z.of_nat 15) with 0 in Hu. rewrite Z.add_0_r in Hu. rewrite Hu.
    replace (j + e * 32 + 32) with (j + (e + 1) * 32) by lia.
    replace (e * 15 + 15) with ((e + 1) * 15) by lia. apply IH; try done; lia.
Qed.

(** ** The new file *)

(** The entries of file [q], with first cluster [cl] and size [sz], are at [di]. *)
Record file_at (m : mem) (buf csz di : Z) (q : list Z) (cl sz : Z) : Prop := FileAt {
  fa_type : rd8 m (buf + di) = 0x85;
  fa_attr : rd16 m (buf + di + 4) = 0x20;
  fa_stream : rd8 m (buf + di + 32) = 0xC0;
  fa_cluster : rd32 m (buf + di + 32 + 20) = cl;
  fa_size : rd64 m (buf + di + 32 + 24) = sz;
  fa_names : forall e, 0 <= e < name_count (Z.of_nat (length q)) -> name_at m (buf + di + 64 + e * 32) q e;
  fa_end : endpos di q < csz -> rd8 m (buf + endpos di q) = 0
}.

Section file.
Context (buf csz di : Z) (q : list Z) (cl : Z).
Context (Hq : Forall (fun c => 0 < c < 128) q) (Hlen : (1 <= length q <= 63)%nat).
Context (Hdi : 0 <= di) (Hfit : endpos di q <= csz).

Abbreviation count := (name_count (Z.of_nat (length q))).

Lemma count_pos : 1 <= count.
Proof. unfold name_count. zmod. Qed.

Lemma endpos_count : endpos di q = di + 64 + count * 32.
Proof. unfold endpos. lia. Qed.

(** Only the new entries and the end marker change; the entries are there. *)
Lemma put_file_parts m : 0 <= cl < 2^32 -> let m' := put_file m buf csz di q cl in
  within (buf + di) (csz - di) m m' /\ file_at m' buf csz di q cl 0.
Proof.
  intros Hcl m'. pose proof count_pos as Hn. pose proof endpos_count as He. unfold m', put_file.
  set (m1 := put_primary _ _ _). set (m2 := put_stream _ _ _ _). set (m3 := put_names _ _ _ _).
  destruct (put_names_spec (Z.to_nat count) m2 (buf + di + 64) q Hq) as [N1 N2].
  rewrite Z2Nat.id in N1, N2 by lia. fold m3 in N1, N2.
  destruct (put_stream_spec m1 (buf + di + 32) (Z.of_nat (length q)) cl Hcl) as (S1 & S2 & S3 & S4).
  destruct (put_primary_spec m (buf + di) (1 + count)) as (P1 & P2 & P3). fold m1 in P1, P2, P3. fold m2 in S1, S2, S3, S4.
  set (m4 := if _ <? _ then _ else _).
  assert (W : within (buf + endpos di q) 1 m3 m4).
  { intros b Hb. unfold m4. destruct (_ <? _); [|done]. by rewrite rd8_wr8, (proj2 (Z.eqb_neq _ _)) by lia. }
  assert (K1 : forall b, b < buf + di + 32 -> rd8 m4 b = rd8 m1 b) by (intros b H1; rewrite W, N1, S1 by lia; done).
  assert (K2 : forall b, b < buf + di + 64 -> rd8 m4 b = rd8 m2 b) by (intros b H1; rewrite W, N1 by lia; done).
  split; [|split].
  - intros b Hb. assert (E : rd8 m3 b = rd8 m b) by (rewrite N1, S1, P1 by lia; done).
    unfold m4. destruct (Z.ltb_spec (endpos di q) csz); [|exact E].
    rewrite rd8_wr8, (proj2 (Z.eqb_neq _ _)) by lia. exact E.
  - by rewrite K1 by lia.
  - rewrite <- P3. apply rd16_ext; apply K1; lia.
  - by rewrite K2 by lia.
  - rewrite <- S3. apply rd32_ext. intros i Hi. apply K2. lia.
  - rewrite <- S4. apply rd64_ext. intros i Hi. apply K2. lia.
  - intros e He'. eapply name_at_within; [exact W|lia|]. by apply N2.
  - intros Hlt. unfold m4. rewrite (proj2 (Z.ltb_lt _ _) Hlt). by rewrite rd8_wr8, Z.eqb_refl.
Qed.

(** The same bytes elsewhere, with another size. *)
Lemma file_at_copy m m' buf' sz sz' :
  (forall i, 0 <= i < csz -> ~ di + 56 <= i < di + 64 -> rd8 m' (buf' + i) = rd8 m (buf + i)) ->
  rd64 m' (buf' + di + 32 + 24) = sz' -> file_at m buf csz di q cl sz -> file_at m' buf' csz di q cl sz'.
Proof.
  intros H Hs [F1 F2 F3 F4 F5 F6 F7]. pose proof count_pos as Hn. pose proof endpos_count as He.
  assert (K : forall a b, a - buf' = b - buf -> 0 <= a - buf' < csz -> ~ di + 56 <= a - buf' < di + 64 -> rd8 m' a = rd8 m b).
  { intros a b H1 H2 H3. replace a with (buf' + (a - buf')) by lia. rewrite H by done. f_equal. lia. }
  split; try done.
  - rewrite <- F1. apply K; lia.
  - rewrite <- F2. apply rd16_ext; apply K; lia.
  - rewrite <- F3. apply K; lia.
  - rewrite <- F4. apply rd32_ext. intros i Hi. apply K; lia.
  - intros e He'. destruct (F6 e He') as [N1 N2]. split.
    + rewrite <- N1. apply K; lia.
    + intros k Hk. rewrite <- N2 by done. apply rd16_ext; apply K; lia.
  - intros Hlt. rewrite <- F7 by done. apply K; lia.
Qed.

Section entry.
Context (m : mem) (sz : Z) (HF : file_at m buf csz di q cl sz).

Lemma file_at_names e : 0 <= e < count -> name_at m (buf + (di + 64) + e * 32) q e.
Proof. intros He. rewrite Z.add_assoc. by apply HF. Qed.

Lemma file_at_stop : di + 64 + count * 32 + 32 <= csz -> rd8 m (buf + (di + 64 + count * 32)) <> 0xC1.
Proof.
  intros Hle. rewrite <- endpos_count, (fa_end _ _ _ _ _ _ _ HF); [done|]. rewrite endpos_count. lia.
Qed.

Lemma file_entry_new : file_entry m buf csz di = Some (MkDirent cl sz 0 q, endpos di q).
Proof.
  destruct HF as [_ P2 S1 S2 S3 _ _]. pose proof count_pos. pose proof endpos_count as He.
  unfold file_entry. rewrite P2, (Z.add_assoc buf), S1, S2, S3.
  rewrite (proj2 (Z.leb_le (di + 32 + 32) csz)) by lia. cbn [andb Z.eqb Pos.eqb].
  replace (di + 32 + 32) with (di + 64 + 0 * 32) by lia. change (@nil Z) with (take (Z.to_nat (0 * 15)) q).
  rewrite (name_entries_spec _ m buf csz (di + 64) q count 0); [by rewrite He|done|lia|done|lia|..].
  - exact file_at_names.
  - lia.
  - exact file_at_stop.
  - unfold dir_fuel. lia.
Qed.

Lemma find_new k : find_name (S k) m buf csz q di = Some (Some (di, endpos di q)).
Proof.
  pose proof HF as [P1 _ S1 _ _ _ _]. pose proof count_pos. pose proof endpos_count as He.
  cbn [find_name]. rewrite P1, S1, !(proj2 (Z.leb_le _ _)) by lia. cbn [andb negb Z.eqb Pos.eqb].
  change (Z.land 133 127 =? 5) with true. cbn [andb].
  replace (di + 64) with (di + 64 + 0 * 32) by lia. change (@nil Z) with (take (Z.to_nat (0 * 15)) q).
  rewrite (unlink_name_spec _ m buf csz (di + 64) q count 0); [|done|lia|done|lia|exact file_at_names|lia|exact file_at_stop|unfold dir_fuel; lia].
  bind. rewrite bool_decide_true by done. by rewrite He.
Qed.

Lemma find_stream_new k : find_stream (S k) m buf csz cl di = Some (Some di).
Proof.
  pose proof HF as [P1 _ S1 S2 _ _ _]. pose proof count_pos. pose proof endpos_count as He.
  cbn [find_stream]. rewrite P1, S1, S2, (proj2 (Z.leb_le _ _)), (Z.eqb_refl cl) by lia. done.
Qed.

End entry.

End file.

(** ** The files before it *)

Lemma find_end_spec m buf csz fuel : forall d0 di,
  find_end fuel m buf csz d0 = Some di -> 0 <= d0 -> d0 mod 32 = 0 ->
  d0 <= di /\ di mod 32 = 0 /\ (di + 32 <= csz -> rd8 m (buf + di) = 0) /\
  forall i, d0 <= i < di -> i mod 32 = 0 -> i + 32 <= csz /\ rd8 m (buf + i) <> 0.
Proof.
  induction fuel as [|fuel IH]; intros d0 di H H0 Hm; [done|]. cbn [find_end] in H.
  destruct (Z.leb_spec (d0 + 32) csz), (Z.eqb_spec (rd8 m (buf + d0)) 0); cbn [andb negb] in H;
    try (injection H as <-; repeat split; (lia || done)).
  destruct (IH (d0 + 32) di H ltac:(lia) ltac:(zmod)) as (I1 & I2 & I3 & I4).
  split; [lia|]. split; [done|]. split; [done|]. intros i Hi Hmi.
  destruct (decide (i = d0)) as [->|]; [done|]. apply I4; [zmod|done].
Qed.

Lemma fold_left_ext {A B} (g h : A -> B -> A) l : forall x,
  (forall x k, k ∈ l -> g x k = h x k) -> fold_left g l x = fold_left h l x.
Proof.
  induction l as [|k l IH]; intros x H; [done|]. cbn. rewrite H by left. apply IH.
  intros y j Hj. apply H. by right.
Qed.

Section prefix.
Context (m m2 : mem) (buf csz di : Z) (Hmod : di mod 32 = 0).
Context (Hagree : forall i, 0 <= i < di -> rd8 m2 (buf + i) = rd8 m (buf + i)).
Context (Hend : di + 32 <= csz -> rd8 m (buf + di) = 0).
(** The entry behind the old files is not a secondary one. *)
Context (Hnew : rd8 m2 (buf + di) <> 0xC0 /\ rd8 m2 (buf + di) <> 0xC1).

Lemma agree_at a : buf <= a < buf + di -> rd8 m2 a = rd8 m a.
Proof. intros H. replace a with (buf + (a - buf)) by lia. apply Hagree. lia. Qed.

Lemma name_chars_ext j name : 0 <= j -> j + 32 <= di ->
  name_chars m2 (buf + j) name = name_chars m (buf + j) name.
Proof.
  intros H1 H2. apply fold_left_ext. intros x k Hk. apply elem_of_seqZ in Hk.
  by rewrite (rd16_ext m m2 _ (buf + j + 2 + k * 2)) by (apply agree_at; lia).
Qed.

Lemma prefix_names fuel : forall j name r, 0 <= j <= di -> j mod 32 = 0 ->
  name_entries fuel m buf csz j name = Some r ->
  name_entries fuel m2 buf csz j name = Some r /\ j <= r.1 <= di /\ r.1 mod 32 = 0.
Proof.
  induction fuel as [|fuel IH]; intros j name r Hj Hm H; [done|]. cbn [name_entries] in *.
  destruct (decide (j = di)) as [->|Hne].
  - rewrite (proj2 (Z.eqb_neq _ 0xC1)), andb_false_r by apply Hnew. destruct (Z.leb_spec (di + 32) csz); cbn [andb] in H.
    + rewrite Hend in H by done. injection H as <-. cbn. split; [done|]. lia.
    + injection H as <-. cbn. split; [done|]. lia.
  - assert (j + 32 <= di) by zmod. rewrite Hagree by lia.
    destruct (_ && _).
    + rewrite name_chars_ext by lia. destruct (IH (j + 32) _ r ltac:(lia) ltac:(zmod) H) as (E & B1 & B2).
      split; [exact E|]. split; [lia|done].
    + injection H as <-. split; [done|]. cbn. lia.
Qed.

Lemma prefix_file i r : 0 <= i < di -> i mod 32 = 0 -> file_entry m buf csz i = Some r ->
  file_entry m2 buf csz i = Some r /\ i < r.2 <= di /\ r.2 mod 32 = 0.
Proof.
  intros Hi Hm H. assert (i + 32 <= di) by zmod. unfold file_entry in *.
  rewrite (rd16_ext m m2 _ (buf + i + 4)) by (apply agree_at; lia).
  assert (Hs : (i + 32 + 32 <=? csz) && (rd8 m2 (buf + (i + 32)) =? 0xC0)
    = (i + 32 + 32 <=? csz) && (rd8 m (buf + (i + 32)) =? 0xC0)).
  { destruct (decide (i + 32 = di)) as [E|]; [|by rewrite Hagree by lia]. rewrite E.
    rewrite (proj2 (Z.eqb_neq _ 0xC0)) by apply Hnew.
    destruct (Z.leb_spec (di + 32) csz); [|done]. by rewrite Hend. }
  rewrite Hs. destruct (_ && _) eqn:Est.
  - assert (i + 64 <= di).
    { apply andb_prop in Est as [H1 H2]. destruct (decide (i + 32 = di)) as [E|]; [|zmod].
      rewrite E, Hend in H2 by lia. done. }
    rewrite (rd32_ext m m2 _ (buf + (i + 32) + 20)) by (intros k Hk; apply agree_at; lia).
    assert (E64 : rd64 m2 (buf + (i + 32) + 24) = rd64 m (buf + (i + 32) + 24)).
    { apply rd64_ext. intros k Hk. apply agree_at. lia. }
    rewrite E64. destruct (name_entries _ m buf csz (i + 32 + 32) []) as [[j name]|] eqn:En; [|done].
    destruct (prefix_names _ (i + 32 + 32) [] _ ltac:(lia) ltac:(zmod) En) as (-> & B1 & B2). cbn in *.
    injection H as <-. cbn. split; [done|]. lia.
  - destruct (name_entries _ m buf csz (i + 32) []) as [[j name]|] eqn:En; [|done].
    destruct (prefix_names _ (i + 32) [] _ ltac:(lia) ltac:(zmod) En) as (-> & B1 & B2). cbn in *.
    injection H as <-. cbn. split; [done|]. lia.
Qed.

(** The scan of the old files goes on with the new one. *)
Lemma prefix_scan max_ents ents' R fuel : forall i ents, 0 <= i <= di -> i mod 32 = 0 -> di <= csz ->
  (forall k, 0 <= k < di -> k mod 32 = 0 -> rd8 m (buf + k) <> 0) ->
  (forall k, (Z.to_nat (csz - di) < k)%nat -> scan_dir k m2 buf csz max_ents di ents' = Some R) ->
  (Z.to_nat (csz - i) < fuel)%nat -> scan_dir fuel m buf csz max_ents i ents = Some ents' ->
  scan_dir fuel m2 buf csz max_ents i ents = Some R.
Proof.
  induction fuel as [|fuel IH]; intros i ents Hi Hm Hcs Hnz HR Hf H; [lia|].
  destruct (decide (i = di)) as [->|Hne].
  - replace ents' with ents in *; [by apply HR|]. cbn [scan_dir] in H.
    destruct (Z.leb_spec (di + 32) csz); [rewrite Hend in H by done|]; by injection H.
  - assert (i + 32 <= di) by zmod. cbn [scan_dir] in *.
    rewrite (proj2 (Z.leb_le _ _)) in * by lia. rewrite Hagree by lia.
    rewrite (proj2 (Z.eqb_neq _ _)) in * by (apply Hnz; [lia|done]).
    destruct (_ =? 5).
    + destruct (file_entry m buf csz i) as [[e j]|] eqn:Ef; [|done].
      destruct (prefix_file i _ ltac:(lia) Hm Ef) as (-> & B1 & B2). cbn in *.
      apply IH; (done || lia).
    + apply IH; (done || lia || zmod).
Qed.

Lemma unlink_chars_agree n : forall j k name, 0 <= j -> j + 32 <= di -> 0 <= k -> k + Z.of_nat n <= 15 ->
  unlink_chars n m2 (buf + j) k name = unlink_chars n m (buf + j) k name.
Proof.
  induction n as [|n IH]; intros j k name H1 H2 H3 H4; [done|]. cbn [unlink_chars].
  rewrite (rd16_ext m m2 _ (buf + j + 2 + k * 2)) by (apply agree_at; lia). by rewrite IH by lia.
Qed.

Lemma prefix_unlink_name fuel : forall j name, 0 <= j <= di -> j mod 32 = 0 ->
  unlink_name fuel m2 buf csz j name = unlink_name fuel m buf csz j name.
Proof.
  induction fuel as [|fuel IH]; intros j name Hj Hm; [done|]. cbn [unlink_name].
  destruct (Z.leb_spec (j + 32) csz); [|done]. destruct (decide (j = di)) as [->|Hne].
  - by rewrite (proj2 (Z.eqb_neq _ 0xC1)), Hend by (exact H || apply Hnew).
  - assert (j + 32 <= di) by zmod. rewrite Hagree, unlink_chars_agree by lia. destruct (_ && _); [|done].
    apply IH; [lia|zmod].
Qed.

(** A name that was not there is found behind the old files. *)
Lemma prefix_find q r fuel : forall i, 0 <= i <= di -> i mod 32 = 0 -> di + 32 <= csz ->
  (forall k, 0 <= k < di -> k mod 32 = 0 -> rd8 m (buf + k) <> 0) ->
  (forall k, find_name (S k) m2 buf csz q di = Some r) ->
  (Z.to_nat (csz - i) < fuel)%nat -> find_name fuel m buf csz q i = Some None ->
  find_name fuel m2 buf csz q i = Some r.
Proof.
  induction fuel as [|fuel IH]; intros i Hi Hm Hcs Hnz HR Hf H; [lia|].
  destruct (decide (i = di)) as [->|Hne]; [apply HR|].
  assert (i + 32 <= di) by zmod. cbn [find_name] in H |- *.
  rewrite (proj2 (Z.leb_le (i + 32) csz)) in H |- * by lia. rewrite Hagree by lia.
  rewrite (proj2 (Z.eqb_neq _ 0)) in H |- * by (apply Hnz; [lia|done]). cbn [andb negb] in H |- *.
  assert (Hst : (rd8 m2 (buf + i + 32) =? 0xC0) = (rd8 m (buf + i + 32) =? 0xC0)).
  { rewrite <- !Z.add_assoc. destruct (decide (i + 32 = di)) as [->|].
    { rewrite (proj2 (Z.eqb_neq _ 0xC0)), Hend by (lia || apply Hnew). done. }
    by rewrite Hagree by lia. }
  rewrite Hst. destruct (_ && _ && _) eqn:Ec; [|apply IH; (assumption || lia || zmod)].
  assert (i + 64 <= di).
  { apply andb_prop in Ec as [_ Ec]. destruct (decide (i + 32 = di)) as [E|]; [|zmod].
    rewrite <- Z.add_assoc, E, Hend in Ec by lia. done. }
  rewrite prefix_unlink_name by (lia || zmod).
  destruct (unlink_name _ m buf csz (i + 64) []) as [[j nm]|]; [|done]. cbn [mbind option_bind] in H |- *.
  destruct (bool_decide _); [done|]. apply IH; (assumption || lia || zmod).
Qed.

(** A cluster that no stream entry had is found in the new one. *)
Lemma prefix_find_stream o r fuel : forall i, 0 <= i <= di -> i mod 32 = 0 -> di + 64 <= csz ->
  (forall k, 0 <= k < di -> k mod 32 = 0 -> rd8 m (buf + k) <> 0) ->
  (forall k, find_stream (S k) m2 buf csz o di = Some r) ->
  (Z.to_nat (csz - i) < fuel)%nat -> find_stream fuel m buf csz o i = Some None ->
  find_stream fuel m2 buf csz o i = Some r.
Proof.
  induction fuel as [|fuel IH]; intros i Hi Hm Hcs Hnz HR Hf H; [lia|].
  destruct (decide (i = di)) as [->|Hne]; [apply HR|].
  assert (i + 32 <= di) by zmod. cbn [find_stream] in H |- *.
  rewrite (proj2 (Z.leb_le (i + 64) csz)) in H |- * by lia. rewrite Hagree by lia.
  rewrite (proj2 (Z.eqb_neq _ 0)) in H |- * by (apply Hnz; [lia|done]). cbn [andb negb] in H |- *.
  destruct (decide (i + 32 = di)) as [E|].
  - rewrite <- !Z.add_assoc, !(Z.add_assoc i 32), E in H |- *. rewrite (proj2 (Z.eqb_neq _ 0xC0)) by apply Hnew.
    rewrite Hend in H by lia. rewrite andb_false_r in H |- *. cbn [andb] in H |- *.
    rewrite <- E in H |- *. apply IH; (assumption || lia || zmod).
  - rewrite (rd32_ext m m2 _ (buf + i + 32 + 20)) by (intros k Hk; apply agree_at; zmod).
    rewrite (agree_at (buf + i + 32)) by zmod.
    destruct (_ && _ && _); [done|]. apply IH; (assumption || lia || zmod).
Qed.

(** The scan of the old files, then the new one. *)
Lemma prefix_scan_file q cl sz max_ents ents : 0 <= di ->
  (forall k, 0 <= k < di -> k mod 32 = 0 -> rd8 m (buf + k) <> 0) ->
  Forall (fun c => 0 < c < 128) q -> (1 <= length q <= 63)%nat -> endpos di q <= csz ->
  file_at m2 buf csz di q cl sz -> Z.of_nat (length ents) < max_ents ->
  scan_dir (dir_fuel csz) m buf csz max_ents 0 [] = Some ents ->
  scan_dir (dir_fuel csz) m2 buf csz max_ents 0 [] = Some (ents ++ [MkDirent cl sz 0 q]).
Proof.
  intros H0 Hnz Hq Hlen Hfit HF Hmax Hs.
  assert (Hdi : di + 96 <= endpos di q) by (unfold endpos, name_count; zmod).
  apply (prefix_scan max_ents ents); try done; try lia.
  - intros [|[|k]] Hk; [lia|lia|]. cbn [scan_dir]. rewrite (proj2 (Z.leb_le _ _)), (fa_type _ _ _ _ _ _ _ HF) by lia.
    cbn [Z.eqb Pos.eqb]. change (Z.land 133 127 =? 5) with true. cbn match.
    rewrite (file_entry_new buf csz di q cl Hq Hlen H0 Hfit m2 sz HF). bind.
    rewrite (proj2 (Z.ltb_lt _ _) Hmax). cbn [scan_dir].
    destruct (Z.leb_spec (endpos di q + 32) csz); [|done]. by rewrite (fa_end _ _ _ _ _ _ _ HF) by lia.
  - unfold dir_fuel. lia.
Qed.

End prefix.

(** ** Copies of a directory

    The operations read only the bytes of the directory, wherever it lies. *)

Section copy.
Context (m m' : mem) (b b' csz : Z) (H : forall i, 0 <= i < csz -> rd8 m' (b' + i) = rd8 m (b + i)).

Lemma copy16 i j : 0 <= i -> i + 2 <= csz -> j = b' + i -> rd16 m' j = rd16 m (b + i).
Proof. intros H0 H1 ->. apply rd16_ext; [apply H; lia|]. rewrite <- !Z.add_assoc. apply H. lia. Qed.

Lemma copy_chars j name : 0 <= j -> j + 32 <= csz -> name_chars m' (b' + j) name = name_chars m (b + j) name.
Proof.
  intros H1 H2. apply fold_left_ext. intros x k Hk. apply elem_of_seqZ in Hk.
  rewrite (copy16 (j + 2 + k * 2)) by lia. by rewrite !Z.add_assoc.
Qed.

Lemma copy_names fuel : forall j name, 0 <= j ->
  name_entries fuel m' b' csz j name = name_entries fuel m b csz j name.
Proof.
  induction fuel as [|fuel IH]; intros j name Hj; [done|]. cbn [name_entries].
  destruct (Z.leb_spec (j + 32) csz); [|done]. rewrite H, copy_chars by lia. destruct (_ && _); [|done].
  apply IH. lia.
Qed.

Lemma copy_file i : 0 <= i -> i + 32 <= csz -> file_entry m' b' csz i = file_entry m b csz i.
Proof.
  intros H0 H1. unfold file_entry. rewrite (copy16 (i + 4)) by lia. rewrite !Z.add_assoc.
  assert (Hn : forall j, 0 <= j -> name_entries (dir_fuel csz) m' b' csz j []
    = name_entries (dir_fuel csz) m b csz j []) by (intros j Hj; by apply copy_names).
  destruct (Z.leb_spec (i + 32 + 32) csz); cbn [andb]; [|by rewrite Hn by lia].
  rewrite <- (Z.add_assoc b'), <- (Z.add_assoc b), H by lia. rewrite !Z.add_assoc.
  assert (E32 : rd32 m' (b' + i + 32 + 20) = rd32 m (b + i + 32 + 20)).
  { apply rd32_ext. intros k Hk. rewrite <- !Z.add_assoc. apply H. lia. }
  assert (E64 : rd64 m' (b' + i + 32 + 24) = rd64 m (b + i + 32 + 24)).
  { apply rd64_ext. intros k Hk. rewrite <- !Z.add_assoc. apply H. lia. }
  rewrite E32, E64. by rewrite Hn by (destruct (_ =? _); lia).
Qed.

Lemma names_le fuel m0 : forall j name r, name_entries fuel m0 b csz j name = Some r -> j <= r.1.
Proof.
  induction fuel as [|fuel IH]; intros j name r E; [done|]. cbn [name_entries] in E.
  destruct (_ && _); [apply IH in E; lia|]. by injection E as <-.
Qed.

Lemma copy_scan max fuel : forall i ents, 0 <= i ->
  scan_dir fuel m' b' csz max i ents = scan_dir fuel m b csz max i ents.
Proof.
  induction fuel as [|fuel IH]; intros i ents Hi; [done|]. cbn [scan_dir].
  destruct (Z.leb_spec (i + 32) csz); [|done]. rewrite H, copy_file by lia.
  destruct (_ =? 0); [done|]. destruct (_ =? 5); [|apply IH; lia].
  destruct (file_entry m b csz i) as [[e j]|] eqn:Ef; [|done]. bind. apply IH.
  unfold file_entry in Ef. destruct (name_entries _ _ _ _ _ _) as [[j' nm]|] eqn:En; [|done]. bind.
  injection Ef as <- <-. apply names_le in En. cbn in En. destruct (_ && _); lia.
Qed.

Lemma copy_end fuel : forall i, 0 <= i -> find_end fuel m' b' csz i = find_end fuel m b csz i.
Proof.
  induction fuel as [|fuel IH]; intros i Hi; [done|]. cbn [find_end].
  destruct (Z.leb_spec (i + 32) csz); [|done]. rewrite H by lia. destruct (_ && _); [|done]. apply IH. lia.
Qed.

Lemma copy_unlink_chars n : forall j k name, 0 <= j -> j + 32 <= csz -> 0 <= k -> k + Z.of_nat n <= 15 ->
  unlink_chars n m' (b' + j) k name = unlink_chars n m (b + j) k name.
Proof.
  induction n as [|n IH]; intros j k name H1 H2 H3 H4; [done|]. cbn [unlink_chars].
  rewrite (copy16 (j + 2 + k * 2)) by lia. rewrite !Z.add_assoc. by rewrite IH by lia.
Qed.

Lemma copy_unlink_name fuel : forall j name, 0 <= j ->
  unlink_name fuel m' b' csz j name = unlink_name fuel m b csz j name.
Proof.
  induction fuel as [|fuel IH]; intros j name Hj; [done|]. cbn [unlink_name].
  destruct (Z.leb_spec (j + 32) csz); [|done]. rewrite H, copy_unlink_chars by lia. destruct (_ && _); [|done].
  apply IH. lia.
Qed.

Lemma copy_find_name q fuel : forall i, 0 <= i -> find_name fuel m' b' csz q i = find_name fuel m b csz q i.
Proof.
  induction fuel as [|fuel IH]; intros i Hi; [done|]. cbn [find_name].
  destruct (Z.leb_spec (i + 32) csz); [|done]. rewrite H by lia. destruct (negb _); [|done]. cbn [andb].
  destruct (Z.leb_spec (i + 64) csz); [|rewrite !andb_false_r; apply IH; lia]. rewrite !andb_true_r.
  rewrite <- !Z.add_assoc, H, copy_unlink_name by lia. destruct (_ && _); [|apply IH; lia].
  destruct (unlink_name _ _ _ _ _ _) as [[j nm]|]; [|done]. bind. destruct (bool_decide _); [done|]. apply IH. lia.
Qed.

End copy.

Lemma put_file_scan m buf csz di q cl max_ents ents :
  find_end (dir_fuel csz) m buf csz 0 = Some di -> endpos di q <= csz ->
  scan_dir (dir_fuel csz) m buf csz max_ents 0 [] = Some ents ->
  Z.of_nat (length ents) < max_ents ->
  Forall (fun c => 0 < c < 128) q -> (1 <= length q <= 63)%nat -> 0 <= cl < 2^32 ->
  scan_dir (dir_fuel csz) (put_file m buf csz di q cl) buf csz max_ents 0 []
    = Some (ents ++ [MkDirent cl 0 0 q]).
Proof.
  intros He Hfit Hs Hmax Hq Hlen Hcl.
  destruct (find_end_spec _ _ _ _ _ _ He ltac:(lia) eq_refl) as (H0 & Hm & Hz & Hnz).
  destruct (put_file_parts buf csz di q cl Hq Hlen Hfit m Hcl) as [P1 P2]. pose proof (fa_type _ _ _ _ _ _ _ P2).
  apply (prefix_scan_file m _ buf csz di Hm); try done; try lia.
  - intros i Hi. apply P1. lia.
  - intros k Hk Hmk. by apply Hnz.
Qed.

(** Creating a file in a directory: if the directory listed the files
    [ents] and the new entries fit after them, a scan afterwards lists [ents]
    and the new file, with its name, its first cluster and size 0. *)
Theorem exfat_dir_roundtrip m buf csz di q cl max_ents ents :
  find_end (dir_fuel csz) m buf csz 0 = Some di -> endpos di q <= csz ->
  scan_dir (dir_fuel csz) m buf csz max_ents 0 [] = Some ents ->
  Z.of_nat (length ents) < max_ents ->
  Forall (fun c => 0 < c < 128) q -> (1 <= length q <= 63)%nat -> 0 <= cl < 2^32 ->
  scan_dir (dir_fuel csz) (put_file m buf csz di q cl) buf csz max_ents 0 []
    = Some (ents ++ [MkDirent cl 0 0 q]).
Proof. apply put_file_scan. Qed.

Lemma exfat_dir_roundtrip_witness :
  scan_dir (dir_fuel 512) (put_file ∅ 0x1000 512 0 [97; 98] 7) 0x1000 512 32 0 []
    = Some [MkDirent 7 0 0 [97; 98]].
Proof.
  apply (exfat_dir_roundtrip ∅ 0x1000 512 0 [97; 98] 7 32 []); try reflexivity; try (cbn; lia).
  - discriminate.
  - repeat constructor.
Defined.

End ExfatDir.
