(* ===== verification/ExfatFat.v ===== *)
(** * The FAT of an exFAT volume

    Chains of clusters and the list of free clusters, as abstract views of the
    FAT: allocation takes the head of the free list, extending a file appends
    its first clusters to the chain of the file.  [modifies] says which FAT
    entries and which clusters a step may have changed. *)

From S2P Require Import Prelude Kmalloc KmallocSpec KmallocProps Mem Block BlockSpec.
From S2P Require Import Devfs DevfsSpec Exfat ExfatSpec ExfatProps.

Module ExfatFat.

Import Exfat DevfsSpec ExfatSpec ExfatProps.

(** All members of a list are valid clusters. *)
Ltac all_valid := repeat first [assumption | apply list.Forall_nil_2 | apply list.Forall_cons_2 | apply list.Forall_app_2].

(** ** Lists *)

Lemma filter_ext_in {A} (P Q : A -> Prop) `{!forall x, Decision (P x), !forall x, Decision (Q x)} (l : list A) :
  (forall x, x ∈ l -> P x <-> Q x) -> filter P l = filter Q l.
Proof.
  induction l as [|x l IH]; intros Hl; [done|]. rewrite !filter_cons.
  rewrite IH by (intros y Hy; apply Hl; by right). pose proof (Hl x ltac:(left)).
  destruct (decide (P x)), (decide (Q x)); tauto.
Qed.

Lemma filter_none {A} (P : A -> Prop) `{!forall x, Decision (P x)} (l : list A) :
  (forall x, x ∈ l -> ~ P x) -> filter P l = [].
Proof.
  induction l as [|x l IH]; intros Hl; [done|]. rewrite filter_cons_False by (apply Hl; left).
  apply IH. intros y Hy. apply Hl. by right.
Qed.

Lemma seqZ_split a n c : a <= c < a + n -> seqZ a n = seqZ a (c - a) ++ c :: seqZ (c + 1) (a + n - c - 1).
Proof.
  intros H. replace n with ((c - a) + (a + n - c)) at 1 by lia. rewrite seqZ_app by lia. f_equal.
  replace (a + (c - a)) with c by lia. rewrite seqZ_cons by lia. do 2 f_equal; lia.
Qed.

Section volume.
Context {D : Type} `{BD : BlockDev D}.

(** A volume that can be written, whose FAT describes clusters on the disk. *)
Record formatted (f : exfat_fs D) : Prop := Formatted {
  fm_writable : bd_writable (bdev f);
  fm_fat : fat_length f < 2^23;
  fm_all : forall i, 2 <= i < fat_length f * 128 -> valid f i
}.

(** The free clusters, in the order of the FAT. *)
Definition free_clusters (f : exfat_fs D) (m : mem) : list Z :=
  filter (fun c => fatv f m c = 0) (seqZ 2 (fat_length f * 128 - 2)).

(** A chain of clusters that ends. *)
Record chain (f : exfat_fs D) (m : mem) (l : list Z) : Prop := Chain {
  ch_linked : linked f m l;
  ch_nodup : NoDup l;
  ch_end : forall l0 c, l = l0 ++ [c] -> fatv f m c = EOC
}.

(** Apart from scratch memory, [m'] differs from [m] at most in the FAT entries
    of [F] and the bytes of the clusters [C]. *)
Definition modifies (f : exfat_fs D) (hb hn : Z) bs (sp : Z) (F C : list Z) (m m' : mem) : Prop :=
  forall a, ~ scratch hb hn bs sp a ->
    (forall c, c ∈ F -> ~ fat_addr f c <= a < fat_addr f c + 4) ->
    (forall c, c ∈ C -> ~ cl_addr f c <= a < cl_addr f c + cluster_size f) -> rd8 m' a = rd8 m a.

Context (f : exfat_fs D) (bs : list KmallocSpec.blk) (hb hn sp : Z) (A : areas f bs hb hn sp).

Abbreviation mods := (modifies f hb hn bs sp).

Lemma mods_refl m : mods [] [] m m.
Proof. by intros a _ _ _. Qed.

Lemma mods_trans F C F' C' m1 m2 m3 : mods F C m1 m2 -> mods F' C' m2 m3 -> mods (F ++ F') (C ++ C') m1 m3.
Proof.
  intros H1 H2 a Ha HF HC.
  rewrite H2, H1; [done|done|..|done| |]; intros c Hc; (apply HF || apply HC); apply elem_of_app; auto.
Qed.

Lemma mods_weaken F C F' C' m m' : F ⊆ F' -> C ⊆ C' -> mods F C m m' -> mods F' C' m m'.
Proof. intros HF HC H a Ha H1 H2. apply H; [done|..]; intros c Hc; auto. Qed.

Lemma same_mods m m' : same hb hn bs sp m m' -> mods [] [] m m'.
Proof. intros H a Ha _ _. by apply H. Qed.

Lemma csz_pos : 0 < cluster_size f < 2^17.
Proof. pose proof (ar_vol _ _ _ _ _ A) as [_ _ _ _ V5 V6 _]. lia. Qed.

(** Different clusters do not share bytes. *)
Lemma cl_addr_apart c d i : valid f c -> valid f d -> c <> d -> 0 <= i < cluster_size f ->
  ~ cl_addr f d <= cl_addr f c + i < cl_addr f d + cluster_size f.
Proof.
  pose proof (ar_vol _ _ _ _ _ A) as [_ _ _ _ V5 V6 _]. intros _ _ Hne Hi. unfold cl_addr. rewrite V6 in *. nia.
Qed.

Lemma fat_cl_apart c d i : valid f c -> valid f d -> 0 <= i < 4 ->
  ~ cl_addr f d <= fat_addr f c + i < cl_addr f d + cluster_size f.
Proof.
  intros Hc Hd Hi. destruct (fat_addr_in f (ar_vol _ _ _ _ _ A) c Hc) as (_ & _ & H1).
  destruct (cl_addr_in f (ar_vol _ _ _ _ _ A) d Hd) as [H2 _]. lia.
Qed.

Lemma mods_fat F C m m' c : mods F C m m' -> valid f c -> c ∉ F -> Forall (valid f) C ->
  fatv f m' c = fatv f m c.
Proof.
  intros H Hv Hn HC. destruct (fat_addr_in f (ar_vol _ _ _ _ _ A) c Hv) as (H1 & H2 & _).
  apply rd32_ext. intros i Hi. apply H.
  - apply (scratch_disk f hb hn bs sp (ar_stack _ _ _ _ _ A) (ar_heap _ _ _ _ _ A)). lia.
  - intros d Hd Hin. assert (c <> d) by congruence. unfold fat_addr in Hin. lia.
  - intros d Hd. apply fat_cl_apart; [done| |done]. by eapply list.Forall_forall in HC.
Qed.

Lemma mods_byte F C m m' c i : mods F C m m' -> valid f c -> c ∉ C -> Forall (valid f) F ->
  Forall (valid f) C -> 0 <= i < cluster_size f -> cbyte f m' c i = cbyte f m c i.
Proof.
  intros H Hv Hn HF HC Hi. pose proof (cl_addr_in f (ar_vol _ _ _ _ _ A) c Hv) as [H1 H2].
  assert (H0 : 0 <= cluster_heap_off f * 512) by (pose proof (vo_fat _ (ar_vol _ _ _ _ _ A)); lia).
  apply H.
  - apply (scratch_disk f hb hn bs sp (ar_stack _ _ _ _ _ A) (ar_heap _ _ _ _ _ A)). lia.
  - intros d Hd Hin. eapply list.Forall_forall in HF; [|exact Hd].
    destruct (fat_addr_in f (ar_vol _ _ _ _ _ A) d HF) as (_ & _ & H3). lia.
  - intros d Hd. eapply list.Forall_forall in HC; [|exact Hd].
    apply cl_addr_apart; [done|done|congruence|done].
Qed.

(** Outside the disk, only scratch memory changes. *)
Lemma mods_other F C m m' a : mods F C m m' -> Forall (valid f) F -> Forall (valid f) C ->
  ~ scratch hb hn bs sp a -> ~ win f <= a < win f + wlen f -> rd8 m' a = rd8 m a.
Proof.
  intros H HF HC Ha Hw. apply H; [done|..]; intros d Hd.
  - eapply list.Forall_forall in HF; [|exact Hd].
    destruct (fat_addr_in f (ar_vol _ _ _ _ _ A) d HF) as (H1 & H2 & _). lia.
  - eapply list.Forall_forall in HC; [|exact Hd]. pose proof (vo_fat _ (ar_vol _ _ _ _ _ A)).
    destruct (cl_addr_in f (ar_vol _ _ _ _ _ A) d HC) as [H1 H2]. lia.
Qed.

(** ** Allocation takes the head of the free list *)

Context (Hfm : formatted f).

Lemma free_spec m c : c ∈ free_clusters f m <-> 2 <= c < fat_length f * 128 /\ fatv f m c = 0.
Proof. unfold free_clusters. rewrite list_elem_of_filter, elem_of_seqZ. intuition lia. Qed.

Lemma free_valid m : Forall (valid f) (free_clusters f m).
Proof. apply list.Forall_forall. intros c Hc. apply free_spec in Hc as [Hc _]. exact (fm_all f Hfm c Hc). Qed.

Lemma free_nodup m : NoDup (free_clusters f m).
Proof. apply list.NoDup_filter, NoDup_seqZ. Qed.

(** The free list only depends on the entries that are 0. *)
Lemma free_ext m m' : (forall c, valid f c -> fatv f m' c = 0 <-> fatv f m c = 0) ->
  free_clusters f m' = free_clusters f m.
Proof.
  intros H. apply filter_ext_in. intros c Hc. apply elem_of_seqZ in Hc.
  apply H, (fm_all f Hfm). lia.
Qed.

(** Entry [c], the first 0, becomes something else. *)
Lemma free_take m m' c : 2 <= c < fat_length f * 128 -> fatv f m c = 0 ->
  (forall i, 2 <= i < c -> fatv f m i <> 0) -> fatv f m' c <> 0 ->
  (forall d, valid f d -> d <> c -> fatv f m' d = fatv f m d) ->
  free_clusters f m = c :: free_clusters f m'.
Proof.
  intros Hc H0 Hlow H1 Hd. unfold free_clusters. rewrite (seqZ_split 2 _ c) by lia.
  rewrite !list.filter_app, !(filter_none _ (seqZ 2 (c - 2))).
  - cbn [app]. rewrite filter_cons_True, filter_cons_False by done. f_equal. apply filter_ext_in.
    intros d Hd'. apply elem_of_seqZ in Hd'. rewrite Hd; [done|apply (fm_all f Hfm); lia|lia].
  - intros d Hd'. apply elem_of_seqZ in Hd'. rewrite Hd by (lia || (apply (fm_all f Hfm); lia)).
    apply Hlow. lia.
  - intros d Hd'. apply elem_of_seqZ in Hd'. apply Hlow. lia.
Qed.

Lemma alloc_head h m : heap_ok bs hb hn h ->
  exists h' m', heap_ok bs hb hn h' /\
    fat_alloc sp f (h, m) = Some (match free_clusters f m with [] => 0 | c :: _ => c end, (h', m')) /\
    match free_clusters f m with
    | [] => mods [] [] m m'
    | c :: fr => mods [c] [c] m m' /\ fatv f m' c = EOC /\ free_clusters f m' = fr /\
        forall i, 0 <= i < cluster_size f -> cbyte f m' c i = 0
    end.
Proof.
  intros Hh. destruct Hfm as [Hw Hl Hall].
  destruct (fat_alloc_spec f bs hb hn sp h m A Hh Hw Hl Hall) as (c & h' & m' & E & Hh' & H).
  exists h', m'. split; [done|]. destruct H as [(-> & Hs & Hn)|(Hc & H0 & (He & Hz & Hm) & Hlow)].
  - replace (free_clusters f m) with (@nil Z); [split; [done|by apply same_mods]|]. symmetry.
    apply filter_none. intros c Hc. apply elem_of_seqZ in Hc. apply Hn. lia.
  - assert (Hmod : mods [c] [c] m m').
    { intros a Ha HF HC. apply Hm; [done|apply HF; left|apply HC; left]. }
    rewrite (free_take m m' c); try done.
    + rewrite He. done.
    + intros d Hd Hne. eapply mods_fat; [exact Hmod|done|set_solver|].
      constructor; [by apply Hall|constructor].
Qed.

(** ** Chains *)

Lemma chain_mods F C m m' l : mods F C m m' -> Forall (valid f) C -> (forall c, c ∈ l -> c ∉ F) ->
  chain f m l -> chain f m' l.
Proof.
  intros H HC HF [[Hv Hl] Hn He].
  assert (Hfat : forall c, c ∈ l -> fatv f m' c = fatv f m c).
  { intros c Hc. eapply mods_fat; [exact H| |by apply HF|done]. by eapply list.Forall_forall in Hv. }
  split; [split; [done|]|done|].
  - intros i c d Hc Hd. rewrite Hfat by (by eapply list_elem_of_lookup_2). by eapply Hl.
  - intros l0 c E. rewrite Hfat by (subst l; set_solver). by eapply He.
Qed.

(** Entries of a chain are not 0. *)
Lemma chain_used m l c : chain f m l -> c ∈ l -> fatv f m c <> 0.
Proof.
  intros [[Hv Hl] Hn He] Hc. apply list_elem_of_lookup in Hc as [i Hi].
  destruct (l !! S i) as [d|] eqn:Ed.
  - rewrite (Hl i c d Hi Ed). rewrite list.Forall_lookup in Hv. destruct (Hv _ _ Ed). lia.
  - rewrite (He (take i l) c); [done|]. apply lookup_ge_None in Ed. pose proof (lookup_lt_Some _ _ _ Hi).
    rewrite <- (take_S_r l i c Hi). by rewrite take_ge by lia.
Qed.

Lemma chain_free m l c : chain f m l -> c ∈ l -> c ∉ free_clusters f m.
Proof. intros Hl Hc H. apply free_spec in H as [_ H]. by eapply chain_used. Qed.

Lemma chain_snoc m m' l cur c : chain f m (l ++ [cur]) -> valid f c -> c ∉ (l ++ [cur]) ->
  (forall d, d ∈ l -> fatv f m' d = fatv f m d) -> fatv f m' cur = c -> fatv f m' c = EOC ->
  chain f m' ((l ++ [cur]) ++ [c]).
Proof.
  intros [[Hv Hl] Hn He] Hc Hni Hd H1 H2. split; [split|..].
  - apply Forall_app. split; [done|]. by constructor.
  - intros i x y Hx Hy. pose proof (lookup_lt_Some _ _ _ Hy) as Hi. rewrite !length_app in Hi. cbn in Hi.
    rewrite lookup_app_l in Hx by (rewrite length_app; cbn; lia).
    destruct (decide (i = length l)) as [->|].
    + rewrite lookup_app_r, Nat.sub_diag in Hx by lia. injection Hx as <-.
      rewrite lookup_app_r in Hy by (rewrite length_app; cbn; lia).
      rewrite length_app, Nat.add_1_r, Nat.sub_diag in Hy. injection Hy as <-. done.
    + pose proof (lookup_lt_Some _ _ _ Hx) as Hi2. rewrite length_app in Hi2. cbn in Hi2.
      rewrite lookup_app_l in Hy by (rewrite length_app; cbn; lia). rewrite <- (Hl i x y Hx Hy).
      apply Hd. rewrite lookup_app_l in Hx by lia. by eapply list_elem_of_lookup_2.
  - apply list.NoDup_app. split; [done|]. split; [set_solver|apply NoDup_singleton].
  - intros l0 x E. apply app_inj_tail in E as [_ <-]. done.
Qed.

(** The FAT operations, as changes of entries. *)
Lemma get_step m c : valid f c -> exists m', fat_get sp f c m = Some (fatv f m c, m') /\ mods [] [] m m'.
Proof.
  intros Hv. destruct (fat_get_spec f (ar_vol _ _ _ _ _ A) sp c m Hv (ar_sp _ _ _ _ _ A) (ar_stack _ _ _ _ _ A))
    as (m' & E & H). exists m'. split; [done|]. intros a Ha _ _. apply H. intros Hs. apply Ha. by right.
Qed.

Lemma set_step m c v : valid f c -> 0 <= v < 2^32 -> exists m', fat_set sp f c v m = Some (0, m') /\
  fatv f m' c = v /\ mods [c] [] m m'.
Proof.
  intros Hv Hr. destruct (fat_set_spec f (ar_vol _ _ _ _ _ A) sp c v m Hv (fm_writable f Hfm) Hr
    (ar_sp _ _ _ _ _ A) (ar_stack _ _ _ _ _ A)) as (m' & E & H1 & H2). exists m'. split_and!; [done|done|].
  intros a Ha HF _. apply H2; [|apply HF; left]. intros Hs. apply Ha. by right.
Qed.

Lemma valid_u32 c : valid f c -> 0 <= c < EOC /\ (c =? 0) = false /\ (c =? EOC) = false.
Proof.
  intros [H1 H2]. destruct (ar_vol _ _ _ _ _ A) as [_ _ V3 _ V5 _ V7]. unfold EOC.
  assert (c - 1 <= (c - 1) * sectors_per_cluster f) by nia. lia.
Qed.

(** A free cluster is linked behind the last one. *)
Lemma append_spec h m l cur c fr : heap_ok bs hb hn h -> chain f m (l ++ [cur]) ->
  free_clusters f m = c :: fr -> exists h' m1 m2 m3,
    fat_alloc sp f (h, m) = Some (c, (h', m1)) /\ fat_set sp f cur c m1 = Some (0, m2) /\
    fat_set sp f c EOC m2 = Some (0, m3) /\ valid f c /\ (c ∉ l ++ [cur]) /\ heap_ok bs hb hn h' /\
    chain f m3 ((l ++ [cur]) ++ [c]) /\ free_clusters f m3 = fr /\ mods [cur; c] [c] m m3 /\
    forall i, 0 <= i < cluster_size f -> cbyte f m3 c i = 0.
Proof.
  intros Hh Hl Hfr. destruct (alloc_head h m Hh) as (h' & m1 & Hh' & E1 & H). rewrite Hfr in H, E1.
  destruct H as (M1 & V1 & F1 & Z1).
  assert (Hc : c ∈ free_clusters f m) by (rewrite Hfr; left).
  assert (Hvc : valid f c) by (by eapply list.Forall_forall in Hc; [|apply free_valid]).
  assert (Hni : c ∉ (l ++ [cur])) by (intros Hin; by eapply chain_free).
  assert (Hvl : Forall (valid f) (l ++ [cur])) by apply Hl.
  assert (Hcur : valid f cur) by (apply Forall_app in Hvl as [_ H]; by inversion H).
  pose proof (valid_u32 c Hvc) as (U1 & U2 & U3).
  destruct (set_step m1 cur c Hcur ltac:(unfold EOC in *; lia)) as (m2 & E2 & V2 & M2).
  destruct (set_step m2 c EOC Hvc ltac:(unfold EOC in *; lia)) as (m3 & E3 & V3 & M3).
  assert (Hne : cur <> c) by set_solver.
  pose proof (mods_trans _ _ _ _ _ _ _ M2 M3) as M13. cbn [app] in M13.
  assert (Hfat : forall d, valid f d -> d <> c -> d <> cur -> fatv f m3 d = fatv f m d).
  { intros d Hd H1 H2. rewrite (mods_fat [cur; c] [] m1 m3 d), (mods_fat [c] [c] m m1 d);
      try done; try set_solver; all_valid. }
  assert (Hcur3 : fatv f m3 cur = c) by (rewrite <- V2; apply (mods_fat [c] [] m2 m3 cur); [done|done|set_solver|done]).
  exists h', m1, m2, m3. split_and!; try done.
  - apply (chain_snoc m); try done. intros d Hd. apply Forall_app in Hvl as [Hvl _].
    apply Hfat; [by eapply list.Forall_forall in Hvl|set_solver|]. intros ->.
    destruct Hl as [_ Hn _]. apply list.NoDup_app in Hn as (_ & Hn & _). by apply (Hn cur Hd); left.
  - rewrite <- F1. apply free_ext. intros d Hd. destruct (decide (d = c)) as [->|Hdc]; [by rewrite V1, V3|].
    destruct (decide (d = cur)) as [->|].
    + assert (V0 : fatv f m1 cur = fatv f m cur)
        by (apply (mods_fat [c] [c] m m1 cur); [done|done|set_solver|all_valid]).
      rewrite Hcur3, V0, (ch_end _ _ _ Hl l cur eq_refl). split; [lia|done].
    + by rewrite (mods_fat [cur; c] [] m1 m3 d) by (done || set_solver).
  - eapply mods_weaken; [| |exact (mods_trans _ _ _ _ _ _ _ M1 M13)]; set_solver.
  - intros i Hi. rewrite <- (Z1 i Hi). eapply mods_byte; [exact M13|done|set_solver|all_valid|done|done].
Qed.

(** ** Extending a chain *)

(** [m'] is [m] with the first [k] free clusters appended to the chain [l]. *)
Record extended (m : mem) (l : list Z) (k : nat) (m' : mem) : Prop := Extended {
  ex_chain : chain f m' (l ++ take k (free_clusters f m));
  ex_free : free_clusters f m' = drop k (free_clusters f m);
  ex_zero : forall c i, c ∈ take k (free_clusters f m) -> 0 <= i < cluster_size f -> cbyte f m' c i = 0;
  ex_mods : mods (l ++ take k (free_clusters f m)) (take k (free_clusters f m)) m m'
}.

Lemma extended_none m l m' : chain f m l -> mods [] [] m m' -> extended m l 0 m'.
Proof.
  intros Hl Hm. split; rewrite ?take_0, ?app_nil_r.
  - eapply chain_mods; [exact Hm|all_valid|set_solver|done].
  - apply free_ext. intros c Hc. by rewrite (mods_fat [] [] m m' c) by (done || set_solver).
  - intros c i Hc. by apply elem_of_nil in Hc.
  - eapply mods_weaken; [..|exact Hm]; set_solver.
Qed.

Lemma chain_valid_in m l c : chain f m l -> c ∈ l -> valid f c.
Proof. intros [[Hv _] _ _] Hc. by eapply list.Forall_forall in Hv. Qed.

Lemma extend_spec n : forall h m l cur, heap_ok bs hb hn h -> chain f m (l ++ [cur]) ->
  exists h' m' r, extend n sp f cur (h, m) = Some (r, (h', m')) /\ heap_ok bs hb hn h' /\
    extended m (l ++ [cur]) n m' /\
    if (n <=? length (free_clusters f m))%nat
    then exists l', (l ++ [cur]) ++ take n (free_clusters f m) = l' ++ [r] else r = 0.
Proof.
  induction n as [|n IH]; intros h m l cur Hh Hl.
  { exists h, m, cur. split_and!; [done|done|apply extended_none; [done|apply mods_refl]|].
    exists l. by rewrite take_0, app_nil_r. }
  cbn [extend]. destruct (free_clusters f m) as [|c fr] eqn:Efr.
  - destruct (alloc_head h m Hh) as (h' & m' & Hh' & E & M). rewrite Efr in E, M. rewrite E. bind. cbn [Z.eqb].
    exists h', m', 0. split_and!; try done. pose proof (extended_none m _ m' Hl M) as [X1 X2 X3 X4].
    rewrite Efr in *. by split; rewrite Efr.
  - destruct (append_spec h m l cur c fr Hh Hl Efr)
      as (h1 & m1 & m2 & m3 & E1 & E2 & E3 & Hv & Hni & Hh1 & Hl3 & F3 & M3 & Z3).
    pose proof (valid_u32 c Hv) as (_ & U & _). rewrite E1. bind. rewrite U. cbn [fst snd]. rewrite E2. bind.
    rewrite E3. bind. destruct (IH h1 m3 (l ++ [cur]) c Hh1 Hl3) as (h' & m' & r & E & Hh' & [X1 X2 X3 X4] & Hr).
    rewrite F3 in *. exists h', m', r. split_and!; [done|done| |].
    + assert (Hvn : Forall (valid f) (take n fr)) by (rewrite <- F3; apply Forall_take, free_valid).
      assert (Hcn : c ∉ take n fr).
      { intros Hc. apply (subseteq_take n fr) in Hc. rewrite <- F3 in Hc.
        apply (chain_free _ _ c Hl3); [set_solver|done]. }
      split; rewrite Efr; cbn [take drop].
      * by rewrite cons_middle, app_assoc.
      * done.
      * intros d i Hd Hi. apply elem_of_cons in Hd as [->|Hd]; [|by apply X3].
        rewrite (mods_byte _ _ _ _ _ _ X4); [by apply Z3|done|done|apply X1|done|done].
      * eapply mods_weaken; [| |exact (mods_trans _ _ _ _ _ _ _ M3 X4)]; set_solver.
    + cbn [length Nat.leb]. destruct (n <=? length fr)%nat; [|done]. destruct Hr as [l' Hr]. exists l'.
      rewrite <- Hr. cbn [take]. by rewrite cons_middle, app_assoc.
Qed.

(** ** Walking a chain *)

(** The next cluster of a chain, when there is one. *)
Lemma chain_next m l i c d : chain f m l -> l !! i = Some c -> l !! S i = Some d ->
  exists m', fat_get sp f c m = Some (d, m') /\ mods [] [] m m' /\ fat_is_eoc d = false /\ (d =? 0) = false.
Proof.
  intros Hl Hc Hd. destruct (get_step m c) as (m' & E & M); [eapply chain_valid_in, list_elem_of_lookup_2; done|].
  destruct Hl as [[Hv Hl] _ _]. rewrite (Hl i c d Hc Hd) in E. rewrite list.Forall_lookup in Hv.
  destruct (valid_u32 d (Hv _ _ Hd)) as (_ & U1 & U2). by exists m'.
Qed.

Lemma chain_last m l i c : chain f m l -> l !! i = Some c -> length l = S i -> l = take i l ++ [c].
Proof. intros Hl Hc Hi. rewrite <- (take_S_r l i c Hc). by rewrite take_ge by lia. Qed.

Lemma chain_end_spec fuel m : forall i c m1 l, chain f m1 l -> mods [] [] m m1 -> l !! i = Some c ->
  (length l - i <= fuel)%nat ->
  exists m' r, chain_end fuel sp f c (Z.of_nat i + 1) m1 = Some (r, Z.of_nat (length l), m') /\
    mods [] [] m m' /\ exists l0, l = l0 ++ [r].
Proof.
  induction fuel as [|fuel IH]; intros i c m1 l Hl Hm Hc Hf; pose proof (lookup_lt_Some _ _ _ Hc); [lia|].
  cbn [chain_end]. destruct (l !! S i) as [d|] eqn:Ed.
  - destruct (chain_next m1 l i c d Hl Hc Ed) as (m2 & E & M2 & E1 & E2). rewrite E. bind. rewrite E1, E2. cbn [negb andb].
    pose proof (mods_trans _ _ _ _ _ _ _ Hm M2) as Hm2.
    replace (Z.of_nat i + 1 + 1) with (Z.of_nat (S i) + 1) by lia.
    apply IH; [|done|done|lia]. eapply chain_mods; [exact M2|all_valid|set_solver|done].
  - apply lookup_ge_None in Ed. assert (Hlen : length l = S i) by lia.
    destruct (get_step m1 c) as (m2 & E & M2); [eapply chain_valid_in, list_elem_of_lookup_2; done|].
    rewrite (ch_end _ _ _ Hl _ _ (chain_last m1 l i c Hl Hc Hlen)) in E. rewrite E. bind. cbn [negb andb].
    exists m2, c. split_and!; [rewrite Hlen; do 3 f_equal; lia|exact (mods_trans _ _ _ _ _ _ _ Hm M2)|].
    exists (take i l). by eapply chain_last.
Qed.

(** The chain of a file gets [needed] clusters, if there are enough. *)
Lemma ensure_spec fuel h m l first needed : heap_ok bs hb hn h -> chain f m l -> l !! 0%nat = Some first ->
  (length l <= fuel)%nat ->
  let k := Z.to_nat (needed - Z.of_nat (length l)) in
  exists h' m' r, ensure_chain_length fuel sp f first needed (h, m) = Some (r, first, (h', m')) /\
    heap_ok bs hb hn h' /\ extended m l k m' /\
    (r =? 0) = negb (k <=? length (free_clusters f m))%nat.
Proof.
  intros Hh Hl H0 Hf k. pose proof (chain_valid_in _ _ _ Hl (list_elem_of_lookup_2 _ _ _ H0)) as [Hv _].
  unfold ensure_chain_length. rewrite (proj2 (Z.ltb_ge first 2)) by lia. bind. cbn [negb fst snd].
  destruct (chain_end_spec fuel m 0 first m l Hl (mods_refl m) H0 ltac:(lia)) as (m1 & r & E & M1 & l0 & El).
  change (Z.of_nat 0 + 1) with 1 in E. rewrite E. bind. fold k.
  assert (Hl1 : chain f m1 l) by (eapply chain_mods; [exact M1|all_valid|set_solver|done]).
  assert (F1 : free_clusters f m1 = free_clusters f m).
  { apply free_ext. intros c Hc. by rewrite (mods_fat [] [] m m1 c) by (done || set_solver). }
  rewrite El in Hl1. destruct (extend_spec k h m1 l0 r Hh Hl1) as (h' & m' & r' & E2 & Hh' & [X1 X2 X3 X4] & Hr).
  rewrite <- El in *. rewrite F1 in *. rewrite E2. bind. exists h', m', r'. split_and!; try done.
  - split; try done. exact (mods_trans _ _ _ _ _ _ _ M1 X4).
  - destruct (k <=? _)%nat; [|by rewrite Hr]. destruct Hr as [l' Hr].
    apply (valid_u32 r'). eapply chain_valid_in; [exact X1|]. rewrite Hr. set_solver.
Qed.

Lemma walk_spec m n : forall i c m1 h l, chain f m1 l -> mods [] [] m m1 -> l !! i = Some c ->
  (i + n < length l)%nat ->
  exists m' d, walk_or_new n sp f c (h, m1) = Some (Some d, (h, m')) /\ l !! (i + n)%nat = Some d /\ mods [] [] m m'.
Proof.
  induction n as [|n IH]; intros i c m1 h l Hl Hm Hc Hlt; cbn [walk_or_new].
  { exists m1, c. by rewrite Nat.add_0_r. }
  destruct (lookup_lt_is_Some_2 l (S i)) as [d Hd]; [lia|].
  destruct (chain_next m1 l i c d Hl Hc Hd) as (m2 & E & M2 & E1 & E2). unfold next_or_new. cbn [fst snd].
  rewrite E. bind. rewrite E1, E2. cbn [orb]. bind. rewrite E2.
  destruct (IH (S i) d m2 h l) as (m' & e & E3 & He & M'); [..|lia|].
  - eapply chain_mods; [exact M2|all_valid|set_solver|done].
  - exact (mods_trans _ _ _ _ _ _ _ Hm M2).
  - done.
  - exists m', e. by replace (i + S n)%nat with (S i + n)%nat by lia.
Qed.

(** ** Releasing a chain *)

Lemma chain_uncons m c l : chain f m (c :: l) -> chain f m l /\ c ∉ l /\ valid f c.
Proof.
  intros [[Hv Hl] Hn He]. inversion Hv; subst. inversion Hn; subst. split_and!; [|done|done].
  split; [split; [done|]|done|].
  - intros i x y Hx Hy. by apply (Hl (S i)).
  - intros l0 x ->. by apply (He (c :: l0)).
Qed.

Lemma free_chain_spec l : forall fuel c m, chain f m (c :: l) -> (length l < fuel)%nat ->
  exists m', free_chain fuel sp f c m = Some m' /\ mods (c :: l) [] m m' /\
    forall d, d ∈ (c :: l) -> fatv f m' d = 0.
Proof.
  induction l as [|d l IH]; intros [|fuel] c m Hc Hf; cbn [length] in Hf; try lia; cbn [free_chain];
    destruct (chain_uncons m c _ Hc) as (Ht & Hni & Hv); rewrite (proj2 (Z.leb_le 2 c)) by (destruct Hv; lia);
    destruct (get_step m c Hv) as (m1 & E1 & M1); rewrite E1; bind;
    destruct (set_step m1 c 0 Hv ltac:(lia)) as (m2 & E2 & V2 & M2); rewrite E2; bind;
    pose proof (mods_trans _ _ _ _ _ _ _ M1 M2) as M12; cbn [app] in M12.
  - rewrite (ch_end _ _ _ Hc [] c eq_refl). cbn [Z.eqb orb]. change (EOC =? EOC) with true. cbn match.
    exists m2. split_and!; [done|done|]. intros x Hx. apply list_elem_of_singleton in Hx as ->. done.
  - rewrite (proj2 (ch_linked _ _ _ Hc) 0%nat c d eq_refl eq_refl).
    destruct (chain_uncons m d l Ht) as (_ & _ & Hvd). destruct (valid_u32 d Hvd) as (_ & U1 & U2).
    rewrite U1, U2. cbn [orb].
    destruct (IH fuel d m2) as (m3 & E3 & M3 & Z3); [|lia|].
    { eapply chain_mods; [exact M12|all_valid|set_solver|done]. }
    exists m3. split_and!; [exact E3|exact (mods_trans _ _ _ _ _ _ _ M12 M3)|].
    intros x Hx. apply elem_of_cons in Hx as [->|Hx]; [|by apply Z3].
    rewrite <- V2. apply (mods_fat (d :: l) [] m2 m3 c M3 Hv Hni). all_valid.
Qed.

End volume.

End ExfatFat.
