(* ===== verification/ExfatWrite.v ===== *)
(** * Writing exFAT files

    A write changes the bytes of the range in the chain of the file, which grows
    by free clusters when the range ends behind it, and the size in the
    directory. *)

From S2P Require Import Prelude Kmalloc KmallocSpec KmallocProps Mem Block BlockSpec.
From S2P Require Import Devfs DevfsSpec Exfat ExfatSpec ExfatProps ExfatFat ExfatDir.

Module ExfatWrite.

Import Exfat DevfsSpec ExfatSpec ExfatProps ExfatFat.

Section volume.
Context {D : Type} `{BD : BlockDev D}.
Context (f : exfat_fs D) (bs : list KmallocSpec.blk) (hb hn sp : Z) (A : areas f bs hb hn sp).
Context (Hfm : formatted f).

Abbreviation mods := (modifies f hb hn bs sp).
Abbreviation csz := (cluster_size f).

Lemma buffer_step h : heap_ok bs hb hn h -> exists tmp h1 h2,
  Kmalloc.kmalloc h csz = Some (tmp, h1) /\ tmp <> 0 /\ bounce f hb hn bs sp tmp /\
  Kmalloc.kfree h1 tmp = Some h2 /\ heap_ok bs hb hn h2.
Proof.
  intros Hh. destruct A as [Hv (room & R1 & R2) _ _ _ _].
  destruct (cluster_buffer f Hv hb hn bs room R1 R2 sp h Hh) as (tmp & h1 & h2 & H1 & H2 & H3 & H4).
  exists tmp, h1, h2. split_and!; try done. destruct H2. lia.
Qed.

(** A cluster in a buffer, [bounce] memory or any other outside the disk. *)
Lemma read_step c tmp m : valid f c -> bounce f hb hn bs sp tmp ->
  exists m', read_cluster f c tmp m = (0, m') /\ copied m m' tmp (cl_addr f c) csz /\ mods [] [] m m'.
Proof.
  intros Hv (T1 & T2 & T3 & T4). pose proof (ar_heap _ _ _ _ _ A) as Hh. unfold apart in Hh.
  destruct (read_cluster_spec f (ar_vol _ _ _ _ _ A) c tmp m Hv T1) as (m' & E & H); [unfold apart; lia|].
  exists m'. split_and!; [done|done|]. intros a Ha _ _. rewrite H. inb_cases; [|done].
  exfalso. by apply Ha, T4.
Qed.

Lemma write_step c tmp m : valid f c -> bounce f hb hn bs sp tmp ->
  exists m', write_cluster f c tmp m = (0, m') /\ mods [] [c] m m' /\
    forall i, 0 <= i < csz -> cbyte f m' c i = rd8 m (tmp + i).
Proof.
  intros Hv (T1 & T2 & T3 & T4). pose proof (ar_heap _ _ _ _ _ A) as Hh. unfold apart in Hh.
  destruct (write_cluster_spec f (ar_vol _ _ _ _ _ A) c tmp m Hv (fm_writable _ Hfm) T1) as (m' & E & H);
    [unfold apart; lia|].
  exists m'. split_and!; [done|..].
  - intros a Ha _ HC. rewrite H. specialize (HC c ltac:(left)). inb_cases; [lia|done].
  - intros i Hi. unfold cbyte. rewrite H. inb_cases; [|lia]. f_equal. lia.
Qed.

(** A store to scratch memory. *)
Lemma scratch_step m m' tmp : bounce f hb hn bs sp tmp ->
  (forall a, ~ tmp <= a < tmp + csz -> rd8 m' a = rd8 m a) -> mods [] [] m m'.
Proof. intros (_ & _ & _ & T) H a Ha _ _. apply H. intros Hin. by apply Ha, T. Qed.

(** ** The transfer *)

Section transfer.
(** The memory before, the chain of the file, the range and the buffer. *)
Context (m0 : mem) (l : list Z) (Hl : chain f m0 l) (off len buf : Z) (Hbuf : buffer f hb hn sp buf len).

(** The first [k] bytes of the range are written. *)
Definition stored (k : Z) (m : mem) : Prop :=
  mods [] l m0 m /\
  forall i c j, l !! i = Some c -> 0 <= j < csz -> cbyte f m c j =
    let p := Z.of_nat i * csz + j in
    if inb off k p then rd8 m0 (buf + (p - off)) else cbyte f m0 c j.

Lemma chain_forall : Forall (valid f) l.
Proof. apply Hl. Qed.

Lemma chain_lookup i c : l !! i = Some c -> valid f c.
Proof. intros H. eapply chain_valid_in; [exact Hl|by eapply list_elem_of_lookup_2]. Qed.

Lemma stored_start m : mods [] [] m0 m -> stored 0 m.
Proof.
  intros H. split; [eapply mods_weaken; [..|exact H]; set_solver|]. intros i c j Hc Hj. cbn zeta.
  inb_cases; [lia|]. eapply mods_byte; [exact A|exact H|by eapply chain_lookup|set_solver|all_valid..|done].
Qed.

Lemma stored_same k m m' : stored k m -> mods [] [] m m' -> stored k m'.
Proof.
  intros [H1 H2] H. split.
  - eapply mods_weaken; [..|exact (mods_trans _ _ _ _ _ _ _ _ _ _ _ _ H1 H)]; set_solver.
  - intros i c j Hc Hj. rewrite <- (H2 i c j Hc Hj).
    eapply mods_byte; [exact A|exact H|by eapply chain_lookup|set_solver|all_valid..|done].
Qed.

Lemma stored_chain k m : stored k m -> chain f m l.
Proof. intros [H _]. eapply chain_mods; [exact A|exact Hfm|exact H|exact chain_forall|set_solver|done]. Qed.

Lemma stored_buf k m a : stored k m -> buf <= a < buf + len -> rd8 m a = rd8 m0 a.
Proof.
  intros [H _] Ha. destruct Hbuf as [B1 B2 B3 B4]. unfold apart in *.
  eapply mods_other; [exact A|exact H|all_valid|exact chain_forall|apply not_scratch; lia|lia].
Qed.

(** A part of the buffer goes into a cluster. *)
Lemma put_piece idx c skip k j tmp m : l !! idx = Some c -> 0 <= skip -> 0 < j -> skip + j <= csz ->
  0 <= k -> k + j <= len -> Z.of_nat idx * csz + skip = off + k -> bounce f hb hn bs sp tmp -> stored k m ->
  exists m1 m2, read_cluster f c tmp m = (0, m1) /\
    write_cluster f c tmp (Mem.copy_up (Z.to_nat j) 0 m1 (tmp + skip) (buf + k)) = (0, m2) /\ stored (k + j) m2.
Proof.
  intros Hi Hs Hj Hsj Hk Hkj Hpos Ht Hst. pose proof (chain_lookup idx c Hi) as Hv.
  destruct (read_step c tmp m Hv Ht) as (m1 & E1 & C1 & M1).
  pose proof (stored_same k m m1 Hst M1) as Hst1.
  set (m1' := Mem.copy_up (Z.to_nat j) 0 m1 (tmp + skip) (buf + k)).
  assert (Hc : forall a, rd8 m1' a = if inb (tmp + skip) j a then rd8 m0 (buf + k + (a - (tmp + skip))) else rd8 m1 a).
  { intros a. unfold m1'. destruct Hbuf as [B1 B2 B3 B4], Ht as (T1 & T2 & T3 & _). unfold apart in *.
    rewrite copy_spec by (unfold apart; lia). inb_cases; [|done]. apply (stored_buf k); [done|lia]. }
  assert (M1' : mods [] [] m1 m1').
  { apply (scratch_step _ _ tmp Ht). intros a Ha. rewrite Hc. inb_cases; [lia|done]. }
  destruct (write_step c tmp m1' Hv Ht) as (m2 & E2 & M2 & B2).
  pose proof (stored_same k m1 m1' Hst1 M1') as [S1 S2]. exists m1, m2. split_and!; [done|done|]. split.
  - pose proof (list_elem_of_lookup_2 _ _ _ Hi).
    eapply mods_weaken; [..|exact (mods_trans _ _ _ _ _ _ _ _ _ _ _ _ S1 M2)]; set_solver.
  - intros i d x Hd Hx. cbn zeta. destruct (decide (i = idx)) as [->|Hne].
    + rewrite Hi in Hd. injection Hd as <-. rewrite B2, Hc by done.
      replace (off + (k + j)) with (off + k + j) by lia.
      assert (Eo : inb (tmp + skip) j (tmp + x) = inb (off + k) j (Z.of_nat idx * csz + x))
        by (inb_cases; lia || done).
      rewrite Eo. destruct (inb (off + k) j _) eqn:Ei; [apply inb_true in Ei|apply inb_false in Ei].
      * inb_cases; [|lia]. f_equal. lia.
      * destruct Hst as [_ Hst]. rewrite C1. inb_cases; try lia.
        -- replace (cl_addr f c + (tmp + x - tmp)) with (cl_addr f c + x) by lia.
           fold (cbyte f m c x). rewrite (Hst idx c x Hi Hx). cbn zeta. inb_cases; [done|lia].
        -- replace (cl_addr f c + (tmp + x - tmp)) with (cl_addr f c + x) by lia.
           fold (cbyte f m c x). rewrite (Hst idx c x Hi Hx). cbn zeta. inb_cases; [lia|done].
    + assert (Hcd : d <> c).
      { intros ->. apply Hne. eapply NoDup_lookup; [apply Hl|exact Hd|exact Hi]. }
      rewrite (mods_byte f bs hb hn sp A [] [c] m1' m2 d x M2); [|by eapply chain_lookup|set_solver|all_valid..|done].
      rewrite (S2 i d x Hd Hx). cbn zeta. pose proof (csz_pos f bs hb hn sp A).
      assert (~ off + k <= Z.of_nat i * csz + x < off + k + j) by nia. inb_cases; lia || done.
Qed.

Lemma write_loop_spec fuel : forall idx c skip k h m,
  (Z.to_nat (len - k) < fuel)%nat -> len < 2^63 -> off + len <= Z.of_nat (length l) * csz ->
  l !! idx = Some c -> 0 <= skip < csz -> 0 <= k < len -> Z.of_nat idx * csz + skip = off + k ->
  heap_ok bs hb hn h -> stored k m -> exists h' m',
    write_loop fuel sp f buf len c skip k (h, m) = Some (true, (h', m')) /\
    heap_ok bs hb hn h' /\ stored len m'.
Proof.
  induction fuel as [|fuel IH]; intros idx c skip k h m Hfu Hlen Hend Hi Hs Hk Hpos Hh Hst; [lia|].
  pose proof (csz_pos f bs hb hn sp A) as Hcs. cbn [write_loop fst snd]. rewrite (proj2 (Z.ltb_lt k len)) by lia.
  destruct (buffer_step h Hh) as (tmp & h1 & h2 & E1 & T0 & T1 & E2 & Hh2). rewrite E1. bind.
  rewrite (proj2 (Z.eqb_neq tmp 0) T0), !sub64_small by lia.
  set (j := if len - k <? csz - skip then len - k else csz - skip).
  assert (Hj : j = Z.min (len - k) (csz - skip))
    by (unfold j; destruct (Z.ltb_spec (len - k) (csz - skip)); lia). clearbody j.
  destruct (put_piece idx c skip k j tmp m Hi) as (m1 & m2 & E3 & E4 & S2); try lia; [exact T1|exact Hst|].
  rewrite E3. cbn [Z.eqb negb]. rewrite E4. cbn [Z.eqb negb]. rewrite E2. bind. rewrite (add64_small k j) by lia.
  destruct (Z.leb_spec len (k + j)).
  - exists h2, m2. replace (k + j) with len in * by lia. by split.
  - assert (Hnext : (S idx < length l)%nat) by nia.
    destruct (lookup_lt_is_Some_2 l (S idx) Hnext) as [d Hd].
    destruct (chain_next f bs hb hn sp A m2 l idx c d (stored_chain _ _ S2) Hi Hd) as (m3 & E5 & M3 & N1 & N2).
    unfold next_or_new. cbn [fst snd]. rewrite E5. bind. rewrite N1, N2. cbn [orb]. bind. rewrite N2.
    apply (IH (S idx)); try lia; try done. by apply (stored_same (k + j) m2 m3).
Qed.

End transfer.

(** ** The directory *)

(** The search only reads the bytes of the directory. *)
Lemma find_stream_ext fuel m m' b b' n o : (forall i, 0 <= i < n -> rd8 m' (b' + i) = rd8 m (b + i)) ->
  forall i, 0 <= i -> find_stream fuel m' b' n o i = find_stream fuel m b n o i.
Proof.
  intros H. induction fuel as [|fuel IH]; intros i Hi; [done|]. cbn [find_stream].
  destruct (Z.leb_spec (i + 64) n); [|done]. rewrite H by lia.
  rewrite <- !Z.add_assoc, (H (i + 32)) by lia. rewrite (rd32_ext m m' _ (b + (i + (32 + 20)))).
  - by rewrite IH by lia.
  - intros k Hk. rewrite <- !Z.add_assoc. apply H. lia.
Qed.

Lemma find_stream_at fuel m b n o : forall i r, 0 <= i -> find_stream fuel m b n o i = Some (Some r) ->
  0 <= r /\ r + 64 <= n /\ rd32 m (b + r + 32 + 20) = o.
Proof.
  induction fuel as [|fuel IH]; intros i r Hi H; [done|]. cbn [find_stream] in H.
  destruct (Z.leb_spec (i + 64) n); [|done]. destruct (_ =? 0); [done|]. cbn [andb negb] in H.
  destruct (_ && _ && _) eqn:E; [|apply IH in H; [done|lia]]. injection H as <-.
  apply andb_prop in E as [_ E]. apply Z.eqb_eq in E. split_and!; done || lia.
Qed.

Lemma find_stream_some fuel m b n o : forall i, 0 <= i -> (Z.to_nat (n - i) < fuel)%nat ->
  is_Some (find_stream fuel m b n o i).
Proof.
  induction fuel as [|fuel IH]; intros i Hi Hf; [lia|]. cbn [find_stream].
  destruct (Z.leb_spec (i + 64) n); [|by eexists]. destruct (_ =? 0); [by eexists|]. cbn [andb negb].
  destruct (_ && _ && _); [by eexists|]. apply IH; lia.
Qed.

(** The entry of the root directory whose stream starts at [first]. *)
Definition entry_of (m : mem) (first : Z) : option (option Z) :=
  find_stream (dir_fuel csz) m (cl_addr f (root_dir_cluster f)) csz first 0.

(** Only the size in that entry changes. *)
Definition resized (m : mem) (first sz : Z) (m' : mem) : Prop :=
  match entry_of m first with
  | Some (Some i) =>
      rd64 m' (cl_addr f (root_dir_cluster f) + i + 56) = sz /\
      forall j, 0 <= j < csz -> ~ i + 56 <= j < i + 64 ->
        cbyte f m' (root_dir_cluster f) j = cbyte f m (root_dir_cluster f) j
  | _ => forall j, 0 <= j < csz -> cbyte f m' (root_dir_cluster f) j = cbyte f m (root_dir_cluster f) j
  end.

Context (Hroot : valid f (root_dir_cluster f)).
Abbreviation root := (root_dir_cluster f).

Lemma dir_update_spec first sz h m : heap_ok bs hb hn h -> 0 <= sz < 2^64 -> exists rc h' m',
  dir_update_stream_by_first_cluster f first first sz (h, m) = Some (rc, (h', m')) /\
  heap_ok bs hb hn h' /\ mods [] [root] m m' /\ resized m first sz m'.
Proof.
  intros Hh Hsz. pose proof (csz_pos f bs hb hn sp A) as Hcs. unfold dir_update_stream_by_first_cluster. cbn [fst snd].
  destruct (buffer_step h Hh) as (dir & h1 & h2 & E1 & T0 & T1 & E2 & Hh2). rewrite E1. bind.
  rewrite (proj2 (Z.eqb_neq dir 0) T0). destruct (read_step root dir m Hroot T1) as (m1 & E3 & C1 & M1).
  rewrite E3. cbn [Z.eqb negb]. rewrite s32_small by lia.
  assert (Hd : forall i, 0 <= i < csz -> rd8 m1 (dir + i) = cbyte f m root i).
  { intros i Hi. rewrite C1. inb_cases; [|lia]. unfold cbyte. f_equal. lia. }
  rewrite (find_stream_ext _ m m1 (cl_addr f root) dir csz first Hd 0) by lia.
  destruct (find_stream_some (dir_fuel csz) m (cl_addr f root) csz first 0) as [r Er]; [lia|unfold dir_fuel; lia|].
  unfold resized, entry_of. rewrite Er. bind. destruct r as [i|].
  - destruct (find_stream_at _ _ _ _ _ 0 i ltac:(lia) Er) as (I1 & I2 & I3).
    assert (Ef : rd32 m1 (dir + i + 32 + 20) = first).
    { rewrite <- I3. apply rd32_ext. intros k Hk. rewrite <- !Z.add_assoc. apply Hd. lia. }
    rewrite Ef, Z.eqb_refl, andb_false_r. set (m2 := wr64 m1 (dir + i + 32 + 24) sz).
    assert (M2 : mods [] [] m1 m2).
    { apply (scratch_step _ _ dir T1). intros a Ha. apply rd8_wr64_ne. lia. }
    destruct (write_step root dir m2 Hroot T1) as (m3 & E4 & M3 & B3). rewrite E4, E2. bind.
    exists 0, h2, m3. split_and!; [done|done|..].
    + eapply mods_weaken; [..|exact (mods_trans _ _ _ _ _ _ _ _ _ _ _ _ M1 (mods_trans _ _ _ _ _ _ _ _ _ _ _ _ M2 M3))];
        set_solver.
    + rewrite <- (rd64_wr64 m1 (dir + i + 32 + 24) sz Hsz). apply rd64_ext. intros k Hk. fold m2.
      replace (cl_addr f root + i + 56 + k) with (cl_addr f root + (i + 56 + k)) by lia.
      fold (cbyte f m3 root (i + 56 + k)). rewrite B3 by lia. f_equal. lia.
    + intros j Hj Hnj. rewrite B3 by lia. unfold m2. rewrite rd8_wr64_ne by lia. by apply Hd.
  - rewrite E2. bind. exists (-1), h2, m1. split_and!; [done|done| |].
    + eapply mods_weaken; [..|exact M1]; set_solver.
    + intros j Hj. eapply mods_byte; [exact A|exact M1|done|set_solver|all_valid..|done].
Qed.

(** ** The whole write *)

(** Clusters that a range with end [e] takes. *)
Definition clusters_for (e : Z) : Z := (e + csz - 1) / csz.

Lemma clusters_for_spec e : 0 < e -> 0 < clusters_for e /\ e <= clusters_for e * csz.
Proof. pose proof (csz_pos f bs hb hn sp A). intros He. unfold clusters_for. split; [apply Z.div_str_pos|zmod]; lia. Qed.

(** The root directory is in no chain that grows from free clusters. *)
Lemma root_not_in m l k : root ∉ l -> fatv f m root <> 0 -> root ∉ l ++ take k (free_clusters f m).
Proof.
  intros H1 H2 H. apply elem_of_app in H as [H|H]; [done|].
  apply (subseteq_take k) in H. apply (free_spec f m) in H. tauto.
Qed.

Lemma extended_valid m l k m' : extended f bs hb hn sp m l k m' -> Forall (valid f) (l ++ take k (free_clusters f m)).
Proof. intros [X _ _ _]. apply X. Qed.

(** Extending a file does not change its bytes. *)
Lemma extended_content m l k m' i : extended f bs hb hn sp m l k m' -> chain f m l -> 0 <= i ->
  content f m' (l ++ take k (free_clusters f m)) i = content f m l i.
Proof.
  intros X Hl Hi. pose proof (extended_valid _ _ _ _ X) as Hv. destruct X as [X1 X2 X3 X4].
  pose proof (csz_pos f bs hb hn sp A) as Hcs. pose proof (Z.mod_pos_bound i csz ltac:(lia)) as Hr. unfold content.
  destruct (l !! Z.to_nat (i / csz)) as [c|] eqn:Ec.
  - rewrite (lookup_app_l_Some _ _ _ _ Ec). apply list_elem_of_lookup_2 in Ec.
    eapply mods_byte; [exact A|exact X4|by eapply chain_valid_in| |done| |done].
    + intros Hin. apply (subseteq_take k) in Hin. by eapply chain_free.
    + apply Forall_app in Hv. apply Hv.
  - apply lookup_ge_None in Ec. rewrite lookup_app_r by done.
    destruct (take k _ !! _) as [c|] eqn:Ec2; [|done]. apply X3; [by eapply list_elem_of_lookup_2|done].
Qed.

Lemma stored_content m0 l off len buf m i : chain f m0 l -> stored m0 l off buf len m -> 0 <= i ->
  off + len <= Z.of_nat (length l) * csz ->
  content f m l i = if inb off len i then rd8 m0 (buf + (i - off)) else content f m0 l i.
Proof.
  intros Hl [_ H] Hi Hend. pose proof (csz_pos f bs hb hn sp A) as Hcs. unfold content.
  pose proof (Z.mod_pos_bound i csz ltac:(lia)) as Hr. pose proof (Z.div_mod i csz ltac:(lia)) as Hdm.
  pose proof (Z.div_pos i csz Hi ltac:(lia)).
  destruct (l !! Z.to_nat (i / csz)) as [c|] eqn:Ec.
  - rewrite (H _ _ _ Ec Hr). cbn zeta. by replace (Z.of_nat (Z.to_nat (i / csz)) * csz + i mod csz) with i by lia.
  - apply lookup_ge_None in Ec. inb_cases; [nia|done].
Qed.

(** The bytes of a file whose clusters are not changed. *)
Lemma content_mods F C m m' l i : mods F C m m' -> Forall (valid f) F -> Forall (valid f) C -> Forall (valid f) l ->
  (forall c, c ∈ l -> c ∉ C) -> 0 <= i -> content f m' l i = content f m l i.
Proof.
  intros H HF HC Hl Hd Hi. pose proof (csz_pos f bs hb hn sp A) as Hcs. unfold content.
  destruct (l !! _) as [c|] eqn:Ec; [|done]. pose proof (list_elem_of_lookup_2 _ _ _ Ec) as Hin.
  eapply mods_byte; [exact A|exact H| |by apply Hd|done|done|apply Z.mod_pos_bound; lia].
  by eapply list.Forall_forall in Hl.
Qed.

Lemma resized_base m0 m first sz m' :
  (forall j, 0 <= j < csz -> cbyte f m root j = cbyte f m0 root j) ->
  resized m first sz m' -> resized m0 first sz m'.
Proof.
  intros H. unfold resized. replace (entry_of m first) with (entry_of m0 first)
    by (symmetry; apply find_stream_ext; [exact H|lia]).
  destruct (entry_of m0 first) as [[i|]|]; [intros [H1 H2]; split; [done|]|..];
    intros; rewrite <- H by done; auto.
Qed.

(** A file in a directory: its node, its chain, and the root directory outside
    the chain and in use. *)
Record file_ok (m : mem) (n : exfat_node D) (l : list Z) : Prop := FileOk {
  fo_fs : fs n = f;
  fo_chain : chain f m l;
  fo_first : l !! 0%nat = Some (first_cluster n);
  fo_file : is_dir n = 0;
  fo_size : 0 <= size n < 2^63;
  fo_cover : size n <= Z.of_nat (length l) * csz;
  fo_root : root ∉ l;
  fo_used : fatv f m root <> 0
}.

Lemma file_ok_mods m m' n l : mods [] [] m m' -> file_ok m n l -> file_ok m' n l.
Proof.
  intros H [Hfs Hl H0 Hd Hsz Hcv Hr Hu]. split; try done.
  - eapply chain_mods; [exact A|exact Hfm|exact H|all_valid|set_solver|done].
  - by rewrite (mods_fat f bs hb hn sp A [] [] m m' root H) by (done || set_solver).
Qed.

Section write.
Context (fuel : nat) (buf len off : Z) (h : Kmalloc.kheap) (m : mem) (l : list Z) (n : exfat_node D).
Context (Hb : buffer f hb hn sp buf len) (Hh : heap_ok bs hb hn h) (Hn : file_ok m n l).
Context (Hfuel : (length l <= fuel)%nat) (Hoff : 0 <= off) (Hlen : 0 < len) (Hend : off + len < 2^63).

Abbreviation more := (Z.to_nat (clusters_for (off + len) - Z.of_nat (length l))).
Abbreviation l' := (l ++ take more (free_clusters f m)).

(** The guards, and the chain extended. *)
Lemma write_phases : exists h1 m1 r,
  heap_ok bs hb hn h1 /\ extended f bs hb hn sp m l more m1 /\
  (r =? 0) = negb (more <=? length (free_clusters f m))%nat /\
  exfat_write fuel sp (Some n) off buf len (h, m) =
    if r =? 0 then Some (-1, Some n, (h1, m1))
    else
      '(cl, s) ← walk_or_new (Z.to_nat (off / csz)) sp f (first_cluster n) (h1, m1);
      match cl with
      | None => Some (-1, Some n, s)
      | Some cl =>
          '(ok, s) ← write_loop (loop_fuel len) sp f buf len cl (off mod csz) 0 s;
          if negb (ok : bool) then Some (-1, Some n, s)
          else
            '(_, s) ← dir_update_stream_by_first_cluster f (first_cluster n) (first_cluster n)
                        (Z.max (size n) (off + len)) s;
            Some (s32 len, Some (MkNode f (first_cluster n) 0 (Z.max (size n) (off + len))), s)
      end.
Proof.
  destruct Hn as [Hfs Hl H0 Hd Hsz Hcv Hr Hu]. destruct Hb as [B1 _ _ _]. pose proof (csz_pos f bs hb hn sp A) as Hcs.
  destruct (ensure_spec f bs hb hn sp A Hfm fuel h m l (first_cluster n) (clusters_for (off + len)) Hh Hl H0 Hfuel)
    as (h1 & m1 & r & E & Hh1 & X & Er). exists h1, m1, r. split_and!; [done|done|done|].
  assert (Hv : 2 <= first_cluster n).
  { eapply (chain_valid_in f m l); [exact Hl|]. by eapply list_elem_of_lookup_2. }
  unfold exfat_write. rewrite (proj2 (Z.eqb_neq buf 0)), Hd by lia. cbn [Z.eqb negb].
  rewrite (proj2 (Z.eqb_neq len 0)), Hfs, (proj2 (Z.eqb_neq csz 0)) by lia.
  rewrite (add64_small off len), (add64_small (off + len) csz), sub64_small by lia. fold (clusters_for (off + len)).
  rewrite E. bind. destruct n as [nf nc nd nz]. cbn [fs first_cluster is_dir size] in *. subst nf nd.
  rewrite (proj2 (Z.eqb_neq nc 0)) by lia. cbn [negb].
  replace (if nz <? off + len then off + len else nz) with (Z.max nz (off + len))
    by (destruct (Z.ltb_spec nz (off + len)); lia). done.
Qed.

(** The node after the write. *)
Abbreviation n' := (MkNode f (first_cluster n) 0 (Z.max (size n) (off + len))).

Lemma write_covers : (more <= length (free_clusters f m))%nat -> off + len <= Z.of_nat (length l') * csz.
Proof.
  intros H. destruct (clusters_for_spec (off + len) ltac:(lia)) as [C1 C2].
  pose proof (csz_pos f bs hb hn sp A). rewrite length_app, length_take. nia.
Qed.

(** From the memories after the three phases: extension, transfer, directory. *)
Lemma write_result m1 m3 m4 : (more <= length (free_clusters f m))%nat ->
  extended f bs hb hn sp m l more m1 -> stored m1 l' off buf len m3 -> mods [] [root] m3 m4 ->
  resized m3 (first_cluster n) (size n') m4 ->
  file_ok m4 n' l' /\ free_clusters f m4 = drop more (free_clusters f m) /\
  (forall i, 0 <= i -> content f m4 l' i =
     if inb off len i then rd8 m (buf + (i - off)) else content f m l i) /\
  resized m (first_cluster n) (size n') m4 /\ mods l' (root :: l') m m4.
Proof.
  intros Henough X S3 M4 R4. destruct Hn as [Hfs Hl H0 Hd Hsz Hcv Hr Hu].
  pose proof (extended_valid _ _ _ _ X) as Hv'. pose proof (root_not_in m l more Hr Hu) as Hr'.
  pose proof (write_covers Henough) as Hcov. pose proof X as [X1 X2 X3 X4]. pose proof S3 as [M3 _].
  pose proof (mods_trans _ _ _ _ _ _ _ _ _ _ _ _ X4 M3) as M13.
  pose proof (mods_trans _ _ _ _ _ _ _ _ _ _ _ _ M13 M4) as M14.
  pose proof Hv' as Hv2. apply Forall_app in Hv2 as [Hvl Hvt]. split_and!.
  - split; try done; [| |cbn [size]; lia|..].
    + eapply chain_mods; [exact A|exact Hfm|exact M4|all_valid|set_solver|].
      by apply (stored_chain m1 l' X1 off len buf Hb len).
    + by apply lookup_app_l_Some.
    + cbn [size]. rewrite length_app in *. pose proof (csz_pos f bs hb hn sp A). nia.
    + rewrite (mods_fat f bs hb hn sp A _ _ m m4 root M14); [done|done|set_solver|all_valid].
  - rewrite <- X2. apply (free_ext f Hfm). intros c Hc.
    rewrite (mods_fat f bs hb hn sp A [] [root] m3 m4 c), (mods_fat f bs hb hn sp A [] l' m1 m3 c);
      try done; try set_solver; all_valid.
  - intros i Hi. rewrite (content_mods [] [root] m3 m4 l' i M4); [|all_valid|all_valid|done|set_solver|done].
    rewrite (stored_content m1 l' off len buf m3 i X1 S3 Hi Hcov), (extended_content m l more m1 i X Hl Hi).
    destruct (inb off len i) eqn:Ei; [apply inb_true in Ei|done]. destruct Hb as [B1 B2 B3 B4]. unfold apart in *.
    eapply (mods_other f bs hb hn sp A); [exact X4|all_valid|all_valid|apply not_scratch; lia|lia].
  - eapply resized_base; [|exact R4]. intros j Hj.
    eapply mods_byte; [exact A|exact M13|done|set_solver|all_valid|all_valid|done].
  - eapply mods_weaken; [..|exact M14]; set_solver.
Qed.

Lemma exfat_write_spec : (more <= length (free_clusters f m))%nat -> exists h' m',
  exfat_write fuel sp (Some n) off buf len (h, m) = Some (s32 len, Some n', (h', m')) /\
  heap_ok bs hb hn h' /\ file_ok m' n' l' /\ free_clusters f m' = drop more (free_clusters f m) /\
  (forall i, 0 <= i -> content f m' l' i =
     if inb off len i then rd8 m (buf + (i - off)) else content f m l i) /\
  resized m (first_cluster n) (size n') m' /\ mods l' (root :: l') m m'.
Proof.
  intros Henough. destruct write_phases as (h1 & m1 & r & Hh1 & X & Er & ->).
  rewrite (proj2 (Nat.leb_le _ _) Henough) in Er. cbn [negb] in Er. rewrite Er.
  pose proof (write_covers Henough) as Hcov. pose proof (csz_pos f bs hb hn sp A) as Hcs. pose proof (ex_chain _ _ _ _ _ _ _ _ _ X) as X1.
  pose proof (Z.div_mod off csz ltac:(lia)). pose proof (Z.mod_pos_bound off csz ltac:(lia)).
  pose proof (Z.div_pos off csz Hoff ltac:(lia)).
  destruct (walk_spec f bs hb hn sp A Hfm m1 (Z.to_nat (off / csz)) 0 (first_cluster n) m1 h1 l')
    as (m2 & cl & -> & Hcl & M2); [done|apply mods_refl|by apply lookup_app_l_Some, Hn|nia|]. bind.
  destruct (write_loop_spec m1 l' X1 off len buf Hb (loop_fuel len) (Z.to_nat (off / csz)) cl (off mod csz) 0 h1 m2)
    as (h3 & m3 & -> & Hh3 & S3); try done; [unfold loop_fuel; lia|lia|lia|by apply (stored_start m1 l' X1 off len buf Hb)|].
  bind. cbn [negb]. destruct (dir_update_spec (first_cluster n) (size n') h3 m3 Hh3) as (rc & h4 & m4 & E4 & Hh4 & M4 & R4).
  { destruct (fo_size _ _ _ Hn). cbn [size]. lia. }
  cbn [size] in E4. rewrite E4. bind. exists h4, m4. split; [done|]. split; [done|]. by apply (write_result m1 m3 m4).
Qed.

(** Without enough free clusters the write fails, after giving the file all of
    them; its bytes and its directory entry stay. *)
Lemma exfat_write_full_spec : (length (free_clusters f m) < more)%nat -> exists h' m',
  exfat_write fuel sp (Some n) off buf len (h, m) = Some (-1, Some n, (h', m')) /\
  heap_ok bs hb hn h' /\ file_ok m' n (l ++ free_clusters f m) /\ free_clusters f m' = [] /\
  (forall i, 0 <= i -> content f m' (l ++ free_clusters f m) i = content f m l i) /\
  mods (l ++ free_clusters f m) (free_clusters f m) m m'.
Proof.
  intros Hfull. destruct write_phases as (h1 & m1 & r & Hh1 & X & Er & ->).
  rewrite (proj2 (Nat.leb_gt _ _) Hfull) in Er. rewrite Er. cbn [negb]. exists h1, m1.
  pose proof X as [X1 X2 X3 X4]. pose proof (fun i => extended_content m l more m1 i X (fo_chain _ _ _ Hn)) as Xc.
  rewrite take_ge in * by lia. rewrite drop_ge in X2 by lia. pose proof (free_valid f Hfm m) as Hfv.
  pose proof (root_not_in m l more (fo_root _ _ _ Hn) (fo_used _ _ _ Hn)) as Hr'. rewrite take_ge in Hr' by lia.
  split_and!; try done. destruct Hn as [Hfs Hl H0 Hd Hsz Hcv Hr Hu]. split; try done.
  - by apply lookup_app_l_Some.
  - rewrite length_app. pose proof (csz_pos f bs hb hn sp A). nia.
  - by rewrite (mods_fat f bs hb hn sp A _ _ m m1 root X4) by done.
Qed.

End write.

End volume.

Section read_back.
Context {D : Type} `{BD : BlockDev D}.
Context (f : exfat_fs D) (bs : list KmallocSpec.blk) (hb hn sp : Z) (A : areas f bs hb hn sp).
Context (Hfm : formatted f) (Hroot : valid f (root_dir_cluster f)).

(** A write and a read of any range [pos .. pos + k) up to its end. *)
Lemma write_read_range fuel buf buf2 len off pos k h m l n :
  buffer f hb hn sp buf len -> buffer f hb hn sp buf2 k -> heap_ok bs hb hn h -> file_ok f m n l ->
  (length l <= fuel)%nat -> 0 <= off -> 0 < len -> off + len < 2^63 ->
  clusters_for f (off + len) <= Z.of_nat (length l + length (free_clusters f m)) ->
  0 <= pos -> 0 <= k -> pos + k <= Z.max (size n) (off + len) ->
  exists n' s1 h2 m2, exfat_write fuel sp (Some n) off buf len (h, m) = Some (s32 len, Some n', s1) /\
    exfat_read sp (Some n') pos buf2 k s1 = Some (s32 k, (h2, m2)) /\ heap_ok bs hb hn h2 /\
    forall i, 0 <= i < k -> rd8 m2 (buf2 + i) =
      if inb off len (pos + i) then rd8 m (buf + (pos + i - off)) else content f m l (pos + i).
Proof.
  intros Hb Hb2 Hh Hn Hfu Ho Hl He Hfr Hp Hk Hpk.
  destruct (exfat_write_spec f bs hb hn sp A Hfm Hroot fuel buf len off h m l n Hb Hh Hn Hfu Ho Hl He ltac:(lia))
    as (h1 & m1 & E & H1 & H2 & _ & H4 & _). set (l' := l ++ _) in *.
  destruct H2 as [_ Hc H0 _ Hs Hcv _ _].
  destruct (exfat_read_spec f bs hb hn sp buf2 k pos h1 m1 l' (MkNode f (first_cluster n) 0 (Z.max (size n) (off + len)))
    A Hb2 H1 (ch_linked _ _ _ Hc) eq_refl H0 eq_refl Hp Hk (proj2 Hs) Hcv) as (h2 & m2 & E2 & H5 & H6).
  cbn [size] in *. replace (Z.max 0 _) with k in * by lia.
  exists (MkNode f (first_cluster n) 0 (Z.max (size n) (off + len))), (h1, m1), h2, m2. split_and!; try done. intros i Hi.
  destruct Hb2 as [B1 B2 B3 B4]. unfold apart in *. rewrite H6 by (apply not_scratch; lia).
  replace (pos + (buf2 + i - buf2)) with (pos + i) by lia. inb_cases; try lia; rewrite H4 by lia; inb_cases; (lia || done).
Qed.

End read_back.

Section props.
Context {D : Type} `{BD : BlockDev D}.

(** C17. Writing a file: the chain of the file grows by as many of the first free
    clusters as the range needs; if there are not enough, the result is -1.
    Otherwise it is the length, the bytes of the range are those of the buffer,
    all other bytes of the file are as before (0 in new clusters), and the node and
    the directory entry have the new size.  Only the FAT entries and clusters of
    the file, the directory and scratch memory change; the buffers are given back. *)
Theorem exfat_write_correct (f : exfat_fs D) bs hb hn sp fuel buf len off h m l n :
  areas f bs hb hn sp -> formatted f -> valid f (root_dir_cluster f) -> buffer f hb hn sp buf len ->
  heap_ok bs hb hn h -> file_ok f m n l -> (length l <= fuel)%nat ->
  0 <= off -> 0 < len -> off + len < 2^63 ->
  let fr := free_clusters f m in
  let k := Z.to_nat (clusters_for f (off + len) - Z.of_nat (length l)) in
  let l' := l ++ take k fr in
  let ok := (k <=? length fr)%nat in
  let sz := Z.max (size n) (off + len) in
  exists h' m', exfat_write fuel sp (Some n) off buf len (h, m)
      = Some (if ok then s32 len else -1, Some (if ok then MkNode f (first_cluster n) 0 sz else n), (h', m')) /\
    heap_ok bs hb hn h' /\ file_ok f m' (if ok then MkNode f (first_cluster n) 0 sz else n) l' /\
    free_clusters f m' = drop k fr /\
    (forall i, 0 <= i -> content f m' l' i =
       if ok && inb off len i then rd8 m (buf + (i - off)) else content f m l i) /\
    (if ok then resized f m (first_cluster n) sz m'
     else forall j, 0 <= j < cluster_size f ->
       cbyte f m' (root_dir_cluster f) j = cbyte f m (root_dir_cluster f) j) /\
    modifies f hb hn bs sp l' (root_dir_cluster f :: l') m m'.
Proof.
  intros A Hfm Hroot Hb Hh Hn Hfu Ho Hl He fr k l' ok sz. unfold ok. destruct (Nat.leb_spec k (length fr)) as [Hk|Hk].
  - destruct (exfat_write_spec f bs hb hn sp A Hfm Hroot fuel buf len off h m l n Hb Hh Hn Hfu Ho Hl He Hk)
      as (h' & m' & E & H). exists h', m'. split; [exact E|exact H].
  - destruct (exfat_write_full_spec f bs hb hn sp A Hfm Hroot fuel buf len off h m l n Hb Hh Hn Hfu Ho Hl He Hk)
      as (h' & m' & E & H1 & H2 & H3 & H4 & H5). exists h', m'. unfold l', fr in *. cbn [andb].
    rewrite take_ge, drop_ge by lia. split_and!; try done.
    + intros j Hj. eapply mods_byte; [exact A|exact H5|done| |apply (fo_chain _ _ _ _ H2)|apply (free_valid f Hfm)|done].
      intros Hin. apply (free_spec f m) in Hin. apply (fo_used _ _ _ _ Hn). tauto.
    + eapply mods_weaken; [..|exact H5]; set_solver.
Qed.

(** What is written can be read back: after a successful write, reading the
    same range with the node returns all of its bytes, wherever the range lies and
    however many clusters it takes. *)
Theorem exfat_write_read (f : exfat_fs D) bs hb hn sp fuel buf buf2 len off h m l n :
  areas f bs hb hn sp -> formatted f -> valid f (root_dir_cluster f) ->
  buffer f hb hn sp buf len -> buffer f hb hn sp buf2 len -> heap_ok bs hb hn h -> file_ok f m n l ->
  (length l <= fuel)%nat -> 0 <= off -> 0 < len -> off + len < 2^63 ->
  clusters_for f (off + len) <= Z.of_nat (length l + length (free_clusters f m)) ->
  exists n' s1 h2 m2, exfat_write fuel sp (Some n) off buf len (h, m) = Some (s32 len, Some n', s1) /\
    exfat_read sp (Some n') off buf2 len s1 = Some (s32 len, (h2, m2)) /\ heap_ok bs hb hn h2 /\
    forall i, 0 <= i < len -> rd8 m2 (buf2 + i) = rd8 m (buf + i).
Proof.
  intros A Hfm Hroot Hb Hb2 Hh Hn Hfu Ho Hl He Hfr.
  destruct (write_read_range f bs hb hn sp A Hfm Hroot fuel buf buf2 len off off len h m l n)
    as (n' & s1 & h2 & m2 & E1 & E2 & H1 & H2); try done; try lia.
  exists n', s1, h2, m2. split_and!; try done. intros i Hi. rewrite H2 by done.
  inb_cases; [|lia]. f_equal. lia.
Qed.

End props.

(** ** A volume of 126 clusters

    Cluster 2 is the directory; a file of 700 bytes has the clusters 3 and 5. *)

Definition demo_disk : mem :=
  let fat := 0x100000 + 512 in wr32 (wr32 (wr32 ∅ (fat + 8) EOC) (fat + 12) 5) (fat + 20) EOC.
Definition demo_file : exfat_node Block.device := MkNode demo_small 3 0 700.

Lemma demo_small_areas : areas demo_small [(0x400 - 32, true)] 0x1000 0x400 0x8000.
Proof.
  constructor; [constructor; cbn; lia| |done|left; cbn; lia|left; cbn; lia|left; cbn; lia].
  exists (0x400 - 32). split; [left|done].
Qed.

Lemma demo_small_valid i : 2 <= i < 128 -> valid demo_small i.
Proof. intros Hi. split; cbn; lia. Qed.

Lemma demo_formatted : formatted demo_small.
Proof. constructor; [exact I|cbn; lia|]. intros i Hi. apply demo_small_valid. cbn in Hi. lia. Qed.

Lemma demo_file_ok : file_ok demo_small demo_disk demo_file [3; 5].
Proof.
  split; try reflexivity; try (cbn; lia).
  - split.
    + split; [repeat apply list.Forall_cons_2; try apply list.Forall_nil_2; apply demo_small_valid; lia|].
      intros [|[|i]] c d Hc Hd; [|discriminate..]. injection Hc as <-. injection Hd as <-. reflexivity.
    + apply (bool_decide_unpack _). exact I.
    + intros l0 c E. destruct l0 as [|x [|y l0]]; [discriminate| |destruct l0; discriminate].
      injection E as <- <-. reflexivity.
  - apply (bool_decide_unpack _). exact I.
  - vm_compute. discriminate.
Qed.

Lemma demo_free : length (free_clusters demo_small demo_disk) = 123%nat.
Proof. vm_compute. reflexivity. Qed.

Lemma exfat_write_correct_witness : exists h' m',
  exfat_write 2 0x8000 (Some demo_file) 500 0x20000 700 (demo_kheap, demo_disk)
    = Some (700, Some (MkNode demo_small 3 0 1200), (h', m')) /\
  chain demo_small m' [3; 5; 4].
Proof.
  destruct (exfat_write_correct demo_small [(0x400 - 32, true)] 0x1000 0x400 0x8000 2 0x20000 700 500
    demo_kheap demo_disk [3; 5] demo_file) as (h' & m' & E & _ & H & _);
    [exact demo_small_areas|exact demo_formatted|apply demo_small_valid; cbn; lia|constructor; unfold apart; cbn; lia
    |exact demo_kheap_ok|exact demo_file_ok|cbn; lia|lia|lia|lia|].
  exists h', m'. rewrite demo_free in E. split; [exact E|]. apply (fo_chain _ _ _ _ H).
Defined.

Lemma exfat_write_read_witness : exists n' s1 h2 m2,
  exfat_write 2 0x8000 (Some demo_file) 500 0x20000 700 (demo_kheap, demo_disk) = Some (700, Some n', s1) /\
  exfat_read 0x8000 (Some n') 500 0x30000 700 s1 = Some (700, (h2, m2)).
Proof.
  destruct (exfat_write_read demo_small [(0x400 - 32, true)] 0x1000 0x400 0x8000 2 0x20000 0x30000 700 500
    demo_kheap demo_disk [3; 5] demo_file) as (n' & s1 & h2 & m2 & E1 & E2 & _);
    [exact demo_small_areas|exact demo_formatted|apply demo_small_valid; cbn; lia|constructor; unfold apart; cbn; lia
    |constructor; unfold apart; cbn; lia|exact demo_kheap_ok|exact demo_file_ok|cbn; lia|lia|lia|lia| |].
  { rewrite demo_free. vm_compute. discriminate. }
  exists n', s1, h2, m2. split; [exact E1|exact E2].
Defined.

End ExfatWrite.
