(* ===== verification/ExfatFile.v ===== *)
(** * Creating, opening and removing exFAT files

    The operations on the root directory as a whole: the directory is read into
    a heap buffer that stays allocated while clusters are taken or released. *)

From S2P Require Import Prelude Kmalloc KmallocSpec KmallocProps Mem Block BlockSpec.
From S2P Require Import Devfs DevfsSpec Exfat ExfatSpec ExfatProps ExfatDir ExfatFat ExfatWrite.

Module ExfatFile.

Import Exfat DevfsSpec ExfatSpec ExfatProps ExfatDir ExfatFat ExfatWrite.

Section volume.
Context {D : Type} `{BD : BlockDev D}.

(** What a scan of the root directory lists. *)
Definition listing (f : exfat_fs D) (m : mem) (max : Z) : option (list exfat_dirent) :=
  scan_dir (dir_fuel (cluster_size f)) m (cl_addr f (root_dir_cluster f)) (cluster_size f) max 0 [].

(** The end of the entries in it. *)
Definition dir_end (f : exfat_fs D) (m : mem) : option Z :=
  find_end (dir_fuel (cluster_size f)) m (cl_addr f (root_dir_cluster f)) (cluster_size f) 0.

(** The entries of file [q]. *)
Definition entries_of (f : exfat_fs D) (m : mem) (q : list Z) : option (option (Z * Z)) :=
  find_name (dir_fuel (cluster_size f)) m (cl_addr f (root_dir_cluster f)) (cluster_size f) q 0.

(** Room in the heap for two clusters. *)
Definition two_rooms (f : exfat_fs D) (bs : list KmallocSpec.blk) : Prop :=
  exists s, (s, true) ∈ bs /\ Kmalloc.ALIGN_UP (cluster_size f) 16 + 48 + Kmalloc.ALIGN_UP (cluster_size f) 16 <= s.

Context (f : exfat_fs D) (bs : list KmallocSpec.blk) (hb hn sp : Z) (A : areas f bs hb hn sp).
Context (Hfm : formatted f) (Hroot : valid f (root_dir_cluster f)).

Abbreviation mods := (modifies f hb hn bs sp).
Abbreviation csz := (cluster_size f).
Abbreviation root := (root_dir_cluster f).

Lemma listing_ext m m' max : (forall j, 0 <= j < csz -> cbyte f m' root j = cbyte f m root j) ->
  listing f m' max = listing f m max.
Proof. intros H. apply copy_scan; [exact H|lia]. Qed.

(** The directory in a buffer. *)
Lemma read_root tmp m : bounce f hb hn bs sp tmp -> exists m', read_cluster f root tmp m = (0, m') /\
  mods [] [] m m' /\ forall j, 0 <= j < csz -> rd8 m' (tmp + j) = rd8 m (cl_addr f root + j).
Proof.
  intros T. destruct (read_step f bs hb hn sp A root tmp m Hroot T) as (m' & E & C & M).
  exists m'. split_and!; [done|done|]. intros j Hj. rewrite C. inb_cases; [|lia]. f_equal. lia.
Qed.

Lemma dir_scan_spec max ents h m : heap_ok bs hb hn h -> listing f m max = Some ents -> exists h' m',
  dir_scan_root f max (h, m) = Some (ents, (h', m')) /\ heap_ok bs hb hn h' /\ mods [] [] m m'.
Proof.
  intros Hh Hl. pose proof (csz_pos f bs hb hn sp A) as Hcs. unfold dir_scan_root. cbn [fst snd].
  destruct (buffer_step f bs hb hn sp A h Hh) as (tmp & h1 & h2 & E1 & T0 & T1 & E2 & Hh2). rewrite E1. bind.
  rewrite (proj2 (Z.eqb_neq tmp 0) T0). destruct (read_root tmp m T1) as (m' & E3 & M & C). rewrite E3.
  cbn [Z.eqb negb]. rewrite s32_small, (copy_scan m m' (cl_addr f root) tmp csz C) by lia.
  unfold listing in Hl. rewrite Hl. bind. rewrite E2. bind. by exists h2, m'.
Qed.

(** A buffer that stays while clusters are allocated. *)
Lemma keep_step h : two_rooms f bs -> heap_ok bs hb hn h -> exists dir h1 bs1,
  Kmalloc.kmalloc h csz = Some (dir, h1) /\ dir <> 0 /\ bounce f hb hn bs sp dir /\
  heap_ok bs1 hb hn h1 /\ areas f bs1 hb hn sp /\
  (forall a, dir <= a < dir + csz -> ~ scratch hb hn bs1 sp a) /\
  (forall a, scratch hb hn bs1 sp a -> scratch hb hn bs sp a) /\
  forall h', heap_ok bs1 hb hn h' -> exists h2, Kmalloc.kfree h' dir = Some h2 /\ heap_ok bs hb hn h2.
Proof.
  intros (s & R1 & R2) (Hi & E1 & E2). pose proof (csz_pos f bs hb hn sp A) as Hcs.
  assert (Hc : 0 < csz <= 2^64 - 16) by lia. destruct (KmallocProps.align16 csz Hc) as (_ & Ha & _).
  destruct (KmallocProps.kmalloc_keep h bs csz s (Kmalloc.ALIGN_UP csz 16) Hi Hc R1 R2 ltac:(lia))
    as (p & h1 & bs1 & s' & K1 & K2 & K3 & K4 & K5 & K6 & K7 & K8 & K9 & K11 & K12 & K10).
  rewrite E1, E2 in *. exists p, h1, bs1. destruct A as [A1 A2 A3 A4 A5 A6].
  pose proof (K8 p ltac:(lia)) as [[B1 _] _]. pose proof (K8 (p + csz - 1) ltac:(lia)) as [[B2 _] _].
  split_and!; try done; try lia.
  - split_and!; try lia. intros a Hx. left. by apply K8.
  - by constructor; eauto.
  - intros a Hx [Hu|Hu]; [by apply (K8 a Hx)|]. unfold apart in A6. lia.
  - intros a [Hu|Hu]; [left; by apply K9|by right].
  - intros h' (Hi' & Eb & Ez). destruct (K10 h' Hi' Eb) as (h2 & F1 & F2 & F3 & F4). exists h2.
    split; [done|]. split_and!; congruence || done.
Qed.

Lemma mods_scratch bs1 F C m m' : (forall a, scratch hb hn bs1 sp a -> scratch hb hn bs sp a) ->
  modifies f hb hn bs1 sp F C m m' -> mods F C m m'.
Proof. intros H Hm a Ha. apply Hm. intros Hs. by apply Ha, H. Qed.

(** ** Creating a file *)

Lemma find_end_some fuel m b n : forall i, 0 <= i -> (Z.to_nat (n - i) < fuel)%nat ->
  is_Some (find_end fuel m b n i).
Proof.
  induction fuel as [|fuel IH]; intros i Hi Hf; [lia|]. cbn [find_end].
  destruct (Z.leb_spec (i + 32) n); [|by eexists]. destruct (_ && _); [|by eexists]. apply IH; lia.
Qed.

(** The search for the end of the directory always ends. *)
Lemma dir_end_some m : is_Some (dir_end f m).
Proof. apply find_end_some; [lia|]. unfold dir_fuel. lia. Qed.

Context (Hrooms : two_rooms f bs).

(** The guards of [exfat_create], the directory read and the first free cluster
    taken. *)
Lemma create_start p di h m : strip_slash p <> [] -> heap_ok bs hb hn h -> dir_end f m = Some di ->
  exists dir h1 m1 h2 m2, bounce f hb hn bs sp dir /\
  (forall j, 0 <= j < csz -> rd8 m2 (dir + j) = rd8 m (cl_addr f root + j)) /\
  Kmalloc.kfree h2 dir = Some h1 /\ heap_ok bs hb hn h1 /\ mods [] [] m m1 /\
  match free_clusters f m with
  | [] => mods [] [] m1 m2
  | c :: fr => mods [c] [c] m1 m2 /\ fatv f m2 c = EOC /\ free_clusters f m2 = fr /\
      forall i, 0 <= i < csz -> cbyte f m2 c i = 0
  end /\
  exists h0, heap_ok bs hb hn h0 /\
  exfat_create sp f (Some p) (h, m) =
    if csz <? endpos di (strip_slash p) then Some (-1, (h0, m1))
    else match free_clusters f m with
         | [] => Some (-1, (h1, m2))
         | c :: _ =>
             let m := put_file m2 dir csz di (strip_slash p) c in
             let '(rc, m) := write_cluster f root dir m in Some (rc, (h1, m))
         end.
Proof.
  intros Hq Hh He. pose proof (csz_pos f bs hb hn sp A) as Hcs.
  destruct (keep_step h Hrooms Hh) as (dir & k & bs1 & E1 & D0 & T & Hk & A1 & Hdir & Hsub & Hfree).
  destruct (read_root dir m T) as (m1 & E2 & M1 & C1).
  destruct (alloc_head f bs1 hb hn sp A1 Hfm k m1 Hk) as (k2 & m2 & Hk2 & E3 & Halloc).
  destruct (Hfree k2 Hk2) as (h1 & E4 & Hh1). destruct (Hfree k Hk) as (h0 & E5 & Hh0).
  assert (Hfr : free_clusters f m1 = free_clusters f m).
  { apply (free_ext f Hfm). intros c Hc. by rewrite (mods_fat f bs hb hn sp A [] [] m m1 c) by (done || set_solver). }
  pose proof (free_valid f Hfm m) as Hfv. rewrite Hfr in E3, Halloc.
  assert (Hm2 : exists F, Forall (valid f) F /\ modifies f hb hn bs1 sp F F m1 m2).
  { destruct (free_clusters f m) as [|c fr]; [by exists []; split; [all_valid|]|].
    exists [c]. inversion Hfv; subst. split; [all_valid|apply Halloc]. }
  destruct Hm2 as (F & HF & Hm2). pose proof T as (T1 & T2 & T3 & T4).
  exists dir, h1, m1, k2, m2. split; [exact T|]. split; [|split; [done|split; [done|split; [done|split]]]].
  - intros j Hj. rewrite <- C1 by done. pose proof (ar_heap _ _ _ _ _ A) as Hhw. unfold apart in Hhw.
    eapply (mods_other f bs1 hb hn sp A1); [exact Hm2|done|done|apply Hdir; lia|lia].
  - destruct (free_clusters f m) as [|c fr]; [by eapply mods_scratch|].
    destruct Halloc as (H1 & H2). split; [by eapply mods_scratch|done].
  - exists h0. split; [done|]. unfold exfat_create. destruct (strip_slash p) as [|c0 q]; [done|]. cbn [fst snd].
    rewrite E1. bind. rewrite (proj2 (Z.eqb_neq dir 0) D0), E2. cbn [Z.eqb negb]. rewrite s32_small by lia.
    rewrite (copy_end m m1 (cl_addr f root) dir csz C1) by lia. unfold dir_end in He. rewrite He. bind.
    destruct (csz <? endpos di (c0 :: q)); [rewrite E5; bind; done|]. rewrite E3. bind.
    destruct (free_clusters f m) as [|c fr]; cbn [Z.eqb]; [cbn [fst snd]; rewrite E4; bind; done|].
    inversion Hfv; subst. pose proof (valid_u32 f bs hb hn sp A c ltac:(done)) as (_ & U & _). rewrite U.
    cbn [fst snd]. destruct (write_cluster _ _ _ _) as [rc m3]. rewrite E4. bind. done.
Qed.

(** The directory of [m'] is that of [m] with the entries of file [q] at [di]. *)
Definition added (m : mem) (di : Z) (q : list Z) (c sz : Z) (m' : mem) : Prop :=
  (forall j, 0 <= j < di -> cbyte f m' root j = cbyte f m root j) /\
  file_at m' (cl_addr f root) csz di q c sz.

(** The old directory has entries up to [di]. *)
Lemma dir_end_spec di m : dir_end f m = Some di ->
  0 <= di /\ di mod 32 = 0 /\ (di + 32 <= csz -> rd8 m (cl_addr f root + di) = 0) /\
  forall k, 0 <= k < di -> k mod 32 = 0 -> rd8 m (cl_addr f root + k) <> 0.
Proof.
  intros He. destruct (find_end_spec _ _ _ _ _ _ He ltac:(lia) eq_refl) as (H0 & H1 & H2 & H3).
  split_and!; try done. intros k Hk Hm. by apply H3.
Qed.

Section create.
Context (p : list Z) (di : Z) (h : Kmalloc.kheap) (m : mem).
Abbreviation q := (strip_slash p).
Context (Hq : Forall (fun c => 0 < c < 128) q) (Hlen : (1 <= length q <= 63)%nat).
Context (Hh : heap_ok bs hb hn h) (He : dir_end f m = Some di).

Lemma name_nonempty : q <> [].
Proof. intros E. rewrite E in Hlen. cbn in Hlen. lia. Qed.

(** No room in the directory, or no free cluster. *)
Lemma create_fails : csz < endpos di q \/ free_clusters f m = [] -> exists h' m',
  exfat_create sp f (Some p) (h, m) = Some (-1, (h', m')) /\ heap_ok bs hb hn h' /\ mods [] [] m m'.
Proof.
  intros Hbad. destruct (create_start p di h m name_nonempty Hh He)
    as (dir & h1 & m1 & h2 & m2 & _ & _ & _ & Hh1 & M1 & M2 & h0 & Hh0 & ->).
  destruct (Z.ltb_spec csz (endpos di q)); [by exists h0, m1|]. destruct Hbad as [|Hfr]; [lia|].
  rewrite Hfr in *. exists h1, m2. split_and!; try done. exact (mods_trans _ _ _ _ _ _ _ _ _ _ _ _ M1 M2).
Qed.

Lemma create_file_spec c fr : endpos di q <= csz -> free_clusters f m = c :: fr -> fatv f m root <> 0 -> exists h' m',
  exfat_create sp f (Some p) (h, m) = Some (0, (h', m')) /\ heap_ok bs hb hn h' /\ added m di q c 0 m' /\
  file_ok f m' (MkNode f c 0 0) [c] /\ free_clusters f m' = fr /\
  (forall i, 0 <= i -> content f m' [c] i = 0) /\ mods [c] [c; root] m m'.
Proof.
  intros Hfit Hfr Hu. destruct (create_start p di h m name_nonempty Hh He)
    as (dir & h1 & m1 & h2 & m2 & T & C2 & _ & Hh1 & M1 & M2 & h0 & _ & ->). rewrite Hfr in *.
  destruct M2 as (M2 & V2 & F2 & Z2). rewrite (proj2 (Z.ltb_ge _ _) Hfit).
  pose proof (csz_pos f bs hb hn sp A) as Hcs.
  assert (Hc : c ∈ free_clusters f m) by (rewrite Hfr; left).
  assert (Hv : valid f c) by (eapply list.Forall_forall; [apply (free_valid f Hfm m)|exact Hc]).
  pose proof (valid_u32 f bs hb hn sp A c Hv) as (U & _). unfold EOC in U.
  destruct (find_end_spec _ _ _ _ _ _ He ltac:(lia) eq_refl) as (H0 & _).
  destruct (put_file_parts dir csz di q c Hq Hlen Hfit m2 ltac:(lia)) as [P1 P2].
  set (m3 := put_file m2 dir csz di q c) in *. cbn zeta.
  assert (M3 : mods [] [] m2 m3).
  { apply (scratch_step f bs hb hn sp _ _ dir T). intros a Ha.
    apply P1. lia. }
  destruct (write_step f bs hb hn sp A Hfm root dir m3 Hroot T) as (m4 & E4 & M4 & B4). fold m3. rewrite E4.
  assert (Hrc : root <> c) by (intros E; apply (free_spec f m) in Hc; rewrite E in Hu; tauto).
  pose proof (mods_trans _ _ _ _ _ _ _ _ _ _ _ _ M1 M2) as M12. cbn [app] in M12.
  pose proof (mods_trans _ _ _ _ _ _ _ _ _ _ _ _ M3 M4) as M34. cbn [app] in M34.
  assert (Hfat : forall d, valid f d -> fatv f m4 d = fatv f m2 d).
  { intros d Hd. apply (mods_fat f bs hb hn sp A [] [root] m2 m4 d M34 Hd); [set_solver|all_valid]. }
  exists h1, m4. split_and!; [done|done|..].
  - split.
    + intros j Hj. assert (j < csz) by (unfold endpos, name_count in Hfit; zmod).
      rewrite B4, P1, C2 by lia. done.
    + apply (file_at_copy dir csz di q c Hlen H0 Hfit m3 m4 _ 0); [intros j Hj _; by apply B4| |exact P2].
      rewrite <- (fa_size _ _ _ _ _ _ _ P2). apply rd64_ext. intros k Hk. rewrite <- !Z.add_assoc.
      apply B4. unfold endpos, name_count in Hfit. zmod.
  - split; try done; [|cbn; lia|set_solver|].
    + split; [split; [all_valid|by intros [|i] x y Hx Hy]|apply NoDup_singleton|].
      intros l0 x E. destruct l0 as [|y [|z l0]]; [|done|done]. injection E as <-. by rewrite Hfat.
    + rewrite Hfat by done. rewrite (mods_fat f bs hb hn sp A [c] [c] m m2 root M12); [done|done|set_solver|all_valid].
  - rewrite <- F2. apply (free_ext f Hfm). intros d Hd. by rewrite Hfat.
  - intros i Hi. unfold content. destruct (Z.to_nat (i / csz)) as [|k]; [|done]. cbn [lookup list_lookup].
    pose proof (Z.mod_pos_bound i csz ltac:(lia)). rewrite <- (Z2 (i mod csz)) by done.
    eapply (mods_byte f bs hb hn sp A); [exact M34|done|set_solver|all_valid|all_valid|done].
  - exact (mods_trans _ _ _ _ _ _ _ _ _ _ _ _ M12 M34).
Qed.

Lemma added_type c sz m' : added m di q c sz m' ->
  rd8 m' (cl_addr f root + di) <> 0xC0 /\ rd8 m' (cl_addr f root + di) <> 0xC1.
Proof. intros [_ HF]. rewrite (fa_type _ _ _ _ _ _ _ HF). done. Qed.

(** The listing gets the new file. *)
Lemma added_listing c sz m' max ents : added m di q c sz m' -> endpos di q <= csz ->
  listing f m max = Some ents -> Z.of_nat (length ents) < max ->
  listing f m' max = Some (ents ++ [MkDirent c sz 0 q]).
Proof.
  intros Ha Hfit Hl Hm. destruct (dir_end_spec di m He) as (K0 & Km & Kz & Knz).
  apply (prefix_scan_file m m' (cl_addr f root) csz di Km); try done; [apply Ha|by eapply added_type|apply Ha].
Qed.

(** A name that was not there is found. *)
Lemma added_entries c sz m' : added m di q c sz m' -> endpos di q <= csz ->
  entries_of f m q = Some None -> entries_of f m' q = Some (Some (di, endpos di q)).
Proof.
  intros Ha Hfit Hn. destruct (dir_end_spec di m He) as (K0 & Km & Kz & Knz).
  assert (Hdi : di + 96 <= endpos di q) by (unfold endpos, name_count; zmod).
  apply (prefix_find m m' (cl_addr f root) csz di Km); try done; try lia; [apply Ha|by eapply added_type| |].
  - intros k. apply (find_new (cl_addr f root) csz di q c Hq Hlen K0 Hfit m' sz), Ha.
  - unfold dir_fuel. lia.
Qed.

(** So is a cluster that no entry had. *)
Lemma added_stream c sz m' : added m di q c sz m' -> endpos di q <= csz ->
  entry_of f m c = Some None -> entry_of f m' c = Some (Some di).
Proof.
  intros Ha Hfit Hn. destruct (dir_end_spec di m He) as (K0 & Km & Kz & Knz).
  assert (Hdi : di + 96 <= endpos di q) by (unfold endpos, name_count; zmod).
  apply (prefix_find_stream m m' (cl_addr f root) csz di Km); try done; try lia; [apply Ha|by eapply added_type| |].
  - intros k. apply (find_stream_new (cl_addr f root) csz di q c Hlen Hfit m' sz), Ha.
  - unfold dir_fuel. lia.
Qed.

(** A write to the new file changes the size in its entry. *)
Lemma added_resized c sz sz' m1 m' : added m di q c sz m1 -> endpos di q <= csz ->
  entry_of f m c = Some None -> resized f m1 c sz' m' -> added m di q c sz' m'.
Proof.
  intros Ha Hfit Hn Hr. destruct (dir_end_spec di m He) as (K0 & Km & Kz & Knz).
  assert (Hdi : di + 96 <= endpos di q) by (unfold endpos, name_count; zmod).
  unfold resized in Hr. rewrite (added_stream c sz m1 Ha Hfit Hn) in Hr. destruct Hr as [R1 R2], Ha as [A1 A2]. split.
  - intros j Hj. rewrite R2, A1 by lia. done.
  - apply (file_at_copy (cl_addr f root) csz di q c Hlen K0 Hfit m1 m' (cl_addr f root) sz sz'); [|by rewrite <- R1; f_equal; lia|done].
    intros i Hi Hni. by apply R2.
Qed.

End create.

(** ** Removing a file *)

Lemma unlink_name_le fuel m b n : forall j nm r, j <= n -> unlink_name fuel m b n j nm = Some r -> j <= r.1 <= n.
Proof.
  induction fuel as [|fuel IH]; intros j nm r Hj E; [done|]. cbn [unlink_name] in E.
  destruct (Z.leb_spec (j + 32) n); cbn [andb] in E; [|by injection E as <-].
  destruct (_ =? 0xC1); [apply IH in E; lia|]. by injection E as <-.
Qed.

Lemma find_name_at fuel m b n q : forall k i j, 0 <= k -> find_name fuel m b n q k = Some (Some (i, j)) ->
  0 <= i /\ i + 64 <= j <= n.
Proof.
  induction fuel as [|fuel IH]; intros k i j Hk H; [done|]. cbn [find_name] in H.
  destruct (_ && negb _); [|done]. destruct (Z.leb_spec (k + 64) n).
  - destruct (_ && _ && _); [|apply IH in H; [done|lia]].
    destruct (unlink_name _ _ _ _ _ _) as [[j' nm]|] eqn:E; [|done]. cbn [mbind option_bind] in H.
    apply unlink_name_le in E; [|lia]. cbn in E. destruct (bool_decide _); [|apply IH in H; [done|lia]].
    injection H as <- <-. lia.
  - rewrite andb_false_r in H. cbn [andb] in H. apply IH in H; [done|lia].
Qed.

Lemma unlink_spec p fuel h m i j l : strip_slash p <> [] -> heap_ok bs hb hn h ->
  entries_of f m (strip_slash p) = Some (Some (i, j)) -> chain f m l ->
  l !! 0%nat = Some (rd32 m (cl_addr f root + i + 32 + 20)) -> (length l <= fuel)%nat -> root ∉ l ->
  exists h' m', exfat_unlink fuel sp f p (h, m) = Some (0, (h', m')) /\ heap_ok bs hb hn h' /\
    (forall c, c ∈ l -> fatv f m' c = 0) /\
    (forall x, 0 <= x < csz -> cbyte f m' root x = if inb i (j - i) x then 0 else cbyte f m root x) /\
    mods l [root] m m'.
Proof.
  intros Hq Hh He Hl H0 Hf Hr. pose proof (csz_pos f bs hb hn sp A) as Hcs.
  destruct (find_name_at _ _ _ _ _ 0 i j ltac:(lia) He) as [I1 I2].
  destruct (keep_step h Hrooms Hh) as (dir & k & bs1 & E1 & D0 & T & Hk & A1 & Hdir & Hsub & Hfree).
  destruct (read_root dir m T) as (m1 & E2 & M1 & C1). destruct (Hfree k Hk) as (h1 & E4 & Hh1).
  destruct l as [|c l]; [done|]. injection H0 as Hc.
  assert (Hl1 : chain f m1 (c :: l)) by (eapply chain_mods; [exact A|exact Hfm|exact M1|all_valid|set_solver|done]).
  assert (Hvl : Forall (valid f) (c :: l)) by apply Hl.
  assert (Ec : rd32 m1 (dir + i + 32 + 20) = c).
  { rewrite Hc. apply rd32_ext. intros x Hx. rewrite <- !Z.add_assoc. apply C1. lia. }
  destruct (free_chain_spec f bs1 hb hn sp A1 Hfm l fuel c m1 Hl1 Hf) as (m2 & E3 & M2 & Z2).
  assert (C2 : forall x, 0 <= x < csz -> rd8 m2 (dir + x) = cbyte f m root x).
  { intros x Hx. pose proof (ar_heap _ _ _ _ _ A) as Hhw. destruct T as (_ & T2 & T3 & _). unfold apart in Hhw.
    unfold cbyte. rewrite <- C1 by done. eapply (mods_other f bs1 hb hn sp A1); [exact M2|done|all_valid|apply Hdir; lia|lia]. }
  set (m3 := wr8 (Mem.fill (Z.to_nat (j - i)) 0 m2 (dir + i) 0) (dir + i) 0).
  assert (C3 : forall a, rd8 m3 a = if inb (dir + i) (j - i) a then 0 else rd8 m2 a).
  { intros a. unfold m3. rewrite rd8_wr8, Mem.fill_spec, Z.add_0_r, Z2Nat.id by (unfold is_u8; lia).
    fold (inb (dir + i) (j - i) a). destruct (Z.eqb_spec (dir + i) a); inb_cases; (lia || done). }
  assert (M3 : mods [] [] m2 m3).
  { apply (scratch_step f bs hb hn sp _ _ dir T). intros a Ha. rewrite C3. inb_cases; [lia|done]. }
  destruct (write_step f bs hb hn sp A Hfm root dir m3 Hroot T) as (m4 & E5 & M4 & B4).
  pose proof (mods_scratch bs1 _ _ _ _ Hsub M2) as M2'.
  pose proof (mods_trans _ _ _ _ _ _ _ _ _ _ _ _ M3 M4) as M34. cbn [app] in M34.
  exists h1, m4. split_and!; [|done|..].
  - unfold exfat_unlink. destruct (strip_slash p) as [|c0 q]; [done|]. cbn [fst snd].
    rewrite E1. bind. rewrite (proj2 (Z.eqb_neq dir 0) D0), E2. cbn [Z.eqb negb]. rewrite s32_small by lia.
    rewrite (copy_find_name m m1 (cl_addr f root) dir csz C1) by lia. unfold entries_of in He. rewrite He. bind.
    rewrite Ec, E3. bind. fold m3. rewrite E5, E4. bind. done.
  - intros d Hd. rewrite (mods_fat f bs hb hn sp A [] [root] m2 m4 d M34); [by apply Z2| |set_solver|all_valid].
    by eapply list.Forall_forall in Hvl.
  - intros x Hx. rewrite B4, C3 by done. rewrite <- C2 by done. inb_cases; (lia || done).
  - eapply mods_weaken; [..|exact (mods_trans _ _ _ _ _ _ _ _ _ _ _ _ (mods_trans _ _ _ _ _ _ _ _ _ _ _ _ M1 M2') M34)]; set_solver.
Qed.

(** Released clusters are free. *)
Lemma released_free m m' l : (forall c, c ∈ l -> fatv f m' c = 0) -> Forall (valid f) l ->
  mods l [root] m m' -> forall c, c ∈ free_clusters f m' <-> c ∈ free_clusters f m \/ c ∈ l.
Proof.
  intros Hz Hv Hm c. rewrite !(free_spec f). destruct (decide (c ∈ l)) as [Hc|Hc].
  - rewrite (Hz c Hc). split; [by right|]. intros _. split; [|done].
    eapply list.Forall_forall in Hc; [|exact Hv]. apply Hc.
  - split.
    + intros [H1 H2]. left. split; [done|]. rewrite <- H2. symmetry.
      apply (mods_fat f bs hb hn sp A l [root] m m' c Hm); [by apply (fm_all f Hfm)|done|all_valid].
    + intros [[H1 H2]|H]; [|done]. split; [done|]. rewrite <- H2.
      apply (mods_fat f bs hb hn sp A l [root] m m' c Hm); [by apply (fm_all f Hfm)|done|all_valid].
Qed.

(** The name is looked for to the end of the directory. *)
Lemma unlink_fails p fuel h m : strip_slash p <> [] -> heap_ok bs hb hn h ->
  entries_of f m (strip_slash p) = Some None -> exists h' m',
  exfat_unlink fuel sp f p (h, m) = Some (-1, (h', m')) /\ heap_ok bs hb hn h' /\ mods [] [] m m'.
Proof.
  intros Hq Hh He. pose proof (csz_pos f bs hb hn sp A) as Hcs.
  destruct (buffer_step f bs hb hn sp A h Hh) as (dir & k & h1 & E1 & D0 & T & E4 & Hh1).
  destruct (read_root dir m T) as (m1 & E2 & M1 & C1). exists h1, m1. split_and!; [|done|done].
  unfold exfat_unlink. destruct (strip_slash p) as [|c0 q]; [done|]. cbn [fst snd].
  rewrite E1. bind. rewrite (proj2 (Z.eqb_neq dir 0) D0), E2. cbn [Z.eqb negb]. rewrite s32_small by lia.
  rewrite (copy_find_name m m1 (cl_addr f root) dir csz C1) by lia. unfold entries_of in He. rewrite He. bind.
  rewrite E4. bind. done.
Qed.

(** Removing the entries at the end of the directory gives the old listing. *)
Lemma removed_listing m di q c sz m1 m2 max : (1 <= length q)%nat -> dir_end f m = Some di ->
  added m di q c sz m1 -> endpos di q <= csz ->
  (forall x, 0 <= x < csz -> cbyte f m2 root x = if inb di (endpos di q - di) x then 0 else cbyte f m1 root x) ->
  is_Some (listing f m max) -> listing f m2 max = listing f m max.
Proof.
  intros Hlen He [A1 A2] Hfit Hx [ents Hl]. rewrite Hl. destruct (dir_end_spec di m He) as (K0 & Km & Kz & Knz).
  assert (Hdi : di + 96 <= endpos di q) by (unfold endpos, name_count; zmod).
  assert (Hlast : rd8 m2 (cl_addr f root + di) = 0) by (fold (cbyte f m2 root di); rewrite (Hx di) by lia; inb_cases; lia || done).
  apply (prefix_scan m m2 (cl_addr f root) csz di Km) with (ents' := ents); try done; try lia.
  - intros i Hi. fold (cbyte f m2 root i) (cbyte f m root i). rewrite (Hx i) by lia.
    inb_cases; [lia|]. by apply A1.
  - intros [|k] Hk; [lia|]. cbn [scan_dir]. rewrite Hlast. cbn [Z.eqb]. by destruct (_ <=? _).
  - unfold dir_fuel. lia.
Qed.

(** ** Opening a file *)

(** A small block that is kept: areas with the rest of the room. *)
Lemma node_step n s r h : (s, true) ∈ bs -> 0 < n <= 64 -> Kmalloc.ALIGN_UP n 16 + 48 + r <= s ->
  Kmalloc.ALIGN_UP csz 16 <= r -> heap_ok bs hb hn h -> exists p h1 bs1 s1 z,
  Kmalloc.kmalloc h n = Some (p, h1) /\ p <> 0 /\ heap_ok bs1 hb hn h1 /\ (s1, true) ∈ bs1 /\ r <= s1 /\
  areas f bs1 hb hn sp /\ (forall a, scratch hb hn bs1 sp a -> scratch hb hn bs sp a) /\
  n <= z /\ (p, z) ∈ KmallocSpec.live hb bs1 /\
  (forall x, x ∈ KmallocSpec.live hb bs -> x ∈ KmallocSpec.live hb bs1) /\
  forall x, x ∈ KmallocSpec.live hb bs -> ~ x.1 <= p < x.1 + x.2.
Proof.
  intros R1 Hn R2 Hr (Hi & E1 & E2). pose proof (csz_pos f bs hb hn sp A) as Hcs.
  destruct (KmallocProps.align16 csz ltac:(lia)) as (_ & Ha & _).
  destruct (KmallocProps.kmalloc_keep h bs n s r Hi ltac:(lia) R1 R2 ltac:(lia))
    as (p & h1 & bs1 & s' & K1 & K2 & K3 & K4 & K5 & K6 & K7 & K8 & K9 & (z & K11 & K12) & K13 & _).
  rewrite E1, E2 in *. exists p, h1, bs1, s', z. destruct A as [A1 A2 A3 A4 A5 A6]. split_and!; try done; try lia.
  - constructor; try done. exists s'. split; [done|lia].
  - intros a [Hu|Hu]; [left; by apply K9|by right].
  - intros [x y] Hx. apply (K8 p ltac:(lia)), Hx.
Qed.

End volume.

Section open.
Context {D : Type} `{BD : BlockDev D}.
Context (f : exfat_fs D) (bs : list KmallocSpec.blk) (hb hn sp : Z) (A : areas f bs hb hn sp).
Context (Hroot : valid f (root_dir_cluster f)).

(** The two blocks of a node; both can be released, in any order. *)
Lemma nodes_step s r h : (s, true) ∈ bs -> 160 + r <= s -> Kmalloc.ALIGN_UP (cluster_size f) 16 <= r ->
  heap_ok bs hb hn h -> exists n vn h1 h2 bs2 s2,
  Kmalloc.kmalloc h 24 = Some (n, h1) /\ n <> 0 /\ Kmalloc.kmalloc h1 24 = Some (vn, h2) /\ vn <> 0 /\
  heap_ok bs2 hb hn h2 /\ (s2, true) ∈ bs2 /\ r <= s2 /\ areas f bs2 hb hn sp /\
  (forall a, scratch hb hn bs2 sp a -> scratch hb hn bs sp a) /\
  forall h3, heap_ok bs2 hb hn h3 -> exists h4 h5 bs5 s5,
    Kmalloc.kfree h3 n = Some h4 /\ Kmalloc.kfree h4 vn = Some h5 /\ heap_ok bs5 hb hn h5 /\ (s5, true) ∈ bs5 /\ r <= s5.
Proof.
  intros R1 R2 Hr Hh. pose proof (csz_pos f bs hb hn sp A) as Hcs.
  destruct (KmallocProps.align16 (cluster_size f) ltac:(lia)) as (_ & Ha & _).
  destruct (node_step f bs hb hn sp A 24 s (80 + r) h R1)
    as (n & h1 & bs1 & s1 & z1 & E1 & N1 & Hh1 & S1 & S2 & A1 & Hs1 & Z1 & L1 & _ & _); [lia| |lia|done|].
  { change (Kmalloc.ALIGN_UP 24 16) with 32. lia. }
  destruct (node_step f bs1 hb hn sp A1 24 s1 r h1 S1)
    as (vn & h2 & bs2 & s2 & z2 & E2 & N2 & Hh2 & S3 & S4 & A2 & Hs2 & Z2 & L2 & M2 & D2); [lia| |lia|done|].
  { change (Kmalloc.ALIGN_UP 24 16) with 32. lia. }
  exists n, vn, h1, h2, bs2, s2. split_and!; try done; [auto|]. intros h3 (I3 & B3 & C3).
  destruct (KmallocProps.kfree_room h3 bs2 n z1 s2 I3) as (h4 & bs4 & l1 & l2 & s4 & E4 & I4 & B4 & C4 & LL1 & LL2 & T4 & S5);
    [rewrite B3; by apply M2|done|].
  destruct (KmallocProps.kfree_room h4 bs4 vn z2 s4 I4) as (h5 & bs5 & _ & _ & s5 & E5 & I5 & B5 & C5 & _ & _ & T5 & S6);
    [|done|].
  { rewrite B4, B3 in *. rewrite LL2. rewrite LL1 in L2. pose proof (D2 _ L1) as Dn. cbn [fst snd] in Dn.
    apply elem_of_app in L2 as [L2|L2]; [set_solver|]. apply elem_of_cons in L2 as [[= -> _]|L2]; [lia|set_solver]. }
  exists h4, h5, bs5, s5. split_and!; try done; try lia. split_and!; congruence || done.
Qed.

(** A name the directory lists is opened: the node has its entry. *)
Lemma open_spec p s r h m ents e : (s, true) ∈ bs -> 160 + r <= s -> Kmalloc.ALIGN_UP (cluster_size f) 16 <= r ->
  heap_ok bs hb hn h -> path_is_root (Some p) = false -> listing f m 32 = Some ents ->
  find_entry (strip_slash p) ents = Some e -> exists h' m' bs' s',
  exfat_open f (Some p) (h, m) = Some (Some (MkNode f (de_first_cluster e) (de_is_dir e) (de_size e)), (h', m')) /\
  heap_ok bs' hb hn h' /\ (s', true) ∈ bs' /\ r <= s' /\ areas f bs' hb hn sp /\ modifies f hb hn bs sp [] [] m m' /\
  forall a, scratch hb hn bs' sp a -> scratch hb hn bs sp a.
Proof.
  intros R1 R2 Hr Hh Hp Hl Hf.
  destruct (nodes_step s r h R1 R2 Hr Hh) as (n & vn & h1 & h2 & bs2 & s2 & E1 & N1 & E2 & N2 & Hh2 & S1 & S2 & A2 & Hs & _).
  destruct (dir_scan_spec f bs2 hb hn sp A2 Hroot 32 ents h2 m Hh2 Hl) as (h3 & m3 & E3 & Hh3 & M3).
  exists h3, m3, bs2, s2. split; [|split_and!; try done; intros a Hx; apply M3; auto].
  unfold exfat_open, sizeof_exfat_node, sizeof_vfs_node. cbn [fst snd]. rewrite E1. bind.
  rewrite (proj2 (Z.eqb_neq n 0) N1), E2. bind. rewrite (proj2 (Z.eqb_neq vn 0) N2), Hp. cbn [default from_option id].
  rewrite E3. bind. by rewrite Hf.
Qed.

(** Another name is not; the blocks are released. *)
Lemma open_missing p s r h m ents : (s, true) ∈ bs -> 160 + r <= s -> Kmalloc.ALIGN_UP (cluster_size f) 16 <= r ->
  heap_ok bs hb hn h -> path_is_root (Some p) = false -> listing f m 32 = Some ents ->
  find_entry (strip_slash p) ents = None -> exists h' m' bs' s',
  exfat_open f (Some p) (h, m) = Some (None, (h', m')) /\
  heap_ok bs' hb hn h' /\ (s', true) ∈ bs' /\ r <= s' /\ modifies f hb hn bs sp [] [] m m'.
Proof.
  intros R1 R2 Hr Hh Hp Hl Hf.
  destruct (nodes_step s r h R1 R2 Hr Hh) as (n & vn & h1 & h2 & bs2 & s2 & E1 & N1 & E2 & N2 & Hh2 & S1 & S2 & A2 & Hs & Hfree).
  destruct (dir_scan_spec f bs2 hb hn sp A2 Hroot 32 ents h2 m Hh2 Hl) as (h3 & m3 & E3 & Hh3 & M3).
  destruct (Hfree h3 Hh3) as (h4 & h5 & bs5 & s5 & F1 & F2 & Hh5 & S5 & S6).
  exists h5, m3, bs5, s5. split; [|split_and!; try done; intros a Hx; apply M3; auto].
  unfold exfat_open, sizeof_exfat_node, sizeof_vfs_node. cbn [fst snd]. rewrite E1. bind.
  rewrite (proj2 (Z.eqb_neq n 0) N1), E2. bind. rewrite (proj2 (Z.eqb_neq vn 0) N2), Hp. cbn [default from_option id].
  rewrite E3. bind. rewrite Hf. cbn [fst snd]. rewrite F1. bind. rewrite F2. by bind.
Qed.

End open.

(** ** Memories with the same disk *)

Section same_disk.
Context {D : Type} `{BD : BlockDev D} (f : exfat_fs D) (Hv : vol_ok f).
Context (Hfm : formatted f) (Hroot : valid f (root_dir_cluster f)).

Definition same_disk (m m' : mem) : Prop := forall a, win f <= a < win f + wlen f -> rd8 m' a = rd8 m a.

Lemma same_disk_refl m : same_disk m m.
Proof. by intros a _. Qed.

Lemma same_disk_trans m1 m2 m3 : same_disk m1 m2 -> same_disk m2 m3 -> same_disk m1 m3.
Proof. intros H1 H2 a Ha. by rewrite H2, H1. Qed.

Lemma mods_same_disk bs hb hn sp m m' : areas f bs hb hn sp -> modifies f hb hn bs sp [] [] m m' -> same_disk m m'.
Proof.
  intros [_ _ _ A1 A2 _] H a Ha. apply H; [|by intros c Hc; apply elem_of_nil in Hc..].
  by apply (scratch_disk f hb hn bs sp A1 A2).
Qed.

Context (m m' : mem) (H : same_disk m m').

Lemma same_fatv c : valid f c -> fatv f m' c = fatv f m c.
Proof.
  intros Hc. destruct (fat_addr_in f Hv c Hc) as (F1 & F2 & _). apply rd32_ext. intros i Hi. apply H. lia.
Qed.

Lemma same_cbyte c i : valid f c -> 0 <= i < cluster_size f -> cbyte f m' c i = cbyte f m c i.
Proof.
  intros Hc Hi. destruct (cl_addr_in f Hv c Hc) as (F1 & F2). pose proof (vo_fat f Hv). apply H. lia.
Qed.

Lemma same_listing max : listing f m' max = listing f m max.
Proof. apply listing_ext. intros j Hj. by apply same_cbyte. Qed.

Lemma same_dir_end : dir_end f m' = dir_end f m.
Proof. apply copy_end; [|lia]. intros j Hj. by apply same_cbyte. Qed.

Lemma same_entry_of c : entry_of f m' c = entry_of f m c.
Proof. apply find_stream_ext; [|lia]. intros j Hj. by apply same_cbyte. Qed.

Lemma same_entries_of q : entries_of f m' q = entries_of f m q.
Proof. apply copy_find_name; [|lia]. intros j Hj. by apply same_cbyte. Qed.

Lemma same_free : free_clusters f m' = free_clusters f m.
Proof. apply (free_ext f Hfm). intros c Hc. by rewrite same_fatv. Qed.

Lemma same_file_ok n l : file_ok f m n l -> file_ok f m' n l.
Proof.
  intros [Hfs [[Hvl Hl] Hn He] H0 Hd Hsz Hcv Hr Hu]. rewrite list.Forall_forall in Hvl. split; try done.
  - split; [split; [by apply list.Forall_forall|]|done|].
    + intros i c d Hc Hx. rewrite same_fatv by (apply Hvl; by eapply list_elem_of_lookup_2). by eapply Hl.
    + intros l0 c E. rewrite same_fatv by (apply Hvl; subst l; set_solver). by eapply He.
  - by rewrite same_fatv.
Qed.

Lemma same_content l i : Forall (valid f) l -> 0 <= i -> content f m' l i = content f m l i.
Proof.
  intros Hvl Hi. unfold content. destruct (l !! _) as [c|] eqn:Ec; [|done].
  rewrite list.Forall_lookup in Hvl. apply same_cbyte; [by eapply Hvl|]. apply Z.mod_pos_bound.
  pose proof (vo_csz f Hv). pose proof (vo_spc f Hv). lia.
Qed.

Lemma same_added m0 di q c sz : 0 <= di -> (1 <= length q <= 63)%nat -> endpos di q <= cluster_size f ->
  added f m0 di q c sz m -> added f m0 di q c sz m'.
Proof.
  intros Hdi Hlen Hfit [A1 A2]. assert (Hde : di + 96 <= endpos di q) by (unfold endpos, name_count; zmod). split.
  - intros j Hj. rewrite same_cbyte by (done || lia). by apply A1.
  - apply (file_at_copy (cl_addr f (root_dir_cluster f)) _ di q c Hlen Hdi Hfit m m' _ sz); [|..|done].
    + intros i Hi _. by apply same_cbyte.
    + rewrite <- (fa_size _ _ _ _ _ _ _ A2). apply rd64_ext. intros k Hk. rewrite <- !Z.add_assoc. apply same_cbyte; [done|lia].
Qed.

End same_disk.

Lemma strip_nonroot p : strip_slash p <> [] -> path_is_root (Some p) = false.
Proof. destruct p as [|c [|d p]]; cbn; [done| |done]. destruct (c =? 47); [done|done]. Qed.

Lemma find_entry_new q ents e : Forall (fun e => de_name e <> q) ents -> de_name e = q ->
  find_entry q (ents ++ [e]) = Some e.
Proof.
  intros H He. induction H as [|x l Hx _ IH]; cbn.
  - by rewrite bool_decide_true.
  - by rewrite bool_decide_false.
Qed.

Section props.
Context {D : Type} `{BD : BlockDev D}.

(** C19. Creating a file: if the directory has no room for its entries or no
    cluster is free, the result is -1 and nothing changes; otherwise the
    directory lists the files it listed and the new one, of size 0, whose chain is
    the first free cluster, filled with 0.  Nothing else on the disk changes, and
    the buffers are given back. *)
Theorem exfat_create_correct (f : exfat_fs D) bs hb hn sp p h m :
  areas f bs hb hn sp -> formatted f -> valid f (root_dir_cluster f) -> two_rooms f bs -> heap_ok bs hb hn h ->
  let q := strip_slash p in
  Forall (fun c => 0 < c < 128) q -> (1 <= length q <= 63)%nat -> fatv f m (root_dir_cluster f) <> 0 ->
  exists di rc h' m', dir_end f m = Some di /\
    exfat_create sp f (Some p) (h, m) = Some (rc, (h', m')) /\ heap_ok bs hb hn h' /\
    match (if endpos di q <=? cluster_size f then free_clusters f m else []) with
    | [] => rc = -1 /\ modifies f hb hn bs sp [] [] m m'
    | c :: fr => rc = 0 /\
        (forall max ents, listing f m max = Some ents -> Z.of_nat (length ents) < max ->
           listing f m' max = Some (ents ++ [MkDirent c 0 0 q])) /\
        file_ok f m' (MkNode f c 0 0) [c] /\ free_clusters f m' = fr /\
        (forall i, 0 <= i -> content f m' [c] i = 0) /\
        modifies f hb hn bs sp [c] [c; root_dir_cluster f] m m'
    end.
Proof.
  intros A Hfm Hroot Hrooms Hh q Hq Hlen Hu. destruct (dir_end_some f m) as [di He]. exists di.
  destruct (Z.leb_spec (endpos di q) (cluster_size f)) as [Hfit|Hfit];
    [destruct (free_clusters f m) as [|c fr] eqn:Efr|].
  - destruct (create_fails f bs hb hn sp A Hfm Hroot Hrooms p di h m Hlen Hh He) as (h' & m' & E & H1 & H2);
      [by right|]. by exists (-1), h', m'.
  - destruct (create_file_spec f bs hb hn sp A Hfm Hroot Hrooms p di h m Hq Hlen Hh He c fr Hfit Efr Hu)
      as (h' & m' & E & H1 & H2 & H3 & H4 & H5 & H6). exists 0, h', m'. split_and!; try done.
    intros max ents Hl Hmax. by eapply added_listing.
  - destruct (create_fails f bs hb hn sp A Hfm Hroot Hrooms p di h m Hlen Hh He) as (h' & m' & E & H1 & H2);
      [by left|]. by exists (-1), h', m'.
Qed.


(** Creating a file whose name is new and removing it restores the volume: the
    directory lists the same files and the same clusters are free. *)
Theorem exfat_create_unlink (f : exfat_fs D) bs hb hn sp p fuel h m di max :
  areas f bs hb hn sp -> formatted f -> valid f (root_dir_cluster f) -> two_rooms f bs -> heap_ok bs hb hn h ->
  let q := strip_slash p in
  Forall (fun c => 0 < c < 128) q -> (1 <= length q <= 63)%nat -> fatv f m (root_dir_cluster f) <> 0 ->
  dir_end f m = Some di -> endpos di q <= cluster_size f -> free_clusters f m <> [] ->
  entries_of f m q = Some None -> is_Some (listing f m max) -> (1 <= fuel)%nat ->
  exists s1 h2 m2, exfat_create sp f (Some p) (h, m) = Some (0, s1) /\
    exfat_unlink fuel sp f p s1 = Some (0, (h2, m2)) /\ heap_ok bs hb hn h2 /\
    listing f m2 max = listing f m max /\ forall c, c ∈ free_clusters f m2 <-> c ∈ free_clusters f m.
Proof.
  intros A Hfm Hroot Hrooms Hh q Hq Hlen Hu He Hfit Hne Hn Hl Hfu.
  destruct (free_clusters f m) as [|c fr] eqn:Efr; [done|].
  destruct (create_file_spec f bs hb hn sp A Hfm Hroot Hrooms p di h m Hq Hlen Hh He c fr Hfit Efr Hu)
    as (h1 & m1 & E1 & Hh1 & Hadd & Hf1 & F1 & _ & _).
  destruct (valid_u32 f bs hb hn sp A c) as (U & _); [eapply (chain_valid_in f m1 [c]); [apply Hf1|left]|].
  assert (Hc : 0 <= c < 2^32) by (unfold EOC in U; lia).
  assert (Hq0 : q <> []) by (intros E; rewrite E in Hlen; cbn in Hlen; lia).
  destruct (find_end_spec _ _ _ _ _ _ He ltac:(lia) eq_refl) as (K0 & _).
  assert (Hst : rd32 m1 (cl_addr f (root_dir_cluster f) + di + 32 + 20) = c).
  { apply Hadd. }
  destruct (unlink_spec f bs hb hn sp A Hfm Hroot Hrooms p fuel h1 m1 di (endpos di q) [c] Hq0 Hh1)
    as (h2 & m2 & E2 & Hh2 & Z2 & B2 & M2); try done; [by apply (added_entries f p di m Hq Hlen He c 0)|apply Hf1|by rewrite Hst|apply Hf1|].
  exists (h1, m1), h2, m2. split_and!; try done.
  - apply (removed_listing f m di q c 0 m1 m2 max); try done. lia.
  - intros d. rewrite (released_free f bs hb hn sp A Hfm Hroot m1 m2 [c] Z2); [|apply Hf1|done]. rewrite F1. set_solver.
Qed.

(** C16. The life of a file: created, opened by its name, written at any offset and
    read from its start, it gives zeros before that offset and then the bytes
    written, if the directory has room and enough clusters are free. *)
Theorem exfat_file_lifecycle (f : exfat_fs D) bs hb hn sp s p fuel buf buf2 len off h m di ents :
  areas f bs hb hn sp -> formatted f -> valid f (root_dir_cluster f) -> heap_ok bs hb hn h ->
  (s, true) ∈ bs -> 208 + 2 * Kmalloc.ALIGN_UP (cluster_size f) 16 <= s ->
  let q := strip_slash p in
  Forall (fun c => 0 < c < 128) q -> (1 <= length q <= 63)%nat -> fatv f m (root_dir_cluster f) <> 0 ->
  dir_end f m = Some di -> endpos di q <= cluster_size f ->
  listing f m 32 = Some ents -> (length ents < 32)%nat -> Forall (fun e => de_name e <> q) ents ->
  buffer f hb hn sp buf len -> buffer f hb hn sp buf2 (off + len) ->
  (1 <= fuel)%nat -> 0 <= off -> 0 < len -> off + len < 2^63 ->
  clusters_for f (off + len) <= Z.of_nat (length (free_clusters f m)) ->
  exists s1 n s2 n' s3 h4 m4, exfat_create sp f (Some p) (h, m) = Some (0, s1) /\
    exfat_open f (Some p) s1 = Some (Some n, s2) /\
    exfat_write fuel sp (Some n) off buf len s2 = Some (s32 len, Some n', s3) /\
    exfat_read sp (Some n') 0 buf2 (off + len) s3 = Some (s32 (off + len), (h4, m4)) /\
    forall i, 0 <= i < off + len -> rd8 m4 (buf2 + i) = if off <=? i then rd8 m (buf + (i - off)) else 0.
Proof.
  intros A Hfm Hroot Hh R1 R2 q Hq Hlen Hu He Hfit Hl Hmax Hnew Hb Hb2 Hfu Ho Hln Hend Hcl.
  pose proof (csz_pos f bs hb hn sp A) as Hcs. destruct (clusters_for_spec f bs hb hn sp A (off + len) ltac:(lia)) as [C1 _].
  destruct (free_clusters f m) as [|c fr] eqn:Efr; [cbn in Hcl; lia|].
  assert (Hrooms : two_rooms f bs) by (exists s; split; [done|lia]).
  assert (Hq0 : q <> []) by (intros E; rewrite E in Hlen; cbn in Hlen; lia).
  destruct (create_file_spec f bs hb hn sp A Hfm Hroot Hrooms p di h m Hq Hlen Hh He c fr Hfit Efr Hu)
    as (h1 & m1 & E1 & Hh1 & Hadd & Hf1 & F1 & Z1 & M1).
  assert (Hvc : valid f c) by (eapply (chain_valid_in f m1 [c]); [apply Hf1|left]).
  destruct (valid_u32 f bs hb hn sp A c Hvc) as (U & _).
  assert (Hl1 : listing f m1 32 = Some (ents ++ [MkDirent c 0 0 q]))
    by (apply (added_listing f p di m Hq Hlen He c); try done; lia).
  destruct (KmallocProps.align16 (cluster_size f) ltac:(lia)) as (_ & Ha & _).
  destruct (open_spec f bs hb hn sp A Hroot p s (Kmalloc.ALIGN_UP (cluster_size f) 16) h1 m1 _ (MkDirent c 0 0 q)
    R1 ltac:(lia) ltac:(lia) Hh1 (strip_nonroot p Hq0) Hl1)
    as (h2 & m2 & bs2 & s2 & E2 & Hh2 & _ & _ & A2 & M2 & Hsub); [by apply find_entry_new|].
  pose proof (file_ok_mods f bs hb hn sp A Hfm Hroot m1 m2 _ _ M2 Hf1) as Hf2.
  assert (F2 : free_clusters f m2 = fr).
  { rewrite <- F1. apply (free_ext f Hfm). intros d Hd.
    by rewrite (mods_fat f bs hb hn sp A [] [] m1 m2 d M2) by (done || set_solver). }
  destruct (write_read_range f bs2 hb hn sp A2 Hfm Hroot fuel buf buf2 len off 0 (off + len) h2 m2 [c] (MkNode f c 0 0))
    as (n' & s3 & h4 & m4 & E3 & E4 & _ & H4); try done; try lia; [rewrite F2; cbn [length] in *; lia|].
  exists (h1, m1), (MkNode f c 0 0), (h2, m2), n', s3, h4, m4. split_and!; try done.
  intros i Hi. rewrite H4, Z.add_0_l by done. destruct (Z.leb_spec off i).
  - inb_cases; [|lia]. destruct Hb as [B1 B2 B3 B4]. unfold apart in *.
    pose proof (mods_trans _ _ _ _ _ _ _ _ _ _ _ _ M1 M2) as M12.
    eapply (mods_other f bs hb hn sp A); [exact M12|all_valid..|apply not_scratch; lia|lia].
  - rewrite (content_mods f bs hb hn sp A [] [] m1 m2 [c] i M2); [|all_valid..|set_solver|lia].
    inb_cases; [lia|]. apply Z1. lia.
Qed.

End props.

(** ** The volume of 126 clusters, with a heap of 4 KiB *)

Definition demo_heap : Kmalloc.kheap := Kmalloc.kmalloc_init KmallocProps.kzero 0x1000 0x1000.
Abbreviation demo_room := (0x1000 - 32).

Lemma demo_heap_ok : heap_ok [(demo_room, true)] 0x1000 0x1000 demo_heap.
Proof. split; [apply KmallocProps.init_inv; done|done]. Qed.

Lemma demo_heap_areas : areas demo_small [(demo_room, true)] 0x1000 0x1000 0x8000.
Proof.
  constructor; [constructor; cbn; lia| |done|left; cbn; lia|left; cbn; lia|left; cbn; lia].
  exists demo_room. split; [left|done].
Qed.

Lemma demo_two_rooms : two_rooms demo_small [(demo_room, true)].
Proof. exists demo_room. split; [left|vm_compute; discriminate]. Qed.

(** The file "/ab". *)
Abbreviation demo_path := [47; 97; 98].

Lemma demo_name : Forall (fun c => 0 < c < 128) (strip_slash demo_path).
Proof. repeat constructor. Qed.

Lemma demo_root_used : fatv demo_small demo_disk (root_dir_cluster demo_small) <> 0.
Proof. vm_compute. discriminate. Qed.

Lemma exfat_create_correct_witness : exists h' m',
  exfat_create 0x8000 demo_small (Some demo_path) (demo_heap, demo_disk) = Some (0, (h', m')) /\
  listing demo_small m' 32 = Some [MkDirent 4 0 0 [97; 98]].
Proof.
  destruct (exfat_create_correct demo_small [(demo_room, true)] 0x1000 0x1000 0x8000 demo_path demo_heap demo_disk)
    as (di & rc & h' & m' & Ed & E & _ & H);
    [exact demo_heap_areas|exact demo_formatted|apply demo_small_valid; cbn; lia|exact demo_two_rooms|exact demo_heap_ok
    |exact demo_name|cbn; lia|exact demo_root_used|].
  assert (Edi : dir_end demo_small demo_disk = Some 0) by (vm_compute; reflexivity).
  rewrite Edi in Ed. injection Ed as <-.
  assert (Ef : exists fr, free_clusters demo_small demo_disk = 4 :: fr) by (eexists; vm_compute; reflexivity).
  destruct Ef as [fr Ef]. rewrite Ef in H. destruct H as (-> & H & _). exists h', m'. split; [exact E|].
  apply (H 32 []); [vm_compute; reflexivity|reflexivity].
Defined.

(** The directory with the entries of "ab", whose chain is 3, 5. *)
Definition demo_dir : mem := put_file demo_disk (cl_addr demo_small 2) 512 0 [97; 98] 3.

Lemma demo_dir_chain : chain demo_small demo_dir [3; 5].
Proof.
  split.
  - split; [repeat apply list.Forall_cons_2; try apply list.Forall_nil_2; apply demo_small_valid; lia|].
    intros [|[|i]] c d Hc Hd; [|discriminate..]. injection Hc as <-. injection Hd as <-. vm_compute. reflexivity.
  - apply (bool_decide_unpack _). exact I.
  - intros l0 c E. destruct l0 as [|x [|y l0]]; [discriminate| |destruct l0; discriminate].
    injection E as <- <-. vm_compute. reflexivity.
Qed.


(** The entries of a removed file become the end of the directory: of two files the
    second disappears with the first. *)
Example exfat_unlink_hides_later :
  let m := put_file demo_dir (cl_addr demo_small 2) 512 96 [99] 7 in
  listing demo_small m 32 = Some [MkDirent 3 0 0 [97; 98]; MkDirent 7 0 0 [99]] /\
  ('(rc, (_, m')) ← exfat_unlink 2 0x8000 demo_small demo_path (demo_heap, m); Some (rc, listing demo_small m' 32))
    = Some (0, Some []).
Proof. split; vm_compute; reflexivity. Qed.

Lemma exfat_create_unlink_witness : exists s1 h2 m2,
  exfat_create 0x8000 demo_small (Some demo_path) (demo_heap, demo_disk) = Some (0, s1) /\
  exfat_unlink 1 0x8000 demo_small demo_path s1 = Some (0, (h2, m2)).
Proof.
  destruct (exfat_create_unlink demo_small [(demo_room, true)] 0x1000 0x1000 0x8000 demo_path 1 demo_heap demo_disk 0 32)
    as (s1 & h2 & m2 & E1 & E2 & _);
    [exact demo_heap_areas|exact demo_formatted|apply demo_small_valid; cbn; lia|exact demo_two_rooms|exact demo_heap_ok
    |exact demo_name|cbn; lia|exact demo_root_used|vm_compute; reflexivity|vm_compute; discriminate
    |vm_compute; discriminate|vm_compute; reflexivity|eexists; vm_compute; reflexivity|lia|].
  exists s1, h2, m2. split; [exact E1|exact E2].
Defined.

Lemma exfat_file_lifecycle_witness : exists s1 n s2 n' s3 h4 m4,
  exfat_create 0x8000 demo_small (Some demo_path) (demo_heap, demo_disk) = Some (0, s1) /\
  exfat_open demo_small (Some demo_path) s1 = Some (Some n, s2) /\
  exfat_write 1 0x8000 (Some n) 500 0x20000 700 s2 = Some (700, Some n', s3) /\
  exfat_read 0x8000 (Some n') 0 0x30000 1200 s3 = Some (1200, (h4, m4)) /\
  rd8 m4 (0x30000 + 499) = 0.
Proof.
  destruct (exfat_file_lifecycle demo_small [(demo_room, true)] 0x1000 0x1000 0x8000 demo_room demo_path 1 0x20000 0x30000
    700 500 demo_heap demo_disk 0 []) as (s1 & n & s2 & n' & s3 & h4 & m4 & E1 & E2 & E3 & E4 & H);
    [exact demo_heap_areas|exact demo_formatted|apply demo_small_valid; cbn; lia|exact demo_heap_ok|left
    |vm_compute; discriminate|exact demo_name|cbn; lia|exact demo_root_used|vm_compute; reflexivity
    |vm_compute; discriminate|vm_compute; reflexivity|cbn; lia|constructor|constructor; unfold apart; cbn; lia
    |constructor; unfold apart; cbn; lia|lia|lia|lia|lia|vm_compute; discriminate|].
  exists s1, n, s2, n', s3, h4, m4. split; [exact E1|]. split; [exact E2|]. split; [exact E3|]. split; [exact E4|].
  apply (H 499). lia.
Defined.

End ExfatFile.
