(* ===== verification/Vfs.v ===== *)
(** * Virtual file system ([src/kernel64/vfs/vfs.c])

    File systems register a table of operations under a name; mounting one
    puts it in the mount table; paths [mount:sub] are dispatched through that
    table.  An operation table is a record of optional functions (a missing
    one is a NULL pointer) on the state of the file systems and devices, which
    the VFS only passes through. *)

From S2P Require Import Prelude Block.

Module Vfs.

Section vfs.
(** State of the world behind the file systems, private data of a mount, open
    nodes, and block devices. *)
Context {W Priv N Dv : Type}.

(** Buffers are addresses; results are C [int]s. *)
Record vfs_fs_ops := Ops {
  op_mount : option (option Dv -> list Z -> W -> Z * Priv * W);
  op_umount : option (Priv -> W -> W);
  op_open : option (Priv -> list Z -> W -> option N * W);
  op_stat : option (Priv -> list Z -> W -> Z * option (Z * Z) * W);
  op_read : option (N -> Z -> Z -> Z -> W -> Z * W);
  op_readdir : option (N -> Z -> Z -> Z -> W -> Z * W);
  op_write : option (N -> Z -> Z -> Z -> W -> Z * W);
  op_create : option (Priv -> list Z -> Z -> W -> Z * W);
  op_unlink : option (Priv -> list Z -> W -> Z * W)
}.

(** The operation table a node points to; the private data [(void* )1] used
    when a file system has no mount function; the device lookup. *)
Context (node_ops : N -> vfs_fs_ops) (priv_one : Priv) (block_find : list Z -> W -> option Dv).

Definition MAX_FS : Z := 4.
Definition MAX_MOUNTS : Z := 4.

Record fs_reg := FsReg { fname : list Z; fops : vfs_fs_ops }.
Record mount_t := Mount { mname : list Z; mops : vfs_fs_ops; fs_priv : Priv }.

(** The used parts of the two tables, and the world. *)
Record vfs := MkVfs { g_fs : list fs_reg; g_mounts : list mount_t; world : W }.

Definition g_fs_count (st : vfs) : Z := Z.of_nat (length (g_fs st)).
Definition g_mount_count (st : vfs) : Z := Z.of_nat (length (g_mounts st)).

Definition with_world (st : vfs) (w : W) : vfs := MkVfs (g_fs st) (g_mounts st) w.

(** Strings are their bytes, without the terminating NUL. *)
Definition str_eq (a b : list Z) : bool := Block.name_eq a b.
Definition str_cpy (s : list Z) (n : Z) : list Z := take (Z.to_nat (n - 1)) s.

Definition vfs_register_fs (st : vfs) (name : list Z) (ops : vfs_fs_ops) : Z * vfs :=
  if MAX_FS <=? g_fs_count st then (-1, st)
  else (0, MkVfs (g_fs st ++ [FsReg (str_cpy name 8) ops]) (g_mounts st) (world st)).

Fixpoint find_fs (l : list fs_reg) (name : list Z) : option vfs_fs_ops :=
  match l with
  | [] => None
  | r :: l' => if str_eq (fname r) name then Some (fops r) else find_fs l' name
  end.

Definition vfs_mount (st : vfs) (fs_name mount_name : list Z) (bdev_name : option (list Z))
    : Z * vfs :=
  if MAX_MOUNTS <=? g_mount_count st then (-1, st)
  else
    match find_fs (g_fs st) fs_name with
    | None => (-1, st)
    | Some fops =>
        let wanted := match bdev_name with Some (c :: r) => Some (c :: r) | _ => None end in
        let bdev := match wanted with Some n => block_find n (world st) | None => None end in
        match wanted, bdev with
        | Some _, None => (-1, st)
        | _, _ =>
            let '(rc, priv, w) :=
              match op_mount fops with
              | None => (0, priv_one, world st)
              | Some f => f bdev mount_name (world st)
              end in
            if negb (rc =? 0) then (rc, with_world st w)
            else (0, MkVfs (g_fs st) (g_mounts st ++ [Mount (str_cpy mount_name 8) fops priv]) w)
        end
    end.

(** Index of the first mount with this name. *)
Fixpoint mount_index (l : list mount_t) (n : list Z) : option nat :=
  match l with
  | [] => None
  | m :: l' => if str_eq (mname m) n then Some O else S <$> mount_index l' n
  end.

Definition find_mount (st : vfs) (n : list Z) : option mount_t :=
  i ← mount_index (g_mounts st) n; g_mounts st !! i.

Definition vfs_umount (st : vfs) (mount_name : list Z) : Z * vfs :=
  match mount_index (g_mounts st) mount_name with
  | None => (-1, st)
  | Some i =>
      match g_mounts st !! i with
      | None => (-1, st)
      | Some m =>
          let w := match op_umount (mops m) with
                   | Some f => f (fs_priv m) (world st)
                   | None => world st
                   end in
          (0, MkVfs (g_fs st) (delete i (g_mounts st)) w)
      end
  end.

(** Split at the first ':' (58). *)
Fixpoint split_colon (path : list Z) : option (list Z * list Z) :=
  match path with
  | [] => None
  | c :: r =>
      if c =? 58 then Some ([], r)
      else '(m, s) ← split_colon r; Some (c :: m, s)
  end.

(** The mount of a path and the path inside it; at most 7 bytes of the mount
    name count. *)
Definition parse_mount_and_sub (st : vfs) (path : list Z) : option (mount_t * list Z) :=
  '(p, sub) ← split_colon path;
  mt ← find_mount st (take 7 p);
  Some (mt, sub).

Definition vfs_open (st : vfs) (path : list Z) : option N * vfs :=
  match parse_mount_and_sub st path with
  | None => (None, st)
  | Some (mt, sub) =>
      match op_open (mops mt) with
      | None => (None, st)
      | Some f => let '(n, w) := f (fs_priv mt) sub (world st) in (n, with_world st w)
      end
  end.

Definition vfs_stat (st : vfs) (path : list Z) : Z * option (Z * Z) * vfs :=
  match parse_mount_and_sub st path with
  | None => (-1, None, st)
  | Some (mt, sub) =>
      match op_stat (mops mt) with
      | None => (-1, None, st)
      | Some f => let '(r, o, w) := f (fs_priv mt) sub (world st) in (r, o, with_world st w)
      end
  end.

Definition vfs_create (st : vfs) (path : list Z) (size_hint : Z) : Z * vfs :=
  match parse_mount_and_sub st path with
  | None => (-1, st)
  | Some (mt, sub) =>
      match op_create (mops mt) with
      | None => (-1, st)
      | Some f => let '(r, w) := f (fs_priv mt) sub size_hint (world st) in (r, with_world st w)
      end
  end.

Definition vfs_unlink (st : vfs) (path : list Z) : Z * vfs :=
  match parse_mount_and_sub st path with
  | None => (-1, st)
  | Some (mt, sub) =>
      match op_unlink (mops mt) with
      | None => (-1, st)
      | Some f => let '(r, w) := f (fs_priv mt) sub (world st) in (r, with_world st w)
      end
  end.

(** Operations on nodes; [None] is a NULL node. *)
Definition on_node (op : vfs_fs_ops -> option (N -> Z -> Z -> Z -> W -> Z * W))
    (st : vfs) (n : option N) (a b c : Z) : Z * vfs :=
  match n with
  | None => (-1, st)
  | Some n =>
      match op (node_ops n) with
      | None => (-1, st)
      | Some f => let '(r, w) := f n a b c (world st) in (r, with_world st w)
      end
  end.

Definition vfs_read (st : vfs) (n : option N) (off buf len : Z) : Z * vfs :=
  on_node op_read st n off buf len.
Definition vfs_readdir (st : vfs) (n : option N) (idx name maxlen : Z) : Z * vfs :=
  on_node op_readdir st n idx name maxlen.
Definition vfs_write (st : vfs) (n : option N) (off buf len : Z) : Z * vfs :=
  on_node op_write st n off buf len.

Definition vfs_has_mount (st : vfs) (name : list Z) : Z :=
  match name with
  | [] => 0
  | _ => match mount_index (g_mounts st) name with Some _ => 1 | None => 0 end
  end.

Definition vfs_mount_count (st : vfs) : Z := g_mount_count st.

(** Result, and the name stored in the buffer of [outn] bytes. *)
Definition vfs_get_mount_name (st : vfs) (idx outn : Z) : Z * option (list Z) :=
  if (idx <? 0) || (g_mount_count st <=? idx) || (outn <=? 0) then (-1, None)
  else match g_mounts st !! Z.to_nat idx with
       | Some m => (0, Some (str_cpy (mname m) outn))
       | None => (-1, None)
       end.

End vfs.

Arguments vfs_fs_ops W Priv N Dv : clear implicits.
Arguments vfs W Priv N Dv : clear implicits.
Arguments mount_t W Priv N Dv : clear implicits.
Arguments fs_reg W Priv N Dv : clear implicits.

End Vfs.
