(* ===== verification/VfsSpec.v ===== *)
(** * Properties of the virtual file system *)

From S2P Require Import Prelude Block Vfs.

Module VfsSpec.

Import Vfs.

Lemma str_eq_spec a : forall b, str_eq a b = true <-> a = b.
Proof.
  unfold str_eq. induction a as [|x a IH]; intros [|y b]; cbn; try done.
  rewrite andb_true_iff, Z.eqb_eq, IH. split; [by intros [-> ->]|by intros [= -> ->]].
Qed.

Lemma str_eq_refl a : str_eq a a = true.
Proof. by apply str_eq_spec. Qed.

Lemma str_eq_false a b : a <> b -> str_eq a b = false.
Proof. intros H. destruct (str_eq a b) eqn:E; [|done]. by apply str_eq_spec in E. Qed.

Lemma split_colon_app p sub : 58 ∉ p -> split_colon (p ++ 58 :: sub) = Some (p, sub).
Proof.
  induction p as [|c p IH]; intros H; cbn; [done|]. apply not_elem_of_cons in H as [H1 H2].
  rewrite (proj2 (Z.eqb_neq c 58)), IH by congruence || done. done.
Qed.

Section props.
Context {W Priv N Dv : Type}.
Implicit Types st : vfs W Priv N Dv.
Implicit Types m : mount_t W Priv N Dv.
Context (priv_one : Priv) (block_find : list Z -> W -> option Dv).

(** Counts and name lengths that fit the arrays. *)
Record inv st : Prop := Inv {
  inv_fs : g_fs_count st <= MAX_FS;
  inv_mounts : g_mount_count st <= MAX_MOUNTS;
  inv_fnames : Forall (fun r => (length (fname r) <= 7)%nat) (g_fs st);
  inv_mnames : Forall (fun m => (length (mname m) <= 7)%nat) (g_mounts st)
}.

Lemma str_cpy_8 s : str_cpy s 8 = take 7 s.
Proof. done. Qed.

Lemma take7_length (s : list Z) : (length (take 7 s) <= 7)%nat.
Proof. rewrite length_take. lia. Qed.

(** ** The mount table *)

Lemma mount_index_snoc (l : list (mount_t W Priv N Dv)) m n :
  mount_index (l ++ [m]) n =
    match mount_index l n with
    | Some i => Some i
    | None => if str_eq (mname m) n then Some (length l) else None
    end.
Proof.
  induction l as [|a l IH]; cbn; [by destruct (str_eq _ _)|].
  destruct (str_eq (mname a) n); [done|]. rewrite IH.
  destruct (mount_index l n); [done|]. by destruct (str_eq (mname m) n).
Qed.

Lemma mount_index_Some (l : list (mount_t W Priv N Dv)) n : forall i,
  mount_index l n = Some i -> exists m, l !! i = Some m /\ mname m = n /\
    forall j m', (j < i)%nat -> l !! j = Some m' -> mname m' <> n.
Proof.
  induction l as [|a l IH]; intros i; cbn; [done|].
  destruct (str_eq (mname a) n) eqn:E.
  - intros [= <-]. apply str_eq_spec in E. exists a. split_and!; [done|done|lia].
  - intros H. destruct (mount_index l n) as [k|] eqn:Ek; [|done]. cbn in H. injection H as <-.
    destruct (IH k eq_refl) as (m & H1 & H2 & H3). exists m. split_and!; [done|done|].
    intros [|j] m' Hj Hm'; cbn in Hm'.
    + injection Hm' as ->. intros Hn. by rewrite (proj2 (str_eq_spec _ _) Hn) in E.
    + apply (H3 j); [lia|done].
Qed.

Lemma mount_index_None (l : list (mount_t W Priv N Dv)) n :
  mount_index l n = None <-> Forall (fun m => mname m <> n) l.
Proof.
  induction l as [|a l IH]; cbn; [done|]. rewrite list.Forall_cons.
  destruct (str_eq (mname a) n) eqn:E.
  - apply str_eq_spec in E. split; [done|]. by intros [? _].
  - assert (Hne : mname a <> n) by (intros Hn; by rewrite (proj2 (str_eq_spec _ _) Hn) in E).
    rewrite <- IH. destruct (mount_index l n); cbn; split; try done. by intros [_ H].
Qed.

(** Adding a mount at the end does not change what resolves already. *)
Lemma find_mount_snoc st m w n :
  find_mount (MkVfs (g_fs st) (g_mounts st ++ [m]) w) n =
    match find_mount st n with
    | Some x => Some x
    | None => if str_eq (mname m) n then Some m else None
    end.
Proof.
  unfold find_mount. cbn [g_mounts]. rewrite mount_index_snoc.
  destruct (mount_index (g_mounts st) n) as [i|] eqn:E; cbn.
  - destruct (mount_index_Some _ _ _ E) as (x & H & _). rewrite H.
    by apply lookup_app_l_Some.
  - destruct (str_eq (mname m) n); [|done]. cbn.
    by rewrite lookup_app_r, Nat.sub_diag by lia.
Qed.

(** Removing the first mount of a name does not change the other names. *)
Lemma find_mount_delete st i w n n' :
  mount_index (g_mounts st) n = Some i -> n' <> n ->
  find_mount (MkVfs (g_fs st) (delete i (g_mounts st)) w) n' = find_mount st n'.
Proof.
  intros E Hne. unfold find_mount. cbn [g_mounts]. revert i E.
  induction (g_mounts st) as [|a l IH]; intros i E; cbn in E; [done|].
  destruct (str_eq (mname a) n) eqn:Ea.
  - injection E as <-. apply str_eq_spec in Ea. cbn. rewrite (str_eq_false (mname a) n') by congruence.
    by destruct (mount_index l n').
  - destruct (mount_index l n) as [k|] eqn:Ek; [|done]. injection E as <-. cbn.
    destruct (str_eq (mname a) n'); [done|]. specialize (IH k eq_refl).
    destruct (mount_index (delete k l) n') as [j|], (mount_index l n') as [j'|]; done.
Qed.

(** ** Contracts *)


(** Unmounting removes the first mount of that name, after calling its
    umount operation, and no other; the other names resolve as before, and if
    the name was mounted once it no longer resolves.  It fails, changing
    nothing, exactly when no mount has the name. *)
Theorem vfs_umount_correct st n :
  let r := vfs_umount st n in
  (find_mount st n = None -> r = (-1, st)) /\
  (forall m, find_mount st n = Some m -> r.1 = 0 /\
     world r.2 = match op_umount (mops m) with
                 | Some f => f (fs_priv m) (world st)
                 | None => world st
                 end /\
     g_mount_count r.2 = g_mount_count st - 1 /\
     (forall n', n' <> n -> find_mount r.2 n' = find_mount st n') /\
     (NoDup (mname <$> g_mounts st) -> find_mount r.2 n = None)).
Proof.
  cbv zeta. unfold vfs_umount. split.
  - unfold find_mount. destruct (mount_index (g_mounts st) n) as [i|] eqn:E; [|done]. bind.
    by intros ->.
  - intros m Hm. pose proof Hm as Hm'. unfold find_mount in Hm'.
    destruct (mount_index (g_mounts st) n) as [i|] eqn:E; [|done]. cbn in Hm'. rewrite Hm'.
    cbn [fst snd world]. split; [done|]. split; [done|]. split.
    { unfold g_mount_count. cbn [g_mounts]. pose proof (lookup_lt_Some _ _ _ Hm').
      rewrite length_delete by (by eexists). lia. }
    split; [intros n' Hne; by apply (find_mount_delete st i _ n)|].
    intros Hd. unfold find_mount. cbn [g_mounts].
    destruct (mount_index_Some _ _ _ E) as (m0 & H1 & H2 & _).
    assert (Hnone : mount_index (delete i (g_mounts st)) n = None); [|by rewrite Hnone].
    apply mount_index_None. apply list.Forall_forall. intros x Hx Hxn.
    apply list_elem_of_lookup_1 in Hx as [j Hj].
    destruct (decide (j < i)%nat) as [Hlt|Hge].
    + rewrite list_lookup_delete_lt in Hj by done.
      assert (j = i) by (eapply (NoDup_lookup _ _ _ _ Hd); rewrite list_lookup_fmap;
        [by rewrite Hj|rewrite H1; cbn; congruence]). lia.
    + rewrite list_lookup_delete_ge in Hj by lia.
      assert (S j = i) by (eapply (NoDup_lookup _ _ _ _ Hd); rewrite list_lookup_fmap;
        [by rewrite Hj|rewrite H1; cbn; congruence]). lia.
Qed.

(** Table bounds and the 8-byte name fields: registering, mounting and
    unmounting keep both tables within 4 entries and the stored names within 7
    bytes.  As a consequence a mount made under a longer name is found by
    paths, which are cut to 7 bytes too, but neither [vfs_has_mount] nor
    [vfs_umount] find it under that name. *)
Theorem vfs_long_names st n :
  inv st ->
  (forall name ops, inv (vfs_register_fs st name ops).2) /\
  (forall fs mn bd, inv (vfs_mount priv_one block_find st fs mn bd).2) /\
  (forall mn, inv (vfs_umount st mn).2) /\
  ((7 < length n)%nat -> vfs_has_mount st n = 0 /\ vfs_umount st n = (-1, st)).
Proof.
  intros [H1 H2 H3 H4]. split_and!.
  - intros name ops. unfold vfs_register_fs. destruct (Z.leb_spec MAX_FS (g_fs_count st)); [done|].
    constructor; cbn [snd g_fs g_mounts]; try done.
    + unfold g_fs_count, MAX_FS in *. cbn [g_fs]. rewrite length_app. cbn. lia.
    + apply list.Forall_app. split; [done|]. constructor; [apply take7_length|constructor].
  - intros fs mn bd. unfold vfs_mount.
    destruct (Z.leb_spec MAX_MOUNTS (g_mount_count st)); [done|].
    destruct (find_fs _ _) as [fops|]; [|done].
    destruct (match bd with Some (c :: r) => Some (c :: r) | _ => None end) as [nm|];
      [destruct (block_find nm (world st)); [|done]|];
      (destruct (match op_mount fops with Some _ => _ | None => _ end) as [[rc priv] w];
       destruct (negb (rc =? 0)); [done|]; constructor; cbn [snd g_fs g_mounts]; try done;
       [unfold g_mount_count, MAX_MOUNTS in *; cbn [g_mounts]; rewrite length_app; cbn; lia
       |apply list.Forall_app; split; [done|]; constructor; [apply take7_length|constructor]]).
  - intros mn. unfold vfs_umount. destruct (mount_index _ _) as [i|]; [|done].
    destruct (g_mounts st !! i) as [m|] eqn:E; [|done]. constructor; cbn [snd g_fs g_mounts]; try done.
    + unfold g_mount_count in *. cbn [g_mounts]. rewrite length_delete by (by eexists). lia.
    + by apply Forall_delete.
  - intros Hn. assert (E : mount_index (g_mounts st) n = None).
    { apply mount_index_None. eapply Forall_weaken; [exact H4|]. intros m Hm <-. cbn in Hm. lia. }
    unfold vfs_has_mount, vfs_umount. rewrite E. by destruct n.
Qed.

End props.

(** ** Instances

    A world without state, one file system "fs" mounted as "a". *)

Definition demo_ops : vfs_fs_ops unit Z Z Z := Ops None None None None None None None None None.
Definition demo_find (_ : list Z) (_ : unit) : option Z := None.
Definition demo0 : vfs unit Z Z Z := (vfs_register_fs (MkVfs [] [] tt) [102; 115] demo_ops).2.
Definition demo1 : vfs unit Z Z Z := (vfs_mount 1 demo_find demo0 [102; 115] [97] None).2.


Lemma vfs_long_names_witness :
  vfs_has_mount demo1 [1; 2; 3; 4; 5; 6; 7; 8] = 0.
Proof.
  destruct (vfs_long_names 1 demo_find demo1 [1; 2; 3; 4; 5; 6; 7; 8]) as (_ & _ & _ & H).
  - constructor; try done; repeat constructor; cbn; lia.
  - apply H. cbn. lia.
Defined.

End VfsSpec.
