(* ===== verification/Console.v ===== *)
(** * Text console ([src/kernel64/console.c])

    A console has a window of text cells, a ring buffer of rows scrolled out of
    it, a cursor and a view into the history; the active console is drawn into
    text video memory.  The arrays are bounds-checked: an access outside one
    has no result. *)

From S2P Require Import Prelude Mb2.

Module Console.

(** ** Arrays of [n] cells *)

Definition get (n : Z) (m : mem) (i : Z) : option Z :=
  if (0 <=? i) && (i <? n) then Some (rd m i) else None.
Definition put (n : Z) (m : mem) (i v : Z) : option mem :=
  if (0 <=? i) && (i <? n) then Some (wr m i v) else None.

Definition VGA_MEM_DEFAULT : Z := 0xB8000.
Definition VGA_DEFAULT_COLS : Z := 80.
Definition VGA_DEFAULT_ROWS : Z := 25.
Definition CONSOLE_SCROLLBACK_ROWS : Z := 512.

Record Console := MkConsole {
  cols : Z; rows : Z;
  row : Z; col : Z;
  color : Z;
  vram : Z;
  vram_pitch_chars : Z;
  cells : mem;
  sbuf : mem;
  sbuf_rows : Z;
  sbuf_head : Z;
  sbuf_count : Z;
  view_offset_rows : Z
}.

Definition CELLS : Z := VGA_DEFAULT_COLS * VGA_DEFAULT_ROWS.
Definition SBUF : Z := VGA_DEFAULT_COLS * CONSOLE_SCROLLBACK_ROWS.

Definition set_cursor (c : Console) (r co : Z) : Console :=
  MkConsole (cols c) (rows c) r co (color c) (vram c) (vram_pitch_chars c) (cells c) (sbuf c)
    (sbuf_rows c) (sbuf_head c) (sbuf_count c) (view_offset_rows c).
Definition set_cells (c : Console) (m : mem) : Console :=
  MkConsole (cols c) (rows c) (row c) (col c) (color c) (vram c) (vram_pitch_chars c) m (sbuf c)
    (sbuf_rows c) (sbuf_head c) (sbuf_count c) (view_offset_rows c).
Definition set_sbuf (c : Console) (m : mem) (n h k : Z) : Console :=
  MkConsole (cols c) (rows c) (row c) (col c) (color c) (vram c) (vram_pitch_chars c) (cells c) m
    n h k (view_offset_rows c).
Definition set_view (c : Console) (v : Z) : Console :=
  MkConsole (cols c) (rows c) (row c) (col c) (color c) (vram c) (vram_pitch_chars c) (cells c)
    (sbuf c) (sbuf_rows c) (sbuf_head c) (sbuf_count c) v.
Definition set_color (c : Console) (k : Z) : Console :=
  MkConsole (cols c) (rows c) (row c) (col c) k (vram c) (vram_pitch_chars c) (cells c)
    (sbuf c) (sbuf_rows c) (sbuf_head c) (sbuf_count c) (view_offset_rows c).
Definition set_geometry (c : Console) (w h : Z) : Console :=
  MkConsole w h (row c) (col c) (color c) (vram c) (vram_pitch_chars c) (cells c)
    (sbuf c) (sbuf_rows c) (sbuf_head c) (sbuf_count c) (view_offset_rows c).
Definition set_vram (c : Console) (v p : Z) : Console :=
  MkConsole (cols c) (rows c) (row c) (col c) (color c) v p (cells c)
    (sbuf c) (sbuf_rows c) (sbuf_head c) (sbuf_count c) (view_offset_rows c).

(** Video memory, by address, and the hardware cursor. *)
Record display := Display { screen : mem; hw_cursor : Z }.

(** A [char] is signed: its conversion to [uint16_t] extends the sign. *)
Definition s8 (x : Z) : Z := (x + 2^7) mod 2^8 - 2^7.
Definition vga_entry (ch colr : Z) : Z := Z.lor (u16 (s8 ch)) (u16 (Z.shiftl colr 8)).

(** The two bytes of [pos] go to the cursor registers 0x0F and 0x0E. *)
Definition vga_move_hw_cursor (d : display) (r co w : Z) : display :=
  Display (screen d) (u16 (r * w + co)).

Definition with_screen (d : display) (m : mem) : display := Display m (hw_cursor d).

(** [c->vram[r * c->vram_pitch_chars + co] = v] *)
Definition poke (c : Console) (d : display) (r co v : Z) : display :=
  with_screen d (wr (screen d) (vram c + 2 * (r * vram_pitch_chars c + co)) v).

(** Draw a row of the screen from an array of [n] cells at [base]. *)
Definition draw_row (c : Console) (r n : Z) (m : mem) (base : Z) (d : display) : option display :=
  for_range 0 (cols c) (fun co d => v ← get n m (base + co); Some (poke c d r co v)) d.

(** [while (idx < 0) idx += n] *)
Fixpoint normalize (fuel : nat) (idx n : Z) : option Z :=
  if idx <? 0 then
    match fuel with
    | O => None
    | S fuel' => normalize fuel' (idx + n) n
    end
  else Some idx.

(** The loop over the history rows; the state is [idx] and the display. *)
Definition draw_history (c : Console) (hist : Z) (idx : Z) (d : display) : option (Z * display) :=
  for_range 0 hist
    (fun r '(idx, d) =>
       d ← draw_row c r SBUF (sbuf c) (u32 idx mod sbuf_rows c * cols c) d;
       Some ((idx + 1) mod sbuf_rows c, d)) (idx, d).

(** [active]: whether the console is the active one. *)
Definition render_view (active : bool) (c : Console) (d : display) : option display :=
  if negb active then Some d
  else
    let off := view_offset_rows c in
    let off := if sbuf_count c <? off then sbuf_count c else off in
    let hist := if rows c <? off then rows c else off in
    let idx := sbuf_head c - 1 - (hist - 1) in
    idx ← normalize (S (Z.to_nat (rows c))) idx (sbuf_rows c);
    '(_, d) ← draw_history c hist idx d;
    d ← (if hist <? rows c then
           for_range hist (rows c) (fun r d => draw_row c r CELLS (cells c) ((r - hist) * cols c) d) d
         else Some d);
    Some (if negb (view_offset_rows c =? 0) then vga_move_hw_cursor d (rows c - 1) 0 (cols c)
          else vga_move_hw_cursor d (row c) (col c) (cols c)).

Definition vga_flush (active : bool) (c : Console) (d : display) : option display :=
  if negb active then Some d
  else if negb (view_offset_rows c =? 0) then render_view active c d
  else
    d ← for_range 0 (rows c) (fun r d => draw_row c r CELLS (cells c) (r * cols c) d) d;
    Some (vga_move_hw_cursor d (row c) (col c) (cols c)).

(** Fill row [r] of the cells. *)
Definition fill_row (c : Console) (fill r : Z) (m : mem) : option mem :=
  for_range 0 (cols c) (fun co m => put CELLS m (r * cols c + co) fill) m.

Definition vga_clear (active : bool) (c : Console) (d : display) : option (Console * display) :=
  let fill := vga_entry 32 (color c) in
  m ← for_range 0 (rows c) (fill_row c fill) (cells c);
  let c := set_cursor (set_cells c m) 0 0 in
  let c := set_view (set_sbuf c (sbuf c) CONSOLE_SCROLLBACK_ROWS 0 0) 0 in
  d ← (if active then vga_flush active c d else Some d);
  Some (c, d).

Definition vga_scroll_up (c : Console) : option Console :=
  let dst := sbuf_head c mod sbuf_rows c * cols c in
  sb ← for_range 0 (cols c) (fun co sb => v ← get CELLS (cells c) (0 * cols c + co);
                                          put SBUF sb (dst + co) v) (sbuf c);
  let head := (sbuf_head c + 1) mod sbuf_rows c in
  let count := if sbuf_count c <? sbuf_rows c then sbuf_count c + 1 else sbuf_count c in
  let v := view_offset_rows c in
  let v := if (0 <? v) && (v <? count) then (if count <? v + 1 then count else v + 1) else v in
  m ← for_range 1 (rows c)
        (fun r m => for_range 0 (cols c)
           (fun co m => x ← get CELLS m (r * cols c + co); put CELLS m ((r - 1) * cols c + co) x) m)
        (cells c);
  m ← fill_row c (vga_entry 32 (color c)) (rows c - 1) m;
  Some (set_view (set_sbuf (set_cells c m) sb (sbuf_rows c) head count) v).

(** [if (++c->row >= c->rows) { vga_scroll_up(c); c->row = c->rows - 1; }],
    with the flag [scrolled]. *)
Definition next_row (c : Console) : option (Console * bool) :=
  let c := set_cursor c (u16 (row c + 1)) (col c) in
  if rows c <=? row c then
    c ← vga_scroll_up c;
    Some (set_cursor c (u16 (rows c - 1)) (col c), true)
  else Some (c, false).

Definition vga_putc (active : bool) (c : Console) (d : display) (ch : Z)
    : option (Console * display) :=
  '(c, d) ←
    (if ch =? 10 then
       '(c, _) ← next_row (set_cursor c (row c) 0); Some (c, d)
     else if ch =? 13 then Some (set_cursor c (row c) 0, d)
     else if ch =? 8 then
       Some (if 0 <? col c then set_cursor c (row c) (col c - 1) else c, d)
     else
       let prow := row c in
       let pcol := col c in
       m ← put CELLS (cells c) (prow * cols c + pcol) (vga_entry ch (color c));
       let c := set_cursor (set_cells c m) prow (u16 (pcol + 1)) in
       '(c, scrolled) ←
         (if cols c <=? col c then next_row (set_cursor c (row c) 0) else Some (c, false));
       if (active : bool) then
         if (scrolled : bool) || negb (view_offset_rows c =? 0) then
           d ← vga_flush active c d; Some (c, d)
         else
           v ← get CELLS (cells c) (prow * cols c + pcol);
           Some (c, poke c d prow pcol v)
       else Some (c, d));
  Some (c, if (active : bool) then vga_move_hw_cursor d (row c) (col c) (cols c) else d).

(** ** The set of consoles *)

Record state := MkState {
  s_consoles : list Console;
  s_active : option nat;
  disp : display;
  serial : list Z
}.

Definition serial_putc (st : state) (ch : Z) : state :=
  MkState (s_consoles st) (s_active st) (disp st) (ch :: serial st).

Definition is_active (st : state) (k : nat) : bool := bool_decide (s_active st = Some k).

(** Run an operation on console [k]. *)
Definition on (st : state) (k : nat)
    (f : bool -> Console -> display -> option (Console * display)) : option state :=
  c ← s_consoles st !! k;
  '(c, d) ← f (is_active st k) c (disp st);
  Some (MkState (<[k := c]> (s_consoles st)) (s_active st) d (serial st)).

Definition set_active (st : state) (k : nat) : state :=
  MkState (s_consoles st) (Some k) (disp st) (serial st).

Definition bind_backend_defaults (c : Console) (v pitch : Z) : Console :=
  set_vram c v (if negb (pitch =? 0) then pitch else cols c).

Definition fresh (c : Console) (w h : Z) : Console :=
  let c := set_cursor (set_color (set_geometry c w h) 0x0F) 0 0 in
  bind_backend_defaults c VGA_MEM_DEFAULT w.

Definition console_init (st : state) : option state :=
  c0 ← s_consoles st !! O;
  st ← (if cols c0 =? 0 then
          on st 0 (fun a c d => vga_clear a (fresh c VGA_DEFAULT_COLS VGA_DEFAULT_ROWS) d)
        else on st 0 (fun a c d => d ← vga_flush a c d; Some (c, d)));
  Some (set_active st 0).

(** The index of a free slot. *)
Fixpoint find_slot (l : list Console) (k : nat) : option nat :=
  match l with
  | [] => None
  | c :: l' => if cols c =? 0 then Some k else find_slot l' (S k)
  end.

Definition console_create_vga_text (st : state) (w h : Z) : option (option nat * state) :=
  match find_slot (s_consoles st) 0 with
  | None => Some (None, st)
  | Some k =>
      st ← on st k (fun a c d =>
        vga_clear a (fresh c (if negb (w =? 0) then w else VGA_DEFAULT_COLS)
                            (if negb (h =? 0) then h else VGA_DEFAULT_ROWS)) d);
      Some (Some k, st)
  end.

(** A console argument: an index or NULL, which means the active one. *)
Definition target (st : state) (c : option nat) : option nat :=
  match c with Some k => Some k | None => s_active st end.

Definition console_set_active (st : state) (c : option nat) : option state :=
  match c with
  | None => Some st
  | Some k => on (set_active st k) k (fun a c d => d ← vga_flush a c d; Some (c, d))
  end.

Definition console_clear_ex (st : state) (c : option nat) : option state :=
  match target st c with
  | None => Some st
  | Some k => on st k vga_clear
  end.

Definition console_putc_ex (st : state) (c : option nat) (ch : Z) : option state :=
  match target st c with
  | None => Some st
  | Some k => st ← on st k (fun a c d => vga_putc a c d ch); Some (serial_putc st ch)
  end.

(** A string is the list of its bytes before the NUL. *)
Fixpoint console_write_ex (st : state) (c : option nat) (s : list Z) : option state :=
  match target st c with
  | None => Some st
  | Some k =>
      match s with
      | [] => Some st
      | ch :: s' =>
          st ← on st k (fun a c d => vga_putc a c d ch);
          console_write_ex (serial_putc st ch) (Some k) s'
      end
  end.

Definition console_set_color_ex (st : state) (c : option nat) (fg bg : Z) : option state :=
  match target st c with
  | None => Some st
  | Some k => on st k (fun _ c d =>
      Some (set_color c (u8 (Z.lor (Z.shiftl bg 4) (Z.land fg 0x0F))), d))
  end.

Definition console_get_active (st : state) : option nat := s_active st.
Definition console_clear (st : state) : option state := console_clear_ex st None.
Definition console_set_color (st : state) (fg bg : Z) : option state :=
  console_set_color_ex st None fg bg.
Definition console_putc (st : state) (ch : Z) : option state := console_putc_ex st None ch.
Definition console_write (st : state) (s : list Z) : option state := console_write_ex st None s.

(** Digits of [v], the most significant first. *)
Definition hex_digit (n : Z) : Z := if n <? 10 then 48 + n else 55 + n.

Definition console_write_hex64 (st : state) (v : Z) : option state :=
  st ← console_write st [48; 120];
  for_range 0 16 (fun i st =>
    console_putc st (hex_digit (Z.land (Z.shiftr v ((15 - i) * 4)) 0xF))) st.

Fixpoint dec_digits (fuel : nat) (v : Z) : list Z :=
  match fuel with
  | O => []
  | S fuel' => if 0 <? v then dec_digits fuel' (v / 10) ++ [48 + v mod 10] else []
  end.

Definition console_write_dec (st : state) (v : Z) : option state :=
  if v =? 0 then st ← console_putc st 48; Some (serial_putc st 48)
  else
    let ds := dec_digits 32 v in
    for_range 0 (Z.of_nat (length ds)) (fun i st => console_putc st (nth (Z.to_nat i) ds 0)) st.

(** Fields of the framebuffer tag: address, pitch, width, height, depth, type. *)
Definition fb_addr (m : mem) (t : Z) : Z := rd64 m (t + 8).
Definition fb_pitch (m : mem) (t : Z) : Z := rd32 m (t + 16).
Definition fb_width (m : mem) (t : Z) : Z := rd32 m (t + 20).
Definition fb_height (m : mem) (t : Z) : Z := rd32 m (t + 24).
Definition fb_bpp (m : mem) (t : Z) : Z := rd8 m (t + 28).
Definition fb_type (m : mem) (t : Z) : Z := rd8 m (t + 29).

(** The framebuffer tag, or 0 at the end of the tags. *)
Fixpoint find_framebuffer (fuel : nat) (m : mem) (t : Z) : option Z :=
  match fuel with
  | O => None
  | S fuel' =>
      if (t =? 0) || (Mb2.tag_type m t =? Mb2.MB2_TAG_END) then Some 0
      else if Mb2.tag_type m t =? Mb2.MB2_TAG_FRAMEBUFFER then Some t
      else find_framebuffer fuel' m (Mb2.mb2_next_tag m t)
  end.

Definition bind_framebuffer (st : state) (m : mem) (fb : Z) : option state :=
  if fb =? 0 then Some st
  else if (fb_type m fb =? 2) && (fb_bpp m fb =? 16) then
    st ← on st 0 (fun a c d =>
      vga_clear a (bind_backend_defaults (set_geometry c (u16 (fb_width m fb)) (u16 (fb_height m fb)))
                     (fb_addr m fb) (u16 (fb_pitch m fb / 2))) d);
    Some (set_active st 0)
  else Some st.

(** [m] holds the boot information; the walk has a result if it meets the tag
    or the end tag within [fuel] steps. *)
Definition console_init_from_mb2 (fuel : nat) (m : mem) (st : state) (mb2_addr : Z)
    : option state :=
  st ← console_init st;
  if mb2_addr =? 0 then Some st
  else
    fb ← find_framebuffer fuel m (Mb2.mb2_first_tag mb2_addr);
    bind_framebuffer st m fb.

(** ** Scrollback *)

Definition view_op (st : state) (f : Console -> Z) : option state :=
  match s_active st with
  | None => Some st
  | Some k => on st k (fun a c d =>
      let c := set_view c (f c) in d ← render_view a c d; Some (c, d))
  end.

Definition page (c : Console) : Z := if 1 <? rows c then u16 (rows c - 1) else 1.

Definition console_page_up (st : state) : option state :=
  view_op st (fun c => if sbuf_count c <? u32 (view_offset_rows c + page c) then sbuf_count c
                       else u32 (view_offset_rows c + page c)).
Definition console_page_down (st : state) : option state :=
  view_op st (fun c => if view_offset_rows c <=? page c then 0 else view_offset_rows c - page c).
Definition console_page_home (st : state) : option state := view_op st sbuf_count.
Definition console_page_end (st : state) : option state := view_op st (fun _ => 0).

End Console.
