(* ===== verification/ConsoleSpec.v ===== *)
(** * Correctness of the console

    The history and the window together are one sequence of lines; scrolling
    moves the window down by one line, and a view shows a part of the
    sequence. *)

From S2P Require Import Prelude Mb2 Console.

Module ConsoleSpec.

Import Console.

(** ** Lines *)

Definition text (c : Console) (r co : Z) : Z := rd (cells c) (r * cols c + co).

(** Row [i] of the history, 0 being the oldest. *)
Definition hist (c : Console) (i co : Z) : Z :=
  rd (sbuf c) ((sbuf_head c - sbuf_count c + i) mod 512 * cols c + co).

(** Line [i] of history and window. *)
Definition line (c : Console) (i co : Z) : Z :=
  if i <? sbuf_count c then hist c i co else text c (i - sbuf_count c) co.

Record inv (c : Console) : Prop := Inv {
  iv_cols : 0 < cols c <= 80;
  iv_rows : 0 < rows c;
  iv_cells : cols c * rows c <= 2000;
  iv_row : 0 <= row c < rows c;
  iv_col : 0 <= col c < cols c;
  iv_pitch : cols c <= vram_pitch_chars c;
  iv_ring : sbuf_rows c = 512;
  iv_head : 0 <= sbuf_head c < 512;
  iv_count : 0 <= sbuf_count c <= 512;
  iv_view : 0 <= view_offset_rows c <= sbuf_count c
}.

(** ** Loops over a row *)

Lemma put_ok n m i v : 0 <= i < n -> put n m i v = Some (wr m i v).
Proof.
  intros H. unfold put. by rewrite (proj2 (Z.leb_le _ _)), (proj2 (Z.ltb_lt _ _)) by lia.
Qed.

Lemma get_ok n m i : 0 <= i < n -> get n m i = Some (rd m i).
Proof.
  intros H. unfold get. by rewrite (proj2 (Z.leb_le _ _)), (proj2 (Z.ltb_lt _ _)) by lia.
Qed.

(** A loop that writes [f co] at [b + co], its source not being overwritten. *)
Lemma row_loop n b w f m (body : Z -> mem -> option mem) :
  0 <= b -> 0 <= w -> b + w <= n ->
  (forall co m', 0 <= co < w -> (forall a, ~ b <= a < b + w -> rd m' a = rd m a) ->
     body co m' = put n m' (b + co) (f co)) ->
  exists m', for_range 0 w body m = Some m' /\
    forall a, rd m' a = if inb b w a then f (a - b) else rd m a.
Proof.
  intros Hb Hw Hn Hbody.
  destruct (for_range_inv (fun k m' => forall a, rd m' a = if inb b k a then f (a - b) else rd m a)
    body 0 w m) as (m' & E & H); [lia| | |by exists m'].
  - intros a. inb_cases; [lia|done].
  - intros co m' Hco Hm'. rewrite Hbody; [|done|].
    + rewrite put_ok by lia. eexists. split; [done|]. intros a. rewrite rd_wr, Hm'.
      destruct (Z.eqb_spec (b + co) a) as [<-|Hne]; inb_cases; try lia; f_equal; lia.
    + intros a Ha. rewrite Hm'. inb_cases; [lia|done].
Qed.

(** Cells of different rows are different. *)
Lemma flat_inj w r co r' co' :
  0 <= co < w -> 0 <= co' < w -> r * w + co = r' * w + co' -> r = r' /\ co = co'.
Proof.
  intros H H' E. assert (r = r'); [|lia].
  destruct (Z.lt_trichotomy r r') as [|[|]]; [nia|done|nia].
Qed.

Lemma row_cells c r : inv c -> 0 <= r < rows c -> 0 <= r * cols c /\ r * cols c + cols c <= CELLS.
Proof.
  intros [H1 H2 H3 _ _ _ _ _ _ _] Hr. change CELLS with 2000.
  assert ((r + 1) * cols c <= rows c * cols c) by nia. nia.
Qed.

Lemma ring_row c i : 0 < cols c <= 80 -> 0 <= i < 512 ->
  0 <= i * cols c /\ i * cols c + cols c <= SBUF.
Proof. intros H Hi. change SBUF with 40960. nia. Qed.

(** The cell of row [r], column [co], in an updated row [r']. *)
Lemma inb_row w r r' co : 0 <= co < w -> inb (r' * w) w (r * w + co) = (r =? r').
Proof.
  intros H. destruct (Z.eqb_spec r r') as [->|Hne].
  - apply inb_true. lia.
  - apply inb_false. intros Hi. destruct (flat_inj w r co r' (r * w + co - r' * w)); lia.
Qed.

(** ** Scrolling *)

Section scroll.
Context (c : Console) (Hinv : inv c).

Lemma fill_row_spec fill r m :
  0 <= r < rows c -> exists m', fill_row c fill r m = Some m' /\
    forall r' co, 0 <= co < cols c ->
      rd m' (r' * cols c + co) = if r' =? r then fill else rd m (r' * cols c + co).
Proof.
  intros Hr. destruct (row_cells c r Hinv Hr). pose proof (iv_cols c Hinv).
  destruct (row_loop CELLS (r * cols c) (cols c) (fun _ => fill) m
    (fun co m => put CELLS m (r * cols c + co) fill)) as (m' & E & Hm'); try lia; [done|].
  exists m'. split; [exact E|]. intros r' co Hco. by rewrite Hm', inb_row.
Qed.

Lemma shift_row_spec r m :
  1 <= r < rows c -> exists m',
    for_range 0 (cols c) (fun co m => x ← get CELLS m (r * cols c + co);
                                      put CELLS m ((r - 1) * cols c + co) x) m = Some m' /\
    forall r' co, 0 <= co < cols c -> rd m' (r' * cols c + co)
      = if r' =? r - 1 then rd m (r * cols c + co) else rd m (r' * cols c + co).
Proof.
  intros Hr. destruct (row_cells c r Hinv ltac:(lia)), (row_cells c (r - 1) Hinv ltac:(lia)).
  pose proof (iv_cols c Hinv).
  destruct (row_loop CELLS ((r - 1) * cols c) (cols c) (fun co => rd m (r * cols c + co)) m
    (fun co m => x ← get CELLS m (r * cols c + co); put CELLS m ((r - 1) * cols c + co) x))
    as (m' & E & Hm'); try lia.
  - intros co m' Hco Hsame. rewrite get_ok by lia. bind. by rewrite Hsame by lia.
  - exists m'. split; [exact E|]. intros r' co Hco. rewrite Hm', inb_row by done.
    destruct (Z.eqb_spec r' (r - 1)) as [->|]; [|done]. do 2 f_equal. lia.
Qed.

Lemma shift_rows_spec : exists m',
  for_range 1 (rows c) (fun r m => for_range 0 (cols c)
    (fun co m => x ← get CELLS m (r * cols c + co); put CELLS m ((r - 1) * cols c + co) x) m)
    (cells c) = Some m' /\
  forall r co, 0 <= r < rows c -> 0 <= co < cols c -> rd m' (r * cols c + co)
    = if r <? rows c - 1 then text c (r + 1) co else text c r co.
Proof.
  pose proof (iv_rows c Hinv).
  destruct (for_range_inv (fun k m' => forall r co, 0 <= r < rows c -> 0 <= co < cols c ->
      rd m' (r * cols c + co) = if r <? k - 1 then text c (r + 1) co else text c r co)
    (fun r m => for_range 0 (cols c)
      (fun co m => x ← get CELLS m (r * cols c + co); put CELLS m ((r - 1) * cols c + co) x) m)
    1 (rows c) (cells c)) as (m' & E & Hm'); [lia| | |by exists m'].
  - intros r co Hr Hco. by rewrite (proj2 (Z.ltb_ge _ _)) by lia.
  - intros k m1 Hk Hm1. destruct (shift_row_spec k m1 Hk) as (m2 & E2 & Hm2).
    exists m2. split; [done|]. intros r co Hr Hco. rewrite Hm2 by done.
    destruct (Z.eqb_spec r (k - 1)) as [->|Hne].
    + rewrite Hm1 by lia. rewrite (proj2 (Z.ltb_ge _ _)), (proj2 (Z.ltb_lt _ _)) by lia.
      f_equal. lia.
    + rewrite Hm1 by lia. destruct (Z.ltb_spec r (k - 1)), (Z.ltb_spec r (k + 1 - 1)); done || lia.
Qed.

(** The top row goes into the ring at the head. *)
Lemma push_row_spec : exists sb,
  for_range 0 (cols c) (fun co sb => v ← get CELLS (cells c) (0 * cols c + co);
    put SBUF sb (sbuf_head c mod sbuf_rows c * cols c + co) v) (sbuf c) = Some sb /\
  forall i co, 0 <= co < cols c -> rd sb (i * cols c + co)
    = if i =? sbuf_head c then text c 0 co else rd (sbuf c) (i * cols c + co).
Proof.
  pose proof (iv_cols c Hinv). pose proof (iv_head c Hinv). pose proof (iv_rows c Hinv).
  rewrite (iv_ring c Hinv), Z.mod_small by lia.
  destruct (ring_row c (sbuf_head c) ltac:(lia) ltac:(lia)), (row_cells c 0 Hinv ltac:(lia)).
  destruct (row_loop SBUF (sbuf_head c * cols c) (cols c) (fun co => text c 0 co) (sbuf c)
    (fun co sb => v ← get CELLS (cells c) (0 * cols c + co); put SBUF sb (sbuf_head c * cols c + co) v))
    as (sb & E & Hsb); try lia.
  - intros co m' Hco _. by rewrite get_ok by lia.
  - exists sb. split; [exact E|]. intros i co Hco. rewrite Hsb, inb_row by done.
    destruct (Z.eqb_spec i (sbuf_head c)) as [->|]; [|done]. f_equal. lia.
Qed.

(** Geometry, colour and video memory are those of [c]. *)
Definition same_frame (c' : Console) : Prop :=
  cols c' = cols c /\ rows c' = rows c /\ color c' = color c /\ vram c' = vram c /\
  vram_pitch_chars c' = vram_pitch_chars c.

(** 1 if the ring is full: its oldest row is lost. *)
Definition lost : Z := if sbuf_count c <? 512 then 0 else 1.

(** Index of a history row after the push. *)
Lemma ring_index i n :
  (n < 512 -> 0 <= i < n -> (sbuf_head c - n + i) mod 512 <> sbuf_head c) /\
  (((sbuf_head c + 1) mod 512 - (n + 1) + i) mod 512 = (sbuf_head c - n + i) mod 512) /\
  ((sbuf_head c + 1) mod 512 - 512 + i) mod 512 = (sbuf_head c - 512 + (i + 1)) mod 512.
Proof.
  pose proof (iv_head c Hinv). split; [|split].
  - intros Hn Hi. zmod.
  - zmod.
  - zmod.
Qed.

(** A row of the history after the push, at the index it had before. *)
Lemma pushed_row sb i co : let count := if sbuf_count c <? 512 then sbuf_count c + 1 else sbuf_count c in
  (forall i, rd sb (i * cols c + co) = if i =? sbuf_head c then text c 0 co else rd (sbuf c) (i * cols c + co)) ->
  0 <= i < count ->
  rd sb (((sbuf_head c + 1) mod 512 - count + i) mod 512 * cols c + co)
    = if i + lost <? sbuf_count c then rd (sbuf c) ((sbuf_head c - sbuf_count c + (i + lost)) mod 512 * cols c + co)
      else text c (i + lost - sbuf_count c) co.
Proof.
  pose proof Hinv as [I1 I2 I3 I4 I5 I6 I7 I8 I9 I10]. intros count Hsb Hlt. rewrite Hsb. unfold lost, count in *.
  destruct (ring_index i (sbuf_count c)) as (R1 & R2 & R3). destruct (Z.ltb_spec (sbuf_count c) 512).
  - rewrite R2, Z.add_0_r. destruct (Z.ltb_spec i (sbuf_count c)).
    + by rewrite (proj2 (Z.eqb_neq _ _)) by (apply R1; lia).
    + replace i with (sbuf_count c) by lia. rewrite Z.sub_add, Z.mod_small, Z.eqb_refl, Z.sub_diag by lia. done.
  - replace (sbuf_count c) with 512 in * by lia. rewrite R3. destruct (Z.ltb_spec (i + 1) 512).
    + by rewrite (proj2 (Z.eqb_neq _ _)) by zmod.
    + replace (i + 1) with 512 in * by lia. replace (sbuf_head c - 512 + 512) with (sbuf_head c) by lia.
      by rewrite Z.mod_small, Z.eqb_refl, Z.sub_diag by lia.
Qed.

(** Scrolling appends a blank line to the sequence of lines; the window and
    the history move along, and a full ring forgets its oldest row. *)
Lemma scroll_up_spec : exists c', vga_scroll_up c = Some c' /\ inv c' /\ same_frame c' /\
  row c' = row c /\ col c' = col c /\ sbuf_count c' = sbuf_count c + 1 - lost /\
  (view_offset_rows c = 0 -> view_offset_rows c' = 0) /\
  (forall i co, 0 <= i < sbuf_count c' + rows c - 1 -> 0 <= co < cols c ->
     line c' i co = line c (i + lost) co) /\
  (forall co, 0 <= co < cols c -> line c' (sbuf_count c' + rows c - 1) co = vga_entry 32 (color c)).
Proof.
  pose proof Hinv as [I1 I2 I3 I4 I5 I6 I7 I8 I9 I10]. unfold vga_scroll_up.
  destruct push_row_spec as (sb & E1 & Hsb). rewrite E1. bind.
  destruct shift_rows_spec as (m1 & E2 & Hm1). rewrite E2. bind.
  destruct (fill_row_spec (vga_entry 32 (color c)) (rows c - 1) m1 ltac:(lia)) as (m2 & E3 & Hm2).
  rewrite E3. bind. rewrite I7.
  set (count := if sbuf_count c <? 512 then sbuf_count c + 1 else sbuf_count c).
  assert (Hcount : count = sbuf_count c + 1 - lost).
  { unfold count, lost. destruct (_ <? _); lia. }
  assert (Hc : 0 <= count <= 512) by (unfold count; destruct (Z.ltb_spec (sbuf_count c) 512); lia).
  set (v := if _ && _ then _ else _).
  assert (Hv : 0 <= v <= count).
  { unfold v. destruct (Z.ltb_spec 0 (view_offset_rows c)), (Z.ltb_spec (view_offset_rows c) count);
      cbn [andb]; try (destruct (Z.ltb_spec count (view_offset_rows c + 1))); try lia.
    unfold count in *. destruct (Z.ltb_spec (sbuf_count c) 512); lia. }
  eexists. split; [done|]. split.
  { constructor; cbn; try done; try lia. apply Z.mod_pos_bound. lia. }
  split; [by split_and!|]. split; [done|]. split; [done|]. split; [exact Hcount|].
  split; [by cbn; unfold v; intros ->|].
  assert (Htext : forall r co, 0 <= r < rows c -> 0 <= co < cols c -> rd m2 (r * cols c + co)
    = if r <? rows c - 1 then text c (r + 1) co else vga_entry 32 (color c)).
  { intros r co Hr Hco. rewrite Hm2, Hm1 by done.
    destruct (Z.eqb_spec r (rows c - 1)), (Z.ltb_spec r (rows c - 1)); done || lia. }
  split; unfold line, hist, text at 1; cbn.
  - intros i co Hi Hco. destruct (Z.ltb_spec i count) as [Hlt|Hge].
    + apply (pushed_row sb); [intros j; by apply Hsb|lia].
    + rewrite Htext by lia. rewrite (proj2 (Z.ltb_lt _ _)) by lia.
      rewrite (proj2 (Z.ltb_ge _ _)) by (unfold lost, count in *; destruct (_ <? 512); lia).
      f_equal. lia.
  - intros co Hco. rewrite (proj2 (Z.ltb_ge _ _)) by lia.
    rewrite Htext by lia. by rewrite (proj2 (Z.ltb_ge _ _)) by lia.
Qed.

End scroll.

(** ** Drawing *)

(** Address of a character on the screen. *)
Definition addr (c : Console) (r co : Z) : Z := vram c + 2 * (r * vram_pitch_chars c + co).

(** Rows [lo .. hi) of the screen show [f]. *)
Definition shows (c : Console) (d : display) (f : Z -> Z -> Z) (lo hi : Z) : Prop :=
  forall r co, lo <= r < hi -> 0 <= co < cols c -> rd (screen d) (addr c r co) = f r co.

(** The screen is unchanged outside row [r]. *)
Definition only_row (c : Console) (r : Z) (d d' : display) : Prop :=
  hw_cursor d' = hw_cursor d /\
  forall r' co, r' <> r -> 0 <= co < cols c -> rd (screen d') (addr c r' co) = rd (screen d) (addr c r' co).

Lemma addr_inj c r co r' co' :
  inv c -> 0 <= co < cols c -> 0 <= co' < cols c -> addr c r co = addr c r' co' -> r = r' /\ co = co'.
Proof.
  intros Hi H H' E. unfold addr in E. pose proof (iv_pitch c Hi).
  apply (flat_inj (vram_pitch_chars c)); lia.
Qed.

Section draw.
Context (c : Console) (Hinv : inv c).

Lemma draw_row_spec r n m base d :
  0 <= base -> base + cols c <= n ->
  exists d', draw_row c r n m base d = Some d' /\ only_row c r d d' /\
    forall co, 0 <= co < cols c -> rd (screen d') (addr c r co) = rd m (base + co).
Proof.
  intros Hb Hn. pose proof (iv_cols c Hinv).
  destruct (for_range_inv (fun k d' => only_row c r d d' /\
      forall co, 0 <= co < k -> rd (screen d') (addr c r co) = rd m (base + co))
    (fun co d => v ← get n m (base + co); Some (poke c d r co v)) 0 (cols c) d)
    as (d' & E & H1 & H2); [lia|split; [done|lia]| |by exists d'].
  intros k d' Hk [[H1 H2] H3]. rewrite get_ok by lia. bind. eexists. split; [done|].
  split; [split; [done|]|]; cbn [poke with_screen screen]; fold (addr c r k).
  - intros r' co Hr Hco. rewrite rd_wr_ne; [by apply H2|]. intros E.
    destruct (addr_inj c r k r' co Hinv Hk Hco E). congruence.
  - intros co Hco. destruct (decide (co = k)) as [->|Hne]; [apply rd_wr_eq|].
    rewrite rd_wr_ne; [apply H3; lia|]. intros E.
    destruct (addr_inj c r k r co Hinv Hk ltac:(lia) E). congruence.
Qed.

(** Drawing the rows [lo .. hi), each from a row of an array. *)
Lemma draw_rows_spec lo hi n m (b : Z -> Z) d :
  lo <= hi -> (forall r, lo <= r < hi -> 0 <= b r /\ b r + cols c <= n) ->
  exists d', for_range lo hi (fun r d => draw_row c r n m (b r) d) d = Some d' /\
    hw_cursor d' = hw_cursor d /\ shows c d' (fun r co => rd m (b r + co)) lo hi /\
    forall r co, ~ lo <= r < hi -> 0 <= co < cols c ->
      rd (screen d') (addr c r co) = rd (screen d) (addr c r co).
Proof.
  intros Hle Hb.
  destruct (for_range_inv (fun k d' => hw_cursor d' = hw_cursor d /\
      shows c d' (fun r co => rd m (b r + co)) lo k /\
      forall r co, ~ lo <= r < k -> 0 <= co < cols c ->
        rd (screen d') (addr c r co) = rd (screen d) (addr c r co))
    (fun r d => draw_row c r n m (b r) d) lo hi d) as (d' & E & H); [done| | |by exists d'].
  - split; [done|]. split; [intros r co Hr; lia|done].
  - intros k d' Hk (H1 & H2 & H3). destruct (Hb k Hk).
    destruct (draw_row_spec k n m (b k) d') as (d2 & E2 & [O1 O2] & R2); [lia|lia|].
    exists d2. split; [done|]. split; [congruence|]. split.
    + intros r co Hr Hco. destruct (decide (r = k)) as [->|]; [by apply R2|].
      rewrite O2 by done. apply H2; [lia|done].
    + intros r co Hr Hco. rewrite O2 by lia. apply H3; [lia|done].
Qed.

(** The live screen. *)
Definition live (d : display) : Prop :=
  shows c d (text c) 0 (rows c) /\ hw_cursor d = u16 (row c * cols c + col c).

Lemma flush_spec d :
  view_offset_rows c = 0 -> exists d', vga_flush true c d = Some d' /\ live d'.
Proof.
  intros Hv. unfold vga_flush. rewrite Hv. cbn [negb Z.eqb]. pose proof (iv_rows c Hinv).
  destruct (draw_rows_spec 0 (rows c) CELLS (cells c) (fun r => r * cols c) d) as (d' & E & _ & Hs & _).
  - lia.
  - intros r Hr. by apply row_cells.
  - rewrite E. bind. eexists. split; [done|]. split; [exact Hs|done].
Qed.

Lemma normalize_spec fuel i : -512 <= i < 512 -> (0 < fuel)%nat ->
  normalize fuel i 512 = Some (i mod 512).
Proof.
  intros Hi Hf. destruct fuel as [|fuel]; [lia|]. cbn [normalize].
  destruct (Z.ltb_spec i 0); [|by rewrite Z.mod_small by lia].
  replace (i mod 512) with (i + 512) by zmod.
  destruct fuel; cbn [normalize]; by rewrite (proj2 (Z.ltb_ge _ _)) by lia.
Qed.

(** History rows shown by the current view. *)
Definition hist_shown : Z := Z.min (view_offset_rows c) (rows c).

Lemma draw_history_spec d h :
  0 <= h <= sbuf_count c -> exists i d',
    draw_history c h ((sbuf_head c - h) mod 512) d = Some (i, d') /\ hw_cursor d' = hw_cursor d /\
    shows c d' (fun r co => line c (sbuf_count c - h + r) co) 0 h.
Proof.
  intros Hh. pose proof Hinv as [I1 I2 I3 I4 I5 I6 I7 I8 I9 I10]. unfold draw_history. rewrite I7.
  destruct (for_range_inv (fun k '(i, d') => i = (sbuf_head c - h + k) mod 512 /\
      hw_cursor d' = hw_cursor d /\ shows c d' (fun r co => line c (sbuf_count c - h + r) co) 0 k)
    (fun r '(idx, d) =>
       d ← draw_row c r SBUF (sbuf c) (u32 idx mod 512 * cols c) d;
       Some ((idx + 1) mod 512, d)) 0 h ((sbuf_head c - h) mod 512, d)) as ([i d'] & E & H).
  - lia.
  - rewrite Z.add_0_r. split; [done|]. split; [done|]. intros r co Hr. lia.
  - intros k [i d'] Hk (Hi & H1 & H2). pose proof (Z.mod_pos_bound (sbuf_head c - h + k) 512 ltac:(lia)).
    rewrite (u32_small i) by lia. rewrite (Z.mod_small i) by lia.
    destruct (ring_row c i I1 ltac:(lia)).
    destruct (draw_row_spec k SBUF (sbuf c) (i * cols c) d') as (d2 & E2 & [O1 O2] & R2); [lia|lia|].
    rewrite E2. bind. eexists. split; [done|]. split; [subst i; zmod|]. split; [congruence|].
    intros r co Hr Hco. destruct (decide (r = k)) as [->|].
    + rewrite R2 by done. unfold line. rewrite (proj2 (Z.ltb_lt _ _)) by lia. unfold hist.
      subst i. do 4 f_equal. lia.
    + rewrite O2 by done. apply H2; [lia|done].
  - exists i, d'. split; [exact E|]. by destruct H.
Qed.

(** A view shows a part of the sequence of lines, at most one screen above the
    live window. *)
Lemma render_spec d : exists d', render_view true c d = Some d' /\
  shows c d' (fun r co => line c (sbuf_count c - hist_shown + r) co) 0 (rows c).
Proof.
  pose proof Hinv as [I1 I2 I3 I4 I5 I6 I7 I8 I9 I10]. unfold render_view. cbn [negb].
  rewrite (proj2 (Z.ltb_ge (sbuf_count c) _)) by lia.
  assert (Eh : (if rows c <? view_offset_rows c then rows c else view_offset_rows c) = hist_shown).
  { unfold hist_shown. destruct (Z.ltb_spec (rows c) (view_offset_rows c)); lia. }
  rewrite Eh. assert (Hh : 0 <= hist_shown <= sbuf_count c /\ hist_shown <= rows c)
    by (unfold hist_shown; lia). clear Eh. set (h := hist_shown) in *. clearbody h.
  rewrite I7. replace (sbuf_head c - 1 - (h - 1)) with (sbuf_head c - h) by lia.
  rewrite normalize_spec by lia. bind.
  destruct (draw_history_spec d h ltac:(lia)) as (i & d1 & E1 & _ & S1). rewrite E1. bind.
  destruct (draw_rows_spec h (rows c) CELLS (cells c) (fun r => (r - h) * cols c) d1)
    as (d2 & E2 & _ & S2 & K2); [lia|intros r Hr; apply row_cells; [done|lia]|].
  assert (S3 : shows c d2 (fun r co => line c (sbuf_count c - h + r) co) 0 (rows c)).
  { intros r co Hr Hco. destruct (decide (r < h)).
    - rewrite K2 by lia. apply S1; [lia|done].
    - rewrite S2 by (lia || done). unfold line. rewrite (proj2 (Z.ltb_ge _ _)) by lia.
      unfold text. do 3 f_equal. lia. }
  destruct (Z.ltb_spec h (rows c)).
  - rewrite E2. bind. eexists. split; [done|]. by destruct (view_offset_rows c =? 0).
  - bind. eexists. split; [done|]. replace h with (rows c) in * by lia.
    intros r co Hr Hco. assert (rd (screen d1) (addr c r co) = line c (sbuf_count c - rows c + r) co)
      by (by apply S1). by destruct (view_offset_rows c =? 0).
Qed.

End draw.

End ConsoleSpec.
