(* ===== verification/ConsoleProps.v ===== *)
(** * Characters, views and geometry of a console

    What [vga_putc] does to the lines and to the screen, what the page keys
    show, and for which geometries the console is within its arrays. *)

From S2P Require Import Prelude Mb2 Console ConsoleSpec.

Module ConsoleProps.

Import Console ConsoleSpec.

(** ** One character *)

Definition blank (c : Console) : Z := vga_entry 32 (color c).

Definition printable (ch : Z) : bool := negb ((ch =? 10) || (ch =? 13) || (ch =? 8)).

(** Lines of history and window, and the line of the cursor. *)
Definition total (c : Console) : Z := sbuf_count c + rows c.
Definition cursor (c : Console) : Z := sbuf_count c + row c.

(** A character at the end of a row, or a newline, goes to the next line. *)
Definition breaks (c : Console) (ch : Z) : bool :=
  (ch =? 10) || (printable ch && (col c =? cols c - 1)).

(** The column after a character. *)
Definition next_col (c : Console) (ch : Z) : Z :=
  if breaks c ch || (ch =? 13) then 0
  else if ch =? 8 then Z.max 0 (col c - 1) else col c + 1.

(** [c'] has the lines of [f], less the first [k], and blank lines below. *)
Definition lines_from (c : Console) (f : Z -> Z -> Z) (k : Z) (c' : Console) : Prop :=
  forall i co, 0 <= i < total c' -> 0 <= co < cols c ->
    line c' i co = if i + k <? total c then f (i + k) co else blank c.

(** Scrolling does not use the cursor. *)
Lemma scroll_cursor c r co :
  vga_scroll_up (set_cursor c r co) = c' ← vga_scroll_up c; Some (set_cursor c' r co).
Proof.
  unfold vga_scroll_up. change (fill_row (set_cursor c r co)) with (fill_row c). cbn.
  destruct (for_range 0 (cols c) _ (sbuf c)); [bind|done].
  destruct (for_range 1 (rows c) _ (cells c)); [bind|done].
  by destruct (fill_row _ _ _ _).
Qed.

Lemma lost_range c : 0 <= lost c <= 1.
Proof. unfold lost. destruct (_ <? _); lia. Qed.

(** The step to the next line. *)
Lemma next_row_spec c : inv c -> exists c' b k, next_row c = Some (c', b) /\
  inv c' /\ same_frame c c' /\ (col c' = col c /\ row c' = Z.min (row c + 1) (rows c - 1)) /\
  lines_from c (line c) k c' /\
  k = (if row c =? rows c - 1 then lost c else 0) /\ cursor c' + k = cursor c + 1 /\ (b = false -> k = 0 /\ cells c' = cells c) /\
  b = (row c =? rows c - 1) /\ (view_offset_rows c = 0 -> view_offset_rows c' = 0).
Proof.
  intros Hi. pose proof Hi as [I1 I2 I3 I4 I5 I6 I7 I8 I9 I10]. unfold next_row.
  assert (Hr : rows c < 2^16) by nia.
  rewrite u16_small by lia. cbn [rows row set_cursor].
  destruct (Z.leb_spec (rows c) (row c + 1)) as [Hge|Hlt].
  - destruct (scroll_up_spec c Hi) as (c1 & E1 & Hi1 & (F1 & F2 & F3 & F4 & F5) & R1 & C1 & N1 & V1 & L1 & B1).
    rewrite scroll_cursor, E1. bind.
    pose proof (lost_range c) as Hk. assert (Er : (row c =? rows c - 1) = true) by (apply Z.eqb_eq; lia).
    exists (set_cursor c1 (rows c - 1) (col c)), true, (lost c). rewrite Er. set (k := lost c) in *. clearbody k.
    unfold cursor, lines_from, total in *. split; [by cbn; rewrite F2, u16_small by lia|]. split; [|split; [by split_and!|]].
    { destruct Hi1. constructor; cbn; try done; try lia. }
    split; [split; [done|cbn; lia]|]. split.
    + intros i co Hib Hco. cbn in Hib. rewrite F2 in Hib.
      change (line (set_cursor c1 (rows c - 1) (col c)) i co) with (line c1 i co).
      destruct (decide (i = sbuf_count c1 + rows c - 1)) as [->|].
      * rewrite B1 by done. by rewrite (proj2 (Z.ltb_ge _ _)) by lia.
      * rewrite L1 by lia. by rewrite (proj2 (Z.ltb_lt _ _)) by lia.
    + cbn. split; [done|]. split; [lia|]. split; [done|]. by split.
  - assert (Er : (row c =? rows c - 1) = false) by (apply Z.eqb_neq; lia). rewrite Er. exists (set_cursor c (row c + 1) (col c)), false, 0. split; [done|].
    split; [constructor; cbn; done || lia|]. split; [by split_and!|].
    split; [split; [done|cbn; lia]|]. split.
    + intros i co Hib Hco. rewrite Z.add_0_r. by rewrite (proj2 (Z.ltb_lt _ _)) by exact (proj2 Hib).
    + unfold cursor. cbn. split; [done|]. split; [lia|]. by split.
Qed.

(** The character goes into its cell. *)
Definition written (c : Console) (ch : Z) : Console :=
  set_cells c (wr (cells c) (row c * cols c + col c) (vga_entry ch (color c))).

Definition lines_with (c : Console) (ch : Z) (i co : Z) : Z :=
  if printable ch && (i =? cursor c) && (co =? col c) then vga_entry ch (color c) else line c i co.

Lemma written_line c ch i co : inv c -> 0 <= i < total c -> 0 <= co < cols c ->
  line (written c ch) i co
  = if (i =? cursor c) && (co =? col c) then vga_entry ch (color c) else line c i co.
Proof.
  intros [] Hib Hco. unfold line, cursor, total in *. cbn. destruct (Z.ltb_spec i (sbuf_count c)).
  - by rewrite (proj2 (Z.eqb_neq i _)) by lia.
  - unfold text. cbn. rewrite rd_wr.
    destruct (Z.eqb_spec (row c * cols c + col c) ((i - sbuf_count c) * cols c + co)) as [E|Hne].
    + destruct (flat_inj (cols c) (row c) (col c) (i - sbuf_count c) co); [done|done|done|].
      by rewrite !(proj2 (Z.eqb_eq _ _)) by lia.
    + destruct (Z.eqb_spec i (sbuf_count c + row c)) as [->|]; [|done].
      destruct (Z.eqb_spec co (col c)) as [->|]; [|done]. destruct Hne. f_equal. f_equal. lia.
Qed.

Lemma written_inv c ch : inv c -> inv (written c ch).
Proof. intros []. by constructor. Qed.

(** A flush has a result; at the live view it draws the window. *)
Lemma flush_total active c d : inv c -> exists d', vga_flush active c d = Some d' /\
  (active = false -> d' = d) /\ (active = true -> view_offset_rows c = 0 -> live c d').
Proof.
  intros Hi. destruct active; [|by exists d].
  destruct (Z.eqb_spec (view_offset_rows c) 0) as [Ev|Hne].
  - destruct (flush_spec c Hi d Ev) as (d' & E & L). by exists d'.
  - destruct (render_spec c Hi d) as (d' & E & _). exists d'. split; [|done].
    unfold vga_flush. by rewrite (proj2 (Z.eqb_neq _ _) Hne).
Qed.

(** The screen follows the window: [d] is live for [c], then [d'] for [c']. *)
Definition follows (active : bool) (c : Console) (d : display) (c' : Console) (d' : display) : Prop :=
  (active = false -> d' = d) /\
  (active = true -> view_offset_rows c = 0 -> live c d -> live c' d').

(** What a character does to the console: its lines and its cursor. *)
Definition typed (c : Console) (ch : Z) (c' : Console) : Prop :=
  inv c' /\ same_frame c c' /\ col c' = next_col c ch /\
  row c' = (if breaks c ch then Z.min (row c + 1) (rows c - 1) else row c) /\ exists k,
  k = (if breaks c ch && (row c =? rows c - 1) then lost c else 0) /\
  lines_from c (lines_with c ch) k c' /\ cursor c' + k = cursor c + (if breaks c ch then 1 else 0).

(** Poking the character just written keeps the screen live. *)
Lemma poke_live c d ch c' : inv c -> live c d -> same_frame c c' -> cells c' = cells (written c ch) ->
  live c' (vga_move_hw_cursor (poke c' d (row c) (col c) (vga_entry ch (color c)))
             (row c') (col c') (cols c')).
Proof.
  intros Hi [L1 L2] (F1 & F2 & F3 & F4 & F5) Ec. split; [|done].
  intros r co Hr Hco. rewrite F1 in Hco. rewrite F2 in Hr.
  assert (Ea : forall r co, addr c' r co = addr c r co) by (intros; unfold addr; congruence).
  cbn [vga_move_hw_cursor poke with_screen screen]. fold (addr c' (row c) (col c)).
  rewrite !Ea. unfold text. rewrite Ec, F1. cbn [written cells set_cells]. rewrite !rd_wr.
  pose proof Hi as [I1 I2 I3 I4 I5 I6 I7 I8 I9 I10].
  destruct (Z.eqb_spec (addr c (row c) (col c)) (addr c r co)) as [E|Hne].
  - destruct (addr_inj c (row c) (col c) r co Hi I5 Hco E) as [<- <-]. by rewrite Z.eqb_refl.
  - destruct (Z.eqb_spec (row c * cols c + col c) (r * cols c + co)) as [E|_]; [|by apply L1].
    destruct (flat_inj (cols c) (row c) (col c) r co) as [<- <-]; done.
Qed.

(** The cell just written is read back, the window not having scrolled. *)
Lemma written_get c ch c' : inv c -> same_frame c c' -> cells c' = cells (written c ch) ->
  get CELLS (cells c') (row c * cols c' + col c) = Some (vga_entry ch (color c)).
Proof.
  intros Hi (F1 & _) Ec. destruct (row_cells c (row c) Hi (iv_row c Hi)). pose proof (iv_col c Hi).
  rewrite F1, get_ok, Ec by lia. cbn [written cells set_cells]. by rewrite rd_wr_eq.
Qed.

(** The console after a printable character, before it is drawn. *)
Lemma type_spec c ch : inv c -> printable ch = true -> exists c' (b : bool),
  (let c1 := set_cursor (written c ch) (row c) (u16 (col c + 1)) in
   if cols c1 <=? col c1 then next_row (set_cursor c1 (row c1) 0) else Some (c1, false))
    = Some (c', b) /\
  typed c ch c' /\ (b = false -> cells c' = cells (written c ch)) /\
  (view_offset_rows c = 0 -> view_offset_rows c' = 0).
Proof.
  intros Hi Hp. pose proof Hi as [I1 I2 I3 I4 I5 I6 I7 I8 I9 I10].
  assert (Hb : breaks c ch = (col c =? cols c - 1)).
  { unfold breaks. rewrite Hp. unfold printable in Hp. by destruct (ch =? 10). }
  assert (Hch : (ch =? 13) = false /\ (ch =? 8) = false).
  { unfold printable in Hp. by destruct (ch =? 10), (ch =? 13), (ch =? 8). }
  destruct Hch as [E13 E8]. cbn zeta. rewrite u16_small by lia. cbn [cols col row set_cursor written set_cells].
  unfold typed, next_col. rewrite Hb, E13, E8, orb_false_r.
  assert (HL : forall c' k, lines_from (written c ch) (line (written c ch)) k c' -> 0 <= k ->
    lines_from c (lines_with c ch) k c').
  { intros c' k H Hk i co Hib Hco. rewrite (H i co Hib Hco). change (total (written c ch)) with (total c).
    destruct (Z.ltb_spec (i + k) (total c)); [|done].
    rewrite written_line by (done || lia). unfold lines_with. by rewrite Hp. }
  destruct (Z.eqb_spec (col c) (cols c - 1)) as [Ee|Hne].
  - rewrite (proj2 (Z.leb_le _ _)) by lia.
    destruct (next_row_spec (set_cursor (written c ch) (row c) 0)) as
      (c' & b & k & E & Hi' & F & [C' R'] & L & Hk & Hcur & Hcells & _ & Hv).
    { constructor; cbn; done || lia. }
    exists c', b. split; [exact E|]. split.
    { split; [exact Hi'|]. split; [exact F|]. split; [exact C'|]. split; [exact R'|]. exists k.
      split; [exact Hk|]. split; [|exact Hcur]. apply HL; [exact L|]. rewrite Hk.
      pose proof (lost_range (set_cursor (written c ch) (row c) 0)). case_match; lia. }
    split; [apply Hcells|exact Hv].
  - rewrite (proj2 (Z.leb_gt _ _)) by lia.
    exists (set_cursor (written c ch) (row c) (col c + 1)), false. split; [done|]. split.
    { split; [constructor; cbn; done || lia|]. split; [by split_and!|]. split; [done|]. split; [done|].
      exists 0. split; [done|]. split; [|unfold cursor; cbn; lia]. apply HL; [|done].
      intros i co Hib Hco. rewrite Z.add_0_r. by rewrite (proj2 (Z.ltb_lt _ _)) by exact (proj2 Hib). }
    by split.
Qed.

(** A printable character. *)
Lemma print_spec active c d ch : inv c -> printable ch = true -> exists c' d',
  vga_putc active c d ch = Some (c', d') /\ typed c ch c' /\ follows active c d c' d'.
Proof.
  intros Hi Hp. pose proof Hi as [I1 I2 I3 I4 I5 I6 I7 I8 I9 I10]. unfold vga_putc.
  assert (Hch : (ch =? 10) = false /\ (ch =? 13) = false /\ (ch =? 8) = false).
  { unfold printable in Hp. by destruct (ch =? 10), (ch =? 13), (ch =? 8). }
  destruct Hch as (-> & -> & ->). destruct (row_cells c (row c) Hi I4).
  rewrite put_ok by lia. bind. fold (written c ch).
  destruct (type_spec c ch Hi Hp) as (c' & b & E & T & Hcells & Hv). cbn zeta in E. rewrite E. bind.
  destruct T as (Hi' & F & T). unfold follows. destruct active;
    [|exists c', d; split; [done|]; split; [exact (conj Hi' (conj F T))|done]].
  destruct (b || negb (view_offset_rows c' =? 0)) eqn:Eb.
  - destruct (flush_total true c' d Hi') as (d' & Ed & _ & L). rewrite Ed. bind.
    exists c', (vga_move_hw_cursor d' (row c') (col c') (cols c')). split; [done|].
    split; [exact (conj Hi' (conj F T))|]. split; [done|]. intros _ Ev _. by destruct (L eq_refl (Hv Ev)).
  - apply orb_false_elim in Eb as [-> _]. rewrite (written_get c ch c' Hi F (Hcells eq_refl)). bind.
    eexists c', _. split; [done|]. split; [exact (conj Hi' (conj F T))|]. split; [done|].
    intros _ _ L. exact (poke_live c d ch c' Hi L F (Hcells eq_refl)).
Qed.

(** Newline, carriage return and backspace. *)
Lemma control_spec active c d ch : inv c -> printable ch = false -> exists c' d',
  vga_putc active c d ch = Some (c', d') /\ typed c ch c' /\ screen d' = screen d /\
  (ch <> 10 \/ row c <> rows c - 1 -> follows active c d c' d').
Proof.
  intros Hi Hp. pose proof Hi as [I1 I2 I3 I4 I5 I6 I7 I8 I9 I10]. unfold vga_putc.
  assert (Hl : forall c' k, lines_from c (line c) k c' -> lines_from c (lines_with c ch) k c').
  { intros c' k H i co Hib Hco. rewrite (H i co Hib Hco). unfold lines_with. by rewrite Hp. }
  assert (Hs : forall co, lines_from c (line c) 0 (set_cursor c (row c) co)).
  { intros co i co' Hib _. rewrite Z.add_0_r. by rewrite (proj2 (Z.ltb_lt _ _)) by exact (proj2 Hib). }
  unfold typed, next_col, breaks. rewrite Hp. unfold printable in Hp.
  destruct (Z.eqb_spec ch 10) as [->|H10]; [|destruct (Z.eqb_spec ch 13); [|destruct (Z.eqb_spec ch 8)]].
  - destruct (next_row_spec (set_cursor c (row c) 0)) as
      (c' & b & k & E & Hi' & F & [C' R'] & L & Hk & Hcur & Hcells & Hb & Hv).
    { constructor; cbn; done || lia. }
    rewrite E. bind. eexists c', _. split; [done|]. split.
    { split; [exact Hi'|]. split; [exact F|]. split; [exact C'|]. split; [exact R'|]. exists k. split; [exact Hk|].
      split; [by apply Hl|exact Hcur]. }
    split; [by destruct active|]. intros [?|Hr]; [done|].
    rewrite (proj2 (Z.eqb_neq _ _)) in Hb by exact Hr. destruct (Hcells Hb) as [_ Ec].
    destruct F as (F1 & F2 & F3 & F4 & F5). split; [by intros ->|]. intros -> _ [L1 L2].
    split; [|done]. intros r co Hrr Hco. rewrite F1 in Hco. rewrite F2 in Hrr.
    unfold text, addr. rewrite Ec, F1, F4, F5. by apply L1.
  - bind. eexists _, _. split; [done|]. split.
    { split; [constructor; cbn; done || lia|]. split; [by split_and!|]. split; [done|]. split; [done|].
      exists 0. split; [done|]. split; [by apply Hl|unfold cursor; cbn; lia]. }
    split; [by destruct active|]. intros _. split; [by intros ->|]. intros -> _ [L1 L2]. by split.
  - bind. replace (if 0 <? col c then set_cursor c (row c) (col c - 1) else c)
      with (set_cursor c (row c) (Z.max 0 (col c - 1))).
    2: { destruct c; unfold set_cursor; cbn. destruct (Z.ltb_spec 0 col0); f_equal; cbn in *; lia. }
    eexists _, _. split; [done|]. split.
    { split; [constructor; cbn; done || lia|]. split; [by split_and!|]. split; [done|]. split; [done|].
      exists 0. split; [done|]. split; [by apply Hl|unfold cursor; cbn; lia]. }
    split; [by destruct active|]. intros _. split; [by intros ->|]. intros -> _ [L1 L2]. by split.
  - done.
Qed.

Lemma putc_spec active c d ch : inv c -> exists c' d',
  vga_putc active c d ch = Some (c', d') /\ typed c ch c' /\
  (ch <> 10 \/ row c <> rows c - 1 -> follows active c d c' d').
Proof.
  intros Hi. destruct (printable ch) eqn:Hp.
  - destruct (print_spec active c d ch Hi Hp) as (c' & d' & E & T & Hf). exists c', d'.
    split; [exact E|]. split; [exact T|]. intros _. exact Hf.
  - destruct (control_spec active c d ch Hi Hp) as (c' & d' & E & T & _ & Hf). by exists c', d'.
Qed.

(** C31. Writing a character to a well-formed console stays within its arrays
    and keeps it well-formed: the lines of history and window are those before
    with the character in the cell of the cursor (a newline, a carriage return
    and a backspace write none), followed by a blank line when the window
    scrolls, where at most the oldest line is lost; the cursor moves to the next
    line after the last column or a newline.  A live screen stays live, except
    after a newline in the last row; the screen of another console is not
    touched. *)
Theorem console_putc_correct active c d ch : inv c -> exists c' d',
  vga_putc active c d ch = Some (c', d') /\ typed c ch c' /\
  (ch <> 10 \/ row c <> rows c - 1 -> follows active c d c' d').
Proof.
  apply putc_spec.
Qed.

(** A console of two rows of three columns, the cursor in the last cell. *)
Definition demo (r co : Z) : Console :=
  MkConsole 3 2 r co 0x0F 0xB8000 3 (wr (wr ∅ 0 0x0F41) 3 0x0F42) ∅ 512 0 0 0.

Lemma demo_console_inv r co : 0 <= r < 2 -> 0 <= co < 3 -> inv (demo r co).
Proof. intros Hr Hc. constructor; cbn; lia. Qed.

Lemma console_putc_correct_witness : exists c' d',
  vga_putc true (demo 1 2) (Display ∅ 0) 70 = Some (c', d') /\ typed (demo 1 2) 70 c' /\
  (70 <> 10 \/ 1 <> 2 - 1 -> follows true (demo 1 2) (Display ∅ 0) c' d').
Proof. apply (console_putc_correct true (demo 1 2) (Display ∅ 0) 70). apply demo_console_inv; lia. Defined.

(** A newline in the last row scrolls the window without drawing it: a
    live screen keeps showing the window from before, although every row has
    moved up by one.  Only the next character that fills the last column of the
    last row, or a change of view, draws it. *)
Theorem console_newline_stale c d : inv c -> live c d -> row c = rows c - 1 -> exists c' d',
  vga_putc true c d 10 = Some (c', d') /\ shows c' d' (text c) 0 (rows c') /\
  (forall r co, 0 <= r < rows c - 1 -> 0 <= co < cols c -> text c' r co = text c (r + 1) co) /\
  (forall r co, 0 <= r < rows c - 1 -> 0 <= co < cols c -> text c r co <> text c (r + 1) co ->
     ~ live c' d').
Proof.
  intros Hi [L _] Hr. destruct (control_spec true c d 10 Hi eq_refl) as (c' & d' & E & T & Es & _).
  destruct T as (Hi' & (F1 & F2 & F3 & F4 & F5) & _ & Hr' & k & Hk & Hl & Hcur).
  unfold cursor in Hcur. cbn in Hr', Hcur. pose proof (lost_range c).
  assert (0 <= k <= 1) by (rewrite Hk; destruct (_ && _); lia).
  assert (Hrow : forall r co, 0 <= r < rows c - 1 -> 0 <= co < cols c -> text c' r co = text c (r + 1) co).
  { intros r co Hrr Hco. pose proof (iv_count c Hi). pose proof (iv_count c' Hi').
    specialize (Hl (sbuf_count c' + r) co). unfold total in Hl. rewrite F2 in Hl.
    rewrite (proj2 (Z.ltb_lt _ _)) in Hl by lia. unfold lines_with, line in Hl.
    cbn [printable andb negb orb Z.eqb] in Hl. rewrite !(proj2 (Z.ltb_ge _ _)) in Hl by lia.
    replace (sbuf_count c' + r - sbuf_count c') with r in Hl by lia.
    replace (sbuf_count c' + r + k - sbuf_count c) with (r + 1) in Hl by lia. apply Hl; lia. }
  assert (Hold : shows c' d' (text c) 0 (rows c')).
  { intros r co Hrr Hco. rewrite F1 in Hco. rewrite F2 in Hrr. rewrite Es.
    unfold addr. rewrite F4, F5. by apply L. }
  exists c', d'. split; [exact E|]. split; [exact Hold|]. split; [exact Hrow|].
  intros r co Hrr Hco Hne [L' _]. apply Hne. rewrite <- Hrow by done.
  rewrite <- (L' r co), <- (Hold r co); [done|lia..].
Qed.

Definition demo_screen : display := Display (wr (wr ∅ 0xB8000 0x0F41) 0xB8006 0x0F42) 3.

Lemma demo_live : live (demo 1 0) demo_screen.
Proof.
  split; [|reflexivity]. intros r co Hr Hco. cbn in Hr, Hco.
  assert (Hr' : r = 0 \/ r = 1) by lia. assert (Hc' : co = 0 \/ co = 1 \/ co = 2) by lia.
  destruct Hr' as [->| ->], Hc' as [->|[->| ->]]; reflexivity.
Qed.

Lemma console_newline_stale_witness : exists c' d',
  vga_putc true (demo 1 0) demo_screen 10 = Some (c', d') /\ ~ live c' d'.
Proof.
  destruct (console_newline_stale (demo 1 0) demo_screen) as (c' & d' & E & _ & _ & H);
    [apply demo_console_inv; lia|exact demo_live|reflexivity|].
  exists c', d'. split; [exact E|]. apply (H 0 0); [cbn; lia|cbn; lia|discriminate].
Defined.

(** ** Views *)

(** The page keys and the view each goes to. *)
Inductive page_key := PgUp | PgDn | Home | End_.

Definition page_op (k : page_key) : state -> option state :=
  match k with
  | PgUp => console_page_up
  | PgDn => console_page_down
  | Home => console_page_home
  | End_ => console_page_end
  end.

Definition page_goal (k : page_key) (c : Console) : Z :=
  match k with
  | PgUp => Z.min (sbuf_count c) (view_offset_rows c + Z.max 1 (rows c - 1))
  | PgDn => Z.max 0 (view_offset_rows c - Z.max 1 (rows c - 1))
  | Home => sbuf_count c
  | End_ => 0
  end.

(** The screen of view [v]: [min v rows] rows of history above the window. *)
Definition shows_view (c : Console) (d : display) (v : Z) : Prop :=
  shows c d (fun r co => line c (sbuf_count c - Z.min v (rows c) + r) co) 0 (rows c).

Lemma page_spec c : inv c -> page c = Z.max 1 (rows c - 1).
Proof.
  intros []. unfold page. assert (rows c < 2^16) by nia.
  destruct (Z.ltb_spec 1 (rows c)); [rewrite u16_small by lia|]; lia.
Qed.

Lemma view_op_spec st k c f : s_active st = Some k -> s_consoles st !! k = Some c -> inv c ->
  0 <= f c <= sbuf_count c -> exists st', view_op st f = Some st' /\
  s_consoles st' = <[k := set_view c (f c)]> (s_consoles st) /\ s_active st' = Some k /\
  inv (set_view c (f c)) /\ shows_view c (disp st') (f c).
Proof.
  intros Ha Hk Hi Hf. unfold view_op, on, is_active. rewrite Ha, Hk. bind.
  rewrite bool_decide_eq_true_2 by done.
  assert (Hi' : inv (set_view c (f c))) by (destruct Hi; constructor; cbn; done || lia).
  destruct (render_spec _ Hi' (disp st)) as (d' & E & S). rewrite E. bind.
  eexists. split; [done|]. split; [done|]. split; [done|]. split; [exact Hi'|exact S].
Qed.

Lemma page_goal_range key c : inv c -> 0 <= page_goal key c <= sbuf_count c.
Proof. intros []. destruct key; cbn; lia. Qed.

(** Each key is a change of view, to its goal. *)
Lemma page_op_view key st c : inv c -> exists f, page_op key st = view_op st f /\ f c = page_goal key c.
Proof.
  intros Hi. pose proof (page_spec c Hi) as Hp.
  assert (Hv : 0 <= view_offset_rows c <= sbuf_count c /\ sbuf_count c <= 512 /\ 0 < rows c <= 2000)
    by (destruct Hi; nia).
  destruct key; eexists; (split; [reflexivity|]); cbn; rewrite ?Hp; try done.
  - rewrite u32_small by lia.
    destruct (Z.ltb_spec (sbuf_count c) (view_offset_rows c + Z.max 1 (rows c - 1))); lia.
  - destruct (Z.leb_spec (view_offset_rows c) (Z.max 1 (rows c - 1))); lia.
Qed.

(** The page keys move the view of the active console between the live
    window and the oldest history row and leave its text alone, and the screen
    then shows consecutive lines of the history and the window, at most one
    screenful above the window: from a view of [rows] rows on the screen is
    the same, so that the oldest row is not shown once the history is longer
    than the screen. *)
Theorem console_pages_correct st k c key :
  s_active st = Some k -> s_consoles st !! k = Some c -> inv c ->
  exists st', page_op key st = Some st' /\
    s_consoles st' = <[k := set_view c (page_goal key c)]> (s_consoles st) /\
    inv (set_view c (page_goal key c)) /\ shows_view c (disp st') (page_goal key c).
Proof.
  intros Ha Hk Hi. destruct (page_op_view key st c Hi) as (f & -> & Ef).
  pose proof (page_goal_range key c Hi) as Hg. rewrite <- Ef in *.
  destruct (view_op_spec st k c f Ha Hk Hi Hg) as (st' & E & Es & _ & Hi' & S). by exists st'.
Qed.

Definition demo_state : state :=
  MkState [set_view (demo 1 0) 0] (Some 0%nat) (Display ∅ 0) [].

Lemma console_pages_correct_witness : exists st',
  page_op Home demo_state = Some st' /\ s_consoles st' = [demo 1 0] /\
  shows_view (demo 1 0) (disp st') 0.
Proof.
  destruct (console_pages_correct demo_state 0 (demo 1 0) Home) as (st' & E & Ec & _ & S);
    [reflexivity|reflexivity|apply demo_console_inv; lia|].
  exists st'. split; [exact E|]. split; [exact Ec|exact S].
Defined.

(** ** Geometry *)

(** A loop has no result if one of its steps has none whatever the state. *)
Lemma for_range_none {S} lo hi (body : Z -> S -> option S) k s :
  lo <= k < hi -> (forall t, body k t = None) -> for_range lo hi body s = None.
Proof.
  intros Hk Hn. unfold for_range. remember (Z.to_nat (hi - lo)) as n eqn:En.
  assert (Hlt : k < lo + Z.of_nat n) by lia. assert (Hge : lo <= k) by lia. clear En Hk.
  revert lo s Hge Hlt. induction n as [|n IH]; intros lo s Hge Hlt; [lia|]. simpl.
  destruct (decide (lo = k)) as [->|]; [by rewrite Hn|].
  destruct (body lo s); [simpl; apply IH; lia|done].
Qed.

Lemma clear_overflow active c d : 0 < cols c -> 0 < rows c -> 2000 < cols c * rows c ->
  vga_clear active c d = None.
Proof.
  intros Hc Hr Ho. unfold vga_clear. pose proof (Z.mod_pos_bound 2000 (cols c) Hc).
  pose proof (Z.div_mod 2000 (cols c) ltac:(lia)).
  rewrite (for_range_none _ _ _ (2000 / cols c)); [done| |].
  - split; [apply Z.div_pos; lia|]. apply Z.div_lt_upper_bound; lia.
  - intros t. unfold fill_row. apply (for_range_none _ _ _ (2000 mod cols c)); [lia|].
    intros t'. unfold put. replace (2000 / cols c * cols c + 2000 mod cols c) with 2000 by lia. done.
Qed.

(** Geometries for which the console stays within its arrays. *)
Record fits (c : Console) : Prop := Fits {
  ft_cols : 0 < cols c <= 80;
  ft_rows : 0 < rows c;
  ft_cells : cols c * rows c <= 2000;
  ft_pitch : cols c <= vram_pitch_chars c
}.

Lemma clear_spec active c d : fits c -> exists c' d', vga_clear active c d = Some (c', d') /\
  inv c' /\ same_frame c c' /\ sbuf_count c' = 0 /\ view_offset_rows c' = 0 /\
  (forall r co, 0 <= r < rows c -> 0 <= co < cols c -> text c' r co = blank c) /\
  (active = false -> d' = d) /\ (active = true -> live c' d').
Proof.
  intros [H1 H2 H3 H4]. unfold vga_clear. set (fill := vga_entry 32 (color c)).
  set (c0 := set_view (set_sbuf (set_cursor c 0 0) (sbuf c) 512 0 0) 0).
  assert (Hi0 : inv c0) by (constructor; cbn; done || lia).
  destruct (for_range_inv (fun k m => forall r co, 0 <= r < k -> 0 <= co < cols c ->
      rd m (r * cols c + co) = fill) (fill_row c fill) 0 (rows c) (cells c)) as (m & E & Hm);
    [lia|intros; lia| |].
  { intros k m Hk Hm. change (fill_row c) with (fill_row c0).
    destruct (fill_row_spec c0 Hi0 fill k m Hk) as (m' & E & Hm'). exists m'. split; [exact E|].
    intros r co Hr Hco. pose proof (Hm' r co Hco) as Hx. change (cols c0) with (cols c) in Hx.
    rewrite Hx. destruct (Z.eqb_spec r k); [done|]. apply Hm; lia. }
  rewrite E. bind. change CONSOLE_SCROLLBACK_ROWS with 512. set (c1 := set_view _ 0).
  assert (Hi1 : inv c1) by (constructor; cbn; done || lia).
  destruct (flush_total active c1 d Hi1) as (d' & Ed & F1 & F2).
  exists c1, d'. split; [destruct active; [by rewrite Ed|by rewrite F1]|].
  split; [exact Hi1|]. split; [by split_and!|]. split; [done|]. split; [done|].
  split; [exact Hm|]. split; [exact F1|]. intros Ha. by apply F2.
Qed.

(** The console bound to the framebuffer of tag [fb]. *)
Definition bound (c : Console) (m : mem) (fb : Z) : Console :=
  bind_backend_defaults (set_geometry c (u16 (fb_width m fb)) (u16 (fb_height m fb)))
    (fb_addr m fb) (u16 (fb_pitch m fb / 2)).

(** Binding the first console to a text framebuffer clears it and draws it
    when the geometry of the boot information fits the arrays of the console;
    a geometry of more than 2000 cells, which nothing rejects, makes clearing
    write past the end of the cells. *)
Theorem console_framebuffer_bounds st c m fb :
  s_active st = Some 0%nat -> s_consoles st !! 0%nat = Some c ->
  fb <> 0 -> fb_type m fb = 2 -> fb_bpp m fb = 16 ->
  (fits (bound c m fb) -> exists st' c', bind_framebuffer st m fb = Some st' /\
     s_consoles st' !! 0%nat = Some c' /\ inv c' /\ same_frame (bound c m fb) c' /\
     (forall r co, 0 <= r < rows c' -> 0 <= co < cols c' -> text c' r co = blank c') /\
     live c' (disp st')) /\
  (0 < cols (bound c m fb) -> 0 < rows (bound c m fb) ->
     2000 < cols (bound c m fb) * rows (bound c m fb) -> bind_framebuffer st m fb = None).
Proof.
  intros Ha Hc Hfb Ht Hb. unfold bind_framebuffer, on, is_active.
  rewrite (proj2 (Z.eqb_neq _ _) Hfb), Ht, Hb, Ha, Hc. cbn [andb Z.eqb Pos.eqb]. bind.
  rewrite bool_decide_eq_true_2 by done. fold (bound c m fb). split.
  - intros Hf. destruct (clear_spec true (bound c m fb) (disp st) Hf)
      as (c' & d' & E & Hi & F & _ & _ & T & _ & L). rewrite E. bind. eexists _, c'.
    split; [done|]. split; [cbn; apply list_lookup_insert_eq; by apply lookup_lt_Some in Hc|].
    split; [exact Hi|]. split; [exact F|]. split; [|by apply L].
    destruct F as (-> & -> & Fc & _). intros r co Hr Hco. rewrite T by done.
    unfold blank. by rewrite Fc.
  - intros H1 H2 H3. by rewrite clear_overflow.
Qed.

(** A text framebuffer tag at address 8, with [w] columns and [h] rows. *)
Definition demo_tag (w h : Z) : mem :=
  wr (wr (wr (wr (wr ∅ 28 w) 32 h) 36 16) 37 2) 24 200.

Lemma console_framebuffer_bounds_witness :
  bind_framebuffer demo_state (demo_tag 100 30) 8 = None /\
  exists st', bind_framebuffer demo_state (demo_tag 40 25) 8 = Some st'.
Proof.
  split.
  - apply (console_framebuffer_bounds demo_state (demo 1 0) (demo_tag 100 30) 8);
      done || reflexivity.
  - destruct (console_framebuffer_bounds demo_state (demo 1 0) (demo_tag 40 25) 8) as [H _];
      [done..|]. destruct H as (st' & _ & E & _); [|by exists st'].
    constructor; vm_compute; done.
Defined.

(** ** The interface for clients

    A console state that clients may write to: its active console, if any, is
    well-formed.  Every operation clients use on it has a result and keeps it. *)

Definition ready (st : state) : Prop :=
  forall k, s_active st = Some k -> exists c, s_consoles st !! k = Some c /\ inv c.

Lemma on_ready st k f : ready st -> s_active st = Some k ->
  (forall a c d, inv c -> exists c' d', f a c d = Some (c', d') /\ inv c') ->
  exists st', on st k f = Some st' /\ ready st'.
Proof.
  intros Hr Hk Hf. destruct (Hr k Hk) as (c & Hc & Hi). unfold on. rewrite Hc. bind.
  destruct (Hf (is_active st k) c (disp st) Hi) as (c' & d' & E & Hi'). rewrite E. bind.
  eexists. split; [done|]. intros k' Hk'. cbn in *. replace k' with k by congruence. exists c'.
  split; [|exact Hi']. apply list_lookup_insert_eq. by apply lookup_lt_Some in Hc.
Qed.

Lemma putc_ready st x : ready st -> exists st', console_putc st x = Some st' /\ ready st'.
Proof.
  intros Hr. unfold console_putc, console_putc_ex, target. destruct (s_active st) as [k|] eqn:Hk.
  2: by exists st.
  destruct (on_ready st k (fun a c d => vga_putc a c d x) Hr Hk) as (st' & E & Hr').
  - intros a c d Hi. destruct (putc_spec a c d x Hi) as (c' & d' & E & T & _).
    exists c', d'. split; [exact E|apply T].
  - rewrite E. bind. eexists. split; [done|]. exact Hr'.
Qed.

Lemma page_ready st key : ready st -> exists st', page_op key st = Some st' /\ ready st'.
Proof.
  intros Hr. destruct (s_active st) as [k|] eqn:Hk.
  - destruct (Hr k Hk) as (c & Hc & Hi). destruct (page_op_view key st c Hi) as (f & -> & Ef).
    pose proof (page_goal_range key c Hi) as Hg. rewrite <- Ef in Hg.
    destruct (view_op_spec st k c f Hk Hc Hi Hg) as (st' & E & Es & Ha & Hi' & _).
    exists st'. split; [exact E|]. intros k' Hk'. replace k' with k by congruence.
    exists (set_view c (f c)). split; [|exact Hi']. rewrite Es. apply list_lookup_insert_eq.
    by apply lookup_lt_Some in Hc.
  - exists st. split; [|exact Hr]. destruct key; cbn [page_op];
    unfold console_page_up, console_page_down, console_page_home, console_page_end, view_op; by rewrite Hk.
Qed.

End ConsoleProps.
