(* ===== verification/Input.v ===== *)
(** * Keyboard and line input ([src/kernel64/input.c])

    The decoder of PS/2 scan codes, the polling of keyboard and serial line,
    and the line editor, which echoes on the console. *)

From S2P Require Import Prelude Console.

Module Input.

Definition MOD_SHIFT : Z := 1.
Definition MOD_CTRL : Z := 2.
Definition MOD_ALT : Z := 4.
Definition MOD_CAPS : Z := 8.

Inductive key_type :=
  | KEY_NONE | KEY_CHAR | KEY_ENTER | KEY_BACKSPACE | KEY_TAB | KEY_ESC | KEY_LEFT | KEY_RIGHT
  | KEY_UP | KEY_DOWN | KEY_HOME | KEY_END | KEY_DELETE | KEY_PGUP | KEY_PGDN.

#[global] Instance key_type_eq_dec : EqDecision key_type.
Proof. solve_decision. Defined.

Record key_event := MkEvent { type : key_type; ch : Z; mods : Z }.

(** An event before any of its fields is set.  Its [ch] is read for characters
    only, and events that are characters set it. *)
Definition no_event : key_event := MkEvent KEY_NONE 0 0.

(** The decoder ([s_mods], [s_e0]) and what the two devices answer to each
    poll of their status: not ready, or a byte. *)
Record input := MkInput {
  s_mods : Z;
  s_e0 : bool;
  ps2 : list (option Z);
  line : list (option Z)
}.

Definition base_map : list Z :=
  [0; 27; 49; 50; 51; 52; 53; 54; 55; 56; 57; 48; 45; 61; 8;
   9; 113; 119; 101; 114; 116; 121; 117; 105; 111; 112; 91; 93; 10; 0;
   97; 115; 100; 102; 103; 104; 106; 107; 108; 59; 39; 96; 0; 92; 122;
   120; 99; 118; 98; 110; 109; 44; 46; 47; 0; 42; 0; 32; 0; 0; 0].
Definition shift_map : list Z :=
  [0; 27; 33; 64; 35; 36; 37; 94; 38; 42; 40; 41; 95; 43; 8;
   9; 81; 87; 69; 82; 84; 89; 85; 73; 79; 80; 123; 125; 10; 0;
   65; 83; 68; 70; 71; 72; 74; 75; 76; 58; 34; 126; 0; 124; 90;
   88; 67; 86; 66; 78; 77; 60; 62; 63; 0; 42; 0; 32; 0; 0; 0].

(** The arrays have 128 elements; those without initialiser are 0. *)
Definition map_at (l : list Z) (code : Z) : Z := nth (Z.to_nat code) l 0.

Definition is_letter_scancode (sc : Z) : bool :=
  (0x10 <=? sc) && (sc <=? 0x19) || (0x1E <=? sc) && (sc <=? 0x26) || (0x2C <=? sc) && (sc <=? 0x32).

Definition has (m bit : Z) : bool := negb (Z.land m bit =? 0).

(** [s_mods |= bit] on make, [s_mods &= ~bit] on break. *)
Definition set_mod (m bit : Z) (break_code : bool) : Z :=
  if break_code then Z.ldiff m bit else Z.lor m bit.

(** Extended navigation keys. *)
Definition extended_key (code : Z) : option key_type :=
  match code with
  | 0x4B => Some KEY_LEFT
  | 0x4D => Some KEY_RIGHT
  | 0x48 => Some KEY_UP
  | 0x50 => Some KEY_DOWN
  | 0x47 => Some KEY_HOME
  | 0x4F => Some KEY_END
  | 0x53 => Some KEY_DELETE
  | 0x49 => Some KEY_PGUP
  | 0x51 => Some KEY_PGDN
  | _ => None
  end.

(** The character of a printable key, 0 if it has none. *)
Definition printable_char (m code : Z) : Z :=
  if is_letter_scancode code then
    let c := map_at base_map code in
    if c =? 0 then 0
    else
      let upper := xorb (has m MOD_SHIFT) (has m MOD_CAPS) in
      let c := if upper && (97 <=? c) && (c <=? 122) then u8 (c - 97 + 65) else c in
      if negb upper && (65 <=? c) && (c <=? 90) then u8 (c - 65 + 97) else c
  else if has m MOD_SHIFT then map_at shift_map code else map_at base_map code.

(** The decoding of one scan code: the event if there is one, [s_mods] and
    [s_e0]. *)
Definition ps2_decode (m : Z) (e0 : bool) (sc : Z) (ev : key_event)
    : option key_event * Z * bool :=
  if sc =? 0xE0 then (None, m, true)
  else if sc =? 0xE1 then (None, m, e0)
  else
    let break_code := negb (Z.land sc 0x80 =? 0) in
    let code := Z.land sc 0x7F in
    let key t := Some (MkEvent t (ch ev) m) in
    if negb e0 && ((code =? 0x2A) || (code =? 0x36)) then (None, set_mod m MOD_SHIFT break_code, false)
    else if (negb e0 && (code =? 0x1D)) || (e0 && (code =? 0x1D)) then
      (None, set_mod m MOD_CTRL break_code, false)
    else if (negb e0 && (code =? 0x38)) || (e0 && (code =? 0x38)) then
      (None, set_mod m MOD_ALT break_code, false)
    else if negb e0 && (code =? 0x3A) && negb break_code then (None, Z.lxor m MOD_CAPS, false)
    else if break_code then (None, m, false)
    else if e0 then
      match extended_key code with Some t => (key t, m, false) | None => (None, m, false) end
    else if code =? 0x01 then (key KEY_ESC, m, e0)
    else if code =? 0x0E then (key KEY_BACKSPACE, m, e0)
    else if code =? 0x0F then (key KEY_TAB, m, e0)
    else if code =? 0x1C then (key KEY_ENTER, m, e0)
    else
      let c := printable_char m code in
      if negb (c =? 0) then (Some (MkEvent KEY_CHAR c m), m, e0) else (None, m, e0).

(** One poll of a device. *)
Definition poll (l : list (option Z)) : option Z * list (option Z) :=
  match l with [] => (None, []) | x :: l' => (x, l') end.

Definition ps2_try_read_event_internal (s : input) (ev : key_event) : option key_event * input :=
  let '(sc, rest) := poll (ps2 s) in
  match sc with
  | None => (None, MkInput (s_mods s) (s_e0 s) rest (line s))
  | Some sc =>
      let '(r, m, e0) := ps2_decode (s_mods s) (s_e0 s) sc ev in
      (r, MkInput m e0 rest (line s))
  end.

(** The event of a byte of the serial line. *)
Definition serial_event (c : Z) : option key_event :=
  if (c =? 13) || (c =? 10) then Some (MkEvent KEY_ENTER 0 0)
  else if (c =? 8) || (c =? 127) then Some (MkEvent KEY_BACKSPACE 0 0)
  else if c =? 27 then Some (MkEvent KEY_ESC 0 0)
  else if c =? 9 then Some (MkEvent KEY_TAB 0 0)
  else if (32 <=? c) && (c <? 127) then Some (MkEvent KEY_CHAR (u16 c) 0)
  else None.

Definition input_try_read_event (s : input) (ev : key_event) : option key_event * input :=
  match ps2_try_read_event_internal s ev with
  | (Some ev, s) => (Some ev, s)
  | (None, s) =>
      let '(c, rest) := poll (line s) in
      let s := MkInput (s_mods s) (s_e0 s) (ps2 s) rest in
      match c with None => (None, s) | Some c => (serial_event c, s) end
  end.

(** Spins until an event arrives; no result if none does in [fuel] polls. *)
Fixpoint input_read_event (fuel : nat) (s : input) (ev : key_event) : option (key_event * input) :=
  match fuel with
  | O => None
  | S fuel' =>
      match input_try_read_event s ev with
      | (Some ev, s) => Some (ev, s)
      | (None, s) => input_read_event fuel' s ev
      end
  end.

Definition input_try_getc (s : input) : Z * input :=
  match input_try_read_event s no_event with
  | (None, s) => (-1, s)
  | (Some ev, s) =>
      (match type ev with
       | KEY_CHAR => Z.land (ch ev) 0xFF
       | KEY_ENTER => 10
       | KEY_BACKSPACE => 8
       | _ => -1
       end, s)
  end.

Fixpoint input_getc (fuel : nat) (s : input) : option (Z * input) :=
  match fuel with
  | O => None
  | S fuel' => let '(c, s) := input_try_getc s in if c <? 0 then input_getc fuel' s else Some (c, s)
  end.

(** ** The line editor *)

(** The line [buf[0 .. len)], the cursor in it, and the console. *)
Record editor := MkEditor { buf : mem; len : Z; cur : Z; con : Console.state }.

(** [for (k = i; k < n; ++k) console_putc(buf[k])], [buf] having [max_len]
    elements. *)
Definition print_buf (max_len : Z) (b : mem) (i n : Z) (st : Console.state) : option Console.state :=
  for_range i n (fun k st => c ← Console.get max_len b k; Console.console_putc st c) st.
(** [for (k = i; k < n; ++k) console_putc('\b')] *)
Definition print_back (i n : Z) (st : Console.state) : option Console.state :=
  for_range i n (fun _ st => Console.console_putc st 8) st.

Definition reprint_from (max_len : Z) (b : mem) (i n : Z) (st : Console.state)
    : option Console.state :=
  st ← print_buf max_len b i n st; print_back i n st.

(** [for (i = from; i + 1 < n; ++i) buf[i] = buf[i + 1]] *)
Definition close_gap (max_len from n : Z) (b : mem) : option mem :=
  for_range from (n - 1) (fun i b => x ← Console.get max_len b (i + 1); Console.put max_len b i x) b.

(** [for (i = n; i > to; --i) buf[i] = buf[i - 1]] *)
Definition open_gap (max_len to n : Z) (b : mem) : option mem :=
  for_range 0 (n - to) (fun j b => let i := n - j in
    x ← Console.get max_len b (i - 1); Console.put max_len b i x) b.

Definition move_left (e : editor) : option editor :=
  if 0 <? cur e then
    st ← Console.console_putc (con e) 8; Some (MkEditor (buf e) (len e) (cur e - 1) st)
  else Some e.

Definition move_right (max_len : Z) (e : editor) : option editor :=
  if cur e <? len e then
    c ← Console.get max_len (buf e) (cur e);
    st ← Console.console_putc (con e) c;
    Some (MkEditor (buf e) (len e) (cur e + 1) st)
  else Some e.

(** After a removal: the tail, a blank over its old end, the cursor back. *)
Definition reprint_shorter (max_len : Z) (b : mem) (i n : Z) (st : Console.state)
    : option Console.state :=
  st ← print_buf max_len b i n st;
  st ← Console.console_putc st 32;
  print_back i (n + 1) st.

Definition backspace (max_len : Z) (e : editor) : option editor :=
  if 0 <? cur e then
    st ← Console.console_putc (con e) 8;
    b ← close_gap max_len (cur e - 1) (len e) (buf e);
    st ← reprint_shorter max_len b (cur e - 1) (len e - 1) st;
    Some (MkEditor b (len e - 1) (cur e - 1) st)
  else Some e.

Definition delete_char (max_len : Z) (e : editor) : option editor :=
  if cur e <? len e then
    b ← close_gap max_len (cur e) (len e) (buf e);
    st ← reprint_shorter max_len b (cur e) (len e - 1) (con e);
    Some (MkEditor b (len e - 1) (cur e) st)
  else Some e.

Definition insert_char (max_len c : Z) (e : editor) : option editor :=
  if len e + 1 <? max_len then
    b ← open_gap max_len (cur e) (len e) (buf e);
    b ← Console.put max_len b (cur e) (u8 c);
    st ← Console.console_putc (con e) (u8 c);
    st ← reprint_from max_len b (cur e + 1) (len e + 1) st;
    Some (MkEditor b (len e + 1) (cur e + 1) st)
  else Some e.

Definition with_con (e : editor) (st : option Console.state) : option editor :=
  st ← st; Some (MkEditor (buf e) (len e) (cur e) st).

(** The body of the loop for an event other than Enter. *)
Definition handle (max_len : Z) (ev : key_event) (e : editor) : option editor :=
  match type ev with
  | KEY_PGUP => with_con e (Console.console_page_up (con e))
  | KEY_PGDN => with_con e (Console.console_page_down (con e))
  | KEY_LEFT => move_left e
  | KEY_RIGHT => move_right max_len e
  | KEY_HOME =>
      if has (mods ev) MOD_CTRL then with_con e (Console.console_page_home (con e))
      else for_range 0 (cur e) (fun _ e => move_left e) e
  | KEY_END =>
      if has (mods ev) MOD_CTRL then with_con e (Console.console_page_end (con e))
      else for_range (cur e) (len e) (fun _ e => move_right max_len e) e
  | KEY_BACKSPACE => backspace max_len e
  | KEY_DELETE => delete_char max_len e
  | KEY_CHAR => insert_char max_len (ch ev) e
  | _ => Some e
  end.

(** [fuel] bounds the number of events and of polls for one. *)
Fixpoint readline_loop (fuel : nat) (max_len : Z) (s : input) (e : editor)
    : option (editor * input) :=
  match fuel with
  | O => None
  | S fuel' =>
      '(ev, s) ← input_read_event fuel s no_event;
      if decide (type ev = KEY_ENTER) then
        e ← with_con e (Console.console_putc (con e) 10); Some (e, s)
      else e ← handle max_len ev e; readline_loop fuel' max_len s e
  end.

(** Returns the length and the buffer. *)
Definition input_readline (fuel : nat) (b : mem) (max_len : Z) (s : input) (st : Console.state)
    : option (Z * mem * input * Console.state) :=
  if max_len =? 0 then Some (0, b, s, st)
  else
    '(e, s) ← readline_loop fuel max_len s (MkEditor b 0 0 st);
    Some (len e, buf e, s, con e).

End Input.
