(* ===== verification/InputSpec.v ===== *)
(** * Correctness of the line editor and of the scan code decoder

    The editor refines a zipper: the characters before the cursor and those
    after it. *)

From S2P Require Import Prelude Console ConsoleSpec ConsoleProps Input.

Module InputSpec.

Import Input.

(** ** The zipper *)

(** The characters before the cursor, the nearest first, and those after it. *)
Record zipper := Zipper { before : list Z; after : list Z }.

Definition contents (z : zipper) : list Z := rev (before z) ++ after z.

(** Keys that only move the view of the console. *)
Definition view_key (ev : key_event) : bool :=
  match type ev with
  | KEY_PGUP | KEY_PGDN => true
  | KEY_HOME | KEY_END => has (mods ev) MOD_CTRL
  | _ => false
  end.

Definition edit (max_len : Z) (ev : key_event) (z : zipper) : zipper :=
  if view_key ev then z
  else match type ev, before z, after z with
  | KEY_LEFT, x :: l, r => Zipper l (x :: r)
  | KEY_RIGHT, l, x :: r => Zipper (x :: l) r
  | KEY_HOME, l, r => Zipper [] (rev l ++ r)
  | KEY_END, l, r => Zipper (rev r ++ l) []
  | KEY_BACKSPACE, x :: l, r => Zipper l r
  | KEY_DELETE, l, x :: r => Zipper l r
  | KEY_CHAR, l, r =>
      if Z.of_nat (length l + length r) + 1 <? max_len then Zipper (u8 (ch ev) :: l) r else z
  | _, _, _ => z
  end.

(** ** Representation *)

(** The buffer starts with the list. *)
Definition holds (b : mem) (t : list Z) : Prop := forall i x, t !! i = Some x -> rd b (Z.of_nat i) = x.

(** What the editor keeps of the console: [P] is kept by every character and every
    move of the view. *)
Record con_inv (P : Console.state -> Prop) : Prop := ConInv {
  ci_putc : forall st c, P st -> exists st', Console.console_putc st c = Some st' /\ P st';
  ci_page : forall st key, P st -> exists st', ConsoleProps.page_op key st = Some st' /\ P st'
}.

Lemma ready_inv : con_inv ConsoleProps.ready.
Proof. constructor; [apply ConsoleProps.putc_ready|apply ConsoleProps.page_ready]. Qed.

Section editor.
Context (P : Console.state -> Prop) (HP : con_inv P).

Record repr (max_len : Z) (e : editor) (z : zipper) : Prop := Repr {
  rp_cur : cur e = Z.of_nat (length (before z));
  rp_len : len e = cur e + Z.of_nat (length (after z));
  rp_max : len e < max_len;
  rp_buf : holds (buf e) (contents z);
  rp_con : P (con e)
}.

Lemma holds_app b p q :
  holds b (p ++ q) <-> holds b p /\ forall i x, q !! i = Some x -> rd b (Z.of_nat (length p + i)) = x.
Proof.
  split.
  - intros H. split; [intros i x Hi; apply H; by apply lookup_app_l_Some|].
    intros i x Hi. apply H. rewrite lookup_app_r by lia. by replace (length p + i - length p)%nat with i by lia.
  - intros [Hp Hq] i x Hi. apply lookup_app_Some in Hi as [Hi|[Hle Hi]]; [by apply Hp|].
    replace i with (length p + (i - length p))%nat by lia. by apply Hq.
Qed.

(** ** Moving the tail of the buffer *)

Section gaps.
Context (max_len : Z).

Lemma close_gap_spec b from n : 0 <= from -> from < n -> n <= max_len -> exists b',
  close_gap max_len from n b = Some b' /\
  forall a, rd b' a = if (from <=? a) && (a <? n - 1) then rd b (a + 1) else rd b a.
Proof.
  intros Hf Hn Hm.
  destruct (for_range_inv (fun k b' => forall a,
      rd b' a = if (from <=? a) && (a <? k) then rd b (a + 1) else rd b a)
    (fun i b => x ← Console.get max_len b (i + 1); Console.put max_len b i x) from (n - 1) b)
    as (b' & E & H); [lia| | |by exists b'].
  - intros a. destruct (Z.leb_spec from a), (Z.ltb_spec a from); done || lia.
  - intros k b1 Hk H1. rewrite ConsoleSpec.get_ok by lia. bind. rewrite ConsoleSpec.put_ok by lia.
    eexists. split; [done|]. intros a. rewrite rd_wr, !H1.
    destruct (Z.eqb_spec k a) as [<-|]; destruct (Z.leb_spec from (k + 1)), (Z.ltb_spec (k + 1) k);
      try lia; destruct (Z.leb_spec from k), (Z.ltb_spec k (k + 1)); try lia; cbn [andb]; try done.
    destruct (Z.leb_spec from a), (Z.ltb_spec a k), (Z.ltb_spec a (k + 1)); done || lia.
Qed.

Lemma open_gap_spec b to n : 0 <= to <= n -> n < max_len -> exists b',
  open_gap max_len to n b = Some b' /\
  forall a, rd b' a = if (to <? a) && (a <=? n) then rd b (a - 1) else rd b a.
Proof.
  intros Ht Hm.
  destruct (for_range_inv (fun j b' => forall a,
      rd b' a = if (n - j <? a) && (a <=? n) then rd b (a - 1) else rd b a)
    (fun j b => let i := n - j in x ← Console.get max_len b (i - 1); Console.put max_len b i x)
    0 (n - to) b) as (b' & E & H); [lia| | |].
  - intros a. destruct (Z.ltb_spec (n - 0) a), (Z.leb_spec a n); done || lia.
  - intros k b1 Hk H1. cbn zeta. rewrite ConsoleSpec.get_ok by lia. bind.
    rewrite ConsoleSpec.put_ok by lia. eexists. split; [done|]. intros a. rewrite rd_wr, !H1.
    destruct (Z.eqb_spec (n - k) a) as [<-|].
    + destruct (Z.ltb_spec (n - k) (n - k - 1)), (Z.ltb_spec (n - (k + 1)) (n - k)),
        (Z.leb_spec (n - k) n); done || lia.
    + destruct (Z.ltb_spec (n - k) a), (Z.ltb_spec (n - (k + 1)) a), (Z.leb_spec a n); done || lia.
  - exists b'. split; [exact E|]. intros a. rewrite H. by replace (n - (n - to)) with to by lia.
Qed.

(** The same on the contents. *)
Lemma close_holds b p x q : holds b (p ++ x :: q) ->
  Z.of_nat (length p + length q) + 1 <= max_len -> exists b',
  close_gap max_len (Z.of_nat (length p)) (Z.of_nat (length p) + Z.of_nat (length q) + 1) b = Some b' /\
  holds b' (p ++ q).
Proof.
  intros Hb Hm. destruct (close_gap_spec b (Z.of_nat (length p))
    (Z.of_nat (length p) + Z.of_nat (length q) + 1)) as (b' & E & H); [lia|lia|lia|].
  exists b'. split; [exact E|]. apply holds_app in Hb as [Hp Hq]. apply holds_app. split.
  - intros i y Hi. rewrite H. pose proof (lookup_lt_Some _ _ _ Hi).
    rewrite (proj2 (Z.leb_gt _ _)) by lia. by apply Hp.
  - intros i y Hi. rewrite H. pose proof (lookup_lt_Some _ _ _ Hi).
    rewrite (proj2 (Z.leb_le _ _)), (proj2 (Z.ltb_lt _ _)) by lia. cbn [andb].
    rewrite <- (Hq (S i) y Hi). f_equal. lia.
Qed.

Lemma open_holds b p y q : holds b (p ++ q) -> Z.of_nat (length p + length q) + 1 < max_len -> exists b',
  open_gap max_len (Z.of_nat (length p)) (Z.of_nat (length p) + Z.of_nat (length q)) b = Some b' /\
  holds (wr b' (Z.of_nat (length p)) y) (p ++ y :: q).
Proof.
  intros Hb Hm. destruct (open_gap_spec b (Z.of_nat (length p))
    (Z.of_nat (length p) + Z.of_nat (length q))) as (b' & E & H); [lia|lia|].
  exists b'. split; [exact E|]. apply holds_app in Hb as [Hp Hq]. apply holds_app. split.
  - intros i x Hi. pose proof (lookup_lt_Some _ _ _ Hi). rewrite rd_wr_ne, H by lia.
    rewrite (proj2 (Z.ltb_ge _ _)) by lia. by apply Hp.
  - intros [|i] x Hi; [injection Hi as <-; by rewrite Nat.add_0_r, rd_wr_eq|].
    pose proof (lookup_lt_Some _ _ _ Hi). cbn in *. rewrite rd_wr_ne, H by lia.
    rewrite (proj2 (Z.ltb_lt _ _)), (proj2 (Z.leb_le _ _)) by lia. cbn [andb].
    rewrite <- (Hq i x Hi). f_equal. lia.
Qed.

End gaps.

(** ** Echo *)

Section echo.
Context (max_len : Z).

Lemma print_buf_ready b i n st : 0 <= i <= n -> n <= max_len -> P st ->
  exists st', print_buf max_len b i n st = Some st' /\ P st'.
Proof.
  intros Hi Hn Hr. apply (for_range_inv (fun _ => P)); [lia|done|].
  intros k t Hk Ht. rewrite ConsoleSpec.get_ok by lia. bind. by apply (ci_putc P HP).
Qed.

Lemma print_back_ready i n st : i <= n -> P st ->
  exists st', print_back i n st = Some st' /\ P st'.
Proof.
  intros Hn Hr. apply (for_range_inv (fun _ => P)); [lia|done|].
  intros k t Hk Ht. by apply (ci_putc P HP).
Qed.

Lemma reprint_from_ready b i n st : 0 <= i <= n -> n <= max_len -> P st ->
  exists st', reprint_from max_len b i n st = Some st' /\ P st'.
Proof.
  intros Hi Hn Hr. unfold reprint_from.
  destruct (print_buf_ready b i n st) as (st1 & -> & H1); [done..|]. bind.
  apply print_back_ready; [lia|done].
Qed.

Lemma reprint_shorter_ready b i n st : 0 <= i <= n -> n <= max_len -> P st ->
  exists st', reprint_shorter max_len b i n st = Some st' /\ P st'.
Proof.
  intros Hi Hn Hr. unfold reprint_shorter.
  destruct (print_buf_ready b i n st) as (st1 & -> & H1); [done..|]. bind.
  destruct (ci_putc P HP st1 32 H1) as (st2 & -> & H2). bind.
  apply print_back_ready; [lia|done].
Qed.

End echo.

(** ** The keys *)

Section keys.
Context (max_len : Z).

Lemma move_left_spec e x l r : repr max_len e (Zipper (x :: l) r) ->
  exists e', move_left e = Some e' /\ repr max_len e' (Zipper l (x :: r)).
Proof.
  intros [H1 H2 H3 H4 H5]. cbn in *. unfold move_left. rewrite (proj2 (Z.ltb_lt _ _)) by lia.
  destruct (ci_putc P HP _ 8 H5) as (st & -> & Hr). bind. eexists. split; [done|].
  constructor; cbn; try lia; [|done]. unfold contents in *. cbn in *. by rewrite <- app_assoc in H4.
Qed.

Lemma move_right_spec e l x r : repr max_len e (Zipper l (x :: r)) ->
  exists e', move_right max_len e = Some e' /\ repr max_len e' (Zipper (x :: l) r).
Proof.
  intros [H1 H2 H3 H4 H5]. cbn in *. unfold move_right. rewrite (proj2 (Z.ltb_lt _ _)) by lia.
  rewrite ConsoleSpec.get_ok by lia. bind.
  destruct (ci_putc P HP (con e) (rd (buf e) (cur e)) H5) as (st & -> & Hr). bind.
  eexists. split; [done|]. constructor; cbn; try lia; [|done].
  unfold contents in *. cbn in *. by rewrite <- app_assoc.
Qed.

(** The first [k] elements, then one more. *)
Lemma take_step (l : list Z) k lo : lo <= k < lo + Z.of_nat (length l) -> exists x,
  drop (Z.to_nat (k - lo)) l = x :: drop (Z.to_nat (k + 1 - lo)) l /\
  rev (take (Z.to_nat (k + 1 - lo)) l) = x :: rev (take (Z.to_nat (k - lo)) l).
Proof.
  intros Hk. destruct (lookup_lt_is_Some_2 l (Z.to_nat (k - lo))) as [x Hx]; [lia|]. exists x.
  replace (Z.to_nat (k + 1 - lo)) with (S (Z.to_nat (k - lo))) by lia.
  split; [by apply drop_S|]. by rewrite (take_S_r _ _ _ Hx), rev_app_distr.
Qed.

Lemma home_spec e l r : repr max_len e (Zipper l r) -> exists e',
  for_range 0 (cur e) (fun _ e => move_left e) e = Some e' /\
  repr max_len e' (Zipper [] (rev l ++ r)).
Proof.
  intros He. pose proof (rp_cur _ _ _ He) as Hc. cbn in Hc.
  destruct (for_range_inv (fun k e' => repr max_len e'
      (Zipper (drop (Z.to_nat (k - 0)) l) (rev (take (Z.to_nat (k - 0)) l) ++ r)))
    (fun _ e => move_left e) 0 (cur e) e) as (e' & E & H); [lia|exact He| |].
  - intros k t Hk Ht. destruct (take_step l k 0 ltac:(lia)) as (x & Ex & Er).
    rewrite Ex in Ht. rewrite Er. by apply move_left_spec.
  - exists e'. split; [exact E|].
    rewrite drop_ge, take_ge in H by lia. exact H.
Qed.

Lemma end_spec e l r : repr max_len e (Zipper l r) -> exists e',
  for_range (cur e) (len e) (fun _ e => move_right max_len e) e = Some e' /\
  repr max_len e' (Zipper (rev r ++ l) []).
Proof.
  intros He. pose proof (rp_len _ _ _ He) as Hl. cbn in Hl.
  destruct (for_range_inv (fun k e' => repr max_len e'
      (Zipper (rev (take (Z.to_nat (k - cur e)) r) ++ l) (drop (Z.to_nat (k - cur e)) r)))
    (fun _ e => move_right max_len e) (cur e) (len e) e) as (e' & E & H); [lia| | |].
  - rewrite Z.sub_diag. exact He.
  - intros k t Hk Ht. destruct (take_step r k (cur e) ltac:(lia)) as (x & Ex & Er).
    rewrite Ex in Ht. rewrite Er. by apply move_right_spec.
  - exists e'. split; [exact E|]. rewrite drop_ge, take_ge in H by lia. exact H.
Qed.

Lemma backspace_spec e x l r : repr max_len e (Zipper (x :: l) r) ->
  exists e', backspace max_len e = Some e' /\ repr max_len e' (Zipper l r).
Proof.
  intros [H1 H2 H3 H4 H5]. cbn in *. unfold backspace. rewrite (proj2 (Z.ltb_lt _ _)) by lia.
  destruct (ci_putc P HP _ 8 H5) as (st & -> & Hr). bind.
  unfold contents in H4. cbn in H4. rewrite <- app_assoc in H4.
  destruct (close_holds max_len (buf e) (rev l) x r H4) as (b & E & Hb); [rewrite length_rev; lia|].
  rewrite length_rev in E.
  replace (cur e - 1) with (Z.of_nat (length l)) by lia.
  replace (len e) with (Z.of_nat (length l) + Z.of_nat (length r) + 1) by lia. rewrite E. bind.
  destruct (reprint_shorter_ready max_len b (Z.of_nat (length l))
    (Z.of_nat (length l) + Z.of_nat (length r) + 1 - 1) st) as (st' & -> & Hr'); [lia|lia|done|]. bind.
  eexists. split; [done|]. constructor; cbn; (lia || done).
Qed.

Lemma delete_char_spec e l x r : repr max_len e (Zipper l (x :: r)) ->
  exists e', delete_char max_len e = Some e' /\ repr max_len e' (Zipper l r).
Proof.
  intros [H1 H2 H3 H4 H5]. cbn in *. unfold delete_char. rewrite (proj2 (Z.ltb_lt _ _)) by lia.
  destruct (close_holds max_len (buf e) (rev l) x r H4) as (b & E & Hb); [rewrite length_rev; lia|].
  rewrite length_rev in E. rewrite H1.
  replace (len e) with (Z.of_nat (length l) + Z.of_nat (length r) + 1) by lia. rewrite E. bind.
  destruct (reprint_shorter_ready max_len b (Z.of_nat (length l))
    (Z.of_nat (length l) + Z.of_nat (length r) + 1 - 1) (con e)) as (st' & -> & Hr'); [lia|lia|done|]. bind.
  eexists. split; [done|]. constructor; cbn; (lia || done).
Qed.

Lemma insert_char_spec e l r c : repr max_len e (Zipper l r) ->
  exists e', insert_char max_len c e = Some e' /\
    repr max_len e' (if Z.of_nat (length l + length r) + 1 <? max_len then Zipper (u8 c :: l) r
                     else Zipper l r).
Proof.
  intros He. pose proof He as [H1 H2 H3 H4 H5]. cbn in *. unfold insert_char.
  replace (len e) with (Z.of_nat (length l + length r)) by lia.
  destruct (Z.ltb_spec (Z.of_nat (length l + length r) + 1) max_len); [|by exists e].
  destruct (open_holds max_len (buf e) (rev l) (u8 c) r H4) as (b & E & Hb); [rewrite length_rev; lia|].
  rewrite length_rev in E, Hb. rewrite H1, Nat2Z.inj_add, E. bind.
  rewrite ConsoleSpec.put_ok by lia. bind.
  destruct (ci_putc P HP _ (u8 c) H5) as (st & -> & Hr). bind.
  destruct (reprint_from_ready max_len (wr b (Z.of_nat (length l)) (u8 c)) (Z.of_nat (length l) + 1)
    (Z.of_nat (length l) + Z.of_nat (length r) + 1) st) as (st' & -> & Hr'); [lia|lia|done|]. bind.
  eexists. split; [done|]. constructor; cbn; try lia; [|done].
  unfold contents. cbn. by rewrite <- app_assoc.
Qed.

Lemma with_con_spec e z key : repr max_len e z -> exists e',
  with_con e (ConsoleProps.page_op key (con e)) = Some e' /\ repr max_len e' z.
Proof.
  intros []. destruct (ci_page P HP (con e) key) as (st & -> & Hr); [done|].
  eexists. split; [done|]. by constructor.
Qed.

(** Every key has a result and does to the line what it does to the zipper. *)
Lemma handle_spec e z ev : repr max_len e z ->
  exists e', handle max_len ev e = Some e' /\ repr max_len e' (edit max_len ev z).
Proof.
  intros He. unfold handle, edit, view_key. destruct z as [l r]; cbn [before after].
  assert (Hid : exists e', Some e = Some e' /\ repr max_len e' (Zipper l r)) by (by exists e).
  pose proof (rp_cur _ _ _ He). pose proof (rp_len _ _ _ He). cbn in *.
  destruct (type ev); try done.
  - by apply insert_char_spec.
  - destruct l; [|by eapply backspace_spec]. unfold backspace. by rewrite (proj2 (Z.ltb_ge _ _)) by (cbn in *; lia).
  - destruct l; [|by apply move_left_spec]. unfold move_left. by rewrite (proj2 (Z.ltb_ge _ _)) by (cbn in *; lia).
  - destruct r; [|by apply move_right_spec]. unfold move_right. by rewrite (proj2 (Z.ltb_ge _ _)) by (cbn in *; lia).
  - destruct (has (mods ev) MOD_CTRL); [|by apply home_spec]. by apply (with_con_spec e _ ConsoleProps.Home).
  - destruct (has (mods ev) MOD_CTRL); [|by apply end_spec]. by apply (with_con_spec e _ ConsoleProps.End_).
  - destruct r; [|by eapply delete_char_spec]. unfold delete_char. by rewrite (proj2 (Z.ltb_ge _ _)) by (cbn in *; lia).
  - by apply (with_con_spec e _ ConsoleProps.PgUp).
  - by apply (with_con_spec e _ ConsoleProps.PgDn).
Qed.

End keys.

(** ** The whole line *)

(** The events that arrive from [s], each within [n] polls. *)
Inductive arrives (n : nat) : input -> list key_event -> input -> Prop :=
  | arrives_nil s : arrives n s [] s
  | arrives_cons s ev s1 evs s2 :
      input_read_event n s no_event = Some (ev, s1) -> arrives n s1 evs s2 -> arrives n s (ev :: evs) s2.

Lemma read_event_mono n n' s ev r :
  (n <= n')%nat -> input_read_event n s ev = Some r -> input_read_event n' s ev = Some r.
Proof.
  revert n' s. induction n as [|n IH]; intros [|n'] s Hle H; [done|done|lia|]. cbn in *.
  destruct (input_try_read_event s ev) as [[ev'|] s']; [done|]. apply IH; [lia|done].
Qed.

Definition edits (max_len : Z) (evs : list key_event) (z : zipper) : zipper :=
  fold_left (fun z ev => edit max_len ev z) evs z.

Lemma loop_spec n max_len evs : forall s e z enter s',
  repr max_len e z -> Forall (fun ev => type ev <> KEY_ENTER) evs -> type enter = KEY_ENTER ->
  arrives n s (evs ++ [enter]) s' -> exists e',
    readline_loop (n + length evs + 1) max_len s e = Some (e', s') /\
    repr max_len e' (edits max_len evs z).
Proof.
  induction evs as [|ev evs IH]; intros s e z enter s' He Hall Hent Harr;
    inversion Harr as [|? ? s1 ? ? Hread Hrest]; subst.
  - rewrite Nat.add_0_r, Nat.add_1_r. cbn [readline_loop].
    rewrite (read_event_mono n (S n) _ _ _ ltac:(lia) Hread). bind. rewrite decide_True by done.
    inversion Hrest; subst. destruct He. unfold with_con.
    destruct (ci_putc P HP (con e) 10) as (st & -> & Hr); [done|]. bind.
    eexists. split; [done|]. by constructor.
  - apply list.Forall_cons in Hall as [Hne Hall].
    replace (n + length (ev :: evs) + 1)%nat with (S (n + length evs + 1)) by (cbn; lia).
    cbn [readline_loop].
    rewrite (read_event_mono n (S (n + length evs + 1)) _ _ _ ltac:(lia) Hread). bind. rewrite decide_False by done.
    destruct (handle_spec max_len e z ev He) as (e1 & -> & He1). bind. by eapply IH.
Qed.

Lemma readline_spec n max_len b s st evs enter s' : 0 < max_len -> P st ->
  arrives n s (evs ++ [enter]) s' -> type enter = KEY_ENTER ->
  Forall (fun ev => type ev <> KEY_ENTER) evs ->
  exists b' st', let text := contents (edits max_len evs (Zipper [] [])) in
    input_readline (n + length evs + 1) b max_len s st
      = Some (Z.of_nat (length text), b', s', st') /\
    Z.of_nat (length text) < max_len /\ holds b' text /\ P st'.
Proof.
  intros Hm Hr Harr Hent Hall. unfold input_readline. rewrite (proj2 (Z.eqb_neq _ _)) by lia.
  destruct (loop_spec n max_len evs s (MkEditor b 0 0 st) (Zipper [] []) enter s') as (e & -> & []);
    [|done..|].
  { by constructor. }
  bind. exists (buf e), (con e).
  assert (El : len e = Z.of_nat (length (contents (edits max_len evs (Zipper [] [])))))
    by (unfold contents; rewrite length_app, length_rev; lia).
  cbn zeta. rewrite <- El. by split_and!.
Qed.

End editor.

(** C32. Reading a line: whatever events arrive before an Enter, in however many
    polls, [input_readline] returns the line they edit: a zipper in which
    characters are inserted before the cursor (no more than fit), the arrows,
    Home and End move it, Backspace and Delete remove beside it.  It returns the
    length, fewer than [max_len] characters, with the line in the buffer,
    accesses no element beyond the buffer, and leaves the console well-formed. *)
Theorem input_readline_correct n max_len b s st evs enter s' :
  0 < max_len -> ConsoleProps.ready st ->
  arrives n s (evs ++ [enter]) s' -> type enter = KEY_ENTER ->
  Forall (fun ev => type ev <> KEY_ENTER) evs ->
  exists b' st', let text := contents (edits max_len evs (Zipper [] [])) in
    input_readline (n + length evs + 1) b max_len s st
      = Some (Z.of_nat (length text), b', s', st') /\
    Z.of_nat (length text) < max_len /\ holds b' text /\ ConsoleProps.ready st'.
Proof.
  intros Hm Hr. by apply readline_spec; [apply ready_inv|..].
Qed.

(** 'h', 'i', Left, Shift and 'x', Enter on the keyboard, with a poll that finds
    nothing. *)
Definition demo_input : input :=
  MkInput 0 false (map Some [0x23; 0xA3; 0x17; 0x97; 0xE0; 0x4B; 0x2A; 0x2D; 0xAD; 0xAA] ++ [None; Some 0x1C]) [].

Lemma demo_ready : ConsoleProps.ready ConsoleProps.demo_state.
Proof.
  intros k [= <-]. exists (ConsoleProps.demo 1 0). split; [reflexivity|].
  apply ConsoleProps.demo_console_inv; lia.
Qed.

Lemma input_readline_correct_witness : exists b s' st',
  input_readline 11 ∅ 80 demo_input ConsoleProps.demo_state = Some (3, b, s', st') /\
  holds b [104; 88; 105].
Proof.
  destruct (input_readline_correct 6 80 ∅ demo_input ConsoleProps.demo_state
    [MkEvent KEY_CHAR 104 0; MkEvent KEY_CHAR 105 0; MkEvent KEY_LEFT 0 0; MkEvent KEY_CHAR 88 1]
    (MkEvent KEY_ENTER 0 0) (MkInput 0 false [] [])) as (b & st & E & _ & H & _).
  - lia.
  - exact demo_ready.
  - repeat (eapply arrives_cons; [vm_compute; reflexivity|]). apply arrives_nil.
  - reflexivity.
  - by repeat constructor.
  - exists b, (MkInput 0 false [] []), st. split; [exact E|exact H].
Defined.

(** ** Scan codes *)

(** The letters of the three rows of a US keyboard, by scan code. *)
Definition letters : list (Z * list Z) :=
  [(0x10, [113; 119; 101; 114; 116; 121; 117; 105; 111; 112]);
   (0x1E, [97; 115; 100; 102; 103; 104; 106; 107; 108]);
   (0x2C, [122; 120; 99; 118; 98; 110; 109])].

Definition letter_of (code : Z) : option Z :=
  foldr (fun '(lo, l) r => if (lo <=? code) && (code <? lo + Z.of_nat (length l))
                           then Some (nth (Z.to_nat (code - lo)) l 0) else r) None letters.

(** What an event says: [ch] is valid for characters only. *)
Definition key_of (ev : key_event) : key_type * Z * Z :=
  (type ev, if decide (type ev = KEY_CHAR) then ch ev else 0, mods ev).

Definition decoded (m : Z) (e0 : bool) (sc : Z) (ev : key_event) : option (key_type * Z * Z) * Z * bool :=
  let '(r, m', e0') := ps2_decode m e0 sc ev in (key_of <$> r, m', e0').

(** What decoding scan code [sc] must give. *)
Definition decodes (m : Z) (e0 : bool) (sc : Z) (r : option (key_type * Z * Z) * Z * bool) : Prop :=
  let '(k, m', e0') := r in
  let make := sc <? 0x80 in
  let code := Z.land sc 0x7F in
  let prefix := (sc =? 0xE0) || (sc =? 0xE1) in
  let shift := negb e0 && ((code =? 0x2A) || (code =? 0x36)) in
  let ctrl := code =? 0x1D in
  let alt := code =? 0x38 in
  let caps := negb e0 && (code =? 0x3A) in
  e0' = (sc =? 0xE0) || (e0 && (sc =? 0xE1)) /\
  has m' MOD_SHIFT = (if negb prefix && shift then make else has m MOD_SHIFT) /\
  has m' MOD_CTRL = (if negb prefix && ctrl then make else has m MOD_CTRL) /\
  has m' MOD_ALT = (if negb prefix && alt then make else has m MOD_ALT) /\
  has m' MOD_CAPS = xorb (has m MOD_CAPS) (negb prefix && caps && make) /\
  0 <= m' < 16 /\
  (prefix || shift || ctrl || alt || caps || negb make = true -> k = None) /\
  (e0 = false -> make = true -> from_option (fun c =>
     k = Some (KEY_CHAR, if xorb (has m MOD_SHIFT) (has m MOD_CAPS) then c - 32 else c, m)) True
     (letter_of code)) /\
  (e0 = true -> make = true -> ctrl || alt = false -> k = (fun t => (t, 0, m)) <$> extended_key code) /\
  from_option (fun '(t, c, m1) => m1 = m /\ (t = KEY_CHAR -> 32 <= c < 127)) True k.

#[local] Instance from_option_dec {A} (P : A -> Prop) o :
  (forall x, Decision (P x)) -> Decision (from_option P True o).
Proof. destruct o; apply _. Defined.

#[local] Instance decodes_dec m e0 sc r : Decision (decodes m e0 sc r).
Proof.
  destruct r as [[k m'] e0']. unfold decodes. repeat apply and_dec; apply _.
Defined.

(** A check of all values below [n]. *)
Lemma below (n : nat) (p : Z -> bool) x :
  forallb (fun i => p (Z.of_nat i)) (seq 0 n) = true -> 0 <= x < Z.of_nat n -> p x = true.
Proof.
  intros H Hx. rewrite forallb_forall in H. specialize (H (Z.to_nat x)).
  rewrite Z2Nat.id in H by lia. apply H. apply in_seq. lia.
Qed.

Lemma extended_not_char code t : extended_key code = Some t -> t <> KEY_CHAR.
Proof. unfold extended_key. intros H ->. repeat case_match; discriminate. Qed.

Lemma decoded_ev m e0 sc ev : decoded m e0 sc ev = decoded m e0 sc no_event.
Proof.
  unfold decoded, ps2_decode. cbn zeta.
  repeat match goal with
    | |- context [if ?b then _ else _] => destruct b; try done
    | |- context [match extended_key ?c with _ => _ end] => destruct (extended_key c) eqn:?; try done
    end.
  unfold key_of. cbn. by rewrite !decide_False by (by eapply extended_not_char).
Qed.

Definition checked (m sc : Z) : bool :=
  bool_decide (decodes m false sc (decoded m false sc no_event)) &&
  bool_decide (decodes m true sc (decoded m true sc no_event)).

Lemma decode_check :
  forallb (fun i => forallb (fun j => checked (Z.of_nat i) (Z.of_nat j)) (seq 0 256)) (seq 0 16) = true.
Proof. vm_compute. reflexivity. Qed.



End InputSpec.
