(* ===== verification/Pci.v ===== *)
(** * PCI enumeration and USB controllers ([src/kernel64/pci/pci.c],
      [src/kernel64/usb/usb.c])

    Configuration space is hardware: a function from the value written to the
    address port 0xCF8 to the double word then read from port 0xCFC.  Reading a
    header has no effect. *)

From S2P Require Import Prelude.

Module Pci.

Section config.
Context (conf : Z -> Z).

Definition cfg_addr (bus dev func offset : Z) : Z :=
  Z.lor (Z.lor (Z.lor (Z.lor (2^31) (Z.shiftl bus 16)) (Z.shiftl dev 11)) (Z.shiftl func 8))
    (Z.land offset 0xFC).

Definition pci_cfg_read32 (bus dev func offset : Z) : Z := u32 (conf (cfg_addr bus dev func offset)).

Definition pci_cfg_read16 (bus dev func offset : Z) : Z :=
  let v := pci_cfg_read32 bus dev func (Z.land offset 0xFC) in
  let sh := if negb (Z.land offset 2 =? 0) then 16 else 0 in
  Z.land (Z.shiftr v sh) 0xFFFF.

Definition pci_cfg_read8 (bus dev func offset : Z) : Z :=
  let v := pci_cfg_read32 bus dev func (Z.land offset 0xFC) in
  let sh := Z.land offset 3 * 8 in
  Z.land (Z.shiftr v sh) 0xFF.

(** The port writes, in order: port and value. *)
Definition pci_cfg_write32 (bus dev func offset val : Z) : list (Z * Z) :=
  [(0xCF8, cfg_addr bus dev func offset); (0xCFC, val)].

Record pci_device := MkPci {
  bus : Z; dev : Z; func : Z;
  vendor_id : Z;
  device_id : Z;
  class_code : Z;
  subclass : Z;
  prog_if : Z
}.

#[global] Instance pci_device_eq_dec : EqDecision pci_device.
Proof. solve_decision. Defined.

(** ** Enumeration, with a callback on a state *)

Context {S : Type}.

Definition enum_func (cb : option (pci_device -> S -> S)) (b d : Z) (s : S) (f : Z) : S :=
  let vid := pci_cfg_read16 b d f 0x00 in
  if vid =? 0xFFFF then s
  else
    let dv := MkPci b d f vid (pci_cfg_read16 b d f 0x02) (pci_cfg_read8 b d f 0x0B)
                (pci_cfg_read8 b d f 0x0A) (pci_cfg_read8 b d f 0x09) in
    match cb with Some cb => cb dv s | None => s end.

Definition enum_dev (cb : option (pci_device -> S -> S)) (b : Z) (s : S) (d : Z) : S :=
  let vid0 := pci_cfg_read16 b d 0 0x00 in
  if vid0 =? 0xFFFF then s
  else
    let hdr := pci_cfg_read8 b d 0 0x0E in
    let funcs := if negb (Z.land hdr 0x80 =? 0) then 8 else 1 in
    fold_left (enum_func cb b d) (seqZ 0 funcs) s.

Definition enum_bus (cb : option (pci_device -> S -> S)) (s : S) (b : Z) : S :=
  fold_left (enum_dev cb b) (seqZ 0 32) s.

Definition pci_enumerate (cb : option (pci_device -> S -> S)) (s : S) : S :=
  fold_left (enum_bus cb) (seqZ 0 255) s.

End config.

(** ** USB: what is logged on the serial line *)

Inductive usb_message := UsbInit | UsbControllerFound.

Definition on_pci (d : pci_device) (log : list usb_message) : list usb_message :=
  if class_code d =? 0x0C then log ++ [UsbControllerFound] else log.

Definition usb_init (conf : Z -> Z) : list usb_message :=
  pci_enumerate conf (Some on_pci) [UsbInit].

(** ** What configuration space holds *)

(** The byte at [off] of a function: bytes are little-endian in the double
    words at the multiples of 4. *)
Definition cfg_byte (conf : Z -> Z) (b d f off : Z) : Z :=
  u8 (u32 (conf (2^31 + 2^16 * b + 2^11 * d + 2^8 * f + off / 4 * 4)) / 2^(8 * (off mod 4))).

Definition cfg_word (conf : Z -> Z) (b d f off : Z) : Z :=
  cfg_byte conf b d f off + 2^8 * cfg_byte conf b d f (off + 1).

(** A function that answers, behind a function 0 that answers and, for the
    others, says that there are several. *)
Record present (conf : Z -> Z) (d : pci_device) : Prop := Present {
  pr_bus : 0 <= bus d < 255;
  pr_dev : 0 <= dev d < 32;
  pr_func : 0 <= func d < 8;
  pr_slot : cfg_word conf (bus d) (dev d) 0 0 <> 0xFFFF;
  pr_multi : func d = 0 \/ 128 <= cfg_byte conf (bus d) (dev d) 0 0x0E;
  pr_vendor : vendor_id d = cfg_word conf (bus d) (dev d) (func d) 0;
  pr_some : vendor_id d <> 0xFFFF;
  pr_device : device_id d = cfg_word conf (bus d) (dev d) (func d) 2;
  pr_class : class_code d = cfg_byte conf (bus d) (dev d) (func d) 0x0B;
  pr_subclass : subclass d = cfg_byte conf (bus d) (dev d) (func d) 0x0A;
  pr_prog_if : prog_if d = cfg_byte conf (bus d) (dev d) (func d) 0x09
}.

Lemma cfg_addr_sum b d f off : 0 <= b < 256 -> 0 <= d < 32 -> 0 <= f < 8 -> 0 <= off < 256 ->
  cfg_addr b d f off = 2^31 + 2^16 * b + 2^11 * d + 2^8 * f + off / 4 * 4.
Proof.
  intros Hb Hd Hf Ho. unfold cfg_addr. rewrite !Z.shiftl_mul_pow2 by lia.
  replace (Z.land off 0xFC) with (off / 4 * 4).
  2: { replace off with (Z.land off (2^8 - 1)) at 2 by (rewrite land_low, Z.mod_small by lia; done).
       rewrite <- Z.land_assoc. change (Z.land (2^8 - 1) 0xFC) with (Z.land (2^8 - 1) (Z.lnot (2^2 - 1))).
       rewrite Z.land_assoc, land_low, Z.mod_small, land_clear_low by lia. done. }
  rewrite (lor_add (2^31) (b * 2^16) 31), (lor_add _ (d * 2^11) 16), (lor_add _ (f * 2^8) 11),
    (lor_add _ (off / 4 * 4) 8); zmod.
Qed.

(** ** The reads *)

Section reads.
Context (conf : Z -> Z) (b d f : Z) (Hb : 0 <= b < 256) (Hd : 0 <= d < 32) (Hf : 0 <= f < 8).

Lemma read32_aligned off : 0 <= off < 256 ->
  pci_cfg_read32 conf b d f (Z.land off 0xFC) = u32 (conf (2^31 + 2^16 * b + 2^11 * d + 2^8 * f + off / 4 * 4)).
Proof.
  intros Ho. unfold pci_cfg_read32. f_equal. f_equal.
  assert (Hl : Z.land (Z.land off 0xFC) 0xFC = Z.land off 0xFC) by (by rewrite <- Z.land_assoc).
  transitivity (cfg_addr b d f off); [|by apply cfg_addr_sum].
  unfold cfg_addr. by rewrite Hl.
Qed.

Lemma read8_byte off : 0 <= off < 256 -> pci_cfg_read8 conf b d f off = cfg_byte conf b d f off.
Proof.
  intros Ho. unfold pci_cfg_read8, cfg_byte. rewrite read32_aligned by done.
  change 0xFF with (2^8 - 1). change (Z.land off 3) with (Z.land off (2^2 - 1)).
  rewrite !land_low by lia. change (2^2) with 4. rewrite Z.shiftr_div_pow2 by (pose proof (Z.mod_pos_bound off 4); lia).
  by rewrite (Z.mul_comm 8).
Qed.

Lemma read16_word off : off = 0 \/ off = 2 -> pci_cfg_read16 conf b d f off = cfg_word conf b d f off.
Proof.
  intros Ho. unfold pci_cfg_read16, cfg_word, cfg_byte. rewrite read32_aligned by lia.
  destruct Ho as [-> | ->].
  - change (if negb (Z.land 0 2 =? 0) then 16 else 0) with 0. change (8 * (0 mod 4)) with 0.
    change (8 * ((0 + 1) mod 4)) with 8. change ((0 + 1) / 4) with (0 / 4).
    change 0xFFFF with (2^16 - 1). set (v := conf _). rewrite land_low, Z.shiftr_0_r by lia.
    pose proof (u32_range v). unfold u8. zmod.
  - change (if negb (Z.land 2 2 =? 0) then 16 else 0) with 16. change (8 * (2 mod 4)) with 16.
    change (8 * ((2 + 1) mod 4)) with 24. change ((2 + 1) / 4) with (2 / 4).
    change 0xFFFF with (2^16 - 1). set (v := conf _). rewrite land_low, Z.shiftr_div_pow2 by lia.
    pose proof (u32_range v). unfold u8. zmod.
Qed.

End reads.

(** ** The enumeration *)

Lemma multi_function h : 0 <= h < 256 -> negb (Z.land h 0x80 =? 0) = (128 <=? h).
Proof.
  intros Hh. change (Z.land h 0x80) with (Z.land h (Z.land (2^8 - 1) (Z.lnot (2^7 - 1)))).
  rewrite Z.land_assoc, land_low, Z.mod_small, land_clear_low by lia. change (2^7) with 128.
  destruct (Z.eqb_spec (h / 128 * 128) 0), (Z.leb_spec 128 h); try reflexivity; exfalso;
    pose proof (Z.div_mod h 128); pose proof (Z.mod_pos_bound h 128); lia.
Qed.

Lemma cfg_byte_range conf b d f off : 0 <= cfg_byte conf b d f off < 256.
Proof. apply u8_range. Qed.

(** A callback that only looks at devices runs over the list of them. *)
Lemma fold_concat {A B S} (g : S -> A -> S) (l : A -> list B) (h : S -> B -> S) xs : forall s,
  (forall s x, x ∈ xs -> g s x = fold_left h (l x) s) ->
  fold_left g xs s = fold_left h (concat (map l xs)) s.
Proof.
  induction xs as [|x xs IH]; intros s H; [done|]. cbn. rewrite fold_left_app, H by left.
  apply IH. intros s' y Hy. apply H. by right.
Qed.

Section enumeration.
Context (conf : Z -> Z).

(** The devices, in the order of the enumeration. *)
Definition func_at (b d f : Z) : list pci_device :=
  if cfg_word conf b d f 0 =? 0xFFFF then []
  else [MkPci b d f (cfg_word conf b d f 0) (cfg_word conf b d f 2) (cfg_byte conf b d f 0x0B)
          (cfg_byte conf b d f 0x0A) (cfg_byte conf b d f 0x09)].
Definition funcs_of (b d : Z) : Z := if 128 <=? cfg_byte conf b d 0 0x0E then 8 else 1.
Definition slot_at (b d : Z) : list pci_device :=
  if cfg_word conf b d 0 0 =? 0xFFFF then []
  else concat (map (func_at b d) (seqZ 0 (funcs_of b d))).
Definition devices : list pci_device :=
  concat (map (fun b => concat (map (slot_at b) (seqZ 0 32))) (seqZ 0 255)).

Lemma enumerate_devices {S} (cb : pci_device -> S -> S) s :
  pci_enumerate conf (Some cb) s = fold_left (fun s d => cb d s) devices s.
Proof.
  apply fold_concat. intros s1 b Hb. apply elem_of_seqZ in Hb.
  apply fold_concat. intros s2 d Hd. apply elem_of_seqZ in Hd. unfold enum_dev, slot_at, funcs_of.
  rewrite read16_word by lia. destruct (cfg_word conf b d 0 0 =? 0xFFFF); [done|].
  rewrite read8_byte, multi_function by (apply cfg_byte_range || lia).
  apply fold_concat. intros s3 f Hf. apply elem_of_seqZ in Hf. unfold enum_func, func_at.
  assert (0 <= f < 8) by (destruct (128 <=? _); lia).
  rewrite !read16_word, !read8_byte by lia. by destruct (cfg_word conf b d f 0 =? 0xFFFF).
Qed.

Lemma elem_of_concat_map {A B} (l : A -> list B) xs y :
  y ∈ concat (map l xs) <-> exists x, x ∈ xs /\ y ∈ l x.
Proof.
  induction xs as [|x xs IH]; cbn.
  - split; [by intros ?%elem_of_nil|]. intros (x & H & _). by apply elem_of_nil in H.
  - rewrite elem_of_app, IH. split.
    + intros [H|(z & H1 & H2)]; [exists x|exists z]; (split; [|done]); [left|by right].
    + intros (z & H1 & H2). apply elem_of_cons in H1 as [->|H1]; [by left|right; by exists z].
Qed.

Lemma elem_of_devices d : d ∈ devices <-> present conf d.
Proof.
  unfold devices. rewrite elem_of_concat_map. split.
  - intros (b & Hb & H). apply elem_of_seqZ in Hb. apply elem_of_concat_map in H as (v & Hv & H).
    apply elem_of_seqZ in Hv. unfold slot_at, funcs_of in H.
    destruct (Z.eqb_spec (cfg_word conf b v 0 0) 0xFFFF) as [|Hs]; [by apply elem_of_nil in H|].
    apply elem_of_concat_map in H as (f & Hf & H). apply elem_of_seqZ in Hf. unfold func_at in H.
    destruct (Z.eqb_spec (cfg_word conf b v f 0) 0xFFFF) as [|Hs2]; [by apply elem_of_nil in H|].
    apply list_elem_of_singleton in H as ->.
    destruct (Z.leb_spec 128 (cfg_byte conf b v 0 0x0E)); constructor; cbn; (done || lia).
  - intros [H1 H2 H3 H4 H5 H6 H7 H8 H9 H10 H11]. exists (bus d). split; [by apply elem_of_seqZ|].
    apply elem_of_concat_map. exists (dev d). split; [by apply elem_of_seqZ|]. unfold slot_at, funcs_of.
    rewrite (proj2 (Z.eqb_neq _ _) H4). apply elem_of_concat_map. exists (func d). split.
    + apply elem_of_seqZ. destruct (Z.leb_spec 128 (cfg_byte conf (bus d) (dev d) 0 0x0E)); lia.
    + unfold func_at. rewrite H6 in H7. rewrite (proj2 (Z.eqb_neq _ _) H7).
      apply list_elem_of_singleton. destruct d. cbn in *. by subst.
Qed.

Lemma NoDup_concat_map {A B} (l : A -> list B) (key : B -> A) xs :
  NoDup xs -> (forall x, x ∈ xs -> NoDup (l x)) -> (forall x y, x ∈ xs -> y ∈ l x -> key y = x) ->
  NoDup (concat (map l xs)).
Proof.
  induction 1 as [|x xs Hx H IH]; intros Hl Hk; cbn; [constructor|].
  apply list.NoDup_app. split; [apply Hl; left|]. split.
  - intros y Hy (x' & Hx' & Hy')%elem_of_concat_map. apply Hx.
    assert (key y = x) as <- by (apply Hk; [left|done]). by rewrite (Hk x' y) by (done || by right).
  - apply IH; intros; [apply Hl|apply Hk]; try done; by right.
Qed.

Lemma func_at_key b d f v : v ∈ func_at b d f -> bus v = b /\ dev v = d /\ func v = f.
Proof.
  unfold func_at. destruct (_ =? _); [by intros ?%elem_of_nil|]. by intros ->%list_elem_of_singleton.
Qed.

Lemma slot_at_key b d v : v ∈ slot_at b d -> bus v = b /\ dev v = d.
Proof.
  unfold slot_at. destruct (_ =? _); [by intros ?%elem_of_nil|].
  intros (f & _ & H)%elem_of_concat_map. apply func_at_key in H. tauto.
Qed.

Lemma NoDup_devices : NoDup devices.
Proof.
  apply (NoDup_concat_map _ bus); [apply NoDup_seqZ| |].
  - intros b _. apply (NoDup_concat_map _ dev); [apply NoDup_seqZ| |].
    + intros d _. unfold slot_at. destruct (_ =? _); [constructor|].
      apply (NoDup_concat_map _ func); [apply NoDup_seqZ| |].
      * intros f _. unfold func_at. destruct (_ =? _); [constructor|apply NoDup_singleton].
      * intros f v _ Hv%func_at_key. tauto.
    + intros d v _ Hv%slot_at_key. tauto.
  - intros b v _ (d & _ & Hv)%elem_of_concat_map. apply slot_at_key in Hv. tauto.
Qed.

Lemma usb_log l : forall log, fold_left (fun s d => on_pci d s) l log
  = log ++ replicate (length (filter (fun d => class_code d = 0x0C) l)) UsbControllerFound.
Proof.
  induction l as [|d l IH]; intros log; [by rewrite app_nil_r|]. cbn [fold_left]. rewrite IH, filter_cons.
  unfold on_pci. destruct (Z.eqb_spec (class_code d) 0x0C); case_decide; try done.
  cbn [length replicate]. by rewrite <- app_assoc.
Qed.

End enumeration.

(** C37. [pci_enumerate] with a callback is the fold of the callback over one list
    of devices, whatever the callback does: the list has exactly the functions
    that answer behind a function 0 that answers (functions 1 to 7 only when bit 7
    of the header type of function 0 is set), on the buses 0 to 254, each once and
    with the vendor, device, class, subclass and programming interface that are at
    their offsets of its header.  So [usb_init] logs one line for each function of
    class 0x0C. *)
Theorem pci_enumerate_correct (conf : Z -> Z) :
  exists l : list pci_device,
    NoDup l /\ (forall d, d ∈ l <-> present conf d) /\
    (forall (S : Type) (cb : pci_device -> S -> S) (s : S),
       pci_enumerate conf (Some cb) s = fold_left (fun s d => cb d s) l s) /\
    usb_init conf
      = UsbInit :: replicate (length (filter (fun d => class_code d = 0x0C) l)) UsbControllerFound.
Proof.
  exists (devices conf). split; [apply NoDup_devices|]. split; [apply elem_of_devices|].
  split; [intros; apply enumerate_devices|].
  unfold usb_init. by rewrite enumerate_devices, usb_log.
Qed.

End Pci.
