(* ===== verification/Progress.v ===== *)
(** * Progress bar ([src/kernel64/console.h])

    [console_progress] redraws one line of the active console: it blanks the
    line and writes a label, a bar and a percentage that fit on it. *)

From S2P Require Import Prelude Console ConsoleSpec ConsoleProps.

Module Progress.

Import Console ConsoleSpec ConsoleProps.

Definition CONSOLE_COLS : Z := 80.

(** A string, or NULL. *)
Definition console_strlen (s : option (list Z)) : Z :=
  match s with None => 0 | Some s => Z.of_nat (length s) end.

(** [label[i]] *)
Definition char_at (s : option (list Z)) (i : Z) : Z := nth (Z.to_nat i) (default [] s) 0.

Definition console_progress (st : state) (label : option (list Z)) (done total : Z) : option state :=
  let total := if total =? 0 then 1 else total in
  let pct := (done * 100)%u64 / total in
  let pct := if 100 <? pct then 100 else pct in
  let pct_len := if 100 <=? pct then 3 else if 10 <=? pct then 2 else 1 in
  st ← console_putc st 13;
  st ← for_range 0 (CONSOLE_COLS - 1) (fun _ st => console_putc st 32) st;
  st ← console_putc st 13;
  let lbl_len := console_strlen label in
  let min_bar := 10 in
  let max_bar := 50 in
  let reserved := 1 + 1 + 1 + 1 + pct_len + 1 in
  let max_lbl := if reserved + min_bar + 1 <? CONSOLE_COLS then CONSOLE_COLS - 1 - reserved - min_bar else 0 in
  let lbl_len := if max_lbl <? lbl_len then max_lbl else lbl_len in
  let bar_width := CONSOLE_COLS - 1 - reserved - lbl_len in
  let bar_width := if max_bar <? bar_width then max_bar else bar_width in
  let bar_width := if bar_width <? min_bar then min_bar else bar_width in
  st ← for_range 0 lbl_len (fun i st => console_putc st (char_at label i)) st;
  st ← console_putc st 32;
  st ← console_putc st 91;
  let bars := (pct * bar_width) / 100 in
  st ← for_range 0 bar_width (fun i st => console_putc st (if i <? bars then 35 else 46)) st;
  st ← console_putc st 93;
  st ← console_putc st 32;
  st ← console_write_dec st pct;
  console_putc st 37.

(** ** What the line says *)

Definition percent (done total : Z) : Z := Z.min 100 (done * 100 / Z.max 1 total).

Definition digits (n : Z) : list Z :=
  if n <? 10 then [48 + n] else if n <? 100 then [48 + n / 10; 48 + n mod 10] else [49; 48; 48].

(** Label, bar and percentage; the label is cut so that a bar of ten fits. *)
Definition bar_text (label : list Z) (pct : Z) : list Z :=
  let ds := digits pct in
  let lbl := take (64 - length ds) label in
  let w := Z.min 50 (74 - Z.of_nat (length ds) - Z.of_nat (length lbl)) in
  let full := pct * w / 100 in
  lbl ++ [32; 91] ++ replicate (Z.to_nat full) 35 ++ replicate (Z.to_nat (w - full)) 46
    ++ [93; 32] ++ ds ++ [37].

(** ** Writing within a line *)

Fixpoint puts (st : state) (s : list Z) : option state :=
  match s with
  | [] => Some st
  | ch :: s' => st ← console_putc st ch; puts st s'
  end.

Lemma puts_app s1 s2 : forall st, puts st (s1 ++ s2) = st' ← puts st s1; puts st' s2.
Proof.
  induction s1 as [|ch s1 IH]; intros st; [done|]. cbn [app puts].
  destruct (console_putc st ch); [apply IH|done].
Qed.

Lemma for_puts n f : forall lo st,
  for_nat n lo (fun i st => console_putc st (f i)) st = puts st (map f (seqZ lo (Z.of_nat n))).
Proof.
  induction n as [|n IH]; intros lo st; [done|].
  rewrite Nat2Z.inj_succ, <- Z.add_1_l, Z.add_comm, seqZ_cons by lia. cbn [map puts for_nat].
  destruct (console_putc st (f lo)) as [st'|]; [|done]. bind. rewrite IH. do 3 f_equal; lia.
Qed.

Lemma for_range_puts n f st : 0 <= n ->
  for_range 0 n (fun i st => console_putc st (f i)) st = puts st (map f (seqZ 0 n)).
Proof. intros H. unfold for_range. rewrite for_puts. do 3 f_equal; lia. Qed.

(** The prefix of a list, character by character. *)
Lemma map_seqZ_take s n : 0 <= n <= Z.of_nat (length s) ->
  map (fun i => nth (Z.to_nat i) s 0) (seqZ 0 n) = take (Z.to_nat n) s.
Proof.
  intros Hn. apply list_eq. intros i. change (map ?f ?l) with (f <$> l). rewrite list_lookup_fmap.
  destruct (decide (Z.of_nat i < n)).
  - rewrite lookup_seqZ_lt, lookup_take_lt by lia. cbn. replace (Z.to_nat (0 + Z.of_nat i)) with i by lia.
    by destruct (nth_lookup_or_length s i 0) as [->|]; [|lia].
  - rewrite lookup_seqZ_ge, lookup_take_ge by lia. done.
Qed.

Lemma map_seqZ_nth s : map (fun i => nth (Z.to_nat i) s 0) (seqZ 0 (Z.of_nat (length s))) = s.
Proof. rewrite map_seqZ_take by lia. rewrite Nat2Z.id. apply take_ge. lia. Qed.

Lemma map_const {A} (x : Z) (l : list A) : map (fun _ => x) l = replicate (length l) x.
Proof. induction l as [|a l IH]; cbn; [done|by rewrite IH]. Qed.

(** The bar, character by character. *)
Lemma bar_list full w : 0 <= full <= w ->
  map (fun i => if i <? full then 35 else 46) (seqZ 0 w)
  = replicate (Z.to_nat full) 35 ++ replicate (Z.to_nat (w - full)) 46.
Proof.
  intros H. replace w with (full + (w - full)) at 1 by lia. rewrite seqZ_app, map_app by lia. f_equal.
  - rewrite <- (length_seqZ 0 full), <- (map_const 35 (seqZ 0 full)).
    apply map_ext_in. intros i Hx%list_elem_of_In%elem_of_seqZ. by rewrite (proj2 (Z.ltb_lt _ _)) by lia.
  - rewrite <- (length_seqZ (0 + full) (w - full)), <- (map_const 46 (seqZ (0 + full) (w - full))).
    apply map_ext_in. intros i Hx%list_elem_of_In%elem_of_seqZ. by rewrite (proj2 (Z.ltb_ge _ _)) by lia.
Qed.

Lemma label_list label n : 0 <= n <= console_strlen label ->
  map (char_at label) (seqZ 0 n) = take (Z.to_nat n) (default [] label).
Proof. intros H. apply map_seqZ_take. destruct label; exact H. Qed.

Section line.
Context (st0 : state) (k : nat) (c : Console) (Hc : s_consoles st0 !! k = Some c) (Hi : inv c).

(** The console is [c] with [f] on the line of the cursor and the cursor in
    column [j] of that line. *)
Record on_line (st : state) (f : Z -> Z) (j : Z) (c' : Console) : Prop := OnLine {
  ol_active : s_active st = Some k;
  ol_consoles : s_consoles st = <[k := c']> (s_consoles st0);
  ol_inv : inv c';
  ol_frame : same_frame c c';
  ol_row : row c' = row c;
  ol_count : sbuf_count c' = sbuf_count c;
  ol_col : col c' = j;
  ol_line : forall i co, 0 <= i < total c -> 0 <= co < cols c ->
    line c' i co = if i =? cursor c then f co else line c i co
}.

Lemma putc_line st f j c1 ch : on_line st f j c1 -> breaks c1 ch = false ->
  exists st' c', console_putc st ch = Some st' /\
    on_line st' (fun co => if printable ch && (co =? j) then vga_entry ch (color c) else f co)
      (next_col c1 ch) c'.
Proof.
  intros [H1 H2 H3 (F1 & F2 & F3 & F4 & F5) H5 H6 H7 H8] Hb.
  destruct (putc_spec (is_active st k) c1 (disp st) ch H3) as (c' & d' & E & T & _).
  destruct T as (Hi' & (G1 & G2 & G3 & G4 & G5) & Tc & Tr & n & Hn & L & Hcur). rewrite Hb in *.
  cbn in Hn. subst n. unfold cursor in Hcur.
  unfold console_putc, console_putc_ex, target, on. rewrite H1, H2.
  rewrite list_lookup_insert_eq by (by apply lookup_lt_Some in Hc). bind. rewrite E. bind.
  eexists _, c'. split; [done|]. constructor; cbn.
  - done.
  - apply list_insert_insert_eq.
  - done.
  - split_and!; congruence.
  - congruence.
  - lia.
  - done.
  - intros i co Hib Hco. unfold total in *.
    rewrite (L i co); [|unfold total; lia|by rewrite F1].
    rewrite Z.add_0_r, (proj2 (Z.ltb_lt _ _)) by (unfold total; lia).
    unfold lines_with. rewrite H8 by done. unfold cursor. rewrite H5, H6, H7, F3.
    by destruct (printable ch), (i =? _), (co =? j).
Qed.

Lemma puts_line s : forall st f j c1, on_line st f j c1 -> 0 <= j ->
  j + Z.of_nat (length s) < cols c -> Forall (fun ch => printable ch = true) s ->
  exists st' c', puts st s = Some st' /\
    on_line st' (fun co => if inb j (Z.of_nat (length s)) co
                           then vga_entry (nth (Z.to_nat (co - j)) s 0) (color c) else f co)
      (j + Z.of_nat (length s)) c'.
Proof.
  induction s as [|ch s IH]; intros st f j c1 Hol Hj Hlen Hp; cbn [length puts] in *.
  - exists st, c1. split; [done|]. destruct Hol. constructor; try done; [lia|].
    intros i co Hib Hco. rewrite ol_line0 by done. inb_cases; [lia|done].
  - apply list.Forall_cons in Hp as [Hch Hp].
    assert (Hb : breaks c1 ch = false).
    { unfold breaks. rewrite Hch. destruct (ch =? 10) eqn:E10; [unfold printable in Hch; by rewrite E10 in Hch|].
      destruct (ol_frame _ _ _ _ Hol) as (-> & _). rewrite (ol_col _ _ _ _ Hol). apply Z.eqb_neq. lia. }
    assert (Hn : next_col c1 ch = j + 1).
    { unfold next_col. rewrite Hb, (ol_col _ _ _ _ Hol). unfold printable in Hch.
      by destruct (ch =? 10), (ch =? 13), (ch =? 8). }
    destruct (putc_line st f j c1 ch Hol Hb) as (st1 & c2 & E & Hol1). rewrite E. bind.
    rewrite Hn, Hch in Hol1.
    destruct (IH st1 _ (j + 1) c2 Hol1) as (st2 & c3 & E2 & Hol2); [lia|lia|done|].
    exists st2, c3. split; [done|]. destruct Hol2. constructor; try done; [lia|].
    intros i co Hib Hco. rewrite ol_line0 by done. destruct (i =? cursor c); [|done]. cbn [andb].
    destruct (Z.eqb_spec co j) as [->|]; inb_cases; try lia; try done.
    + by rewrite Z.sub_diag.
    + replace (Z.to_nat (co - j)) with (S (Z.to_nat (co - (j + 1)))) by lia. done.
Qed.

Lemma cr_line st f j c1 : on_line st f j c1 -> exists st' c',
  console_putc st 13 = Some st' /\ on_line st' f 0 c'.
Proof. intros H. exact (putc_line st f j c1 13 H eq_refl). Qed.

(** The line says [s], and is blank after it but for its last column. *)
Definition says (st : state) (s : list Z) (c' : Console) : Prop :=
  on_line st (fun co => if co <? 79 then vga_entry (nth (Z.to_nat co) s 32) (color c)
                        else line c (cursor c) co) (Z.of_nat (length s)) c'.

Lemma on_line_ext st f g j j' c' : on_line st f j c' -> j = j' ->
  (forall co, 0 <= co < cols c -> f co = g co) -> on_line st g j' c'.
Proof.
  intros [] <- Hfg. constructor; try done. intros i co Hib Hco. rewrite ol_line0 by done.
  by rewrite Hfg.
Qed.

Hypothesis Hcols : cols c = 80.

Lemma says_puts st s t c1 : says st s c1 -> Z.of_nat (length s + length t) < 80 ->
  Forall (fun ch => printable ch = true) t ->
  exists st' c', puts st t = Some st' /\ says st' (s ++ t) c'.
Proof.
  intros Hs Hlen Hp. destruct (puts_line t st _ _ c1 Hs) as (st' & c' & E & H); [lia|lia|done|].
  exists st', c'. split; [done|]. eapply on_line_ext; [exact H|rewrite length_app; lia|].
  intros co Hco. cbn. destruct (Z.ltb_spec co 79); inb_cases; try lia; try done.
  - f_equal. rewrite app_nth2 by lia. erewrite nth_indep by lia. f_equal. lia.
  - f_equal. destruct (Z.lt_ge_cases co (Z.of_nat (length s))).
    + by rewrite app_nth1 by lia.
    + rewrite !nth_overflow by (rewrite ?length_app; lia). done.
Qed.

Lemma says_char st s ch c1 : says st s c1 -> Z.of_nat (length s) < 79 -> printable ch = true ->
  exists st' c', console_putc st ch = Some st' /\ says st' (s ++ [ch]) c'.
Proof.
  intros Hs Hlen Hp. destruct (says_puts st s [ch] c1 Hs) as (st' & c' & E & H); [cbn; lia|by repeat constructor|].
  exists st', c'. split; [|done]. cbn in E. by destruct (console_putc st ch).
Qed.

(** Blanking the line. *)
Lemma says_nothing : s_active st0 = Some k -> exists st1 st2 st3 c',
  console_putc st0 13 = Some st1 /\ for_range 0 79 (fun _ st => console_putc st 32) st1 = Some st2 /\
  console_putc st2 13 = Some st3 /\ says st3 [] c'.
Proof.
  intros Ha.
  assert (H0 : on_line st0 (line c (cursor c)) (col c) c).
  { constructor; try done; [by rewrite list_insert_id|]. intros i co Hib Hco.
    by destruct (Z.eqb_spec i (cursor c)) as [->|]. }
  destruct (cr_line _ _ _ _ H0) as (st1 & c1 & E1 & H1). exists st1.
  rewrite (for_range_puts 79 (fun _ => 32)) by lia.
  destruct (puts_line (map (fun _ => 32) (seqZ 0 79)) st1 _ _ c1 H1) as (st2 & c2 & E2 & H2);
    [lia|rewrite length_map, length_seqZ; lia|apply (bool_decide_unpack _); vm_compute; exact I|].
  destruct (cr_line _ _ _ _ H2) as (st3 & c3 & E3 & H3). exists st2, st3, c3.
  do 3 (split; [done|]). eapply on_line_ext; [exact H3|done|].
  intros co Hco. rewrite length_map, length_seqZ. cbn.
  destruct (Z.ltb_spec co 79); inb_cases; try lia.
  f_equal. rewrite (nth_indep _ 0 32) by (rewrite length_map, length_seqZ; lia).
  rewrite (map_nth (fun _ => 32) (seqZ 0 79) 0). by destruct (Z.to_nat co).
Qed.

Lemma digits_dec : Forall (fun n => dec_digits 32 n = digits n) (seqZ 1 100).
Proof. apply (bool_decide_unpack _). vm_compute. exact I. Qed.

Lemma digits_printable n : 0 <= n <= 100 -> Forall (fun ch => printable ch = true) (digits n) /\
  Z.of_nat (length (digits n)) = (if 100 <=? n then 3 else if 10 <=? n then 2 else 1).
Proof.
  intros H. assert (Hall : Forall (fun n => Forall (fun ch => printable ch = true) (digits n) /\
    Z.of_nat (length (digits n)) = (if 100 <=? n then 3 else if 10 <=? n then 2 else 1)) (seqZ 0 101))
    by (apply (bool_decide_unpack _); vm_compute; exact I).
  rewrite list.Forall_forall in Hall. apply Hall, elem_of_seqZ. lia.
Qed.

Lemma says_dec st s c1 n : says st s c1 -> 0 <= n <= 100 -> Z.of_nat (length s + length (digits n)) < 80 ->
  exists st' c', console_write_dec st n = Some st' /\ says st' (s ++ digits n) c'.
Proof.
  intros Hs Hn Hlen. destruct (digits_printable n Hn) as [Hp _].
  destruct (says_puts st s (digits n) c1 Hs Hlen Hp) as (st' & c' & E & H). unfold console_write_dec.
  destruct (Z.eqb_spec n 0) as [->|].
  - cbn [digits Z.ltb Z.compare puts] in E. change (48 + 0) with 48 in E.
    destruct (console_putc st 48) as [st1|]; [|done]. simplify_eq/=. bind. eexists _, c'. split; [done|].
    destruct H. by constructor.
  - pose proof digits_dec as Hd. rewrite list.Forall_forall in Hd. rewrite (Hd n) by (apply elem_of_seqZ; lia).
    rewrite for_range_puts by lia. exists st', c'. split; [|done]. rewrite <- E. f_equal.
    apply map_seqZ_nth.
Qed.

(** The parts of the line fit. *)
Lemma bar_fits (label : list Z) n : 0 <= n <= 100 ->
  let l := Z.of_nat (length (digits n)) in
  let lbl := Z.min (Z.of_nat (length label)) (64 - l) in
  let w := Z.min 50 (74 - l - lbl) in
  1 <= l <= 3 /\ 10 <= w /\ 0 <= n * w / 100 <= w /\ lbl + w + l + 5 <= 79.
Proof.
  intros Hn. destruct (digits_printable n Hn) as [_ Hl]. cbn zeta.
  assert (Hl3 : 1 <= Z.of_nat (length (digits n)) <= 3) by (rewrite Hl; repeat case_match; lia).
  set (l := Z.of_nat (length (digits n))) in *. clearbody l. set (lbl := Z.min _ (64 - l)).
  set (w := Z.min 50 _). assert (10 <= w) by lia. split; [lia|]. split; [lia|]. split; [|lia].
  split; [apply Z.div_pos; nia|]. apply Z.div_le_upper_bound; nia.
Qed.

Ltac says_putc H st' H' :=
  let c' := fresh "c" in let E := fresh "E" in
  match goal with |- context [console_putc ?st ?ch] =>
    destruct (says_char st _ ch _ H) as (st' & c' & E & H');
      [rewrite !length_app; cbn; lia|done|]; rewrite E; bind
  end.

(** The text, written on a blank line. *)
Lemma says_bar st3 c3 label n : says st3 [] c3 -> 0 <= n <= 100 ->
  Forall (fun ch => printable ch = true) (default [] label) ->
  let l := Z.of_nat (length (digits n)) in
  let lbl := Z.min (console_strlen label) (64 - l) in
  let w := Z.min 50 (74 - l - lbl) in
  exists st' c',
    (st ← for_range 0 lbl (fun i st => console_putc st (char_at label i)) st3;
     st ← console_putc st 32;
     st ← console_putc st 91;
     st ← for_range 0 w (fun i st => console_putc st (if i <? n * w / 100 then 35 else 46)) st;
     st ← console_putc st 93;
     st ← console_putc st 32;
     st ← console_write_dec st n;
     console_putc st 37) = Some st' /\
    says st' (bar_text (default [] label) n) c' /\ (length (bar_text (default [] label) n) <= 79)%nat.
Proof.
  intros H3 Hn Hp. cbn zeta. destruct (bar_fits (default [] label) n Hn) as (F1 & F2 & F3 & F4).
  assert (Elen : Z.of_nat (length (default [] label)) = console_strlen label) by (by destruct label).
  rewrite Elen in *. set (l := Z.of_nat (length (digits n))) in *.
  set (lbl := Z.min _ (64 - l)) in *. set (w := Z.min 50 _) in *. set (full := n * w / 100) in *.
  assert (Hlbl : 0 <= lbl <= console_strlen label) by (rewrite <- Elen; lia).
  set (s1 := take (Z.to_nat lbl) (default [] label)).
  assert (L1 : Z.of_nat (length s1) = lbl) by (unfold s1; rewrite length_take; lia).
  set (s2 := replicate (Z.to_nat full) 35 ++ replicate (Z.to_nat (w - full)) 46).
  assert (L2 : Z.of_nat (length s2) = w) by (unfold s2; rewrite length_app, !length_replicate; lia).
  assert (Ebar : bar_text (default [] label) n = ((((((([] ++ s1) ++ [32]) ++ [91]) ++ s2) ++ [93]) ++ [32]) ++ digits n) ++ [37]).
  { unfold bar_text. replace (take (64 - length (digits n)) (default [] label)) with s1.
    - rewrite L1. fold l w full. unfold s2. by rewrite <- !app_assoc.
    - unfold s1, lbl. rewrite <- Elen. destruct (Z.le_gt_cases (Z.of_nat (length (default [] label))) (64 - l)).
      + rewrite !take_ge by lia. done.
      + f_equal. lia. }
  rewrite Ebar. rewrite for_range_puts, label_list by lia. fold s1.
  destruct (says_puts st3 [] s1 c3 H3) as (st4 & c4 & E4 & H4); [cbn; lia|by apply Forall_take|].
  rewrite E4. bind.
  says_putc H4 st5 H5. says_putc H5 st6 H6.
  rewrite (for_range_puts w (fun i => if i <? full then 35 else 46)), bar_list by lia. fold s2.
  destruct (says_puts st6 _ s2 _ H6) as (st7 & c7 & E7 & H7); [rewrite !length_app; cbn; lia| |].
  { apply list.Forall_app. split; by apply Forall_replicate. }
  rewrite E7. bind. says_putc H7 st8 H8. says_putc H8 st9 H9.
  destruct (says_dec st9 _ _ n H9 Hn) as (st10 & c10 & E10 & H10); [rewrite !length_app; cbn; lia|].
  rewrite E10. bind. says_putc H10 st11 H11.
  eexists st11, _. split; [done|]. split; [exact H11|]. rewrite !length_app. cbn. lia.
Qed.

End line.

(** [console_progress] draws its bar on the line of the cursor of an
    80-column console and stays there: nothing scrolls, no other line changes,
    and the line shows the label (cut to leave room for ten cells of bar), a bar
    of at most 50 cells and the percentage, in at most 79 columns, with blanks
    after them; the cursor is left after the text.  It needs the label to have
    no control characters and [done * 100] not to wrap. *)
Theorem console_progress_correct st k c label done total :
  s_active st = Some k -> s_consoles st !! k = Some c -> inv c -> cols c = 80 ->
  Forall (fun ch => printable ch = true) (default [] label) ->
  0 <= done < 2^57 -> 0 <= total ->
  let s := bar_text (default [] label) (percent done total) in
  exists st' c', console_progress st label done total = Some st' /\
    (length s <= 79)%nat /\ on_line st k c st'
      (fun co => if co <? 79 then vga_entry (nth (Z.to_nat co) s 32) (color c)
                 else line c (cursor c) co) (Z.of_nat (length s)) c'.
Proof.
  intros Ha Hc Hi Hcols Hp Hd Ht. cbn zeta. unfold console_progress, CONSOLE_COLS.
  change (80 - 1) with 79. rewrite mul64_small by lia.
  assert (Et : (if total =? 0 then 1 else total) = Z.max 1 total) by (destruct (Z.eqb_spec total 0); lia).
  rewrite Et. set (q := done * 100 / Z.max 1 total).
  assert (Hq : 0 <= q) by (apply Z.div_pos; lia).
  assert (Epct : (if 100 <? q then 100 else q) = percent done total)
    by (unfold percent; fold q; destruct (Z.ltb_spec 100 q); lia).
  rewrite Epct. assert (Hn : 0 <= percent done total <= 100) by (unfold percent; fold q; lia).
  set (n := percent done total) in *. clearbody n. clear q Hq Epct Et.
  destruct (digits_printable n Hn) as [Hdp Hdl]. rewrite <- Hdl.
  destruct (bar_fits (default [] label) n Hn) as (F1 & F2 & F3 & F4).
  assert (Elen : Z.of_nat (length (default [] label)) = console_strlen label) by (by destruct label).
  rewrite Elen in *. set (l := Z.of_nat (length (digits n))) in *.
  destruct (says_nothing st k c Hc Hi Hcols Ha) as (st1 & st2 & st3 & c3 & E1 & E2 & E3 & H3).
  rewrite E1. bind. rewrite E2. bind. rewrite E3. bind.
  destruct (says_bar st k c Hc Hcols st3 c3 label n H3 Hn Hp) as (st4 & c4 & E4 & H4 & H5).
  exists st4, c4. split; [|split; [exact H5|exact H4]]. rewrite <- E4. fold l.
  set (lbl := Z.min _ (64 - l)) in *. set (w := Z.min 50 _) in *.
  rewrite (proj2 (Z.ltb_lt _ 80)) by lia.
  replace (if 79 - _ - 10 <? console_strlen label then _ else _) with lbl
    by (destruct (Z.ltb_spec (79 - (1 + 1 + 1 + 1 + l + 1) - 10) (console_strlen label)); lia).
  replace (if 50 <? _ then _ else _) with w
    by (destruct (Z.ltb_spec 50 (79 - (1 + 1 + 1 + 1 + l + 1) - lbl)); lia).
  by rewrite (proj2 (Z.ltb_ge w 10)) by lia.
Qed.

Definition wide : Console := MkConsole 80 25 3 7 0x0F 0xB8000 80 ∅ ∅ 512 0 0 0.

Lemma console_progress_correct_witness : exists st' c',
  console_progress (MkState [wide] (Some 0%nat) (Display ∅ 0) []) (Some [87]) 1 2 = Some st' /\
  on_line (MkState [wide] (Some 0%nat) (Display ∅ 0) []) 0 wide st'
    (fun co => if co <? 79 then vga_entry (nth (Z.to_nat co) (bar_text [87] 50) 32) 0x0F
               else line wide 3 co) 58 c'.
Proof.
  destruct (console_progress_correct (MkState [wide] (Some 0%nat) (Display ∅ 0) []) 0 wide
    (Some [87]) 1 2) as (st' & c' & E & _ & H);
    [reflexivity|reflexivity|constructor; cbn; lia|reflexivity|by repeat constructor|lia|lia|].
  exists st', c'. split; [exact E|]. exact H.
Defined.

End Progress.
