(* ===== verification/Terminal.v ===== *)
(** * The console as its clients use it

    The memory test and the shell write to the active console.  They are proved
    against the interface [Terminal] and its laws: from a usable state every
    operation has a result, in a usable state.  The console of
    [src/kernel64/console.c] implements it, and so does a plain record of the
    output. *)

From stdpp Require Import strings.
From S2P Require Import Prelude Console ConsoleSpec ConsoleProps Progress.

Module Terminal.

(** ** Character strings: the bytes before the NUL *)

Definition str (s : string) : list Z := map (fun a => Z.of_N (Ascii.N_of_ascii a)) (String.list_ascii_of_string s).

(** ** The interface *)

Class Terminal (C : Type) := MkTerminal {
  t_putc : C -> Z -> option C;
  t_write : C -> list Z -> option C;
  t_write_hex64 : C -> Z -> option C;
  t_write_dec : C -> Z -> option C;
  t_progress : C -> option (list Z) -> Z -> Z -> option C;
  t_clear : C -> option C;
  t_page_end : C -> option C
}.

(** Write a string; with a newline. *)
Definition say `{Terminal C} (c : C) (s : string) : option C := t_write c (str s).
Definition sayln `{Terminal C} (c : C) (s : string) : option C := t_write c (str s ++ [10]).

(** [op] keeps the states that satisfy [P]. *)
Definition keeps {C} (P : C -> Prop) (op : C -> option C) : Prop :=
  forall c, P c -> exists c', op c = Some c' /\ P c'.

Class TerminalLaws (C : Type) `{Terminal C} := MkTerminalLaws {
  usable : C -> Prop;
  putc_usable : forall ch, keeps usable (fun c => t_putc c ch);
  write_usable : forall s, keeps usable (fun c => t_write c s);
  hex64_usable : forall v, keeps usable (fun c => t_write_hex64 c v);
  dec_usable : forall v, keeps usable (fun c => t_write_dec c v);
  progress_usable : forall l d t, keeps usable (fun c => t_progress c l d t);
  clear_usable : keeps usable t_clear;
  page_end_usable : keeps usable t_page_end
}.

Lemma keeps_bind {C} (P : C -> Prop) (f g : C -> option C) :
  keeps P f -> keeps P g -> keeps P (fun c => c' ← f c; g c').
Proof.
  intros Hf Hg c Hc. destruct (Hf c Hc) as (c1 & E & H1). rewrite E. bind. by apply Hg.
Qed.

Lemma keeps_ret {C} (P : C -> Prop) : keeps P Some.
Proof. intros c Hc. by exists c. Qed.

Lemma keeps_for {C} (P : C -> Prop) lo hi (f : Z -> C -> option C) :
  (forall i, keeps P (f i)) -> keeps P (for_range lo hi f).
Proof.
  intros Hf c Hc. destruct (Z.le_gt_cases lo hi).
  - apply (for_range_inv (fun _ => P) f lo hi c); [done|done|]. intros j t _ Ht. by apply Hf.
  - rewrite for_range_empty by lia. by apply keeps_ret.
Qed.

(** ** The console *)

Import Console ConsoleSpec ConsoleProps Progress.

#[global] Instance console_terminal : Terminal state := {|
  t_putc := console_putc;
  t_write := console_write;
  t_write_hex64 := console_write_hex64;
  t_write_dec := console_write_dec;
  t_progress := console_progress;
  t_clear := console_clear;
  t_page_end := console_page_end
|}.

Lemma putc_keeps ch : keeps ready (fun st => console_putc st ch).
Proof. intros st H. by apply putc_ready. Qed.

Lemma on_active st k f st' : on st k f = Some st' -> s_active st' = s_active st.
Proof.
  unfold on. destruct (s_consoles st !! k) as [c|]; [|done]. bind.
  destruct (f (is_active st k) c (disp st)) as [[c' d']|]; [|done]. bind. by intros [= <-].
Qed.

Lemma write_ex_ready k s : forall st, ready st -> s_active st = Some k ->
  exists st', console_write_ex st (Some k) s = Some st' /\ ready st'.
Proof.
  induction s as [|ch s IH]; intros st Hr Hk; [by exists st|]. cbn [console_write_ex target].
  destruct (on_ready st k (fun a c d => vga_putc a c d ch) Hr Hk) as (st1 & E & H1).
  - intros a c d Hi. destruct (putc_spec a c d ch Hi) as (c' & d' & E & T & _).
    exists c', d'. split; [exact E|apply T].
  - rewrite E. bind. apply IH; [exact H1|]. cbn. by rewrite (on_active _ _ _ _ E).
Qed.

Lemma write_keeps s : keeps ready (fun st => console_write st s).
Proof.
  intros st Hr. unfold console_write. destruct (s_active st) as [k|] eqn:Hk.
  - replace (console_write_ex st None s) with (console_write_ex st (Some k) s); [by apply write_ex_ready|].
    destruct s; cbn; by rewrite Hk.
  - exists st. split; [|exact Hr]. destruct s; cbn; by rewrite Hk.
Qed.

Lemma hex64_keeps v : keeps ready (fun st => console_write_hex64 st v).
Proof. apply keeps_bind; [apply write_keeps|]. apply keeps_for. intros i. apply putc_keeps. Qed.

Lemma dec_keeps v : keeps ready (fun st => console_write_dec st v).
Proof.
  intros st Hr. unfold console_write_dec. destruct (v =? 0).
  - destruct (putc_keeps 48 st Hr) as (st' & E & H). rewrite E. bind. eexists. split; [done|]. exact H.
  - apply keeps_for; [|exact Hr]. intros i. apply putc_keeps.
Qed.

Lemma progress_keeps l d t : keeps ready (fun st => console_progress st l d t).
Proof.
  unfold console_progress. do 3 (apply keeps_bind; [first [apply putc_keeps|apply keeps_for; intros; apply putc_keeps]|]).
  do 6 (apply keeps_bind; [first [apply putc_keeps|apply keeps_for; intros; apply putc_keeps]|]).
  apply keeps_bind; [apply dec_keeps|apply putc_keeps].
Qed.

Lemma clear_keeps : keeps ready console_clear.
Proof.
  intros st Hr. unfold console_clear, console_clear_ex, target. destruct (s_active st) as [k|] eqn:Hk.
  - apply (on_ready st k vga_clear Hr Hk). intros a c d [].
    destruct (clear_spec a c d) as (c' & d' & E & H & _); [by constructor|]. by exists c', d'.
  - by exists st.
Qed.

#[global] Instance console_laws : TerminalLaws state := {|
  usable := ready;
  putc_usable := putc_keeps;
  write_usable := write_keeps;
  hex64_usable := hex64_keeps;
  dec_usable := dec_keeps;
  progress_usable := progress_keeps;
  clear_usable := clear_keeps;
  page_end_usable st := page_ready st End_
|}.

(** ** A record of the output

    The bytes written, the first one first; a progress bar leaves its text. *)

Definition record := list Z.

Definition hex_digits (v : Z) : list Z :=
  map (fun i => hex_digit (Z.land (Z.shiftr v ((15 - i) * 4)) 0xF)) (seqZ 0 16).

#[global] Instance record_terminal : Terminal record := {|
  t_putc r ch := Some (r ++ [ch]);
  t_write r s := Some (r ++ s);
  t_write_hex64 r v := Some (r ++ [48; 120] ++ hex_digits v);
  t_write_dec r v := Some (r ++ if v =? 0 then [48] else dec_digits 32 v);
  t_progress r l d t := Some (r ++ bar_text (default [] l) (percent d t));
  t_clear r := Some r;
  t_page_end r := Some r
|}.

#[global] Instance record_laws : TerminalLaws record.
Proof. by apply (MkTerminalLaws _ _ (fun _ => True)); repeat intro; eexists. Defined.

End Terminal.
