(* ===== verification/Memtest.v ===== *)
(** * Memory test ([src/kernel64/memtest.c])

    The test writes 134 patterns to every 8-byte word of a region and reads them
    back.  The memory under test is hardware: any type of states with a write and
    a read of a word, which need not agree. *)

From stdpp Require Import strings.
From S2P Require Import Prelude Console ConsoleSpec ConsoleProps Progress Terminal.

Module Memtest.

Import Terminal.

(** ** The memory under test *)

Class Ram (R : Type) := MkRam {
  write64 : R -> Z -> Z -> R;
  read64 : R -> Z -> Z
}.

Section memtest.
Context `{HR : Ram R} `{HT : Terminal C} {HL : TerminalLaws C}.

Definition patterns : list Z :=
  [0x0000000000000000; 0xFFFFFFFFFFFFFFFF; 0xAAAAAAAAAAAAAAAA;
   0x5555555555555555; 0x0123456789ABCDEF; 0xFEDCBA9876543210].

(** [for (addr = start, i = 0; addr + 8 <= end; addr += 8, ++i)] *)
Fixpoint words {S} (fuel : nat) (body : Z -> Z -> S -> option S) (end_ addr i : Z) (s : S) : option S :=
  if (addr + 8)%u64 <=? end_ then
    match fuel with
    | O => None
    | Datatypes.S fuel' => s ← body addr i s; words fuel' body end_ (addr + 8)%u64 (i + 1)%u64 s
    end
  else Some s.

(** [if ((i & 0xFFFF) == 0) console_progress(label, addr - start, len)] *)
Definition progress (c : C) (label : string) (start len addr i : Z) : option C :=
  if Z.land i 0xFFFF =? 0 then t_progress c (Some (str label)) (addr - start)%u64 len else Some c.

Definition write_word (label : string) (start len pat addr i : Z) '((r, c) : R * C) : option (R * C) :=
  let r := write64 r addr pat in
  c ← progress c label start len addr i;
  Some (r, c).

Definition mismatch (c : C) (addr v pat : Z) : option C :=
  c ← t_write c ([10] ++ str "MISMATCH at 0x"); c ← t_write_hex64 c addr;
  c ← say c " read=0x"; c ← t_write_hex64 c v;
  c ← say c " expected=0x"; c ← t_write_hex64 c pat; t_write c [10].

Definition verify_word (label : string) (start len pat : Z) (r : R) (addr i : Z) '((errors, c) : Z * C)
    : option (Z * C) :=
  let v := read64 r addr in
  '(errors, c) ←
    (if negb (v =? pat) then
       c ← (if errors <? 5 then mismatch c addr v pat else Some c);
       Some ((errors + 1)%u64, c)
     else Some (errors, c));
  c ← progress c label start len addr i;
  Some (errors, c).

(** The write pass and the verify pass of a pattern. *)
Definition test_pattern (fuel : nat) (wlabel vlabel : string) (start len pat : Z)
    '((errors, r, c) : Z * R * C) : option (Z * R * C) :=
  let end_ := (start + len)%u64 in
  '(r, c) ← words fuel (write_word wlabel start len pat) end_ start 0 (r, c);
  c ← t_progress c (Some (str wlabel)) len len; c ← t_putc c 13;
  '(errors, c) ← words fuel (verify_word vlabel start len pat r) end_ start 0 (errors, c);
  c ← t_progress c (Some (str vlabel)) len len; c ← t_write c [10];
  Some (errors, r, c).

Definition walk1 (bit : Z) : Z := u64 (Z.shiftl 1 bit).
Definition walk0 (bit : Z) : Z := u64 (Z.lnot (Z.shiftl 1 bit)).

Definition run_patterns (fuel : nat) (start len : Z) (destructive : bool) '((r, c) : R * C)
    : option (Z * R * C) :=
  s ← for_range 0 (Z.of_nat (length patterns))
        (fun p => test_pattern fuel "Write pat" "Verify pat" start len (nth (Z.to_nat p) patterns 0))
        (0, r, c);
  s ← for_range 0 64 (fun bit => test_pattern fuel "Walk1 write" "Walk1 verify" start len (walk1 bit)) s;
  for_range 0 64 (fun bit => test_pattern fuel "Walk0 write" "Walk0 verify" start len (walk0 bit)) s.

Definition memtest_run (fuel : nat) (start_phys length_bytes : Z) (destructive : bool)
    '((r, c) : R * C) : option (Z * R * C) :=
  c ← say c "Memtest region: start=0x"; c ← t_write_hex64 c start_phys;
  c ← say c " length="; c ← t_write_hex64 c length_bytes; c ← sayln c " bytes";
  '(errs, r, c) ← run_patterns fuel start_phys length_bytes destructive (r, c);
  c ← say c "Memtest done. Errors: "; c ← t_write_dec c errs; c ← t_write c [10];
  Some (errs, r, c).

Definition memtest_quick (fuel : nat) (s : R * C) : option (Z * R * C) :=
  let start := 16 * 1024 * 1024 in
  let len := 16 * 1024 * 1024 in
  memtest_run fuel start len true s.

(** ** The reference: which words are written and how many are wrong *)

Section region.
Context (start n : Z).

Definition fill_words (r : R) (pat : Z) : R :=
  fold_left (fun r k => write64 r (start + 8 * k) pat) (seqZ 0 n) r.

Definition wrong (r : R) (pat : Z) : Z :=
  Z.of_nat (length (filter (fun k => read64 r (start + 8 * k) <> pat) (seqZ 0 n))).

Definition test_ref '((errors, r) : Z * R) (pat : Z) : Z * R :=
  let r := fill_words r pat in (errors + wrong r pat, r).

Definition all_patterns : list Z := patterns ++ map walk1 (seqZ 0 64) ++ map walk0 (seqZ 0 64).

Definition memtest_ref (r : R) : Z * R := fold_left test_ref all_patterns (0, r).

End region.

(** ** The loop over the words *)

Lemma words_for_range {S} (body : Z -> Z -> S -> option S) start len : forall n k fuel s,
  0 <= start -> 0 <= len -> start + len + 8 < 2^64 -> 0 <= k -> k + Z.of_nat n = len / 8 -> (n <= fuel)%nat ->
  words fuel body (start + len)%u64 (start + 8 * k) k s = for_nat n k (fun k => body (start + 8 * k) k) s.
Proof.
  induction n as [|n IH]; intros k fuel s Hs Hl Hm Hk Hn Hf;
    assert (8 * (len / 8) <= len < 8 * (len / 8) + 8) by zmod;
    assert (E8 : (start + 8 * k + 8)%u64 = start + 8 * (k + 1)) by (rewrite add64_small by lia; lia);
    destruct fuel as [|fuel]; try lia; cbn [words for_nat]; rewrite E8, (add64_small start len) by lia.
  - by rewrite (proj2 (Z.leb_gt _ _)) by lia.
  - by rewrite (proj2 (Z.leb_gt _ _)) by lia.
  - rewrite (proj2 (Z.leb_le _ _)) by lia. destruct (body (start + 8 * k) k s); [|done]. bind.
    rewrite <- (add64_small start len) by lia. rewrite (add64_small k 1) by lia. apply IH; lia.
Qed.

(** ** The passes *)

Lemma progress_keep label start len addr i : keeps usable (fun c => progress c label start len addr i).
Proof. unfold progress. destruct (_ =? 0); [apply progress_usable|apply keeps_ret]. Qed.

Lemma mismatch_keep addr v pat : keeps usable (fun c => mismatch c addr v pat).
Proof.
  repeat (apply keeps_bind; [first [apply write_usable|apply hex64_usable]|]). apply write_usable.
Qed.

Lemma write_words label start len pat n : forall k r c, usable c -> exists c',
  for_nat n k (fun k => write_word label start len pat (start + 8 * k) k) (r, c)
    = Some (fold_left (fun r k => write64 r (start + 8 * k) pat) (seqZ k (Z.of_nat n)) r, c') /\ usable c'.
Proof.
  induction n as [|n IH]; intros k r c Hc; [by exists c|].
  rewrite Nat2Z.inj_succ, <- Z.add_1_r, seqZ_cons by lia. cbn [for_nat fold_left write_word].
  destruct (progress_keep label start len (start + 8 * k) k c Hc) as (c1 & E & H1). rewrite E. bind.
  destruct (IH (k + 1) (write64 r (start + 8 * k) pat) c1 H1) as (c2 & E2 & H2). exists c2. split; [|done].
  rewrite E2. do 4 f_equal; lia.
Qed.

Lemma verify_word_spec label start len pat r addr i e c : usable c -> 0 <= e < 2^64 - 1 -> exists c',
  verify_word label start len pat r addr i (e, c)
    = Some (if decide (read64 r addr <> pat) then e + 1 else e, c') /\ usable c'.
Proof.
  intros Hc He. unfold verify_word. set (v := read64 r addr).
  destruct (Z.eqb_spec v pat) as [->|Hne]; case_decide; try done; cbn [negb]; bind.
  - destruct (progress_keep label start len addr i c Hc) as (c2 & E2 & Hc2). rewrite E2. by exists c2.
  - assert (Hx : exists c1, (if e <? 5 then mismatch c addr v pat else Some c) = Some c1 /\ usable c1)
      by (destruct (e <? 5); [by apply mismatch_keep|by exists c]).
    destruct Hx as (c1 & E1 & Hc1). rewrite E1. bind.
    destruct (progress_keep label start len addr i c1 Hc1) as (c2 & E2 & Hc2). rewrite E2. bind.
    exists c2. by rewrite add64_small by lia.
Qed.

Lemma verify_words label start len pat r n : forall k e c, usable c -> 0 <= e -> e + Z.of_nat n < 2^64 -> exists c',
  for_nat n k (fun k => verify_word label start len pat r (start + 8 * k) k) (e, c)
    = Some (e + Z.of_nat (length (filter (fun k => read64 r (start + 8 * k) <> pat) (seqZ k (Z.of_nat n)))), c')
  /\ usable c'.
Proof.
  induction n as [|n IH]; intros k e c Hc He Hb; [exists c; by rewrite Z.add_0_r|].
  rewrite Nat2Z.inj_succ, <- Z.add_1_r, seqZ_cons, filter_cons by lia. cbn [for_nat].
  destruct (verify_word_spec label start len pat r (start + 8 * k) k e c Hc) as (c2 & E2 & Hc2); [lia|].
  rewrite E2. bind. set (v := read64 r (start + 8 * k)).
  replace (Z.pred (Z.of_nat n + 1)) with (Z.of_nat n) by lia. replace (Z.succ k) with (k + 1) by lia.
  destruct (decide (v <> pat)).
  - destruct (IH (k + 1) (e + 1) c2 Hc2) as (c3 & E3 & Hc3); [lia|lia|]. exists c3. split; [|done].
    rewrite E3. f_equal. f_equal. cbn [length]. lia.
  - apply IH; [done|lia|lia].
Qed.

Section run.
Context (fuel : nat) (start len : Z) (Hs : 0 <= start) (Hl : 0 <= len) (Hm : start + len + 8 < 2^64)
  (Hf : len / 8 <= Z.of_nat fuel).

Let n := len / 8.

Lemma words_pass {S} (body : Z -> Z -> S -> option S) s :
  words fuel body (start + len)%u64 start 0 s = for_nat (Z.to_nat n) 0 (fun k => body (start + 8 * k) k) s.
Proof.
  assert (0 <= n) by zmod. rewrite <- (words_for_range body start len (Z.to_nat n) 0 fuel s) by lia.
  f_equal. lia.
Qed.

Lemma test_pattern_spec wl vl pat e r c : usable c -> 0 <= e -> e + n < 2^64 -> exists c',
  let '(e', r') := test_ref start n (e, r) pat in
  test_pattern fuel wl vl start len pat (e, r, c) = Some (e', r', c') /\ usable c'.
Proof.
  intros Hc He Hb. assert (0 <= n) by zmod. unfold test_ref, test_pattern. rewrite words_pass.
  destruct (write_words wl start len pat (Z.to_nat n) 0 r c Hc) as (c1 & E1 & H1). rewrite E1. bind.
  destruct (progress_usable (Some (str wl)) len len c1 H1) as (c2 & E2 & H2). rewrite E2. bind.
  destruct (putc_usable 13 c2 H2) as (c3 & E3 & H3). rewrite E3. bind. rewrite words_pass.
  rewrite Z2Nat.id by done. fold (fill_words start n r pat).
  destruct (verify_words vl start len pat (fill_words start n r pat) (Z.to_nat n) 0 e c3 H3)
    as (c4 & E4 & H4); [done|lia|]. rewrite E4. bind.
  destruct (progress_usable (Some (str vl)) len len c4 H4) as (c5 & E5 & H5). rewrite E5. bind.
  destruct (write_usable [10] c5 H5) as (c6 & E6 & H6). rewrite E6. bind.
  exists c6. split; [|done]. unfold wrong. by rewrite Z2Nat.id.
Qed.

Lemma wrong_range r pat : 0 <= wrong start n r pat <= n.
Proof.
  unfold wrong. assert (0 <= n) by zmod. pose proof (length_filter (fun k => read64 r (start + 8 * k) <> pat) (seqZ 0 n)) as Hx.
  rewrite length_seqZ in Hx. lia.
Qed.

(** A loop over patterns. *)
Lemma tests_spec wl vl (pat : Z -> Z) m : forall k e r c, usable c -> 0 <= e ->
  e + Z.of_nat m * n < 2^64 -> exists c',
  let '(e', r') := fold_left (test_ref start n) (map pat (seqZ k (Z.of_nat m))) (e, r) in
  for_nat m k (fun p => test_pattern fuel wl vl start len (pat p)) (e, r, c) = Some (e', r', c') /\
  usable c' /\ 0 <= e' <= e + Z.of_nat m * n.
Proof.
  assert (Hn : 0 <= n) by zmod. induction m as [|m IH]; intros k e r c Hc He Hb; [exists c; cbn; split_and!; done || lia|].
  rewrite Nat2Z.inj_succ, <- Z.add_1_r, seqZ_cons by lia. cbn [map fold_left for_nat].
  destruct (test_pattern_spec wl vl (pat k) e r c Hc He) as (c1 & H1); [nia|].
  pose proof (wrong_range (fill_words start n r (pat k)) (pat k)).
  destruct (test_ref start n (e, r) (pat k)) as [e1 r1] eqn:E1. destruct H1 as [Et H1]. rewrite Et. bind.
  unfold test_ref in E1. injection E1 as Ee Er.
  destruct (IH (k + 1) e1 r1 c1 H1) as (c2 & H2); [lia|nia|].
  replace (Z.pred (Z.of_nat m + 1)) with (Z.of_nat m) by lia. replace (Z.succ k) with (k + 1) by lia.
  exists c2. destruct (fold_left _ _ _) as [e2 r2]. destruct H2 as (Ef & Hc2 & Hr). split_and!; done || nia.
Qed.

Lemma run_patterns_spec dst r c : usable c -> len < 2^56 -> exists c',
  run_patterns fuel start len dst (r, c) = Some (memtest_ref start n r, c') /\ usable c'.
Proof.
  intros Hc Hb. assert (Hn : 0 <= n < 2^53) by zmod. unfold run_patterns, memtest_ref, all_patterns, for_range.
  rewrite !fold_left_app.
  destruct (tests_spec "Write pat" "Verify pat" (fun p => nth (Z.to_nat p) patterns 0) 6 0 0 r c Hc)
    as (c1 & H1); [lia|lia|].
  change (map (fun p => nth (Z.to_nat p) patterns 0) (seqZ 0 (Z.of_nat 6))) with patterns in H1.
  change (Z.to_nat (Z.of_nat (length patterns) - 0)) with 6%nat.
  destruct (fold_left (test_ref start n) patterns (0, r)) as [e1 r1]. destruct H1 as (-> & Hc1 & Hr1). bind.
  destruct (tests_spec "Walk1 write" "Walk1 verify" walk1 64 0 e1 r1 c1 Hc1) as (c2 & H2); [lia|lia|].
  change (Z.to_nat (64 - 0)) with 64%nat. change (Z.of_nat 64) with 64 in H2.
  destruct (fold_left (test_ref start n) (map walk1 (seqZ 0 64)) (e1, r1)) as [e2 r2].
  destruct H2 as (-> & Hc2 & Hr2). bind.
  destruct (tests_spec "Walk0 write" "Walk0 verify" walk0 64 0 e2 r2 c2 Hc2) as (c3 & H3); [lia|lia|].
  change (Z.of_nat 64) with 64 in H3.
  destruct (fold_left (test_ref start n) (map walk0 (seqZ 0 64)) (e2, r2)) as [e3 r3].
  destruct H3 as (-> & Hc3 & _). by exists c3.
Qed.

Lemma memtest_run_spec dst r c : usable c -> len < 2^56 -> exists c',
  memtest_run fuel start len dst (r, c) = Some (memtest_ref start n r, c') /\ usable c'.
Proof.
  intros Hc Hb. unfold memtest_run.
  destruct (write_usable (str "Memtest region: start=0x") c Hc) as (c1 & E1 & H1). unfold say, sayln. rewrite E1. bind.
  destruct (hex64_usable start c1 H1) as (c2 & E2 & H2). rewrite E2. bind.
  destruct (write_usable (str " length=") c2 H2) as (c3 & E3 & H3). rewrite E3. bind.
  destruct (hex64_usable len c3 H3) as (c4 & E4 & H4). rewrite E4. bind.
  destruct (write_usable (str " bytes" ++ [10]) c4 H4) as (c5 & E5 & H5). rewrite E5. bind.
  destruct (run_patterns_spec dst r c5 H5 Hb) as (c6 & E6 & H6). rewrite E6. bind.
  destruct (memtest_ref start n r) as [e r'].
  destruct (write_usable (str "Memtest done. Errors: ") c6 H6) as (c7 & E7 & H7). rewrite E7. bind.
  destruct (dec_usable e c7 H7) as (c8 & E8 & H8). rewrite E8. bind.
  destruct (write_usable [10] c8 H8) as (c9 & E9 & H9). rewrite E9. bind. by exists c9.
Qed.

End run.

(** ** Verdicts *)

(** A word reads as what was last written to it, and writing another word leaves
    it or makes it read the same (as when both are one cell). *)
Definition reads_back (start n : Z) : Prop := forall (r : R) i j v, 0 <= i < n -> 0 <= j < n ->
  let r' := write64 r (start + 8 * i) v in
  read64 r' (start + 8 * i) = v /\
  (read64 r' (start + 8 * j) = v \/ read64 r' (start + 8 * j) = read64 r (start + 8 * j)).

(** A bit of a word of the region always reads as [b]. *)
Definition stuck (start n : Z) : Prop := exists i bit (b : bool), 0 <= i < n /\ 0 <= bit < 64 /\
  forall r : R, Z.testbit (read64 r (start + 8 * i)) bit = b.

Lemma fill_reads start n r pat : reads_back start n -> forall i, 0 <= i < n ->
  read64 (fill_words start n r pat) (start + 8 * i) = pat.
Proof.
  intros Hr. unfold fill_words.
  assert (Hm : forall m, Z.of_nat m <= n -> forall i, 0 <= i < Z.of_nat m ->
    read64 (fold_left (fun r k => write64 r (start + 8 * k) pat) (seqZ 0 (Z.of_nat m)) r) (start + 8 * i) = pat).
  { induction m as [|m IH]; intros Hmn i Hi; [lia|].
    rewrite Nat2Z.inj_succ, <- Z.add_1_r, seqZ_app, fold_left_app by lia.
    rewrite seqZ_cons by lia. change (seqZ (Z.succ (0 + Z.of_nat m)) (Z.pred 1)) with (@nil Z).
    rewrite Z.add_0_l. cbn [fold_left].
    set (r1 := fold_left _ _ r) in *.
    destruct (Hr r1 (Z.of_nat m) i pat ltac:(lia) ltac:(lia)) as [H1 H2].
    destruct (decide (i = Z.of_nat m)) as [->|]; [exact H1|].
    destruct H2 as [H2|H2]; [exact H2|]. rewrite H2. apply IH; lia. }
  intros i Hi. specialize (Hm (Z.to_nat n)). rewrite Z2Nat.id in Hm by lia. by apply Hm.
Qed.

Lemma ref_zero start n l : reads_back start n -> forall r, exists r',
  fold_left (test_ref start n) l (0, r) = (0, r').
Proof.
  intros Hr. induction l as [|pat l IH]; intros r; [by exists r|]. cbn [fold_left test_ref].
  replace (wrong start n (fill_words start n r pat) pat) with 0; [apply IH|].
  unfold wrong. destruct (filter _ _) as [|i fl] eqn:Ef; [done|].
  assert (Hi : i ∈ i :: fl) by left. rewrite <- Ef in Hi. apply list_elem_of_filter in Hi as [Hne Hi].
  apply elem_of_seqZ in Hi. destruct Hne. apply fill_reads; [done|lia].
Qed.

Lemma ref_mono start n l : forall e r, 0 <= e ->
  e <= (fold_left (test_ref start n) l (e, r)).1.
Proof.
  induction l as [|pat l IH]; intros e r He; [done|]. cbn [fold_left test_ref].
  set (w := wrong _ _ _ _). assert (0 <= w) by (unfold w, wrong; lia).
  specialize (IH (e + w) (fill_words start n r pat)). lia.
Qed.

Lemma ref_detects start n l pat i : 0 <= i < n -> pat ∈ l -> (forall r, read64 r (start + 8 * i) <> pat) ->
  forall e r, 0 <= e -> e < (fold_left (test_ref start n) l (e, r)).1.
Proof.
  intros Hi Hpat Hne. induction l as [|p l IH]; intros e r He; [by apply elem_of_nil in Hpat|].
  cbn [fold_left test_ref]. set (w := wrong _ _ _ _). assert (0 <= w) by (unfold w, wrong; lia).
  apply elem_of_cons in Hpat as [<-|Hpat].
  - assert (0 < w).
    { unfold w, wrong. assert (Hin : i ∈ filter (fun k => read64 (fill_words start n r pat) (start + 8 * k) <> pat) (seqZ 0 n))
        by (apply list_elem_of_filter; split; [apply Hne|apply elem_of_seqZ; lia]).
      destruct (filter _ _); [by apply elem_of_nil in Hin|]. cbn [length]. lia. }
    pose proof (ref_mono start n l (e + w) (fill_words start n r pat)). lia.
  - specialize (IH Hpat (e + w) (fill_words start n r p)). lia.
Qed.

Lemma stuck_detected start n r : stuck start n -> 0 < (memtest_ref start n r).1.
Proof.
  intros (i & bit & b & Hi & Hbit & Hb).
  apply (ref_detects start n _ (if b then 0 else 2^64 - 1) i Hi); [|intros r' E|done].
  - apply elem_of_app. left. destruct b; repeat (left; reflexivity) || right; left.
  - specialize (Hb r'). rewrite E in Hb. destruct b; [by rewrite Z.bits_0 in Hb|].
    change (2^64 - 1) with (Z.ones 64) in Hb. rewrite Z.ones_spec_low in Hb by lia. done.
Qed.

End memtest.

(** On every memory and every usable console, [memtest_run] ends (one step of
    fuel for each word is enough, when neither the end of the region nor the word
    after it wraps) and leaves the console usable; its result and the final memory
    are those of the reference: every pattern is written to all words of the
    region, and the errors are the words that then read differently, added up over
    the 134 patterns without wrapping. *)
Theorem memtest_equivalent `{HR : Ram R} `{HT : Terminal C} {HL : TerminalLaws C}
    (fuel : nat) (start len : Z) (destructive : bool) (r : R) (c : C) :
  0 <= start -> 0 <= len < 2^56 -> start + len + 8 < 2^64 -> len / 8 <= Z.of_nat fuel -> usable c ->
  exists c', memtest_run fuel start len destructive (r, c) = Some (memtest_ref start (len / 8) r, c') /\
    usable c'.
Proof. intros H1 H2 H3 H4 H5. apply memtest_run_spec; done || lia. Qed.

(** C36. The verdict of the memory test: no errors on a memory that reads back
    what was written, at least one on a memory with a stuck bit in the region.
    Memory whose address lines are broken, so that several words are one cell,
    reads back too: it passes. *)
Theorem memtest_verdict `{HR : Ram R} `{HT : Terminal C} {HL : TerminalLaws C}
    (fuel : nat) (start len : Z) (destructive : bool) (r : R) (c : C) :
  0 <= start -> 0 <= len < 2^56 -> start + len + 8 < 2^64 -> len / 8 <= Z.of_nat fuel -> usable c ->
  exists e r' c', memtest_run fuel start len destructive (r, c) = Some (e, r', c') /\
    (reads_back (R := R) start (len / 8) -> e = 0) /\ (stuck (R := R) start (len / 8) -> 0 < e).
Proof.
  intros H1 H2 H3 H4 H5.
  destruct (memtest_run_spec fuel start len H1 ltac:(lia) H3 H4 destructive r c H5 ltac:(lia)) as (c' & E & _).
  pose proof (fun Hb => ref_zero start (len / 8) all_patterns Hb r) as Hz.
  pose proof (stuck_detected start (len / 8) r) as Hd. fold (memtest_ref start (len / 8) r) in Hz.
  destruct (memtest_ref start (len / 8) r) as [e r']. exists e, r', c'. split; [exact E|]. split.
  - intros Hb. destruct (Hz Hb) as [r2 Ez]. congruence.
  - exact Hd.
Qed.

(** Working memory, and a memory of one cell whose bit 3 reads as 0. *)
#[export] Instance good_ram : Ram mem := {| write64 := wr; read64 := rd |}.

Definition cell := Z.
#[export] Instance stuck_ram : Ram cell := {| write64 _ _ v := v; read64 r _ := Z.ldiff r 8 |}.

Lemma memtest_equivalent_witness : exists c',
  memtest_run 2 0x100000 16 true (∅ : mem, [] : record)
    = Some (memtest_ref 0x100000 2 (∅ : mem), c').
Proof.
  destruct (memtest_equivalent 2 0x100000 16 true (∅ : mem) ([] : record)) as (c' & E & _); [lia|lia|lia|vm_compute; discriminate|exact I|].
  exists c'. exact E.
Defined.

Lemma memtest_verdict_witness :
  (exists r' c', memtest_run 2 0x100000 16 true (∅ : mem, [] : record) = Some (0, r', c')) /\
  (exists e r' c', memtest_run 2 0x100000 16 true (0 : cell, [] : record) = Some (e, r', c') /\ 0 < e).
Proof.
  split.
  - destruct (memtest_verdict 2 0x100000 16 true (∅ : mem) ([] : record)) as (e & r' & c' & E & Hz & _);
      [lia|lia|lia|vm_compute; discriminate|exact I|]. exists r', c'. assert (Ez : e = 0); [|subst e; exact E].
    apply Hz. intros r i j v Hi Hj. split; [apply rd_wr_eq|]. destruct (decide (i = j)) as [->|].
    + left. apply rd_wr_eq.
    + right. apply rd_wr_ne. lia.
  - destruct (memtest_verdict 2 0x100000 16 true (0 : cell) ([] : record)) as (e & r' & c' & E & _ & Hd);
      [lia|lia|lia|vm_compute; discriminate|exact I|]. exists e, r', c'. split; [exact E|]. apply Hd. exists 0, 3, false.
    split; [split; [lia|reflexivity]|]. split; [lia|]. intros r. exact (eq_trans (Z.ldiff_spec r 8 3) (andb_false_r _)).
Defined.

End Memtest.
