(* ===== verification/Shell.v ===== *)
(** * Shell ([src/kernel64/shell.c])

    The shell keeps a current directory (a mount name and a path in it), splits
    a line into a command and its arguments, and runs the command on the kernel:
    console, virtual file system, block devices, scheduler, physical memory and
    PCI.  It is defined over the interface [Kernel] of the services it calls.
    Strings are their bytes before the NUL; a local array is bounds-checked: a
    store outside it has no result. *)

From stdpp Require Import strings.
From S2P Require Import Prelude Sched Pci Terminal.

Module Shell.

Import Terminal.

(** ** The kernel services the shell calls *)

Class Kernel (K : Type) := MkKernel {
  kernel_terminal :: Terminal K;
  Node : Type;
  (** vfs/vfs.h; a read fills a buffer, of which the bytes are returned; no
      result is a fault *)
  vfs_has_mount : K -> list Z -> bool;
  vfs_mount_count : K -> Z;
  vfs_get_mount_name : K -> Z -> Z -> Z * list Z;
  vfs_mount : list Z -> list Z -> list Z -> K -> option (Z * K);
  vfs_open : list Z -> K -> option (option Node * K);
  vfs_readdir : Node -> Z -> Z -> K -> option (Z * list Z * K);
  vfs_read : Node -> Z -> Z -> K -> option (Z * list Z * K);
  vfs_write : Node -> Z -> list Z -> K -> option (Z * K);
  vfs_stat : list Z -> K -> option (Z * Z * Z * K);
  vfs_create : list Z -> Z -> K -> option (Z * K);
  vfs_unlink : list Z -> K -> option (Z * K);
  (** block/block.h, block/ramdisk.c, fs/exfat.h *)
  ramdisk_create : list Z -> Z -> K -> option (Z * K);
  exfat_format_device : list Z -> option (list Z) -> K -> option (Z * K);
  block_names : K -> list (list Z);
  (** sched/sched.h: the threads and the current one *)
  sched_enumerate : K -> Z -> list Sched.thread_info;
  sched_current_id : K -> Z;
  (** mm/pmm.h *)
  pmm_total_physical_bytes : K -> Z;
  pmm_free_bytes : K -> Z;
  (** PCI configuration space *)
  pci_conf : K -> Z -> Z
}.

(** ** State and errors *)

Section shell.
Context `{HK : Kernel K}.

Record shell := MkShell { s_cwd_mnt : list Z; s_cwd_path : list Z; kern : K }.

(** [None]: a store outside a local array, a fault of the console or of a
    service, or fuel that ran out. *)
Definition M (A : Type) : Type := shell -> option (A * shell).

#[global] Instance M_ret : MRet M := fun A x s => Some (x, s).
#[global] Instance M_bind : MBind M := fun A B f m s => '(x, s') ← m s; f x s'.

Definition gets {A} (f : shell -> A) : M A := fun s => Some (f s, s).
Definition fault {A} : M A := fun _ => None.

(** A call that writes to the console; a call of a service. *)
Definition out (f : K -> option K) : M unit := fun s =>
  k ← f (kern s); Some (tt, MkShell (s_cwd_mnt s) (s_cwd_path s) k).
Definition call {A} (f : K -> option (A * K)) : M A := fun s =>
  '(x, k) ← f (kern s); Some (x, MkShell (s_cwd_mnt s) (s_cwd_path s) k).

Definition set_cwd (m p : list Z) : M unit := fun s => Some (tt, MkShell m p (kern s)).

Definition console_putc (ch : Z) : M unit := out (fun k => t_putc k ch).
Definition console_puts (s : list Z) : M unit := out (fun k => t_write k s).
Definition console_write (s : string) : M unit := console_puts (str s).
Definition console_writeln (s : string) : M unit := console_puts (str s ++ [10]).
Definition console_write_hex64 (v : Z) : M unit := out (fun k => t_write_hex64 k v).
Definition console_write_dec (v : Z) : M unit := out (fun k => t_write_dec k v).

Definition skip : M unit := mret tt.

(** [for (x in l) f(x)] *)
Fixpoint each {A} (l : list A) (f : A -> M unit) : M unit :=
  match l with
  | [] => skip
  | x :: l' => f x;; each l' f
  end.

(** ** Strings *)

Fixpoint strcmp (a b : list Z) : Z :=
  match a, b with
  | x :: a', y :: b' => if x =? y then strcmp a' b' else x - y
  | x :: _, [] => x
  | [], y :: _ => 0 - y
  | [], [] => 0
  end.

(** [strcmp(s, lit) == 0] *)
Definition streq (s : list Z) (lit : string) : bool := strcmp s (str lit) =? 0.

Definition str_len (s : list Z) : Z := Z.of_nat (length s).

(** What [str_copy] leaves in an array of [n] bytes. *)
Definition str_copy (s : list Z) (n : Z) : list Z := take (Z.to_nat (n - 1)) s.

Definition is_ws (c : Z) : bool := (c =? 32) || (c =? 9).
Fixpoint skip_ws (p : list Z) : list Z :=
  match p with
  | c :: p' => if is_ws c then skip_ws p' else p
  | [] => []
  end.

(** [for (; s[i] && p < lim; ++i) buf[p++] = s[i]], where [buf] holds [p] bytes *)
Definition append (buf s : list Z) (lim : Z) : list Z :=
  buf ++ take (Z.to_nat (lim - Z.of_nat (length buf))) s.

(** [while ( *a && !is_ws( *a) && i < lim) buf[i++] = *a++] *)
Fixpoint token (lim : nat) (a : list Z) : list Z * list Z :=
  match lim, a with
  | S lim', c :: a' => if is_ws c then ([], a) else let '(t, r) := token lim' a' in (c :: t, r)
  | _, _ => ([], a)
  end.

Definition hex_value (c : Z) : option Z :=
  if (48 <=? c) && (c <=? 57) then Some (c - 48)
  else if (97 <=? c) && (c <=? 102) then Some (10 + (c - 97))
  else if (65 <=? c) && (c <=? 70) then Some (10 + (c - 65))
  else None.

(** The number and what is left; the character that ends it is consumed. *)
Fixpoint parse_hex (a : list Z) (acc : Z) : Z * list Z :=
  match a with
  | [] => (acc, [])
  | c :: a' =>
      match hex_value c with
      | Some v => parse_hex a' (Z.lor (u64 (Z.shiftl acc 4)) v)
      | None => (acc, a')
      end
  end.

(** ** Paths *)

Definition SLASH : Z := 47.
Definition COLON : Z := 58.

(** The bytes before the first [c], and from it on. *)
Fixpoint break_at (c : Z) (p : list Z) : list Z * list Z :=
  match p with
  | x :: p' => if x =? c then ([], p) else let '(a, b) := break_at c p' in (x :: a, b)
  | [] => ([], [])
  end.

Fixpoint drop_slashes (p : list Z) : list Z :=
  match p with
  | c :: p' => if c =? SLASH then drop_slashes p' else p
  | [] => []
  end.

(** One component onto the stack, the top of which is the end of the list. *)
Definition push_comp (comps : list (list Z)) (comp : list Z) : list (list Z) :=
  if (str_len comp =? 0) || bool_decide (comp = [46]) then comps
  else if bool_decide (comp = [46; 46]) then take (length comps - 1) comps
  else if Z.of_nat (length comps) <? 16 then comps ++ [comp]
  else comps.

(** The loop over the components of the rest of [tmp]. *)
Fixpoint collect (fuel : nat) (tmp : list Z) (comps : list (list Z)) : option (list (list Z)) :=
  match tmp with
  | [] => Some comps
  | _ =>
      match fuel with
      | O => None
      | S fuel' =>
          match drop_slashes tmp with
          | [] => Some comps
          | t =>
              let '(comp, rest) := break_at SLASH t in
              collect fuel' rest (push_comp comps (take 63 comp))
          end
      end
  end.

(** [norm[np++] = '/'; ...] for every component *)
Fixpoint join (norm : list Z) (comps : list (list Z)) (lim : Z) : list Z :=
  match comps with
  | [] => norm
  | c :: comps' => join (append (append norm [SLASH] lim) c lim) comps' lim
  end.

Definition ends_with_colon (l : list Z) : bool := 
  match rev l with c :: _ => c =? COLON | [] => false end.

(** The path in [tmp], before normalisation. *)
Definition base_path (mnt path i : list Z) (lim : Z) : list Z :=
  let tmp := append (append [] mnt lim) [COLON] lim in
  match i with
  | c :: i' =>
      if c =? SLASH then append tmp i' lim
      else append (append (append tmp path lim) [SLASH] lim) i lim
  | [] => append (append tmp path lim) [SLASH] lim
  end.

(** The normalised path. *)
Definition normalize (tmp : list Z) (lim : Z) : option (list Z) :=
  let norm := append [] (break_at COLON tmp).1 lim in
  let rest := drop (length norm) tmp in
  let '(norm, rest) :=
    match rest with
    | c :: rest' => if (c =? COLON) && (Z.of_nat (length norm) <? lim) then (norm ++ [c], rest') else (norm, rest)
    | [] => (norm, [])
    end in
  let norm := match rest with
              | c :: _ => if c =? SLASH then norm else append norm [SLASH] lim
              | [] => append norm [SLASH] lim
              end in
  comps ← collect (S (length rest)) rest [];
  let norm := join norm comps lim in
  Some (if (Z.of_nat (length norm) =? 0) || ends_with_colon norm then append norm [SLASH] lim else norm).

(** [tmp] has 160 bytes, with its NUL. *)
Definition TMP_SIZE : Z := 160.

(** The string left in [out], an array of [outn] bytes. *)
Definition resolve_path (i : list Z) (outn : Z) : M (list Z) := fun s =>
  let '(_, c) := break_at COLON i in
  if negb (bool_decide (c = [])) then Some (str_copy i outn, s)
  else match s_cwd_mnt s with
       | [] => Some ([], s)
       | _ =>
           let tmp := base_path (s_cwd_mnt s) (s_cwd_path s) i (outn - 1) in
           if TMP_SIZE <=? Z.of_nat (length tmp) then None
           else norm ← normalize tmp (outn - 1); Some (str_copy norm outn, s)
       end.

(** [None] is the result -1, [Some p] is 0 with [p] in [mount_path]. *)
Definition translate_unix_path (unix_path : list Z) (len : Z) : M (option (list Z)) :=
  if len <? 2 then mret None
  else
    match unix_path with
    | [47] => mret (Some (str_copy (str "root:/") len))
    | 47 :: p =>
        let '(comp, _) := break_at SLASH p in
        let first_comp := take 15 comp in
        let rest := drop (length first_comp) p in
        has ← gets (fun s => negb (str_len first_comp <=? 0) && vfs_has_mount (kern s) first_comp);
        if (has : bool) then
          let m := append (append [] first_comp (len - 1)) [COLON] (len - 1) in
          let rest := match rest with c :: r => if c =? SLASH then r else rest | [] => [] end in
          mret (Some (append (append m [SLASH] (len - 1)) rest (len - 1)))
        else
          root ← gets (fun s => vfs_has_mount (kern s) (str "root"));
          cwd ← gets s_cwd_mnt;
          match (if (root : bool) then str "root" else cwd) with
          | [] => mret None
          | target => mret (Some (append (append (append [] target (len - 1)) [COLON] (len - 1))
                                    unix_path (len - 1)))
          end
    | _ => p ← resolve_path unix_path len; mret (Some p)
    end.

(** [full[192]] from a path argument. *)
Definition full_path (arg : list Z) : M (list Z) :=
  t ← translate_unix_path arg 192;
  match t with
  | Some p => mret p
  | None => resolve_path arg 192
  end.

Definition set_cwd_from_path (path : list Z) : M unit :=
  match break_at COLON path with
  | (m, _ :: sub) =>
      let sub := match sub with c :: r => if c =? SLASH then r else sub | [] => [] end in
      set_cwd (take 7 m) (str_copy sub 128)
  | (_, []) => skip
  end.

Definition list_root_directory : M unit :=
  n ← gets (fun s => vfs_mount_count (kern s));
  each (seqZ 0 n) (fun i =>
    '(rc, m) ← gets (fun s => vfs_get_mount_name (kern s) i 16);
    if rc =? 0 then console_puts m;; console_putc 10 else skip).

(** vfs.c: list the mounts, on the console. *)
Definition vfs_list_mounts : M unit :=
  console_writeln "Mounts:";;
  n ← gets (fun s => vfs_mount_count (kern s));
  each (seqZ 0 n) (fun i =>
    '(_, m) ← gets (fun s => vfs_get_mount_name (kern s) i 8);
    console_write "  ";; console_puts m;; console_puts [10]).

End shell.

End Shell.
