(* ===== verification/ShellCmd.v ===== *)
(** * Shell commands ([src/kernel64/shell.c])

    The PCI listing and the command line: every command of [shell_handle_line]
    on the state and the paths of [Shell]. *)

From stdpp Require Import strings.
From S2P Require Import Prelude Console Sched Pci Terminal Shell.

Module ShellCmd.

Import Terminal Shell.

Section commands.
Context `{HK : Kernel K}.

Definition cmd_help : M unit :=
  console_writeln "Built-in commands:";;
  console_writeln "  help   - show this help";;
  console_writeln "  echo X - echo text X";;
  console_writeln "  info   - system info";;
  console_writeln "  uname  - kernel name/version/arch";;
  console_writeln "  clear  - clear screen";;
  console_writeln "  ps     - list threads";;
  console_writeln "  mem    - memory totals (phys/free)";;
  console_writeln "  free   - free memory bytes";;
  console_writeln "  used   - used memory bytes";;
  console_writeln "  lspci  - list PCI devices";;
  console_writeln "  mkram <name> <bytes_hex> - create RAM disk";;
  console_writeln "  mount <fs> <mnt> <dev>   - mount device";;
  console_writeln "  mounts                   - list mounts";;
  console_writeln "  ls [path]               - list directory (Unix paths: /, /dev, /dev/ram0)";;
  console_writeln "  cd <path>               - change directory (Unix paths: /, /dev, etc.)";;
  console_writeln "  pwd                     - print current directory (Unix format)";;
  console_writeln "  mkexfat <dev> [label]   - format device as exFAT";;
  console_writeln "  mkfs exfat <dev> [lbl]  - same as mkexfat";;
  console_writeln "  cat <path>             - print file contents";;
  console_writeln "  hexdump <path> [off len]- hex+ASCII dump (off,len hex)";;
  console_writeln "  stat <path>            - show file size/type";;
  console_writeln "  touch <path>           - create empty file";;
  console_writeln "  write <path> <text>    - write text to file (overwrite)";;
  console_writeln "  rm <path>              - remove file";;
  console_writeln "  bootroot               - try mount /dev/* partition as root";;
  console_writeln "  fill <path> <size_hex> [ch] - write N bytes of ch (default 'A')";;
  console_writeln "  demo                   - dots/dashes thread demo";;
  console_writeln "  smp [N]                - spawn N worker threads";;
  console_writeln "  memtest quick|range    - run memory tests";;
  console_putc 10;; console_writeln "Tip: Use PageUp/PageDown to scroll; Ctrl+Home jumps to top, Ctrl+End to live.".

Definition show_info : M unit := console_writeln "dex-os shell. Try 'help'.".

Definition shell_prompt : M unit :=
  out t_page_end;; console_write "dex> ".

(** ** PCI listing *)

Definition write_hex8 (v : Z) : M unit :=
  console_putc (Console.hex_digit (Z.land (Z.shiftr v 4) 0xF));;
  console_putc (Console.hex_digit (Z.land v 0xF)).

Definition write_hex16 (v : Z) : M unit :=
  write_hex8 (u8 (Z.shiftr v 8));; write_hex8 (Z.land v 0xFF).

(** A [switch] with a [default]. *)
Fixpoint switch {A} (v : Z) (cases : list (Z * A)) (default : A) : A :=
  match cases with
  | [] => default
  | (n, x) :: cases' => if v =? n then x else switch v cases' default
  end.

Definition pci_vendor_name (vid : Z) : option string :=
  switch vid
    [(0x8086, Some "Intel"); (0x1022, Some "AMD"); (0x10DE, Some "NVIDIA"); (0x1002, Some "ATI/AMD");
     (0x1AF4, Some "Red Hat/Qumranet (virtio)"); (0x15AD, Some "VMware"); (0x10EC, Some "Realtek");
     (0x14E4, Some "Broadcom"); (0x1B36, Some "QEMU")]%string None.

Definition pci_class_name (cls : Z) : string :=
  switch cls
    [(0x00, "Unclassified"); (0x01, "Storage"); (0x02, "Network"); (0x03, "Display");
     (0x04, "Multimedia"); (0x05, "Memory"); (0x06, "Bridge"); (0x07, "Comm"); (0x08, "System");
     (0x09, "Input"); (0x0A, "Dock"); (0x0B, "Processor"); (0x0C, "SerialBus"); (0x0D, "Wireless");
     (0x0E, "Intelligent"); (0x0F, "Satellite"); (0x10, "Encryption"); (0x11, "SignalProc");
     (0x12, "Accel"); (0x13, "Instrumentation")]%string "Unknown".

Definition pci_subclass_name (cls sub : Z) : string :=
  switch cls
    [(0x01, switch sub
       [(0x00, "SCSI"); (0x01, "IDE"); (0x02, "Floppy"); (0x03, "IPI"); (0x04, "RAID"); (0x05, "ATA");
        (0x06, "SATA"); (0x07, "SAS"); (0x08, "NVM")] "Other");
     (0x02, switch sub [(0x00, "Ethernet"); (0x80, "Other")] "Other");
     (0x03, switch sub [(0x00, "VGA"); (0x02, "3D")] "Other");
     (0x06, switch sub [(0x00, "Host"); (0x01, "ISA"); (0x04, "PCI-PCI")] "Other");
     (0x0C, switch sub [(0x00, "FireWire"); (0x01, "ACCESS.bus"); (0x02, "SSA"); (0x03, "USB");
                        (0x05, "SMBus")] "Other")]%string "Other".

Definition pci_prog_if_name (cls sub prog : Z) : option string :=
  if (cls =? 0x0C) && (sub =? 0x03) then
    switch prog [(0x00, Some "UHCI"); (0x10, Some "OHCI"); (0x20, Some "EHCI"); (0x30, Some "xHCI");
                 (0xFE, Some "USB Device")]%string None
  else if (cls =? 0x01) && (sub =? 0x06) then switch prog [(0x01, Some "AHCI"%string)] None
  else if (cls =? 0x01) && (sub =? 0x08) then switch prog [(0x02, Some "NVMe"%string)] None
  else None.

Definition pci_device_name (vid did : Z) : option string :=
  switch vid
    [(0x1AF4, switch did
       [(0x1000, Some "virtio-net"); (0x1001, Some "virtio-block"); (0x1002, Some "virtio-balloon");
        (0x1003, Some "virtio-console"); (0x1004, Some "virtio-scsi"); (0x1005, Some "virtio-rng");
        (0x1041, Some "virtio-gpu")] (Some "virtio"));
     (0x10EC, switch did [(0x8139, Some "RTL8139"); (0x8168, Some "RTL8168")] (Some "Realtek"));
     (0x8086, switch did [(0x100E, Some "82540EM (e1000)"); (0x2922, Some "ICH9 AHCI")] (Some "Intel"));
     (0x1B36, Some "QEMU device"); (0x1022, Some "AMD device"); (0x10DE, Some "NVIDIA device")]%string None.

Definition shell_pci_print_cb (d : Pci.pci_device) : M unit :=
  console_write "pci ";;
  write_hex8 (Pci.bus d);; console_putc 58;;
  write_hex8 (Pci.dev d);; console_putc 46;;
  console_putc (48 + Z.land (Pci.func d) 0x7);;
  console_write "  ";;
  (match pci_vendor_name (Pci.vendor_id d) with
   | Some vname => console_write vname
   | None => console_write "Vendor 0x";; write_hex16 (Pci.vendor_id d)
   end);;
  console_write "  Dev 0x";; write_hex16 (Pci.device_id d);;
  (match pci_device_name (Pci.vendor_id d) (Pci.device_id d) with
   | Some dname => console_write " (";; console_write dname;; console_write ")"
   | None => skip
   end);;
  console_write "  ";;
  console_write (pci_class_name (Pci.class_code d));; console_write "/";;
  console_write (pci_subclass_name (Pci.class_code d) (Pci.subclass d));;
  (match pci_prog_if_name (Pci.class_code d) (Pci.subclass d) (Pci.prog_if d) with
   | Some pname => console_write " (";; console_write pname;; console_write ")"
   | None => skip
   end);;
  console_putc 10.

(** The enumeration runs the callback on the state of the shell. *)
Definition cmd_lspci : M unit := fun s =>
  s' ← Pci.pci_enumerate (pci_conf (kern s))
         (Some (fun d r => s ← r; '(_, s) ← shell_pci_print_cb d s; Some s)) (Some s);
  Some (tt, s').

(** ** Devices and mounts *)

Definition cmd_mkram (args : list Z) : M unit :=
  let '(name, args) := token 15 (skip_ws args) in
  let '(sz, _) := parse_hex (skip_ws args) 0 in
  if bool_decide (name = []) || (sz =? 0) then console_writeln "usage: mkram <name> <size_hex>"
  else
    rc ← call (ramdisk_create name sz);
    if negb (rc =? 0) then console_writeln "mkram failed" else skip.

Definition cmd_mount (args : list Z) : M unit :=
  let '(fs, a) := token 7 (skip_ws args) in
  let '(mnt, a) := token 7 (skip_ws a) in
  let '(dev, _) := token 15 (skip_ws a) in
  if bool_decide (fs = []) || bool_decide (mnt = []) then console_writeln "usage: mount <fs> <mnt> <dev?>"
  else
    rc ← call (vfs_mount fs mnt dev);
    if negb (rc =? 0) then console_writeln "mount failed" else skip.

Definition cmd_mkexfat (args : list Z) : M unit :=
  let '(dev, args) := token 15 (skip_ws args) in
  let '(label, _) := token 15 (skip_ws args) in
  if bool_decide (dev = []) then console_writeln "usage: mkexfat <dev> [label]"
  else
    rc ← call (exfat_format_device dev (if bool_decide (label = []) then None else Some label));
    if negb (rc =? 0) then console_writeln "mkexfat failed" else console_writeln "formatted exfat".

Definition cmd_mkfs (args : list Z) : M unit :=
  let '(fs, a) := token 7 (skip_ws args) in
  let '(dev, a) := token 15 (skip_ws a) in
  let '(label, _) := token 15 (skip_ws a) in
  if bool_decide (fs = []) || bool_decide (dev = []) then console_writeln "usage: mkfs exfat <dev> [label]"
  else if streq fs "exfat" then
    rc ← call (exfat_format_device dev (if bool_decide (label = []) then None else Some label));
    if negb (rc =? 0) then console_writeln "mkfs exfat failed" else console_writeln "formatted exfat"
  else console_writeln "mkfs: unsupported fs".

(** Names that end in "p1". *)
Definition is_first_partition (name : list Z) : bool :=
  (2 <=? str_len name) && (nth (length name - 2) name 0 =? 112) && (nth (length name - 1) name 0 =? 49).

(** The loop over the devices; the result is [mounted]. *)
Fixpoint bootroot_loop (names : list (list Z)) : M bool :=
  match names with
  | [] => mret false
  | name :: names' =>
      if is_first_partition name then
        rc ← call (vfs_mount (str "exfat") (str "root") name);
        if rc =? 0 then
          console_write "mounted root on /dev/";; console_puts name;; console_puts [10];; mret true
        else bootroot_loop names'
      else bootroot_loop names'
  end.

Definition cmd_bootroot : M unit :=
  names ← gets (fun s => block_names (kern s));
  mounted ← bootroot_loop names;
  if negb mounted then console_writeln "bootroot: no suitable partition found" else skip.

(** ** Directories *)

Definition cmd_pwd : M unit :=
  mnt ← gets s_cwd_mnt;
  path ← gets s_cwd_path;
  match mnt with
  | [] => console_writeln "(no cwd)"
  | _ =>
      (if streq mnt "dev" then
         console_write "/dev";;
         (match path with [] => skip | _ => console_write "/";; console_puts path end)
       else if streq mnt "root" then
         match path with [] => console_write "/" | _ => console_write "/";; console_puts path end
       else console_puts mnt;; console_write ":/";; console_puts path);;
      console_putc 10
  end.

(** The Unix path of the current directory. *)
Definition current_unix (mnt path : list Z) : list Z :=
  match mnt with
  | [] => str "/"
  | _ =>
      if streq mnt "dev" then
        match path with [] => str "/dev" | _ => str "/dev/" ++ str_copy path (192 - 5) end
      else match path with [] => str "/" | _ => str "/" ++ str_copy path (192 - 1) end
  end.

(** [unix_path[192]] for an argument of [cd]; [None] if it is left unset. *)
Definition cd_unix_path (mnt path args : list Z) : option (list Z) :=
  match args with
  | 47 :: _ => Some (str_copy args 192)
  | _ =>
      let cur := current_unix mnt path in
      if str_len cur <? 191 then
        let u := match rev cur with 47 :: _ => cur | _ => cur ++ [SLASH] end in
        Some (u ++ str_copy args (192 - str_len u))
      else None
  end.

Definition cmd_cd (args : list Z) : M unit :=
  if bool_decide (args = []) then console_writeln "usage: cd <path>"
  else if streq args "/" then set_cwd (str "root") []
  else
    full ←
      (if negb (existsb (Z.eqb SLASH) args) && negb (existsb (Z.eqb COLON) args) then
         let p := append [] args 189 in
         mret (Some (if str_len p <? 190 then p ++ str ":/" else p))
       else
         mnt ← gets s_cwd_mnt;
         path ← gets s_cwd_path;
         match cd_unix_path mnt path args with
         | Some u => translate_unix_path u 192
         | None => fault
         end);
    match full with
    | None => console_writeln "cd: path resolution failed"
    | Some [] => console_writeln "cd: set a mount with 'mount' first or use mount:path"
    | Some full => set_cwd_from_path full
    end.

(** The entries of an open directory, from [i] on. *)
Fixpoint ls_loop (fuel : nat) (n : Node) (i : Z) : M unit :=
  match fuel with
  | O => fault
  | S fuel' =>
      '(rc, name) ← call (vfs_readdir n i 64);
      if rc <=? 0 then skip
      else console_puts name;; console_putc 10;; ls_loop fuel' n (u32 (i + 1))
  end.

(** [full] from the current directory. *)
Definition cwd_full (mnt path : list Z) : list Z :=
  append (append (append (append [] mnt 191) [COLON] 191) [SLASH] 191) path 191.

Definition cmd_ls (fuel : nat) (args : list Z) : M unit :=
  let list (full : list Z) : M unit :=
    n ← call (vfs_open full);
    match n with
    | None => console_writeln "ls: open failed"
    | Some n => ls_loop fuel n 0
    end in
  match args with
  | [] =>
      mnt ← gets s_cwd_mnt;
      path ← gets s_cwd_path;
      match mnt with [] => console_writeln "(no cwd)" | _ => list (cwd_full mnt path) end
  | _ =>
      let unix_path := str_copy args 192 in
      if streq unix_path "/" then list_root_directory
      else
        full ← translate_unix_path unix_path 192;
        match full with
        | None => console_writeln "ls: path resolution failed"
        | Some full => list full
        end
  end.

(** ** Files *)

(** [for (i = 0; i < r; ++i) console_putc(buf[i])] *)
Definition put_bytes (buf : list Z) (r : Z) : M unit :=
  each (seqZ 0 r) (fun i => match buf !! Z.to_nat i with Some ch => console_putc ch | None => fault end).

Fixpoint cat_loop (fuel : nat) (n : Node) (off : Z) : M unit :=
  match fuel with
  | O => fault
  | S fuel' =>
      '(r, buf) ← call (vfs_read n off 256);
      if r <=? 0 then skip
      else put_bytes buf r;; cat_loop fuel' n (off + r)%u64
  end.

Definition cmd_cat (fuel : nat) (args : list Z) : M unit :=
  if bool_decide (args = []) then console_writeln "usage: cat <path>"
  else
    full ← full_path args;
    n ← call (vfs_open full);
    match n with
    | None => console_writeln "cat: open failed"
    | Some n => cat_loop fuel n 0;; console_putc 10
    end.

(** One line of a dump: offset, 16 bytes in hexadecimal, their characters. *)
Definition dump_line (pos : Z) (buf : list Z) (r : Z) : M unit :=
  console_write_hex64 pos;; console_write ": ";;
  each (seqZ 0 16) (fun i =>
    (if i <? r then match buf !! Z.to_nat i with Some b => write_hex8 b | None => fault end
     else console_write "  ");;
    (if i =? 7 then console_putc 32 else skip);;
    console_putc 32);;
  console_write " |";;
  each (seqZ 0 r) (fun i =>
    match buf !! Z.to_nat i with
    | Some b => console_putc (if (32 <=? b) && (b <? 127) then b else 46)
    | None => fault
    end);;
  each (seqZ r (16 - r)) (fun _ => console_putc 32);;
  console_writeln "|".

Fixpoint hexdump_loop (fuel : nat) (n : Node) (have_len : bool) (pos remaining : Z) : M unit :=
  if 0 <? remaining then
    match fuel with
    | O => fault
    | S fuel' =>
        let to_read := if remaining <? 16 then remaining else 16 in
        '(r, buf) ← call (vfs_read n pos to_read);
        if r <=? 0 then skip
        else
          dump_line pos buf r;;
          let remaining := if have_len then (remaining - r)%u64 else remaining in
          if (r <? 16) && negb have_len then skip
          else hexdump_loop fuel' n have_len (pos + r)%u64 remaining
    end
  else skip.

(** An optional number: whether it is there, its value, and the rest. *)
Definition opt_hex (a : list Z) : bool * Z * list Z :=
  match a with
  | [] => (false, 0, [])
  | _ => let '(v, r) := parse_hex a 0 in (true, v, skip_ws r)
  end.

Definition cmd_hexdump (fuel : nat) (args : list Z) : M unit :=
  if bool_decide (args = []) then console_writeln "usage: hexdump <path> [off len]"
  else
    let '(path, a) := token 191 args in
    let '(_, off, a) := opt_hex (skip_ws a) in
    let '(have_len, len, _) := opt_hex a in
    full ← full_path path;
    n ← call (vfs_open full);
    match n with
    | None => console_writeln "hexdump: open failed"
    | Some n => hexdump_loop fuel n have_len off (if (have_len : bool) then len else 0xFFFFFFFFFFFFFFFF)
    end.

Definition cmd_stat (args : list Z) : M unit :=
  if bool_decide (args = []) then console_writeln "usage: stat <path>"
  else
    full ← full_path args;
    '(rc, sz, isdir) ← call (vfs_stat full);
    if negb (rc =? 0) then console_writeln "stat: not found"
    else
      console_write (if negb (isdir =? 0) then "dir" else "file");; console_write " size=0x";;
      console_write_hex64 sz;; console_putc 10.

Definition cmd_touch (args : list Z) : M unit :=
  if bool_decide (args = []) then console_writeln "usage: touch <path>"
  else
    full ← full_path args;
    rc ← call (vfs_create full 0);
    if negb (rc =? 0) then console_writeln "touch failed" else skip.

(** Open, or create and open. *)
Definition open_or_create (full : list Z) (failed : string) : M (option Node) :=
  n ← call (vfs_open full);
  match n with
  | Some n => mret (Some n)
  | None =>
      rc ← call (vfs_create full 0);
      (if negb (rc =? 0) then console_writeln failed else skip);;
      call (vfs_open full)
  end.

Definition cmd_write (args : list Z) : M unit :=
  if bool_decide (args = []) then console_writeln "usage: write <path> <text>"
  else
    let '(path, a) := token 191 args in
    let a := skip_ws a in
    if bool_decide (path = []) then console_writeln "usage: write <path> <text>"
    else
      full ← full_path path;
      n ← open_or_create full "write: create failed";
      match n with
      | None => console_writeln "write: open failed"
      | Some n =>
          rc ← call (vfs_write n 0 a);
          if rc <? 0 then console_writeln "write failed" else console_writeln "ok"
      end.

Definition cmd_rm (args : list Z) : M unit :=
  if bool_decide (args = []) then console_writeln "usage: rm <path>"
  else
    full ← full_path args;
    rc ← call (vfs_unlink full);
    if negb (rc =? 0) then console_writeln "rm failed" else skip.

(** The final offset. *)
Fixpoint fill_loop (fuel : nat) (n : Node) (ch sz off : Z) : M Z :=
  if off <? sz then
    match fuel with
    | O => fault
    | S fuel' =>
        let towr := if 512 <? sz - off then 512 else sz - off in
        rc ← call (vfs_write n off (replicate (Z.to_nat towr) ch));
        if rc <? 0 then console_writeln "fill: write error";; mret off
        else fill_loop fuel' n ch sz (off + rc)%u64
    end
  else mret off.

Definition cmd_fill (fuel : nat) (args : list Z) : M unit :=
  if bool_decide (args = []) then console_writeln "usage: fill <path> <size_hex> [ch]"
  else
    let '(path, a) := token 191 args in
    if bool_decide (path = []) then console_writeln "usage: fill <path> <size_hex> [ch]"
    else
      let '(sz, a) := parse_hex (skip_ws a) 0 in
      let ch := match skip_ws a with c :: _ => c | [] => 65 end in
      if sz =? 0 then console_writeln "fill: size must be > 0"
      else
        full ← full_path path;
        n ← open_or_create full "fill: create failed";
        match n with
        | None => console_writeln "fill: open failed"
        | Some n =>
            off ← fill_loop fuel n ch sz 0;
            if off =? sz then console_writeln "ok" else skip
        end.

(** ** System *)

Definition cmd_ps : M unit :=
  cur ← gets (fun s => sched_current_id (kern s));
  ti ← gets (fun s => sched_enumerate (kern s) 16);
  console_writeln "ID   STATE   RSP         CUR?";;
  each ti (fun t =>
    console_write_dec (u64 (Sched.info_id t));; console_write "   ";;
    console_write (if Sched.info_state t =? 0 then "ready"
                   else if Sched.info_state t =? 1 then "run" else "done");;
    console_write (if Sched.info_state t =? 0 then "   "
                   else if Sched.info_state t =? 1 then "    " else "   ");;
    console_write "   0x";; console_write_hex64 (Sched.info_rsp t);;
    (if Sched.info_id t =? cur then console_writeln "   *" else console_puts [10])).

Definition cmd_mem : M unit :=
  total ← gets (fun s => pmm_total_physical_bytes (kern s));
  freeb ← gets (fun s => pmm_free_bytes (kern s));
  console_write "Physical total: 0x";; console_write_hex64 total;; console_writeln " bytes";;
  console_write "Free:           0x";; console_write_hex64 freeb;; console_writeln " bytes";;
  if freeb <=? total then
    console_write "Used:           0x";; console_write_hex64 (total - freeb);; console_writeln " bytes"
  else skip.

Definition cmd_free : M unit :=
  freeb ← gets (fun s => pmm_free_bytes (kern s));
  console_write_hex64 freeb;; console_putc 10.

Definition cmd_used : M unit :=
  total ← gets (fun s => pmm_total_physical_bytes (kern s));
  freeb ← gets (fun s => pmm_free_bytes (kern s));
  console_write_hex64 (if freeb <=? total then total - freeb else 0);; console_putc 10.

Definition cmd_uname : M unit :=
  console_write "dex-os-64";; console_write " ";; console_write "0.1.0";; console_write " ";;
  console_write "x86_64";; console_putc 10.

(** ** The command line *)

Definition run (fuel : nat) (cmd args : list Z) : M unit :=
  if streq cmd "help" then cmd_help
  else if streq cmd "echo" then console_puts args;; console_puts [10]
  else if streq cmd "clear" then out t_clear
  else if streq cmd "info" then show_info
  else if streq cmd "uname" then cmd_uname
  else if streq cmd "mkram" then cmd_mkram args
  else if streq cmd "mount" then cmd_mount args
  else if streq cmd "mounts" then vfs_list_mounts
  else if streq cmd "pwd" then cmd_pwd
  else if streq cmd "cd" then cmd_cd args
  else if streq cmd "ls" then cmd_ls fuel args
  else if streq cmd "cat" then cmd_cat fuel args
  else if streq cmd "hexdump" then cmd_hexdump fuel args
  else if streq cmd "stat" then cmd_stat args
  else if streq cmd "touch" then cmd_touch args
  else if streq cmd "write" then cmd_write args
  else if streq cmd "rm" then cmd_rm args
  else if streq cmd "fill" then cmd_fill fuel args
  else if streq cmd "mkexfat" then cmd_mkexfat args
  else if streq cmd "mkfs" then cmd_mkfs args
  else if streq cmd "bootroot" then cmd_bootroot
  else if streq cmd "ps" then cmd_ps
  else if streq cmd "mem" then cmd_mem
  else if streq cmd "free" then cmd_free
  else if streq cmd "used" then cmd_used
  else if streq cmd "lspci" then cmd_lspci
  else console_writeln "unknown command. type 'help'".

(** The command word and the arguments of a line. *)
Fixpoint break_ws (p : list Z) : list Z * list Z :=
  match p with
  | c :: p' => if is_ws c then ([], p') else let '(a, b) := break_ws p' in (c :: a, b)
  | [] => ([], [])
  end.

Definition shell_handle_line (fuel : nat) (line : list Z) : M unit :=
  match skip_ws line with
  | [] => skip
  | s => let '(cmd, r) := break_ws s in run fuel cmd (skip_ws r)
  end.

(** The main loop, on the lines that are read, up to a point. *)
Fixpoint shell_loop (fuel : nat) (lines : list (list Z)) : M unit :=
  match lines with
  | [] => skip
  | line :: lines' => shell_prompt;; shell_handle_line fuel line;; shell_loop fuel lines'
  end.

Definition shell_main (fuel : nat) (lines : list (list Z)) : M unit :=
  console_puts ([10] ++ str "Entering shell. Type 'help'." ++ [10]);; shell_loop fuel lines.

End commands.

End ShellCmd.
