(* ===== verification/ShellSpec.v ===== *)
(** * Paths of the shell

    [resolve_path] against a reference: a path is a list of components, [.] and
    empty components are dropped and [..] removes the one before it. *)

From stdpp Require Import strings.
From S2P Require Import Prelude Sched Pci Terminal Shell.

Module ShellSpec.

Import Terminal Shell.

(** ** Components *)

Fixpoint split_slash (p : list Z) : list (list Z) :=
  match p with
  | [] => [[]]
  | c :: p' =>
      if c =? 47 then [] :: split_slash p'
      else match split_slash p' with
           | x :: l => (c :: x) :: l
           | [] => [[c]]
           end
  end.

(** The components that a path means, the innermost last. *)
Definition step_into (dirs : list (list Z)) (comp : list Z) : list (list Z) :=
  if bool_decide (comp = [] \/ comp = [46]) then dirs
  else if bool_decide (comp = [46; 46]) then take (length dirs - 1) dirs
  else dirs ++ [comp].

Definition canonical (p : list Z) : list (list Z) := fold_left step_into (split_slash p) [].

(** Every component after a slash. *)
Definition render (comps : list (list Z)) : list Z := concat (map (cons 47) comps).

Lemma split_cons p : exists x l, split_slash p = x :: l.
Proof.
  induction p as [|c p (x & l & E)]; cbn; [by eexists _, _|]. rewrite E.
  destruct (c =? 47); by eexists _, _.
Qed.

Lemma split_break p a b : break_at SLASH p = (a, b) ->
  split_slash p = a :: match b with [] => [] | _ :: b' => split_slash b' end.
Proof.
  revert a b. induction p as [|c p IH]; intros a b; cbn [break_at split_slash]; [by intros [= <- <-]|].
  unfold SLASH at 1. destruct (Z.eqb_spec c 47); [by intros [= <- <-]; subst|].
  destruct (break_at SLASH p) as [a' b'] eqn:E. intros [= <- <-]. by rewrite (IH _ _ eq_refl).
Qed.

Lemma break_slash p a b : break_at SLASH p = (a, b) -> p = a ++ b /\ (b = [] \/ exists b', b = 47 :: b').
Proof.
  revert a b. induction p as [|c p IH]; intros a b; cbn [break_at]; [intros [= <- <-]; by split; [|left]|].
  unfold SLASH at 1. destruct (Z.eqb_spec c 47) as [->|].
  - intros [= <- <-]. split; [done|]. right. by eexists.
  - destruct (break_at SLASH p) as [a' b'] eqn:E. intros [= <- <-].
    destruct (IH _ _ eq_refl) as [-> H]. by split.
Qed.

(** The parts of a path and its length. *)
Lemma split_length p : Z.of_nat (length p) + 1 = Z.of_nat (length (concat (map (cons 47) (split_slash p)))).
Proof.
  induction p as [|c p IH]; [done|]. cbn [split_slash length].
  destruct (c =? 47); [cbn [map concat app length] in *; lia|].
  destruct (split_cons p) as (x & l & E). rewrite E in *. cbn [map concat app length] in *. lia.
Qed.

(** ** The loop over the components *)

Lemma push_comp_nil comps : push_comp comps [] = comps.
Proof. done. Qed.

Lemma fold_drop_slashes comps p :
  fold_left push_comp (map (take 63) (split_slash (drop_slashes p))) comps
  = fold_left push_comp (map (take 63) (split_slash p)) comps.
Proof.
  induction p as [|c p IH]; [done|]. cbn [drop_slashes split_slash]. unfold SLASH.
  destruct (Z.eqb_spec c 47) as [->|Hc]; [exact IH|]. cbn [split_slash].
  by rewrite (proj2 (Z.eqb_neq _ _) Hc).
Qed.

Lemma drop_slashes_head p : drop_slashes p = [] \/ exists c r, drop_slashes p = c :: r /\ c <> 47.
Proof.
  induction p as [|c p IH]; [by left|]. cbn [drop_slashes]. unfold SLASH.
  destruct (Z.eqb_spec c 47); [done|]. right. by eexists _, _.
Qed.

Lemma drop_slashes_length p : (length (drop_slashes p) <= length p)%nat.
Proof. induction p as [|c p IH]; [done|]. cbn [drop_slashes]. destruct (c =? SLASH); cbn [length]; lia. Qed.

Lemma collect_fold fuel : forall p comps, (length p <= fuel)%nat ->
  collect fuel p comps = Some (fold_left push_comp (map (take 63) (split_slash p)) comps).
Proof.
  induction fuel as [|fuel IH]; intros p comps Hf.
  - by destruct p; [|cbn in Hf; lia].
  - destruct p as [|c p]; [done|]. cbn [collect]. rewrite <- fold_drop_slashes.
    pose proof (drop_slashes_length (c :: p)) as Hl.
    destruct (drop_slashes_head (c :: p)) as [->|(x & r & E & Hx)]; [done|].
    rewrite E in *. destruct (break_at SLASH (x :: r)) as [a b] eqn:Eb.
    rewrite (split_break _ _ _ Eb). cbn [map fold_left].
    destruct (break_slash _ _ _ Eb) as [Exr Hb]. destruct a as [|y a].
    { cbn in Exr. destruct Hb as [->|(b' & ->)]; [done|]. by injection Exr as ->. }
    assert (Hlen : (length b <= fuel)%nat) by (rewrite Exr, length_app in Hl; cbn [length] in *; lia).
    rewrite IH by exact Hlen. by destruct Hb as [->|(b' & ->)].
Qed.

(** With components that fit, the stack holds the canonical components. *)
Lemma push_step comps comp : (length comp <= 63)%nat -> (length comps < 16)%nat ->
  push_comp comps (take 63 comp) = step_into comps comp.
Proof.
  intros Hc Hn. rewrite take_ge by lia. unfold push_comp, step_into.
  destruct comp as [|c comp].
  { by rewrite (bool_decide_eq_true_2 ([] = [] \/ [] = [46])) by (by left). }
  change (str_len (c :: comp) =? 0) with false. cbn [orb].
  destruct (decide (c :: comp = [46])) as [E|Hne].
  { rewrite E. done. }
  rewrite (bool_decide_eq_false_2 (c :: comp = [46])) by done.
  rewrite (bool_decide_eq_false_2 (c :: comp = [] \/ c :: comp = [46])) by (by intros [?|?]).
  by rewrite (proj2 (Z.ltb_lt (Z.of_nat (length comps)) 16)) by lia.
Qed.

Lemma step_length comps comp : (length (step_into comps comp) <= S (length comps))%nat.
Proof.
  unfold step_into. repeat case_bool_decide; [lia|rewrite length_take; lia|rewrite length_app; cbn; lia].
Qed.

Lemma push_fold l : forall comps, Forall (fun c => (length c <= 63)%nat) l ->
  (length comps + length l <= 16)%nat ->
  fold_left push_comp (map (take 63) l) comps = fold_left step_into l comps.
Proof.
  induction l as [|c l IH]; intros comps Hc Hn; [done|]. apply list.Forall_cons in Hc as [Hc Hl].
  cbn [map fold_left length] in *. rewrite push_step by lia. apply IH; [done|].
  pose proof (step_length comps c). lia.
Qed.

(** ** Writing the path *)

Lemma append_fits buf s lim : Z.of_nat (length buf + length s) <= lim -> append buf s lim = buf ++ s.
Proof. intros H. unfold append. by rewrite take_ge by lia. Qed.

Lemma render_length_step comps comp :
  (length (render (step_into comps comp)) <= length (render comps) + S (length comp))%nat.
Proof.
  unfold step_into. repeat case_bool_decide; [lia| |].
  - pose proof (f_equal (fun l => length (concat (map (cons 47) l))) (take_drop (length comps - 1) comps)) as E.
    cbn beta in E. rewrite map_app, concat_app, length_app in E. unfold render. lia.
  - unfold render. rewrite map_app, concat_app, length_app. cbn. rewrite app_nil_r. lia.
Qed.

Lemma render_length_fold l : forall comps,
  (length (render (fold_left step_into l comps)) <= length (render comps) + length (render l))%nat.
Proof.
  induction l as [|c l IH]; intros comps; cbn [fold_left]; [unfold render at 3; cbn; lia|].
  specialize (IH (step_into comps c)). pose proof (render_length_step comps c).
  unfold render at 3. cbn [map concat]. rewrite length_app. cbn [length]. fold (render l). lia.
Qed.

Lemma canonical_length p : (length (render (canonical p)) <= S (length p))%nat.
Proof.
  pose proof (render_length_fold (split_slash p) []) as H. pose proof (split_length p) as H2.
  fold (render (split_slash p)) in H2. change (length (render [])) with O in H. unfold canonical. lia.
Qed.

Lemma join_render comps : forall norm lim,
  Z.of_nat (length norm + length (render comps)) <= lim -> join norm comps lim = norm ++ render comps.
Proof.
  induction comps as [|c comps IH]; intros norm lim Hlen; cbn [join]; [by rewrite app_nil_r|].
  unfold render in Hlen. cbn [map concat] in Hlen. rewrite length_app in Hlen. cbn [length] in Hlen.
  fold (render comps) in Hlen. rewrite (append_fits norm [SLASH]) by (cbn [length]; lia).
  rewrite append_fits by (rewrite ?length_app; cbn [length]; lia).
  rewrite IH by (rewrite !length_app; cbn [length]; lia). unfold render. cbn [map concat].
  by rewrite <- !app_assoc.
Qed.

(** ** [resolve_path] *)

Section resolve.
Context `{HK : Kernel K}.

(** The path after the colon, before it is normalised. *)
Definition raw_path (path i : list Z) : list Z :=
  match i with
  | 47 :: i' => i'
  | _ => path ++ [47] ++ i
  end.

(** One more slash is written unless the raw path has one in front. *)
Definition extra_slash (p : list Z) : list Z :=
  match p with 47 :: _ => [] | _ => [47] end.

(** The resolved path: the canonical components. *)
Definition resolved (mnt p : list Z) : list Z :=
  mnt ++ [58] ++ extra_slash p ++
  match canonical p, p with
  | [], 47 :: _ => [47]
  | comps, _ => render comps
  end.

Lemma slash_head (c : Z) (l : list Z) {A} (x y : A) :
  match c :: l with 47 :: _ => x | _ => y end = if c =? SLASH then x else y.
Proof. destruct (Z.eqb_spec c SLASH) as [->|Hne]; [done|]. unfold SLASH in Hne. by repeat case_match. Qed.

Lemma base_path_eq mnt path i lim :
  Z.of_nat (length mnt + 1 + length path + 1 + length i) <= lim ->
  base_path mnt path i lim = mnt ++ [58] ++ raw_path path i.
Proof.
  intros Hl. unfold base_path. rewrite (append_fits [] mnt), app_nil_l by (cbn; lia).
  rewrite (append_fits mnt [COLON]) by (cbn; lia). set (t := mnt ++ [COLON]).
  assert (Ht : length t = S (length mnt)) by (unfold t; rewrite length_app; cbn; lia).
  assert (Hrel : append (append t path lim) [SLASH] lim = t ++ path ++ [47]).
  { rewrite (append_fits t path) by lia. rewrite append_fits by (rewrite ?length_app; cbn; lia).
    by rewrite <- app_assoc. }
  rewrite Hrel. unfold raw_path. destruct i as [|c i]; [unfold t; by rewrite <- !app_assoc|].
  cbn [length] in Hl. destruct (Z.eqb_spec c SLASH) as [->|Hne].
  - rewrite append_fits by lia. unfold t. by rewrite <- !app_assoc.
  - rewrite append_fits by (rewrite !length_app; cbn; lia). rewrite (slash_head c i).
    rewrite (proj2 (Z.eqb_neq _ _) Hne). unfold t. by rewrite <- !app_assoc.
Qed.

Lemma break_colon m r : 58 ∉ m -> break_at COLON (m ++ 58 :: r) = (m, 58 :: r).
Proof.
  induction m as [|c m IH]; intros H; cbn [app break_at]; [done|]. apply not_elem_of_cons in H as [H1 H2].
  unfold COLON at 1. rewrite (proj2 (Z.eqb_neq c 58)) by congruence. by rewrite IH.
Qed.

Lemma break_no_colon p : 58 ∉ p -> break_at COLON p = (p, []).
Proof.
  induction p as [|c p IH]; intros H; cbn [break_at]; [done|]. apply not_elem_of_cons in H as [H1 H2].
  unfold COLON at 1. rewrite (proj2 (Z.eqb_neq c 58)) by congruence. by rewrite IH.
Qed.

Lemma ends_colon_snoc l c : ends_with_colon (l ++ [c]) = (c =? COLON).
Proof. unfold ends_with_colon. by rewrite rev_app_distr. Qed.

Lemma ends_colon_render l comps : comps <> [] -> Forall (fun c => 58 ∉ c) comps -> ends_with_colon (l ++ render comps) = false.
Proof.
  intros Hne Hc. destruct (exists_last Hne) as (cs & c & ->). apply list.Forall_app in Hc as [_ Hc].
  apply list.Forall_cons in Hc as [Hc _]. unfold render. rewrite map_app, concat_app. cbn [map concat].
  rewrite app_nil_r, !app_assoc. destruct c as [|x c] using rev_ind; [by rewrite ends_colon_snoc|].
  clear IHc. change (47 :: c ++ [x]) with ((47 :: c) ++ [x]). rewrite app_assoc, ends_colon_snoc.
  apply Z.eqb_neq. intros ->. apply Hc, elem_of_app. right. by apply list_elem_of_singleton.
Qed.

(** Components have no colon if the path has none, and no slash. *)
Lemma split_Forall (P : Z -> Prop) p : Forall P p -> Forall (Forall P) (split_slash p).
Proof.
  induction 1 as [|c p Hc Hp IH]; cbn; [by repeat constructor|]. destruct (c =? 47); [by constructor|].
  destruct (split_cons p) as (x & l & E). rewrite E in *. apply list.Forall_cons in IH as [? ?].
  by repeat constructor.
Qed.

Lemma step_Forall (P : list Z -> Prop) comps c : Forall P comps -> P c -> Forall P (step_into comps c).
Proof.
  intros H1 H2. unfold step_into. repeat case_bool_decide; [done|by apply Forall_take|].
  apply list.Forall_app. split; [done|]. by constructor.
Qed.

Lemma canonical_Forall (P : list Z -> Prop) p : Forall P (split_slash p) -> Forall P (canonical p).
Proof.
  unfold canonical. assert (H : Forall P []) by constructor. revert H. generalize (@nil (list Z)).
  induction (split_slash p) as [|c l IH]; intros comps H1 H2; [done|]. apply list.Forall_cons in H2 as [? ?].
  cbn. apply IH; [by apply step_Forall|done].
Qed.

Lemma not_elem_Forall (x : Z) l : x ∉ l <-> Forall (fun y => y <> x) l.
Proof.
  rewrite list.Forall_forall. split; [by intros H y Hy ->|]. intros H Hx. by apply (H x).
Qed.

Lemma canonical_no_colon p : 58 ∉ p -> Forall (fun c => 58 ∉ c) (canonical p).
Proof.
  intros H. apply canonical_Forall. apply not_elem_Forall, split_Forall in H.
  apply (Forall_weaken _ _ _ H). intros c. apply not_elem_Forall.
Qed.

(** What normalisation leaves of a path that fits. *)
Lemma normalize_eq mnt p lim : 58 ∉ mnt -> 58 ∉ p ->
  Z.of_nat (length mnt + length p) + 3 <= lim ->
  Forall (fun c => (length c <= 63)%nat) (split_slash p) -> (length (split_slash p) <= 16)%nat ->
  normalize (mnt ++ [58] ++ p) lim = Some (resolved mnt p).
Proof.
  intros Hm Hp Hlim Hc Hn. unfold normalize. cbn [app]. rewrite break_colon by done. cbn [fst].
  rewrite (append_fits [] mnt), app_nil_l, drop_app_length by (cbn; lia).
  change (58 =? COLON) with true. rewrite (proj2 (Z.ltb_lt _ lim)) by lia. cbn [andb].
  rewrite collect_fold, push_fold by (done || cbn; lia). bind. fold (canonical p).
  pose proof (canonical_length p) as Hcl. pose proof (canonical_no_colon p Hp) as Hcc.
  assert (Hx : forall e, (length e <= 1)%nat -> join ((mnt ++ [58]) ++ e) (canonical p) lim
    = ((mnt ++ [58]) ++ e) ++ render (canonical p))
    by (intros e He; apply join_render; rewrite !length_app; cbn [length]; lia).
  assert (Hne : forall l : list Z, (Z.of_nat (length ((mnt ++ [58]) ++ l)) =? 0) = false).
  { intros l. apply Z.eqb_neq. rewrite !length_app. cbn. lia. }
  replace (match p with c :: _ => if c =? SLASH then mnt ++ [58] else append (mnt ++ [58]) [SLASH] lim
           | [] => append (mnt ++ [58]) [SLASH] lim end) with ((mnt ++ [58]) ++ extra_slash p).
  2: { rewrite append_fits by (rewrite !length_app; cbn; lia). destruct p as [|c p]; [done|].
       unfold extra_slash. rewrite (slash_head c p). destruct (c =? SLASH); [by rewrite app_nil_r|done]. }
  assert (He : (length (extra_slash p) <= 1)%nat) by (unfold extra_slash; repeat case_match; cbn; lia).
  rewrite Hx, <- (app_assoc (mnt ++ [58])), Hne by exact He. cbn [orb]. unfold resolved.
  destruct (canonical p) as [|d ds] eqn:Ec.
  - cbn [render map concat]. rewrite app_nil_r. unfold extra_slash. destruct p as [|c p].
    + rewrite ends_colon_snoc. by rewrite <- app_assoc.
    + rewrite !(slash_head c p). destruct (c =? SLASH).
      * rewrite app_nil_r, ends_colon_snoc. change (58 =? COLON) with true. cbn iota.
        rewrite append_fits by (rewrite length_app; cbn; lia). by rewrite <- app_assoc.
      * rewrite ends_colon_snoc. by rewrite <- app_assoc.
  - rewrite (app_assoc (mnt ++ [58])), ends_colon_render by done. rewrite <- !app_assoc. done.
Qed.

(** ** Canonical components *)

Definition proper (c : list Z) : Prop := c <> [] /\ c <> [46] /\ c <> [46; 46] /\ 47 ∉ c.

Lemma split_no_slash p : Forall (fun c => 47 ∉ c) (split_slash p).
Proof.
  induction p as [|c p IH]; cbn; [repeat constructor; apply not_elem_of_nil|].
  destruct (Z.eqb_spec c 47); [constructor; [apply not_elem_of_nil|done]|].
  destruct (split_cons p) as (x & l & E). rewrite E in *. apply list.Forall_cons in IH as [Hx Hl].
  constructor; [|done]. apply not_elem_of_cons. split; [congruence|done].
Qed.

Lemma canonical_proper p : Forall proper (canonical p).
Proof.
  unfold canonical. assert (H : Forall proper []) by constructor. revert H. generalize (@nil (list Z)).
  pose proof (split_no_slash p) as Hs. induction Hs as [|c l Hc Hl IH]; intros comps H; [done|].
  apply IH. unfold step_into. repeat case_bool_decide; [done|by apply Forall_take|].
  apply list.Forall_app. split; [done|]. constructor; [unfold proper; tauto|constructor].
Qed.

Lemma split_app_slash a r : 47 ∉ a -> split_slash (a ++ 47 :: r) = a :: split_slash r.
Proof.
  induction a as [|c a IH]; intros Ha; [done|]. apply not_elem_of_cons in Ha as [H1 H2]. cbn.
  rewrite (proj2 (Z.eqb_neq c 47)) by congruence. by rewrite IH.
Qed.

Lemma split_last a : 47 ∉ a -> split_slash a = [a].
Proof.
  induction a as [|c a IH]; intros Ha; [done|]. apply not_elem_of_cons in Ha as [H1 H2]. cbn.
  rewrite (proj2 (Z.eqb_neq c 47)) by congruence. by rewrite IH.
Qed.

Lemma split_render comps : Forall (fun c => 47 ∉ c) comps -> split_slash (render comps) = [] :: comps.
Proof.
  induction 1 as [|c comps Hc Hcs IH]; [done|]. unfold render. cbn [map concat app]. fold (render comps).
  cbn [split_slash Z.eqb Pos.eqb]. f_equal. destruct comps as [|d ds]; [rewrite app_nil_r; by apply split_last|].
  assert (E : render (d :: ds) = 47 :: d ++ render ds) by done. rewrite E in *.
  rewrite split_app_slash by done. cbn [split_slash Z.eqb Pos.eqb] in IH. congruence.
Qed.

Lemma steps_proper l : forall comps, Forall proper l -> fold_left step_into l comps = comps ++ l.
Proof.
  induction l as [|c l IH]; intros comps H; [by rewrite app_nil_r|].
  apply list.Forall_cons in H as [(H1 & H2 & H3 & _) Hl]. cbn [fold_left]. unfold step_into at 2.
  rewrite bool_decide_eq_false_2 by tauto. rewrite bool_decide_eq_false_2 by done.
  rewrite IH by done. by rewrite <- app_assoc.
Qed.

(** A canonical path is its own canonical form. *)
Lemma canonical_render comps : Forall proper comps -> canonical (render comps) = comps.
Proof.
  intros H. unfold canonical. rewrite split_render by (apply (Forall_weaken _ _ _ H); by intros c (? & ? & ? & ?)).
  cbn [fold_left]. change (step_into [] []) with (@nil (list Z)). by rewrite steps_proper.
Qed.

Lemma raw_length path i : (length (raw_path path i) <= length path + 1 + length i)%nat.
Proof.
  unfold raw_path. destruct i as [|c i]; [rewrite !length_app; cbn; lia|].
  rewrite (slash_head c i). destruct (c =? SLASH); [cbn; lia|rewrite !length_app; cbn; lia].
Qed.

Lemma raw_no_colon path i : 58 ∉ path -> 58 ∉ i -> 58 ∉ raw_path path i.
Proof.
  intros H1 H2. assert (58 ∉ path ++ [47] ++ i).
  { rewrite !not_elem_of_app. split; [done|]. split; [|done]. apply not_elem_of_cons. split; [lia|apply not_elem_of_nil]. }
  unfold raw_path. destruct i as [|c i]; [done|]. rewrite (slash_head c i).
  destruct (c =? SLASH); [|done]. apply not_elem_of_cons in H2. tauto.
Qed.

(** ** Lengths *)

Lemma append_length buf s lim : Z.of_nat (length buf) <= lim ->
  Z.of_nat (length (append buf s lim)) = Z.min lim (Z.of_nat (length buf + length s)).
Proof. intros H. unfold append. rewrite length_app, length_take. lia. Qed.

Lemma base_path_length mnt path i lim : 0 <= lim -> ~ (exists r, i = 47 :: r) ->
  Z.of_nat (length (base_path mnt path i lim))
  = Z.min lim (Z.of_nat (length mnt + 1 + length path + 1 + length i)).
Proof.
  intros Hlim Hi. unfold base_path. set (t := append (append [] mnt lim) [COLON] lim).
  assert (Ht : Z.of_nat (length t) = Z.min lim (Z.of_nat (length mnt + 1))).
  { pose proof (append_length [] mnt lim Hlim). unfold t. rewrite append_length by lia. cbn [length] in *. lia. }
  set (r := append (append t path lim) [SLASH] lim).
  assert (Hr : Z.of_nat (length r) = Z.min lim (Z.of_nat (length mnt + 1 + length path + 1))).
  { pose proof (append_length t path lim ltac:(lia)). unfold r. rewrite append_length by lia. cbn [length]. lia. }
  destruct i as [|c i]; [rewrite Hr; cbn; lia|]. destruct (Z.eqb_spec c SLASH) as [->|_].
  - destruct Hi. by exists i.
  - rewrite append_length by lia. lia.
Qed.

Lemma normalize_total tmp lim : exists p, normalize tmp lim = Some p.
Proof.
  unfold normalize. set (norm := append _ _ _). destruct (match drop _ _ with [] => _ | _ => _ end) as [n1 rest].
  rewrite collect_fold by lia. bind. by eexists.
Qed.

End resolve.

(** ** A small kernel for examples

    Its console records the output; every path opens the one file, whose reads
    and writes are exact but for a limit on its size. *)

Record demo := Demo { d_out : list Z; d_mounts : list (list Z); d_file : list Z }.

Definition d_say (k : demo) (s : list Z) : option demo :=
  Some (Demo (d_out k ++ s) (d_mounts k) (d_file k)).

#[export] Instance demo_terminal : Terminal demo := {|
  t_putc k ch := d_say k [ch];
  t_write k s := d_say k s;
  t_write_hex64 k v := d_say k ([48; 120] ++ hex_digits v);
  t_write_dec k v := d_say k [48 + v mod 10];
  t_progress k _ _ _ := Some k;
  t_clear k := Some k;
  t_page_end k := Some k
|}.

Definition d_read (k : demo) (off len : Z) : list Z :=
  take (Z.to_nat len) (drop (Z.to_nat off) (d_file k)).

(** The file has room for 1024 bytes. *)
Definition d_write (k : demo) (off : Z) (b : list Z) : Z * demo :=
  let b := take (Z.to_nat (1024 - off)) b in
  (Z.of_nat (length b),
   Demo (d_out k) (d_mounts k)
     (take (Z.to_nat off) (d_file k) ++ b ++ drop (Z.to_nat off + length b) (d_file k))).

#[export] Instance demo_kernel : Kernel demo := {|
  Node := unit;
  vfs_has_mount k m := bool_decide (m ∈ d_mounts k);
  vfs_mount_count k := Z.of_nat (length (d_mounts k));
  vfs_get_mount_name k i n := match d_mounts k !! Z.to_nat i with Some m => (0, m) | None => (-1, []) end;
  vfs_mount _ m _ k := Some (0, Demo (d_out k) (d_mounts k ++ [m]) (d_file k));
  vfs_open _ k := Some (Some tt, k);
  vfs_readdir _ _ _ k := Some (0, [], k);
  vfs_read _ off len k := Some (Z.of_nat (length (d_read k off len)), d_read k off len, k);
  vfs_write _ off b k := Some (d_write k off b);
  vfs_stat _ k := Some (0, Z.of_nat (length (d_file k)), 0, k);
  vfs_create _ _ k := Some (0, k);
  vfs_unlink _ k := Some (0, k);
  ramdisk_create _ _ k := Some (0, k);
  exfat_format_device _ _ k := Some (0, k);
  block_names _ := [];
  sched_enumerate _ _ := [];
  sched_current_id _ := 0;
  pmm_total_physical_bytes _ := 0;
  pmm_free_bytes _ := 0;
  pci_conf _ _ := 0xFFFFFFFF
|}.

Definition demo_node : @Node demo demo_kernel := tt.

Definition demo_at (mnt path : list Z) : shell (K := demo) :=
  MkShell mnt path (Demo [] [str "root"; str "dev"] (str "hello")).



(** C39. [resolve_path] stores past the end of [tmp] exactly when the mount, the
    current directory and a relative path with their separators need 160 bytes or
    more: its loops stop at the size of the output array (192), not at that of
    [tmp]. *)
Theorem resolve_path_overflow `{HK : Kernel K} (s : shell (K := K)) (i : list Z) :
  s_cwd_mnt s <> [] -> 58 ∉ i -> ~ (exists r, i = 47 :: r) ->
  resolve_path i 192 s = None <->
  160 <= Z.of_nat (length (s_cwd_mnt s) + 1 + length (s_cwd_path s) + 1 + length i).
Proof.
  intros Hm Hci Hi. unfold resolve_path. rewrite (break_no_colon i) by done.
  change (negb (bool_decide (@nil Z = []))) with false. cbn iota.
  destruct (s_cwd_mnt s) as [|m0 m] eqn:Em; [done|]. rewrite <- Em in *. change (192 - 1) with 191.
  pose proof (base_path_length (s_cwd_mnt s) (s_cwd_path s) i 191 ltac:(lia) Hi) as Hl.
  unfold TMP_SIZE. destruct (Z.leb_spec 160 (Z.of_nat (length (base_path (s_cwd_mnt s) (s_cwd_path s) i 191)))).
  - split; [lia|done].
  - destruct (normalize_total (base_path (s_cwd_mnt s) (s_cwd_path s) i 191) 191) as [n ->]. bind.
    split; [done|lia].
Qed.

Lemma resolve_path_overflow_witness :
  resolve_path (replicate 60 98) 192 (demo_at (str "root") (replicate 100 97)) = None.
Proof.
  apply (resolve_path_overflow (demo_at (str "root") (replicate 100 97)) (replicate 60 98));
    [discriminate|by apply (bool_decide_unpack _)|by intros (r & ?)|vm_compute; discriminate].
Defined.

End ShellSpec.
