(* ===== verification/ShellProps.v ===== *)
(** * Properties of the shell commands

    The current directory stays within its arrays; numbers; changing directory;
    the loops of [cat] and [fill]. *)

From stdpp Require Import strings.
From S2P Require Import Prelude Console Sched Pci Terminal Shell ShellCmd ShellSpec.

Module ShellProps.

Import Terminal Shell ShellCmd ShellSpec.

(** ** The current directory *)

Section invariant.
Context `{HK : Kernel K}.
Implicit Types s : shell (K := K).

(** The strings fit their arrays, and the mount name has no colon. *)
Record cwd_ok s : Prop := CwdOk {
  cw_mnt : (length (s_cwd_mnt s) <= 7)%nat;
  cw_colon : 58 ∉ s_cwd_mnt s;
  cw_path : (length (s_cwd_path s) <= 127)%nat
}.

Definition preserves {A} (m : M A) : Prop :=
  forall s x s', cwd_ok s -> m s = Some (x, s') -> cwd_ok s'.

Lemma pres_ret {A} (x : A) : preserves (mret x).
Proof. intros s y s' H [= _ <-]. exact H. Qed.

Lemma pres_bind {A B} (m : M A) (f : A -> M B) :
  preserves m -> (forall x, preserves (f x)) -> preserves (m ≫= f).
Proof.
  intros Hm Hf s y s' H E. unfold mbind, M_bind in E. destruct (m s) as [[x s1]|] eqn:Em; [|done].
  cbn in E. eapply Hf; [|exact E]. by eapply Hm.
Qed.

Lemma pres_gets {A} (f : shell -> A) : preserves (gets f).
Proof. intros s y s' H [= _ <-]. exact H. Qed.

Lemma pres_fault {A} : preserves (@fault K A).
Proof. by intros s y s' H. Qed.

Lemma pres_out f : preserves (out f).
Proof.
  intros s y s' [] E. unfold out in E. destruct (f (kern s)); [|done]. injection E as _ <-. by constructor.
Qed.

Lemma pres_call {A} (f : K -> option (A * K)) : preserves (call f).
Proof.
  intros s y s' [] E. unfold call in E. destruct (f (kern s)) as [[x k]|]; [|done]. injection E as _ <-. by constructor.
Qed.

Lemma pres_each {A} (l : list A) f : (forall x, preserves (f x)) -> preserves (each l f).
Proof. intros Hf. induction l as [|x l IH]; [apply pres_ret|]. apply pres_bind; [done|]. by intros []. Qed.

Lemma pres_resolve i n : preserves (resolve_path i n).
Proof.
  intros s y s' H E. unfold resolve_path in E. destruct (break_at COLON i) as [? c].
  destruct (negb _); [by injection E as _ <-|]. destruct (s_cwd_mnt s); [by injection E as _ <-|].
  destruct (TMP_SIZE <=? _); [done|]. destruct (normalize _ _); [|done]. by injection E as _ <-.
Qed.

Lemma break_colon_none p a b : break_at COLON p = (a, b) -> 58 ∉ a.
Proof.
  revert a b. induction p as [|c p IH]; intros a b; cbn [break_at]; [intros [= <- <-]; apply not_elem_of_nil|].
  unfold COLON at 1. destruct (Z.eqb_spec c 58); [intros [= <- <-]; apply not_elem_of_nil|].
  destruct (break_at COLON p) as [a' b']. intros [= <- <-]. apply not_elem_of_cons.
  split; [congruence|by eapply IH].
Qed.

Lemma pres_set_cwd m p : (length m <= 7)%nat -> 58 ∉ m -> (length p <= 127)%nat -> preserves (@set_cwd K m p).
Proof. intros H1 H2 H3 s y s' _ [= _ <-]. by constructor. Qed.

Lemma pres_set_cwd_from_path p : preserves (@set_cwd_from_path K p).
Proof.
  unfold set_cwd_from_path. destruct (break_at COLON p) as [m [|c sub]] eqn:E; [apply pres_ret|].
  apply pres_set_cwd.
  - rewrite length_take. lia.
  - intros H. apply (break_colon_none _ _ _ E). rewrite <- (take_drop 7 m). apply elem_of_app. by left.
  - unfold str_copy. rewrite length_take. lia.
Qed.

End invariant.

Create HintDb shell.
#[global] Hint Resolve pres_ret pres_gets pres_fault pres_out pres_call pres_each pres_resolve
  pres_set_cwd_from_path : shell.
#[global] Hint Unfold skip console_putc console_puts console_write console_writeln console_write_hex64
  console_write_dec : shell.

(** Preservation by the structure of a command. *)
Ltac pres :=
  repeat (autounfold with shell; cbn beta iota zeta;
    match goal with
    | |- preserves (_ ≫= _) => apply pres_bind; [|intros ?]
    | |- preserves (let '(_, _) := ?x in _) => destruct x
    | |- preserves (match ?x with _ => _ end) => destruct x
    | |- preserves (each _ _) => apply pres_each; intros ?
    | |- preserves _ => solve [eauto with shell]
    end).

Section commands.
Context `{HK : Kernel K}.

Lemma pres_translate p n : preserves (translate_unix_path p n).
Proof. unfold translate_unix_path. pres. Qed.

Lemma pres_full p : preserves (full_path p).
Proof. unfold full_path. apply pres_bind; [apply pres_translate|intros []; auto with shell]. Qed.

Lemma pres_hex8 v : preserves (write_hex8 v).
Proof. unfold write_hex8. pres. Qed.

Lemma pres_pci d : preserves (shell_pci_print_cb d).
Proof. unfold shell_pci_print_cb, write_hex16, write_hex8. pres. Qed.

Lemma pres_pci_fold l : forall r s', (forall s, r = Some s -> cwd_ok s) ->
  fold_left (fun r d => s ← r; '(_, s) ← shell_pci_print_cb d s; Some s) l r = Some s' -> cwd_ok s'.
Proof.
  induction l as [|d l IH]; intros r s' Hr E; [by apply Hr|]. eapply IH; [|exact E].
  intros s2 E2. destruct r as [s3|]; [|done]. cbn in E2.
  destruct (shell_pci_print_cb d s3) as [[y s4]|] eqn:Ed; [|done]. injection E2 as <-.
  eapply pres_pci; [|exact Ed]. by apply Hr.
Qed.

Lemma lspci_eq s : cmd_lspci s
  = s' ← fold_left (fun r d => s ← r; '(_, s) ← shell_pci_print_cb d s; Some s)
           (Pci.devices (pci_conf (kern s))) (Some s); Some (tt, s').
Proof. exact (f_equal (fun r => s' ← r; Some (tt, s')) (Pci.enumerate_devices _ _ _)). Qed.

Lemma pres_lspci : preserves cmd_lspci.
Proof.
  intros s x s' H E. rewrite lspci_eq in E.
  generalize dependent (Pci.devices (pci_conf (kern s))). intros l E.
  destruct (fold_left _ l (Some s)) as [s1|] eqn:Ef; [|done]. injection E as _ <-.
  eapply pres_pci_fold; [|exact Ef]. by intros s2 [= <-].
Qed.

Lemma pres_bootroot l : preserves (bootroot_loop l).
Proof. induction l as [|n l IH]; cbn [bootroot_loop]; pres. Qed.

Lemma pres_ls_loop fuel n : forall i, preserves (ls_loop fuel n i).
Proof. induction fuel as [|fuel IH]; intros i; cbn [ls_loop]; pres. Qed.

Lemma pres_cat_loop fuel n : forall off, preserves (cat_loop fuel n off).
Proof. induction fuel as [|fuel IH]; intros off; cbn [cat_loop]; unfold put_bytes; pres. Qed.

Lemma pres_hexdump_loop fuel n h : forall pos r, preserves (hexdump_loop fuel n h pos r).
Proof.
  induction fuel as [|fuel IH]; intros pos r; cbn [hexdump_loop]; unfold dump_line, write_hex8; pres.
Qed.

Lemma pres_fill_loop fuel n ch sz : forall off, preserves (fill_loop fuel n ch sz off).
Proof. induction fuel as [|fuel IH]; intros off; cbn [fill_loop]; pres. Qed.

Lemma pres_open_or_create p m : preserves (open_or_create p m).
Proof. unfold open_or_create. pres. Qed.

End commands.

#[global] Hint Resolve pres_translate pres_full pres_hex8 pres_lspci pres_bootroot pres_ls_loop
  pres_cat_loop pres_hexdump_loop pres_fill_loop pres_open_or_create : shell.

Section lines.
Context `{HK : Kernel K}.

Lemma pres_cd args : preserves (cmd_cd args).
Proof.
  unfold cmd_cd. destruct (bool_decide _); [pres|]. destruct (streq args "/").
  - apply pres_set_cwd; [cbn; lia|by apply (bool_decide_unpack _)|cbn; lia].
  - pres.
Qed.

Lemma pres_run fuel cmd args : preserves (run fuel cmd args).
Proof.
  unfold run. repeat (destruct (streq cmd _); [try solve [pres]|]); [..|pres].
  all: unfold cmd_help, show_info, cmd_uname, cmd_mkram, cmd_mount, vfs_list_mounts, cmd_pwd, cmd_ls,
    list_root_directory, cmd_cat, cmd_hexdump, cmd_stat, cmd_touch, cmd_write, cmd_rm, cmd_fill,
    cmd_mkexfat, cmd_mkfs, cmd_bootroot, cmd_ps, cmd_mem, cmd_free, cmd_used.
  all: try solve [pres]. all: try apply pres_cd.
Qed.

Lemma pres_line fuel line : preserves (shell_handle_line fuel line).
Proof.
  unfold shell_handle_line. destruct (skip_ws line); [apply pres_ret|].
  destruct (break_ws _). apply pres_run.
Qed.

Lemma pres_loop fuel lines : preserves (shell_loop fuel lines).
Proof.
  induction lines as [|l lines IH]; cbn [shell_loop]; [apply pres_ret|].
  apply pres_bind; [unfold shell_prompt; pres|]. intros _. apply pres_bind; [apply pres_line|]. intros _. exact IH.
Qed.

End lines.

(** The shell as it starts. *)
Definition start `{Kernel K} (k : K) : shell (K := K) := MkShell (str "root") [] k.



(** ** Numbers *)

(** The value of hexadecimal digits, the most significant first. *)
Definition number (ds : list Z) : Z := fold_left (fun n d => 16 * n + d) ds 0.

Lemma hex_value_digit d : 0 <= d < 16 -> hex_value (Console.hex_digit d) = Some d.
Proof.
  intros Hd. unfold Console.hex_digit, hex_value. destruct (Z.ltb_spec d 10).
  - rewrite (proj2 (Z.leb_le 48 _)), (proj2 (Z.leb_le _ 57)) by lia. cbn [andb]. f_equal. lia.
  - rewrite (proj2 (Z.leb_gt _ 57)), (proj2 (Z.leb_gt 97 _)), (proj2 (Z.leb_le 65 _)), (proj2 (Z.leb_le _ 70)) by lia.
    rewrite andb_false_r. cbn [andb]. f_equal. lia.
Qed.

Lemma push_digit acc d : 0 <= d < 16 -> Z.lor (u64 (Z.shiftl acc 4)) d = u64 (16 * acc + d).
Proof.
  intros Hd. rewrite Z.shiftl_mul_pow2 by lia. rewrite (lor_add _ d 4) by (unfold u64; zmod). unfold u64. zmod.
Qed.

Lemma number_u64 ds : forall a b, u64 a = u64 b ->
  u64 (fold_left (fun n d => 16 * n + d) ds a) = u64 (fold_left (fun n d => 16 * n + d) ds b).
Proof.
  induction ds as [|d ds IH]; intros a b E; [done|]. apply IH. unfold u64 in *. zmod.
Qed.

Lemma parse_hex_app ds rest : forall acc, Forall (fun d => 0 <= d < 16) ds -> 0 <= acc < 2^64 ->
  parse_hex (map Console.hex_digit ds ++ rest) acc
  = parse_hex rest (u64 (fold_left (fun n d => 16 * n + d) ds acc)).
Proof.
  induction ds as [|d ds IH]; intros acc Hds Ha; [cbn; by rewrite u64_small|].
  apply list.Forall_cons in Hds as [Hd Hds]. cbn [map app parse_hex fold_left].
  rewrite hex_value_digit, push_digit, IH by (done || apply u64_range). f_equal. apply number_u64.
  unfold u64. zmod.
Qed.

(** The digits that [console_write_hex64] writes. *)
Definition nibbles (v : Z) : list Z := map (fun i => Z.land (Z.shiftr v ((15 - i) * 4)) 0xF) (seqZ 0 16).

Lemma nibble_range v k : 0 <= Z.land (Z.shiftr v k) 0xF < 16.
Proof. change 0xF with (2^4 - 1). rewrite land_low by lia. apply Z.mod_pos_bound. lia. Qed.

Lemma number_prefix v n : 0 <= v < 2^64 -> (n <= 16)%nat ->
  number (map (fun i => Z.land (Z.shiftr v ((15 - i) * 4)) 0xF) (seqZ 0 (Z.of_nat n))) = v / 2^(4 * (16 - Z.of_nat n)).
Proof.
  intros Hv. induction n as [|n IH]; intros Hn.
  - symmetry. apply Z.div_small. exact Hv.
  - rewrite Nat2Z.inj_succ, <- Z.add_1_r, seqZ_app, map_app by lia.
    rewrite (seqZ_cons (0 + Z.of_nat n) 1) by lia. change (seqZ (Z.succ (0 + Z.of_nat n)) (Z.pred 1)) with (@nil Z).
    unfold number in *. rewrite fold_left_app, IH by lia. cbn [map fold_left].
    set (k := 4 * (16 - (Z.of_nat n + 1))). replace (4 * (16 - Z.of_nat n)) with (k + 4) by lia.
    replace ((15 - (0 + Z.of_nat n)) * 4) with k by lia. assert (0 <= k) by lia.
    change 0xF with (2^4 - 1). rewrite land_low, Z.shiftr_div_pow2 by lia.
    rewrite Z.pow_add_r, <- Z.div_div by lia. change (2^4) with 16.
    pose proof (Z.div_mod (v / 2^k) 16). lia.
Qed.

Lemma number_nibbles v : 0 <= v < 2^64 -> number (nibbles v) = v.
Proof. intros Hv. etransitivity; [apply (number_prefix v 16 Hv); lia|]. apply Z.div_1_r. Qed.

Lemma hex_digits_nibbles v : hex_digits v = map Console.hex_digit (nibbles v).
Proof. unfold hex_digits, nibbles. rewrite map_map. reflexivity. Qed.

Lemma nibbles_range v : Forall (fun d => 0 <= d < 16) (nibbles v).
Proof.
  unfold nibbles. generalize (seqZ 0 16). intros l. induction l; constructor; [apply nibble_range|done].
Qed.

Lemma parse_nibbles v : 0 <= v < 2^64 -> parse_hex (hex_digits v) 0 = (v, []).
Proof.
  intros Hv. rewrite hex_digits_nibbles. pose proof (number_nibbles v Hv) as En.
  pose proof (nibbles_range v) as Hr. generalize dependent (nibbles v). intros l En Hr.
  rewrite <- (app_nil_r (map _ _)), parse_hex_app by (done || lia). unfold number in En.
  rewrite En, u64_small by done. reflexivity.
Qed.

(** The numbers on a command line are read in hexadecimal modulo 2^64, up to
    the first other character, which is consumed; so what [console_write_hex64]
    prints after its 0x reads back as the same number. *)
Theorem parse_hex_correct (ds : list Z) (c : Z) (rest : list Z) (v : Z) :
  Forall (fun d => 0 <= d < 16) ds -> hex_value c = None -> 0 <= v < 2^64 ->
  parse_hex (map Console.hex_digit ds) 0 = (u64 (number ds), []) /\
  parse_hex (map Console.hex_digit ds ++ c :: rest) 0 = (u64 (number ds), rest) /\
  parse_hex (hex_digits v) 0 = (v, []).
Proof.
  intros Hds Hc Hv. split_and!.
  - rewrite <- (app_nil_r (map _ _)). by rewrite parse_hex_app by done.
  - rewrite parse_hex_app by done. cbn [parse_hex]. by rewrite Hc.
  - by apply parse_nibbles.
Qed.

Lemma parse_hex_correct_witness :
  parse_hex (str "1F g") 0 = (31, str "g") /\ parse_hex (hex_digits 48879) 0 = (48879, []).
Proof.
  destruct (parse_hex_correct [1; 15] 32 (str "g") 48879) as (_ & E1 & E2);
    [repeat constructor; lia|reflexivity|lia|]. split; [exact E1|exact E2].
Defined.


(** ** [cat] *)

Section files.
Context `{HK : Kernel K}.
Implicit Types s : shell (K := K).

(** While [P] holds, node [n] reads as the file [f], and [outp] is the output. *)
Record readable (n : Node) (f : list Z) (P : K -> Prop) (outp : K -> list Z) : Prop := Readable {
  rd_file : forall k off len, P k -> 0 <= off <= Z.of_nat (length f) -> 0 < len <= 256 -> exists junk k',
    let b := take (Z.to_nat len) (drop (Z.to_nat off) f) in
    vfs_read n off len k = Some (Z.of_nat (length b), b ++ junk, k') /\ P k' /\ outp k' = outp k;
  rd_putc : forall k ch, P k -> exists k', t_putc k ch = Some k' /\ P k' /\ outp k' = outp k ++ [ch]
}.

(** [s'] is [s] with more output. *)
Definition said (P : K -> Prop) (outp : K -> list Z) s (t : list Z) s' : Prop :=
  s_cwd_mnt s' = s_cwd_mnt s /\ s_cwd_path s' = s_cwd_path s /\ P (kern s') /\
  outp (kern s') = outp (kern s) ++ t.

Context (n : Node) (f : list Z) (P : K -> Prop) (outp : K -> list Z) (HF : readable n f P outp).

Lemma said_trans s1 s2 s3 t u :
  said P outp s1 t s2 -> said P outp s2 u s3 -> said P outp s1 (t ++ u) s3.
Proof.
  intros (A1 & A2 & A3 & A4) (B1 & B2 & B3 & B4). unfold said. rewrite B1, B2, B4, A4, app_assoc. done.
Qed.

Lemma putc_said s ch : P (kern s) -> exists s', console_putc ch s = Some (tt, s') /\ said P outp s [ch] s'.
Proof.
  intros HP. destruct (rd_putc _ _ _ _ HF (kern s) ch HP) as (k' & E & HP' & Ho).
  unfold console_putc, out. rewrite E. bind. eexists. split; [done|]. by split_and!.
Qed.

Lemma bind_run {A B} (m : M A) (g : A -> M B) s x s' : m s = Some (x, s') -> (m ≫= g) s = g x s'.
Proof. intros E. unfold mbind, M_bind. by rewrite E. Qed.

Lemma put_bytes_said buf m : forall i s, P (kern s) -> (i + m <= length buf)%nat ->
  exists s', each (seqZ (Z.of_nat i) (Z.of_nat m))
    (fun i => match buf !! Z.to_nat i with Some ch => console_putc ch | None => fault end) s = Some (tt, s') /\
  said P outp s (take m (drop i buf)) s'.
Proof.
  induction m as [|m IH]; intros i s HP Hl.
  - exists s. split; [done|]. cbn. by split_and!; rewrite ?app_nil_r.
  - rewrite Nat2Z.inj_succ, <- Z.add_1_r, seqZ_cons by lia. cbn [each]. rewrite Nat2Z.id.
    destruct (lookup_lt_is_Some_2 buf i) as [ch Hch]; [lia|]. rewrite Hch.
    destruct (putc_said s ch HP) as (s1 & E1 & S1). rewrite (bind_run _ _ _ _ _ E1).
    replace (Z.pred (Z.of_nat m + 1)) with (Z.of_nat m) by lia.
    replace (Z.succ (Z.of_nat i)) with (Z.of_nat (S i)) by lia.
    destruct (IH (S i) s1) as (s2 & E2 & S2); [apply S1|lia|]. exists s2. split; [done|].
    rewrite (drop_S _ _ _ Hch). cbn [take]. exact (said_trans _ _ _ _ _ S1 S2).
Qed.

Lemma cat_loop_said fuel : forall off s, P (kern s) -> 0 <= off <= Z.of_nat (length f) ->
  Z.of_nat (length f) < 2^63 -> Z.of_nat (length f) - off + 256 <= 256 * Z.of_nat fuel ->
  exists s', cat_loop fuel n off s = Some (tt, s') /\ said P outp s (drop (Z.to_nat off) f) s'.
Proof.
  induction fuel as [|fuel IH]; intros off s HP Ho Hb Hf; [lia|]. cbn [cat_loop].
  destruct (rd_file _ _ _ _ HF (kern s) off 256 HP) as (junk & k' & E & HP' & Hout); [lia|lia|].
  cbn zeta in E. set (b := take _ _) in E.
  assert (Hlb : Z.of_nat (length b) = Z.min 256 (Z.of_nat (length f) - off)).
  { unfold b. rewrite length_take, length_drop. lia. }
  set (s1 := MkShell (s_cwd_mnt s) (s_cwd_path s) k').
  assert (Ec : call (vfs_read n off 256) s = Some ((Z.of_nat (length b), b ++ junk), s1)) by (unfold call; by rewrite E).
  rewrite (bind_run _ _ _ _ _ Ec). destruct (Z.leb_spec (Z.of_nat (length b)) 0).
  - exists s1. split; [done|]. rewrite drop_ge by lia. split_and!; try done. by rewrite app_nil_r.
  - destruct (put_bytes_said (b ++ junk) (length b) 0 s1) as (s2 & E2 & S2);
      [done|rewrite length_app; lia|]. unfold put_bytes.
    rewrite (bind_run _ _ _ _ _ E2). rewrite add64_small by lia.
    destruct (IH (off + Z.of_nat (length b)) s2) as (s3 & E3 & S3); [apply S2|lia|lia|lia|].
    exists s3. split; [done|]. rewrite drop_0, take_app_length in S2.
    pose proof (said_trans _ _ _ _ _ S2 S3) as S4. replace (drop (Z.to_nat off) f) with
      (b ++ drop (Z.to_nat (off + Z.of_nat (length b))) f).
    { destruct S4 as (A1 & A2 & A3 & A4). split_and!; [done|done|done|]. rewrite A4. cbn. by rewrite Hout. }
    unfold b at 1. rewrite <- (take_drop (Z.to_nat 256) (drop (Z.to_nat off) f)) at 2. f_equal.
    rewrite drop_drop. destruct (Z.le_gt_cases 256 (Z.of_nat (length f) - off)).
    + f_equal. lia.
    + rewrite !drop_ge by lia. done.
Qed.

End files.

Lemma cat_spec `{HK : Kernel K} (fuel : nat) (args full : list Z) (s : shell (K := K)) (nd : Node) (k1 : K)
    (f : list Z) (P : K -> Prop) (outp : K -> list Z) :
  readable nd f P outp -> args <> [] -> full_path args s = Some (full, s) ->
  vfs_open full (kern s) = Some (Some nd, k1) -> P k1 -> outp k1 = outp (kern s) ->
  Z.of_nat (length f) < 2^63 -> (Z.of_nat (length f) + 255) / 256 + 1 <= Z.of_nat fuel ->
  exists s', cmd_cat fuel args s = Some (tt, s') /\ said P outp s (f ++ [10]) s'.
Proof.
  intros HF Ha Ep Eo HP Ho Hb Hf. unfold cmd_cat. rewrite bool_decide_eq_false_2 by done.
  rewrite (bind_run _ _ _ _ _ Ep).
  assert (Ec : call (vfs_open full) s = Some (Some nd, MkShell (s_cwd_mnt s) (s_cwd_path s) k1))
    by (unfold call; by rewrite Eo).
  rewrite (bind_run _ _ _ _ _ Ec). cbn iota.
  destruct (cat_loop_said nd f P outp HF fuel 0 (MkShell (s_cwd_mnt s) (s_cwd_path s) k1)) as (s2 & E2 & S2);
    [done|lia|done|zmod|].
  rewrite (bind_run _ _ _ _ _ E2). destruct (putc_said nd f P outp HF s2 10) as (s3 & E3 & S3); [apply S2|].
  exists s3. split; [exact E3|]. destruct (said_trans P outp _ _ _ _ _ S2 S3) as (A1 & A2 & A3 & A4).
  split_and!; [done|done|done|]. rewrite A4. cbn [kern]. by rewrite Ho.
Qed.

(** [cat] of a file ends, after one read for every started 256 bytes and one more,
    and prints
    its contents and a newline, provided the path resolves to it, reads return
    what the file holds, and the console records what is written. *)
Theorem cat_correct `{HK : Kernel K} (fuel : nat) (args full : list Z) (s : shell (K := K)) (nd : Node) (k1 : K)
    (f : list Z) (P : K -> Prop) (outp : K -> list Z) :
  readable nd f P outp -> args <> [] -> full_path args s = Some (full, s) ->
  vfs_open full (kern s) = Some (Some nd, k1) -> P k1 -> outp k1 = outp (kern s) ->
  Z.of_nat (length f) < 2^63 -> (Z.of_nat (length f) + 255) / 256 + 1 <= Z.of_nat fuel ->
  exists s', cmd_cat fuel args s = Some (tt, s') /\ said P outp s (f ++ [10]) s'.
Proof. apply cat_spec. Qed.

Lemma demo_readable : readable demo_node (str "hello") (fun k => d_file k = str "hello") d_out.
Proof.
  constructor.
  - intros k off len Hk _ _. exists [], k. cbn. unfold d_read. rewrite Hk, app_nil_r. done.
  - intros k ch Hk. eexists. split; [done|]. by split.
Qed.

Lemma cat_correct_witness : exists s',
  cmd_cat 2 (str "a.txt") (demo_at (str "root") []) = Some (tt, s') /\
  d_out (kern s') = str "hello" ++ [10].
Proof.
  destruct (cat_correct 2 (str "a.txt") (str "root:/a.txt") (demo_at (str "root") []) demo_node
    (kern (demo_at [] [])) (str "hello") _ d_out demo_readable) as (s' & E & S);
    [discriminate|vm_compute; reflexivity|reflexivity|reflexivity|reflexivity|cbn; lia|vm_compute; discriminate|].
  exists s'. split; [exact E|]. apply S.
Defined.

(** ** [fill] *)

Section fill.
Context `{HK : Kernel K} (n : Node).
Implicit Types s : shell (K := K).

(** While [P] holds, writes to [n] within [file k] or at its end are complete,
    up to [cap] bytes. *)
Definition writable (P : K -> Prop) (file : K -> list Z) (cap : Z) : Prop :=
  forall k off b, P k -> 0 <= off <= Z.of_nat (length (file k)) -> Forall is_u8 b -> (length b <= 512)%nat ->
    off + Z.of_nat (length b) <= cap -> exists k',
    vfs_write n off b k = Some (Z.of_nat (length b), k') /\ P k' /\
    file k' = take (Z.to_nat off) (file k) ++ b ++ drop (Z.to_nat off + length b) (file k).

Lemma fill_loop_spec P file old ch sz cap : writable P file cap -> is_u8 ch -> sz <= cap -> sz < 2^63 -> forall fuel off s,
  P (kern s) -> 0 <= off <= sz -> sz - off <= 512 * Z.of_nat fuel ->
  file (kern s) = replicate (Z.to_nat off) ch ++ drop (Z.to_nat off) old ->
  exists s', fill_loop fuel n ch sz off s = Some (sz, s') /\ P (kern s') /\
    file (kern s') = replicate (Z.to_nat sz) ch ++ drop (Z.to_nat sz) old.
Proof.
  intros HW Hch Hcap Hsz. induction fuel as [|fuel IH]; intros off s HP Ho Hf Hfile; cbn [fill_loop].
  - replace off with sz in * by lia. rewrite Z.ltb_irrefl. by exists s.
  - destruct (Z.ltb_spec off sz) as [Hlt|]; [|replace off with sz in * by lia; by exists s].
    set (towr := if 512 <? sz - off then 512 else sz - off).
    assert (Ht : 0 < towr <= 512 /\ towr <= sz - off /\ (towr = 512 \/ towr = sz - off))
      by (unfold towr; destruct (Z.ltb_spec 512 (sz - off)); lia).
    set (b := replicate (Z.to_nat towr) ch). assert (Hlb : length b = Z.to_nat towr) by apply length_replicate.
    assert (Hlen : length (file (kern s)) = (Z.to_nat off + (length old - Z.to_nat off))%nat)
      by (rewrite Hfile, length_app, length_replicate, length_drop; lia).
    destruct (HW (kern s) off b HP) as (k' & E & HP' & Hk'); [lia|by apply Forall_replicate|lia|lia|].
    set (s1 := MkShell (s_cwd_mnt s) (s_cwd_path s) k').
    assert (Ec : call (vfs_write n off b) s = Some (Z.of_nat (length b), s1)) by (unfold call; by rewrite E).
    rewrite (bind_run _ _ _ _ _ Ec). rewrite (proj2 (Z.ltb_ge _ 0)) by lia.
    replace (Z.of_nat (length b)) with towr by lia. rewrite add64_small by lia.
    apply IH; [done|lia|lia|]. cbn [kern s1]. rewrite Hk', Hfile, Hlb.
    rewrite take_app_length' by (by rewrite length_replicate).
    rewrite drop_app_ge, drop_drop, length_replicate by (rewrite length_replicate; lia).
    rewrite app_assoc. unfold b. rewrite <- replicate_add. f_equal; [f_equal; lia|f_equal; lia].
Qed.

(** While [P] holds, writes stop at [lim]: they return 0 from there on. *)
Definition limited (P : K -> Prop) (lim : Z) : Prop := forall k off b,
  P k -> 0 <= off <= lim -> Forall is_u8 b -> (length b <= 512)%nat ->
  exists rc k', vfs_write n off b k = Some (rc, k') /\ P k' /\ 0 <= rc <= lim - off.

Lemma fill_loop_none P lim ch sz : limited P lim -> is_u8 ch -> lim < sz < 2^63 -> forall fuel off s,
  P (kern s) -> 0 <= off <= lim -> fill_loop fuel n ch sz off s = None.
Proof.
  intros HL Hch Hsz. induction fuel as [|fuel IH]; intros off s HP Ho; cbn [fill_loop];
    rewrite (proj2 (Z.ltb_lt off sz)) by lia; [done|]. set (b := replicate _ ch).
  destruct (HL (kern s) off b HP Ho (Forall_replicate _ _ _ Hch)) as (rc & k' & E & HP' & Hr).
  { unfold b. rewrite length_replicate. destruct (Z.ltb_spec 512 (sz - off)); lia. }
  set (s1 := MkShell (s_cwd_mnt s) (s_cwd_path s) k').
  assert (Ec : call (vfs_write n off b) s = Some (rc, s1)) by (unfold call; by rewrite E).
  rewrite (bind_run _ _ _ _ _ Ec). rewrite (proj2 (Z.ltb_ge rc 0)) by lia.
  rewrite add64_small by lia. apply IH; [done|lia].
Qed.

End fill.

(** The loop of [fill] writes [sz] bytes of [ch] over the start of a file
    whose writes are complete, after one write for every started 512 bytes; on a
    file whose writes stop at a limit below [sz], as those of a device node do at
    the end of the device, it never ends: no amount of fuel is enough. *)
Theorem fill_correct `{HK : Kernel K} (n : Node) (P : K -> Prop) (file : K -> list Z) (ch sz cap lim : Z)
    (s : shell (K := K)) :
  0 <= sz < 2^63 -> is_u8 ch ->
  (writable n P file cap -> sz <= cap -> P (kern s) -> forall fuel, sz <= 512 * Z.of_nat fuel -> exists s',
     fill_loop fuel n ch sz 0 s = Some (sz, s') /\
     file (kern s') = replicate (Z.to_nat sz) ch ++ drop (Z.to_nat sz) (file (kern s))) /\
  (limited n P lim -> 0 <= lim < sz -> P (kern s) -> forall fuel, fill_loop fuel n ch sz 0 s = None).
Proof.
  intros Hsz Hch. split.
  - intros HW Hcap HP fuel Hf.
    destruct (fill_loop_spec n P file (file (kern s)) ch sz cap HW Hch Hcap ltac:(lia) fuel 0 s) as (s' & E & _ & Hs');
      [done|lia|lia|by rewrite drop_0|]. by exists s'.
  - intros HL Hlim HP fuel. apply (fill_loop_none n P lim); [done|done|lia|done|lia].
Qed.

Lemma demo_writable : writable demo_node (fun _ => True) d_file 1024.
Proof.
  intros k off b _ Ho _ _ Hb. eexists. cbn. unfold d_write. rewrite take_ge by lia. split; [done|]. by split.
Qed.

Lemma demo_limited : limited demo_node (fun _ => True) 1024.
Proof. intros k off b _ Ho _ _. eexists _, _. split; [reflexivity|]. split; [done|]. rewrite length_take. lia. Qed.

Lemma fill_correct_witness :
  (exists s', fill_loop 2 demo_node 65 600 0 (demo_at (str "root") []) = Some (600, s')) /\
  (forall fuel, fill_loop fuel demo_node 65 2000 0 (demo_at (str "root") []) = None).
Proof.
  split.
  - destruct (fill_correct demo_node (fun _ => True) d_file 65 600 1024 1024 (demo_at (str "root") [])) as [H _]; [lia|unfold is_u8; lia|].
    destruct (H demo_writable ltac:(lia) I 2%nat ltac:(lia)) as (s' & E & _). by exists s'.
  - apply (fill_correct demo_node (fun _ => True) d_file 65 2000 1024 1024 (demo_at (str "root") [])); [lia|unfold is_u8; lia| |lia|done].
    apply demo_limited.
Defined.

(** ** [cd] *)

Section cd.
Context `{HK : Kernel K}.
Implicit Types s : shell (K := K).

Lemma break_slash_app m r : 47 ∉ m -> break_at SLASH (m ++ 47 :: r) = (m, 47 :: r).
Proof.
  induction m as [|c m IH]; intros H; cbn [app break_at]; [done|]. apply not_elem_of_cons in H as [H1 H2].
  unfold SLASH at 1. rewrite (proj2 (Z.eqb_neq c 47)) by congruence. by rewrite IH.
Qed.

(** A path below the root of the tree, and where it leads. *)
Lemma translate_mount s m rest : 47 ∉ m -> m <> [] -> (length m <= 7)%nat -> (length rest <= 119)%nat ->
  vfs_has_mount (kern s) m = true \/ vfs_has_mount (kern s) (str "root") = true ->
  translate_unix_path (47 :: m ++ 47 :: rest) 192 s =
    Some (Some (if vfs_has_mount (kern s) m then m ++ [58; 47] ++ rest
                else str "root" ++ [58; 47] ++ m ++ 47 :: rest), s).
Proof.
  intros Hs Hne Hm Hr Hh. unfold translate_unix_path. change (192 <? 2) with false. cbn iota.
  assert (Hx : exists c l, m ++ 47 :: rest = c :: l) by (destruct m as [|x m]; [done|exists x, (m ++ 47 :: rest); reflexivity]).
  destruct Hx as (c & l & Ex). rewrite Ex. cbn iota. rewrite <- Ex. rewrite break_slash_app by done.
  rewrite (take_ge m) by lia. rewrite drop_app_length.
  assert (Hl : (str_len m <=? 0) = false) by (apply Z.leb_gt; unfold str_len; destruct m; [done|cbn; lia]).
  rewrite Hl. cbn [negb andb]. rewrite (bind_run (gets _) _ s _ s eq_refl).
  change (192 - 1) with 191.
  destruct (vfs_has_mount (kern s) m).
  - change (47 =? SLASH) with true. cbn iota. rewrite (append_fits [] m) by (cbn; lia).
    rewrite app_nil_l, (append_fits m) by (cbn; lia).
    rewrite (append_fits (m ++ [COLON])) by (rewrite length_app; cbn; lia).
    rewrite append_fits by (rewrite !length_app; cbn; lia). by rewrite <- !app_assoc.
  - destruct Hh as [|Hroot]; [done|]. rewrite (bind_run (gets _) _ s _ s eq_refl), Hroot.
    rewrite (bind_run (gets _) _ s _ s eq_refl).
    change (match str "root" with [] => mret None | z :: l0 =>
        mret (Some (append (append (append [] (z :: l0) 191) [COLON] 191) (47 :: m ++ 47 :: rest) 191)) end)
      with (@mret (@M K) _ _ (Some (append (str "root" ++ [58]) (47 :: m ++ 47 :: rest) 191))).
    rewrite append_fits; [by rewrite <- app_assoc|]. change (length (str "root" ++ [58])) with 5%nat.
    cbn [length]. rewrite length_app. cbn [length]. lia.
Qed.

Lemma set_cwd_path s m p : 58 ∉ m -> (length m <= 7)%nat -> (length p <= 127)%nat ->
  set_cwd_from_path (m ++ [58; 47] ++ p) s = Some (tt, MkShell m p (kern s)).
Proof.
  intros Hc Hm Hp. unfold set_cwd_from_path. cbn [app]. rewrite break_colon by done.
  change (47 =? SLASH) with true. cbn iota. unfold set_cwd, str_copy.
  change (Z.to_nat (128 - 1)) with 127%nat. by rewrite !take_ge by lia.
Qed.

(** [cd] of an absolute path other than the root. *)
Lemma cd_absolute s c l full s1 : c <> 0 -> (length l <= 126)%nat ->
  translate_unix_path (47 :: c :: l) 192 s = Some (Some full, s1) -> full <> [] ->
  cmd_cd (47 :: c :: l) s = set_cwd_from_path full s1.
Proof.
  intros Hc Hl Et Hf. unfold cmd_cd. rewrite bool_decide_eq_false_2 by done.
  assert (Eq : streq (47 :: c :: l) "/" = false) by (apply Z.eqb_neq; exact Hc). rewrite Eq.
  change (existsb (Z.eqb SLASH) (47 :: c :: l)) with true. cbn [negb andb].
  assert (Eu : forall a b, cd_unix_path a b (47 :: c :: l) = Some (47 :: c :: l)).
  { intros a b. unfold cd_unix_path, str_copy. rewrite take_ge; [done|]. cbn [length]. lia. }
  rewrite (bind_run _ _ s (Some full) s1); [by destruct full|].
  rewrite (bind_run (gets _) _ s _ s eq_refl), (bind_run (gets _) _ s _ s eq_refl), Eu. exact Et.
Qed.

End cd.

(** [cd] to an absolute path goes to the mount of its first component if there
    is one, and into the root mount otherwise; [ls] then opens that directory. *)
Theorem cd_correct `{HK : Kernel K} (s : shell (K := K)) (m rest : list Z) :
  47 ∉ m -> 58 ∉ m -> 0 ∉ m -> m <> [] -> (length m <= 7)%nat -> (length rest <= 118)%nat ->
  vfs_has_mount (kern s) m = true \/ vfs_has_mount (kern s) (str "root") = true ->
  let '(mnt, path) := if vfs_has_mount (kern s) m then (m, rest) else (str "root", m ++ 47 :: rest) in
  cmd_cd (47 :: m ++ 47 :: rest) s = Some (tt, MkShell mnt path (kern s)) /\
  cwd_full mnt path = mnt ++ [58; 47] ++ path.
Proof.
  intros Hs Hc Hz Hne Hm Hr Hh. pose proof (translate_mount s m rest Hs Hne Hm ltac:(lia) Hh) as Et.
  destruct m as [|c m]; [done|]. apply not_elem_of_cons in Hz as [Hc0 _]. cbn [length] in Hm.
  set (mp := if vfs_has_mount (kern s) (c :: m) then (c :: m, rest) else (str "root", (c :: m) ++ 47 :: rest)).
  assert (Hmp : (58 ∉ fst mp) /\ (length (fst mp) <= 7)%nat /\ (length (snd mp) <= 127)%nat).
  { unfold mp. destruct (vfs_has_mount (kern s) (c :: m)); cbn [fst snd].
    - split; [done|]. cbn [length]. lia.
    - split; [by apply (bool_decide_unpack _)|]. split; [cbn; lia|]. rewrite length_app. cbn [length]. lia. }
  assert (Hfull : translate_unix_path (47 :: (c :: m) ++ 47 :: rest) 192 s
    = Some (Some (mp.1 ++ [58; 47] ++ mp.2), s)) by (rewrite Et; unfold mp; by destruct (vfs_has_mount (kern s) (c :: m))).
  clearbody mp. destruct mp as [mnt path]. cbn [fst snd] in *. destruct Hmp as (H1 & H2 & H3). split.
  - rewrite <- (set_cwd_path s mnt path H1 H2 H3). apply (cd_absolute s c (m ++ 47 :: rest)); [congruence| |exact Hfull|].
    + rewrite length_app. cbn [length]. lia.
    + by destruct mnt.
  - unfold cwd_full. rewrite (append_fits [] mnt), app_nil_l by (cbn; lia).
    rewrite (append_fits mnt) by (cbn; lia). rewrite (append_fits (mnt ++ [COLON])) by (rewrite length_app; cbn; lia).
    rewrite append_fits by (rewrite !length_app; cbn; lia). by rewrite <- !app_assoc.
Qed.

Lemma cd_correct_witness :
  cmd_cd (str "/dev/ram0") (demo_at (str "root") []) = Some (tt, demo_at (str "dev") (str "ram0")) /\
  cwd_full (str "dev") (str "ram0") = str "dev:/ram0".
Proof.
  refine (cd_correct (demo_at (str "root") []) (str "dev") (str "ram0") _ _ _ _ _ _ _).
  - by apply (bool_decide_unpack _).
  - by apply (bool_decide_unpack _).
  - by apply (bool_decide_unpack _).
  - discriminate.
  - cbn. lia.
  - cbn. lia.
  - by left.
Defined.

(** [cd mount:path] does not go to the mount, although the message of [cd] asks for
    this form: the argument is taken as a relative path. *)
Example cd_mount_colon :
  cmd_cd (str "dev:/ram0") (demo_at (str "root") []) = Some (tt, demo_at (str "root") (str "dev:/ram0")).
Proof. vm_compute. reflexivity. Qed.

(** [cd ..] makes [..] the mount. *)
Example cd_dotdot :
  cmd_cd (str "..") (demo_at (str "root") (str "a")) = Some (tt, demo_at (str "..") []).
Proof. vm_compute. reflexivity. Qed.

(** The help lists commands that do not exist. *)
Example help_memtest :
  shell_handle_line 8 (str "memtest quick") (demo_at (str "root") [])
  = console_writeln "unknown command. type 'help'" (demo_at (str "root") []).
Proof. vm_compute. reflexivity. Qed.

End ShellProps.
