(* ===== verification/Kmain.v ===== *)
(** * Kernel entry ([src/kernel64/kmain64.c])

    How [kmain64] composes the parts: the memory map it prints, the physical
    memory it reserves before the page tables are built, the root file system it
    chooses.  The boot information is a byte memory; the page tables of the loader
    are read as 64-bit words, like those of vmm.c.  The lines logged on the serial
    port are left out. *)

From stdpp Require Import strings.
From S2P Require Import Prelude Mb2 Pmm PmmSpec PmmInit FrameAlloc Vmm VmmSpec VmmProps.
From S2P Require Import Sched Pci Terminal Shell.

Module Kmain.

Import Mb2 Terminal.

(** ** Banner *)

Section banner.
Context `{HT : Terminal C} (cpuid : Z -> Z -> Z * Z * Z * Z).

(** The bytes of a register, and a string in an array of registers. *)
Definition reg_bytes (r : Z) : list Z := map (fun i => u8 (Z.shiftr r (8 * i))) [0; 1; 2; 3].
Fixpoint before_nul (s : list Z) : list Z :=
  match s with
  | c :: s' => if c =? 0 then [] else c :: before_nul s'
  | [] => []
  end.

Definition print_vendor (c : C) : option C :=
  let '(_, ebx, ecx, edx) := cpuid 0 0 in
  c ← say c "CPU vendor: ";
  c ← t_write c (before_nul (reg_bytes ebx ++ reg_bytes edx ++ reg_bytes ecx));
  t_write c [10].

Definition brand_part (leaf : Z) : list Z :=
  let '(eax, ebx, ecx, edx) := cpuid leaf 0 in
  reg_bytes eax ++ reg_bytes ebx ++ reg_bytes ecx ++ reg_bytes edx.

Definition print_brand (c : C) : option C :=
  c ← say c "CPU brand:  ";
  c ← t_write c (before_nul (brand_part 0x80000002 ++ brand_part 0x80000003 ++ brand_part 0x80000004));
  t_write c [10].

Definition print_features (c : C) : option C :=
  let '(_, _, ecx, edx) := cpuid 1 0 in
  c ← say c "Features ECX="; c ← t_write_hex64 c ecx;
  c ← say c " EDX="; c ← t_write_hex64 c edx; t_write c [10].

(** cpuid.h: the APIC id and the number of logical processors. *)
Definition cpuid_initial_apic_id : Z :=
  let '(_, ebx, _, _) := cpuid 1 0 in Z.land (Z.shiftr ebx 24) 0xFF.

Definition cpuid_logical_processor_count : Z :=
  let '(max, _, _, _) := cpuid 0 0 in
  if 0x0B <=? max then
    let '(_, ebx, _, _) := cpuid 0x0B 0 in
    let count := Z.land ebx 0xFFFF in
    if count =? 0 then 1 else count
  else if 1 <=? max then
    let '(_, ebx, _, _) := cpuid 1 0 in
    let count := Z.land (Z.shiftr ebx 16) 0xFF in
    if count =? 0 then 1 else count
  else 1.

(** The first EFI map and the first legacy map, or 0. *)
Fixpoint find_maps (fuel : nat) (m : mem) (t efi mmap : Z) : option (Z * Z) :=
  match fuel with
  | O => None
  | S fuel' =>
      if (t =? 0) || (tag_type m t =? MB2_TAG_END) then Some (efi, mmap)
      else
        let efi := if (tag_type m t =? MB2_TAG_EFI_MMAP) && (efi =? 0) then t else efi in
        let mmap := if (tag_type m t =? MB2_TAG_MMAP) && (mmap =? 0) then t else mmap in
        find_maps fuel' m (mb2_next_tag m t) efi mmap
  end.

Definition print_range (c : C) (base len : Z) (usable : bool) : option C :=
  c ← say c "  "; c ← t_write_hex64 c base; c ← say c " + "; c ← t_write_hex64 c len;
  sayln c (if usable then "  [USABLE]" else "  [RESV]").

(** Totals of usable and of other memory. *)
Definition add_total (usable : bool) (bytes : Z) '((ram, resv) : Z * Z) : Z * Z :=
  if usable then ((ram + bytes)%u64, resv) else (ram, (resv + bytes)%u64).

Definition print_efi (m : mem) (efi : Z) (s : Z * Z * C) : option (Z * Z * C) :=
  for_range 0 (mb2_efi_desc_count m efi) (fun i '(tot, c) =>
    let d := mb2_efi_first_desc efi + u32 (i * efi_desc_size m efi) in
    let bytes := (efi_NumberOfPages m d * 4096)%u64 in
    let usable := efi_Type m d =? 7 in
    c ← print_range c (efi_PhysicalStart m d) bytes usable;
    Some (add_total usable bytes tot, c)) s.

Fixpoint print_mmap (fuel : nat) (m : mem) (t offset : Z) (tot : Z * Z) (c : C) : option (Z * Z * C) :=
  match fuel with
  | O => None
  | S fuel' =>
      if u32 (offset + mmap_entry_size m t) <=? tag_size m t then
        let e := t + offset in
        let usable := mmap_type m e =? 1 in
        c ← print_range c (mmap_base_addr m e) (mmap_length m e) usable;
        print_mmap fuel' m t (u32 (offset + mmap_entry_size m t)) (add_total usable (mmap_length m e) tot) c
      else Some (tot, c)
  end.

(** The fallback: basic memory information. *)
Fixpoint print_basic (fuel : nat) (m : mem) (t : Z) (tot : Z * Z) (c : C) : option (Z * Z * C) :=
  match fuel with
  | O => None
  | S fuel' =>
      if (t =? 0) || (tag_type m t =? MB2_TAG_END) then Some (tot, c)
      else if tag_type m t =? MB2_TAG_BASIC_MEMINFO then
        c ← sayln c "  (basic meminfo used)";
        Some (mem_lower m t * 1024 + mem_upper m t * 1024, tot.2, c)
      else print_basic fuel' m (mb2_next_tag m t) tot c
  end.

Definition print_memory_map (fuel : nat) (m : mem) (mb2_addr : Z) (c : C) : option C :=
  c ← sayln c "Memory map:";
  '(efi, mmap) ← find_maps fuel m (mb2_first_tag mb2_addr) 0 0;
  '(tot, c) ←
    (if negb (efi =? 0) then print_efi m efi (0, 0, c)
     else if negb (mmap =? 0) then print_mmap fuel m mmap 16 (0, 0) c
     else Some (0, 0, c));
  '(tot, c) ←
    (if (tot.1 =? 0) && (tot.2 =? 0) then print_basic fuel m (mb2_first_tag mb2_addr) tot c
     else Some (tot, c));
  c ← say c "Total RAM: "; c ← t_write_hex64 c tot.1; c ← sayln c " bytes";
  c ← say c "Reserved:  "; c ← t_write_hex64 c tot.2; sayln c " bytes".

End banner.

(** ** Memory *)

Definition pmm_reserve_if (b : bool) (st : Pmm.pmm) (paddr size : Z) : option Pmm.pmm :=
  if b then Pmm.pmm_reserve st paddr size else Some st.

(** The tables of the loader: the root, the first pointer table and its first four
    directories. *)
Definition loader_pdpt (phys : mem) (loader_pml4 : Z) : Z := Vmm.frame_of (rd phys loader_pml4).
Definition loader_pd (phys : mem) (loader_pml4 i : Z) : Z :=
  Vmm.frame_of (rd phys (loader_pdpt phys loader_pml4 + 8 * i)).

(** [pmm_init] and the reservations; [cr3] is the root the loader left. *)
Definition reserve_boot (fuel : nat) (m : mem) (mb_addr : Z) (bss phys : mem) (cr3 kstart kend : Z)
    : option Pmm.pmm :=
  let loader_pml4 := cr3 in
  st ← Pmm.pmm_init fuel m mb_addr false bss;
  let mb_total := rd32 m mb_addr in
  st ← pmm_reserve_if (negb (mb_addr =? 0) && ((0 <? mb_total) && (mb_total <? Z.shiftl 16 20)))
         st mb_addr mb_total;
  st ← pmm_reserve_if (kstart <? kend) st kstart (kend - kstart);
  st ← Pmm.pmm_reserve st loader_pml4 4096;
  st ← Pmm.pmm_reserve st (loader_pdpt phys loader_pml4) 4096;
  for_range 0 4 (fun i st =>
    pmm_reserve_if (negb (loader_pd phys loader_pml4 i =? 0)) st (loader_pd phys loader_pml4 i) 4096) st.

Definition bring_up (fuel : nat) (m : mem) (mb_addr : Z) (bss phys : mem) (cr3 kstart kend : Z)
    : option (Vmm.vmm Pmm.pmm) :=
  st ← reserve_boot fuel m mb_addr bss phys cr3 kstart kend;
  Vmm.vmm_init_identity (Vmm.MkVmm 0 cr3 phys [] st).

(** ** The root file system *)

(** Whether the string at [p] contains "root". *)
Fixpoint has_root (fuel : nat) (m : mem) (p : Z) : option bool :=
  match fuel with
  | O => None
  | S fuel' =>
      if rd8 m p =? 0 then Some false
      else if (rd8 m p =? 114) && (rd8 m (p + 1) =? 111) && (rd8 m (p + 2) =? 111) && (rd8 m (p + 3) =? 116)
      then Some true
      else has_root fuel' m (p + 1)
  end.

(** The first module with such a string, or 0. *)
Fixpoint root_module (fuel : nat) (m : mem) (t : Z) : option Z :=
  match fuel with
  | O => None
  | S fuel' =>
      if (t =? 0) || (tag_type m t =? MB2_TAG_END) then Some 0
      else
        hit ← (if tag_type m t =? MB2_TAG_MODULE then has_root fuel m (mb2_mod_string t) else Some false);
        if hit : bool then Some t else root_module fuel' m (mb2_next_tag m t)
  end.

#[local] Existing Instance Shell.kernel_terminal.

Section root.
Context `{HK : Shell.Kernel K} (block_scan_partitions : K -> option K)
  (memdisk_register : list Z -> Z -> Z -> Z -> Z -> K -> option (Z * K)).

(** Mount the module if there is one; the result is [mounted_from_module]. *)
Definition mount_module (fuel : nat) (m : mem) (mb_addr : Z) (k : K) : option (bool * K) :=
  t ← root_module fuel m (mb2_first_tag mb_addr);
  if t =? 0 then Some (false, k)
  else
    let start := mb2_mod_start m t in
    let end_ := mb2_mod_end m t in
    if start <? end_ then
      let bytes := end_ - start in
      k ← say k "[k64] MB2 module root.img start="; k ← t_write_hex64 k start;
      k ← say k " end="; k ← t_write_hex64 k end_; k ← say k " bytes="; k ← t_write_hex64 k bytes;
      k ← t_write k [10];
      '(rc, k) ← memdisk_register (str "iso0") start bytes 512 0 k;
      if rc =? 0 then
        '(rc, k) ← Shell.vfs_mount (str "exfat") (str "root") (str "iso0") k;
        Some (rc =? 0, k)
      else Some (false, k)
    else Some (false, k).

Definition setup_root (fuel : nat) (m : mem) (mb_addr : Z) (k : K) : option K :=
  k ← sayln k "Setting up root filesystem...";
  '(_, k) ← Shell.vfs_mount (str "devfs") (str "dev") [] k;
  '(_, k) ← Shell.ramdisk_create (str "ram0") (8 * 1024 * 1024) k;
  k ← block_scan_partitions k;
  '(_, k) ← Shell.exfat_format_device (str "ram0") (Some []) k;
  '(from_module, k) ← mount_module fuel m mb_addr k;
  if from_module : bool then Some k
  else '(_, k) ← Shell.vfs_mount (str "exfat") (str "root") (str "ram0") k; Some k.

End root.

(** ** What is protected *)

Import PmmFrameAlloc.

(** The frame of address [x]. *)
Definition page_of (x : Z) : Z := x / 4096 * 4096.

(** [st'] has the frames in use of [st], and those of the range. *)
Definition takes (st : Pmm.pmm) (paddr size : Z) (st' : Pmm.pmm) : Prop :=
  PmmSpec.inv st' /\ (forall q, owned st q -> owned st' q) /\
  forall x, paddr <= x < paddr + size -> owned st' (page_of x).

Lemma reserve_takes st paddr size :
  PmmSpec.inv st -> 0 <= paddr -> 0 <= size -> paddr + size + 4096 <= 2^64 ->
  exists st', Pmm.pmm_reserve st paddr size = Some st' /\ takes st paddr size st'.
Proof.
  intros Hi Hp Hs Hov.
  destruct (PmmSpec.pmm_reserve_marked st paddr size (PmmSpec.inv_acct _ Hi) Hp Hs Hov) as (st' & E & Hm).
  exists st'. split; [done|]. split; [by eapply PmmSpec.marked_used_inv|].
  pose proof (PmmSpec.marked_meta _ _ _ _ _ Hm) as (_ & Eb & _ & Ef).
  assert (Ea : forall i, PmmSpec.frame_addr st' i = PmmSpec.frame_addr st i)
    by (intros; unfold PmmSpec.frame_addr; by rewrite Eb).
  destruct Hm as (_ & _ & Hu). split.
  - intros q Hq (i & H1 & H2 & H3). apply Hq. exists i. rewrite Ef in H1. rewrite Ea in H2.
    split_and!; [lia|lia|done|]. rewrite Hu in H3 by lia. by destruct (_ && _).
  - intros x Hx (i & H1 & H2 & H3). rewrite Ef in H1. rewrite Ea in H2. rewrite Hu in H3 by lia.
    assert (Hin : PmmSpec.reserve_lo st paddr <= i < PmmSpec.reserve_hi st paddr size).
    { unfold PmmSpec.reserve_lo, PmmSpec.reserve_hi, PmmSpec.clip, PmmSpec.frame_addr, page_of in *.
      unfold Pmm.PMM_FRAME_SIZE in *. pose proof (PmmSpec.wf_base_al _ (PmmSpec.inv_wf _ Hi)) as Hal.
      unfold Pmm.PMM_FRAME_SIZE in Hal. zmod. }
    rewrite (proj2 (Z.leb_le _ _)), (proj2 (Z.ltb_lt _ _)) in H3 by lia. done.
Qed.

Lemma takes_refl st p : PmmSpec.inv st -> takes st p 0 st.
Proof. intros Hi. split; [done|]. split; [done|]. intros x Hx. lia. Qed.

Lemma reserve_if_takes b st paddr size :
  PmmSpec.inv st -> 0 <= paddr -> 0 <= size -> paddr + size + 4096 <= 2^64 ->
  exists st', pmm_reserve_if b st paddr size = Some st' /\ takes st paddr (if b then size else 0) st'.
Proof.
  intros Hi Hp Hs Hov. destruct b; [by apply reserve_takes|]. exists st. split; [done|by apply takes_refl].
Qed.

Lemma takes_trans st p n st1 p' n' st2 x : takes st p n st1 -> takes st1 p' n' st2 ->
  owned st1 (page_of x) -> owned st2 (page_of x).
Proof. intros _ (_ & H & _). apply H. Qed.

(** The boot state: readable boot information whose regions do not overlap, and
    addresses low enough for their ends not to wrap. *)
Record boot_ok (fuel : nat) (m : mem) (mb_addr : Z) (bss phys : mem) (cr3 kstart kend : Z) : Prop := BootOk {
  bo_mb2 : PmmInit.mb2_ok m mb_addr;
  bo_fuel : rd32 m mb_addr < Z.of_nat fuel;
  bo_regions st0 : Pmm.parse_mb2 fuel m mb_addr false (Pmm.Pmm [] 0 0 0 0 0 bss) = Some st0 ->
    PmmInit.disjoint_regions (Pmm.g_regions st0);
  bo_cr3 : 0 <= cr3 /\ cr3 + 8192 <= 2^64;
  bo_pdpt : 0 <= rd phys cr3 < 2^63;
  bo_pd i : 0 <= i < 4 -> 0 <= rd phys (loader_pdpt phys cr3 + 8 * i) < 2^63;
  bo_kernel : 0 <= kstart /\ kstart + 4096 <= 2^64 /\ kend + 4096 <= 2^64
}.

(** The addresses to keep: boot information, kernel image, tables of the loader. *)
Definition protected (m : mem) (mb_addr : Z) (phys : mem) (cr3 kstart kend x : Z) : Prop :=
  (mb_addr <= x < mb_addr + rd32 m mb_addr /\ rd32 m mb_addr < 2^24) \/
  kstart <= x < kend \/ cr3 <= x < cr3 + 4096 \/
  loader_pdpt phys cr3 <= x < loader_pdpt phys cr3 + 4096 \/
  exists i, 0 <= i < 4 /\ loader_pd phys cr3 i <> 0 /\
    loader_pd phys cr3 i <= x < loader_pd phys cr3 i + 4096.

Section boot.
Context (fuel : nat) (m : mem) (mb_addr : Z) (bss phys : mem) (cr3 kstart kend : Z).
Hypothesis Hok : boot_ok fuel m mb_addr bss phys cr3 kstart kend.

Lemma init_total : exists st, Pmm.pmm_init fuel m mb_addr false bss = Some st /\ PmmSpec.inv st.
Proof.
  destruct Hok. destruct (PmmInit.parse_mb2_total fuel m mb_addr false (Pmm.Pmm [] 0 0 0 0 0 bss) bo_mb3 bo_fuel0)
    as (rs & E & Hrs); [by constructor|].
  destruct (PmmInit.pmm_init_total fuel m mb_addr false bss rs E Hrs (bo_regions0 _ E)) as (st & E' & Hi & _).
  by exists st.
Qed.

Lemma frame_low e : 0 <= e < 2^63 -> 0 <= Vmm.frame_of e /\ Vmm.frame_of e + 4096 + 4096 <= 2^64.
Proof. intros He. rewrite VmmSpec.frame_of_eq by lia. zmod. Qed.

Lemma reserve_boot_spec : exists st,
  reserve_boot fuel m mb_addr bss phys cr3 kstart kend = Some st /\ PmmSpec.inv st /\
  forall x, protected m mb_addr phys cr3 kstart kend x -> owned st (page_of x).
Proof.
  destruct init_total as (st0 & E0 & I0). pose proof Hok as [B1 B2 B3 B4 B5 B6 B7].
  pose proof (PmmInit.ok_addr _ _ B1). pose proof (rd32_range m mb_addr).
  destruct (PmmInit.ok_adv _ _ B1) as (_ & _ & Hstop & _).
  unfold reserve_boot. rewrite E0. bind. change (Z.shiftl 16 20) with (2^24).
  set (b1 := negb _ && _).
  destruct (reserve_if_takes b1 st0 mb_addr (rd32 m mb_addr)) as (st1 & E1 & I1 & M1 & O1); [done|lia|lia|lia|].
  rewrite E1. bind.
  destruct (reserve_if_takes (kstart <? kend) st1 kstart (Z.max 0 (kend - kstart))) as (st2 & E2 & I2 & M2 & O2);
    [done|lia|lia|lia|].
  assert (E2' : pmm_reserve_if (kstart <? kend) st1 kstart (kend - kstart) = Some st2).
  { rewrite <- E2. unfold pmm_reserve_if. destruct (Z.ltb_spec kstart kend); [f_equal; lia|done]. }
  rewrite E2'. bind.
  destruct (reserve_takes st2 cr3 4096) as (st3 & E3 & I3 & M3 & O3); [done|lia|lia|lia|]. rewrite E3. bind.
  destruct (frame_low _ B5). destruct (reserve_takes st3 (loader_pdpt phys cr3) 4096) as (st4 & E4 & I4 & M4 & O4);
    [done|done|lia|done|]. rewrite E4. bind.
  destruct (for_range_inv (fun i st => PmmSpec.inv st /\ (forall q, owned st4 q -> owned st q) /\
      forall j x, 0 <= j < i -> loader_pd phys cr3 j <> 0 ->
        loader_pd phys cr3 j <= x < loader_pd phys cr3 j + 4096 -> owned st (page_of x))
    (fun i st => pmm_reserve_if (negb (loader_pd phys cr3 i =? 0)) st (loader_pd phys cr3 i) 4096)
    0 4 st4) as (st5 & E5 & I5 & M5 & O5).
  - lia.
  - split_and!; [done|done|]. intros j x Hj. lia.
  - intros i st Hi (J1 & J2 & J3). destruct (frame_low _ (B6 i Hi)).
    destruct (reserve_if_takes (negb (loader_pd phys cr3 i =? 0)) st (loader_pd phys cr3 i) 4096)
      as (st' & E' & I' & M' & O'); [done|done|lia|done|].
    exists st'. split; [done|]. split_and!; [done|by eauto|]. intros j x Hj Hnz Hx.
    destruct (decide (j = i)) as [->|]; [|apply M', (J3 j); [lia|done|done]].
    apply O'. rewrite (proj2 (Z.eqb_neq _ _) Hnz). exact Hx.
  - exists st5. split; [exact E5|]. split; [done|].
    intros x [[Hx Hb]|[Hx|[Hx|[Hx|(i & Hi & Hnz & Hx)]]]].
    + apply M5, M4, M3, M2, O1. replace b1 with true; [exact Hx|]. unfold b1.
      rewrite (proj2 (Z.eqb_neq mb_addr 0)), (proj2 (Z.ltb_lt 0 _)), (proj2 (Z.ltb_lt _ (2^24))) by lia. done.
    + apply M5, M4, M3, O2. rewrite (proj2 (Z.ltb_lt _ _)) by lia. lia.
    + apply M5, M4, O3. lia.
    + apply M5, O4. exact Hx.
    + by apply (O5 i).
Qed.

End boot.

(** C5. The memory bring-up of [kmain64] returns, and protects what is in use: when
    the new page tables are loaded, no table lies on the boot information, the
    kernel image or the tables of the loader, and the words of these frames are
    what they were; a prefix of the low 4 GiB translates to itself, all of it
    unless the memory is exhausted. *)
Theorem bring_up_correct fuel m mb_addr bss phys cr3 kstart kend :
  boot_ok fuel m mb_addr bss phys cr3 kstart kend ->
  exists st vm, reserve_boot fuel m mb_addr bss phys cr3 kstart kend = Some st /\
    bring_up fuel m mb_addr bss phys cr3 kstart kend = Some vm /\
    (avail st = 0 \/
     exists lv k, VmmSpec.vmm_inv vm (Vmm.g_cr3_phys vm) lv /\ Vmm.cr3 vm = Vmm.g_cr3_phys vm /\
       0 <= k <= 2^20 /\ (k < 2^20 -> avail (Vmm.pmm_state vm) = 0) /\
       VmmProps.identity_upto k (Vmm.phys vm) (Vmm.g_cr3_phys vm) /\
       forall x, protected m mb_addr phys cr3 kstart kend x ->
         (forall t l, lv !! t = Some l -> ~ t <= x < t + 4096) /\
         forall j, 0 <= j < 512 -> rd (Vmm.phys vm) (page_of x + 8 * j) = rd phys (page_of x + 8 * j)).
Proof.
  intros Hok. destruct (reserve_boot_spec _ _ _ _ _ _ _ _ Hok) as (st & E & Hi & Ho).
  unfold bring_up. rewrite E. bind.
  destruct (VmmProps.init_identity_spec (FA := pmm_frame_alloc) (Vmm.MkVmm 0 cr3 phys [] st) Hi) as (vm & Ev & H).
  exists st, vm. split; [done|]. split; [exact Ev|].
  destruct H as [[_ Hav]|(lv & k & Hinv & Hc & Hk & Hid & Hav & Hsp)]; [by left|right].
  exists lv, k. split_and!; [done|done|lia|lia|done|done|]. intros x Hx.
  destruct (Hsp (page_of x) (Ho x Hx) (lookup_empty _)) as (_ & Hn & Hw). split.
  - intros t l Hl Hxt. destruct (VmmSpec.wf_addr _ _ _ (VmmSpec.vi_wf _ _ _ Hinv) t l Hl) as [_ Hal].
    replace (page_of x) with t in Hn by (unfold page_of; zmod). congruence.
  - apply Hw. unfold page_of. apply Z.mod_mul. lia.
Qed.

(** The loader's root at 0x2000 with a pointer table at 0x3000 and a directory at
    0x4000; the kernel at 1 MiB. *)
Definition demo_tables : mem := wr (wr ∅ 0x2000 0x3003) 0x3000 0x4003.

Lemma demo_boot_ok kend : kend + 4096 <= 2^64 ->
  boot_ok 100 PmmInit.boot_map 0x1000 ∅ demo_tables 0x2000 0x100000 kend.
Proof.
  intros Hend.
  constructor; [exact PmmInit.boot_map_ok|by vm_compute| |lia|vm_compute; split; [discriminate|reflexivity]| |lia].
  - intros st0 E. assert (Hr : Pmm.g_regions st0 = [Pmm.Region 0 0x9F000; Pmm.Region 0x100000 0x80000]).
    { apply (f_equal (option_map Pmm.g_regions)) in E. vm_compute in E. by injection E. }
    rewrite Hr. split; [|by split]. constructor; [left; by vm_compute|done].
  - intros i Hi. assert (i = 0 \/ i = 1 \/ i = 2 \/ i = 3) as [->|[->|[->| ->]]] by lia;
      vm_compute; (split; [discriminate|reflexivity]).
Qed.

Lemma bring_up_correct_witness : exists st vm,
  reserve_boot 100 PmmInit.boot_map 0x1000 ∅ demo_tables 0x2000 0x100000 0x140000 = Some st /\
  bring_up 100 PmmInit.boot_map 0x1000 ∅ demo_tables 0x2000 0x100000 0x140000 = Some vm.
Proof.
  destruct (bring_up_correct _ _ _ _ _ _ _ _ (demo_boot_ok 0x140000 ltac:(lia))) as (st & vm & E1 & E2 & _).
  exists st, vm. split; [exact E1|exact E2].
Defined.

End Kmain.
