(* ===== verification/Rootfs.v ===== *)
(** * Root file system ([src/kernel64/fs/rootfs.c])

    A read-only file system with one directory, whose entries are fixed.  Opening
    it allocates the node and its data on the kernel heap. *)

From stdpp Require Import strings.
From S2P Require Import Prelude Kmalloc KmallocSpec KmallocProps Console Progress Terminal Devfs.

Module Rootfs.

Import Terminal.

Record rootfs_node := RNode { is_dir : Z; name : list Z; size : Z }.

Definition sizeof_rootfs_node : Z := 80.

(** Result and private data; [out_priv] is NULL or not. *)
Definition rootfs_mount (out_priv : bool) : Z * option Z :=
  if negb out_priv then (-1, None) else (0, Some 1).

Definition path_is_root (sub : option (list Z)) : bool :=
  match sub with
  | None => true
  | Some [] => true
  | Some [c] => c =? 47
  | Some _ => false
  end.

Definition rootfs_open (h : Kmalloc.kheap) (path : option (list Z))
    : option (option rootfs_node * Kmalloc.kheap) :=
  '(rn, h) ← Kmalloc.kmalloc h sizeof_rootfs_node;
  if rn =? 0 then Some (None, h)
  else
    '(vn, h) ← Kmalloc.kmalloc h Devfs.sizeof_vfs_node;
    if vn =? 0 then h ← Kmalloc.kfree h rn; Some (None, h)
    else if path_is_root path then Some (Some (RNode 1 [] 0), h)
    else
      h ← Kmalloc.kfree h vn;
      h ← Kmalloc.kfree h rn;
      Some (None, h).

Definition rootfs_stat (path : option (list Z)) : Z * option (Z * Z) :=
  if path_is_root path then (0, Some (0, 1)) else (-1, None).

Definition rootfs_read (off len : Z) : Z := -1.
Definition rootfs_write (off len : Z) : Z := -1.

Definition mount_names : list (list Z) := [str "dev"; str "root"].

(** [(int)maxlen - 1] bytes at most are copied; [name_out] is not NULL. *)
Definition rootfs_readdir (n : option rootfs_node) (idx maxlen : Z) : Z * option (list Z) :=
  match n with
  | None => (-1, None)
  | Some rn =>
      if maxlen =? 0 then (-1, None)
      else if is_dir rn =? 0 then (-1, None)
      else
        match mount_names !! Z.to_nat idx with
        | None => (0, None)
        | Some src => (1, Some (take (Z.to_nat (s32 maxlen - 1)) src))
        end
  end.

(** Two blocks fit after each other. *)
Definition room (h : Kmalloc.kheap) (a b : Z) : Prop :=
  exists p h1 q h2, Kmalloc.kmalloc h a = Some (p, h1) /\ p <> 0 /\ Kmalloc.kmalloc h1 b = Some (q, h2) /\ q <> 0.

(** The root directory opens as a directory with the two entries "dev" and
    "root", in this order and whatever is mounted; any other path is not found,
    and a failed open returns its memory: the heap has the blocks it had. *)
Theorem rootfs_correct h bs path :
  KmallocSpec.inv h bs -> room h sizeof_rootfs_node Devfs.sizeof_vfs_node ->
  exists n h', rootfs_open h path = Some (n, h') /\
    (path_is_root path = true -> exists rn, n = Some rn /\
       (forall maxlen, 16 <= maxlen < 2^31 ->
          rootfs_readdir n 0 maxlen = (1, Some (str "dev")) /\
          rootfs_readdir n 1 maxlen = (1, Some (str "root"))) /\
       (forall idx maxlen, 2 <= idx -> 0 < maxlen -> rootfs_readdir n idx maxlen = (0, None)) /\
       rootfs_stat path = (0, Some (size rn, is_dir rn))) /\
    (path_is_root path = false -> n = None /\ KmallocSpec.inv h' bs /\ rootfs_stat path = (-1, None)).
Proof.
  intros Hi (p & h1 & q & h2 & E1 & Hp & E2 & Hq). unfold rootfs_open, rootfs_stat.
  rewrite E1. bind. rewrite (proj2 (Z.eqb_neq _ _) Hp), E2. bind. rewrite (proj2 (Z.eqb_neq _ _) Hq).
  destruct (path_is_root path) eqn:Er.
  - eexists _, _. split; [done|]. split; [|done]. intros _. eexists. split; [done|]. split_and!.
    + intros maxlen Hm. unfold rootfs_readdir. rewrite (proj2 (Z.eqb_neq maxlen 0)) by lia.
      cbn [is_dir Z.eqb]. rewrite s32_small by lia. change (Z.to_nat 0) with 0%nat. change (Z.to_nat 1) with 1%nat.
      cbn [lookup list_lookup mount_names].
      assert (T : forall l : list Z, (length l <= 4)%nat -> take (Z.to_nat (maxlen - 1)) l = l)
        by (intros; apply take_ge; lia).
      rewrite !T by (vm_compute; lia). done.
    + intros idx maxlen Hx Hm. unfold rootfs_readdir. rewrite (proj2 (Z.eqb_neq maxlen 0)) by lia. cbn [is_dir Z.eqb].
      rewrite (lookup_ge_None_2 mount_names); [done|]. change (length mount_names) with 2%nat. lia.
    + done.
  - destruct (KmallocProps.malloc_free_any h bs sizeof_rootfs_node p h1 Hi ltac:(unfold sizeof_rootfs_node; lia) E1 Hp)
      as (bs1 & I1 & B1 & _ & F1).
    destruct (KmallocProps.malloc_free h1 bs1 Devfs.sizeof_vfs_node q h2 I1 ltac:(unfold Devfs.sizeof_vfs_node; lia) E2 Hq)
      as (h3 & E3 & I3 & B3 & _).
    rewrite E3. bind. destruct (F1 h3 I3 ltac:(congruence)) as (h4 & E4 & I4 & _). rewrite E4. bind.
    by exists None, h4.
Qed.

Lemma rootfs_correct_witness : exists h',
  rootfs_open KmallocProps.demo (Some (str "/x")) = Some (None, h') /\
  KmallocSpec.inv h' [(0x1E0, true)].
Proof.
  destruct (rootfs_correct KmallocProps.demo _ (Some (str "/x")) KmallocProps.kdemo_inv) as (n & h' & E & _ & H).
  - eexists _, _, _, _. split; [vm_compute; reflexivity|]. split; [discriminate|].
    split; [vm_compute; reflexivity|]. discriminate.
  - destruct (H eq_refl) as (-> & Hi & _). exists h'. split; [exact E|exact Hi].
Defined.

End Rootfs.
