(* ===== verification/Device.v ===== *)
(** * Device registry and keyboard driver ([src/kernel64/dev/])

    Devices are static objects linked by their [next] fields; the registry is the
    head of the list.  The keyboard driver polls the PS/2 controller. *)

From stdpp Require Import strings.
From S2P Require Import Prelude Console Progress Terminal Block Input.

Module Device.

Import Terminal.

(** ** Registry *)

Definition DEV_DISPLAY : Z := 1.
Definition DEV_KEYBOARD : Z := 2.

(** Devices are numbered; [next] is their link. *)
Record device := Dev { name : list Z; type : Z; next : option nat }.

Record registry := Reg { devs : gmap nat device; s_dev_list : option nat }.

Definition dev_register (r : registry) (dev : option nat) : option registry :=
  match dev with
  | None => Some r
  | Some i =>
      d ← devs r !! i;
      Some (Reg (<[i := Dev (name d) (type d) (s_dev_list r)]> (devs r)) (Some i))
  end.

(** The walk to the first device that satisfies [f]; [None] if it does not end,
    [Some None] is NULL. *)
Fixpoint walk (fuel : nat) (r : registry) (f : device -> bool) (d : option nat) : option (option nat) :=
  match d with
  | None => Some None
  | Some i =>
      match fuel with
      | O => None
      | S fuel' => x ← devs r !! i; if f x then Some (Some i) else walk fuel' r f (next x)
      end
  end.

Definition dev_first_of_type (fuel : nat) (r : registry) (ty : Z) : option (option nat) :=
  walk fuel r (fun d => type d =? ty) (s_dev_list r).

Definition dev_find_by_name (fuel : nat) (r : registry) (nm : option (list Z)) : option (option nat) :=
  match nm with
  | None => Some None
  | Some nm => walk fuel r (fun d => Block.name_eq (name d) nm) (s_dev_list r)
  end.

(** The two devices of the kernel and their registration. *)
Definition s_disp : device := Dev (str "console0") DEV_DISPLAY None.
Definition s_kb : device := Dev (str "ps2kbd0") DEV_KEYBOARD None.
Definition display_console_register (r : registry) : option registry := dev_register r (Some 0%nat).
Definition kb_ps2_register (r : registry) : option registry := dev_register r (Some 1%nat).

(** The operations of a display, and those of the console as one. *)
Record display_ops := DisplayOps {
  putc : Console.state -> Z -> option Console.state;
  write : Console.state -> list Z -> option Console.state;
  clear : Console.state -> option Console.state;
  set_color : Console.state -> Z -> Z -> option Console.state
}.
Definition d_putc (st : Console.state) (c : Z) : option Console.state := Console.console_putc st c.
Definition d_write (st : Console.state) (s : list Z) : option Console.state := Console.console_write st s.
Definition d_clear (st : Console.state) : option Console.state := Console.console_clear st.
Definition d_set_color (st : Console.state) (fg bg : Z) : option Console.state := Console.console_set_color st fg bg.
Definition s_ops : display_ops := DisplayOps d_putc d_write d_clear d_set_color.

(** The list from [d] is [l]. *)
Fixpoint chain (r : registry) (d : option nat) (l : list nat) : Prop :=
  match l with
  | [] => d = None
  | i :: l' => d = Some i /\ exists x, devs r !! i = Some x /\ chain r (next x) l'
  end.

Lemma chain_insert r i x l : forall d, i ∉ l -> chain r d l -> chain (Reg (<[i := x]> (devs r)) (Some i)) d l.
Proof.
  induction l as [|j l IH]; intros d Hi Hc; [done|]. apply not_elem_of_cons in Hi as [H1 H2].
  destruct Hc as [-> (y & Hy & Hc)]. split; [done|]. exists y. cbn. rewrite lookup_insert_ne by done.
  split; [done|]. by apply IH.
Qed.

(** The first of the list that satisfies [f]. *)
Fixpoint first (r : registry) (f : device -> bool) (l : list nat) : option nat :=
  match l with
  | [] => None
  | i :: l' => if from_option f false (devs r !! i) then Some i else first r f l'
  end.

Lemma walk_chain r f l : forall fuel d, chain r d l -> (length l <= fuel)%nat ->
  walk fuel r f d = Some (first r f l).
Proof.
  induction l as [|i l IH]; intros fuel d Hc Hf; cbn in Hc.
  - subst d. by destruct fuel.
  - destruct Hc as [-> (x & Hx & Hc)]. destruct fuel as [|fuel]; [cbn in Hf; lia|]. cbn [walk first].
    rewrite Hx. bind. cbn [from_option]. destruct (f x); [done|]. apply IH; [done|cbn in Hf; lia].
Qed.

(** A device that is its own successor. *)
Lemma walk_loop r f i x : devs r !! i = Some x -> next x = Some i -> f x = false ->
  forall fuel, walk fuel r f (Some i) = None.
Proof.
  intros Hx Hn Hf fuel. induction fuel as [|fuel IH]; [done|]. cbn [walk]. rewrite Hx. bind. by rewrite Hf, Hn.
Qed.

(** Registering a device that is not in the list puts it in front, and the
    lookups then end and find the latest registered device of a type or name.
    Registering the first device of the list again links it to itself: a lookup
    that does not stop at it never ends. *)
Theorem dev_registry_correct r l i :
  chain r (s_dev_list r) l -> is_Some (devs r !! i) ->
  exists r', dev_register r (Some i) = Some r' /\
    (i ∉ l -> chain r' (s_dev_list r') (i :: l) /\
      forall fuel, (length l < fuel)%nat ->
        (forall ty, dev_first_of_type fuel r' ty = Some (first r' (fun d => type d =? ty) (i :: l))) /\
        (forall nm, dev_find_by_name fuel r' (Some nm)
                    = Some (first r' (fun d => Block.name_eq (name d) nm) (i :: l)))) /\
    (head l = Some i -> forall fuel ty d, devs r !! i = Some d -> type d <> ty ->
       dev_first_of_type fuel r' ty = None).
Proof.
  intros Hc [x Hx]. unfold dev_register. rewrite Hx. bind. eexists. split; [done|]. split.
  - intros Hi. assert (Hc' : chain (Reg (<[i := Dev (name x) (type x) (s_dev_list r)]> (devs r)) (Some i)) (Some i) (i :: l)).
    { split; [done|]. eexists. cbn. rewrite lookup_insert_eq. split; [done|]. by apply chain_insert. }
    split; [exact Hc'|]. intros fuel Hf. split; intros; apply walk_chain; (exact Hc' || (cbn; lia)).
  - intros Hh fuel ty d Hd Hne. destruct l as [|j l]; [done|]. injection Hh as ->. cbn in Hc. destruct Hc as [Ed _].
    unfold dev_first_of_type. cbn [s_dev_list]. eapply walk_loop; cbn [devs].
    + apply lookup_insert_eq.
    + exact Ed.
    + cbn. apply Z.eqb_neq. congruence.
Qed.

Definition boot_registry : registry := Reg {[0%nat := s_disp; 1%nat := s_kb]} None.

Lemma dev_registry_correct_witness : exists r',
  display_console_register boot_registry = Some r' /\ chain r' (s_dev_list r') [0%nat].
Proof.
  destruct (dev_registry_correct boot_registry [] 0) as (r' & E & H & _); [reflexivity|by eexists|].
  exists r'. split; [exact E|]. apply H. apply not_elem_of_nil.
Defined.

(** ** Keyboard *)

Definition map : list Z := Input.base_map.

(** One poll: the status byte and, if it is read, the scan code; -1 if none. *)
Definition ps2_try_getc_dev (status sc : Z) : Z :=
  if Z.land status 1 =? 0 then -1
  else if sc =? 0xE0 then -1
  else if negb (Z.land sc 0x80 =? 0) then -1
  else if sc <? 128 then
    let ch := nth (Z.to_nat sc) map 0 in
    if negb (ch =? 0) then ch else -1
  else -1.

(** The polling loop; each poll gives the status, the scan code and the answer of
    the serial line (-1 if it has none).  [None] if the polls run out. *)
Fixpoint kb_getc (polls : list (Z * Z * Z)) : option Z :=
  match polls with
  | [] => None
  | (status, sc, s) :: polls' =>
      let c := ps2_try_getc_dev status sc in
      if c <? 0 then if 0 <=? s then Some s else kb_getc polls' else Some c
  end.

End Device.
