(* ===== verification/System.v ===== *)
(** * The composed system

    The file systems registered with the virtual file system, on one state: the
    console, the block devices with heap, frames and memory, and the open nodes,
    which are objects that a node pointer names.  Together with the scheduler and
    the PCI configuration space they are the kernel the shell runs on. *)

From stdpp Require Import strings.
From S2P Require Import Prelude Mb2 Pmm Kmalloc Mem Block BlockSpec Devfs Exfat Rootfs Vfs Console Sched Pci.
From S2P Require Import Progress Terminal Shell.

Module System.

Import Terminal Block.

(** ** State *)

Inductive node :=
  | NDev (d : Devfs.devfs_node device)
  | NExfat (e : Exfat.exfat_node device)
  | NRoot (r : Rootfs.rootfs_node).

(** Private data of a mount: [(void* )1] or a volume. *)
Inductive priv := POne | PExfat (f : Exfat.exfat_fs device).

(** A [vfs_node_t]: the operation table, and the object [file_priv] points to. *)
Inductive fs_kind := KDevfs | KExfat | KRootfs.
Record vnode := VNode { vn_fs : fs_kind; vn_file : nat }.

Record state := MkState { con : Console.state; blks : blk; nodes : list node }.

(** [None] after a fault. *)
Definition world : Type := option state.

Definition set_con (w : state) (c : Console.state) : state := MkState c (blks w) (nodes w).
Definition set_blks (w : state) (b : blk) : state := MkState (con w) b (nodes w).

(** The heap and memory of an operation. *)
Definition io_of (w : state) : Kmalloc.kheap * mem := (heap (blks w), memory (blks w)).
Definition set_io (w : state) (s : Kmalloc.kheap * mem) : state :=
  set_blks w (set_memory (set_heap (blks w) s.1) s.2).

Definition new_node (k : fs_kind) (n : node) (w : state) : vnode * state :=
  (VNode k (length (nodes w)), MkState (con w) (blks w) (nodes w ++ [n])).

(** An operation on the state, which a fault stops. *)
Definition absorb {A} (dflt : A) (f : state -> option (A * state)) (w : world) : A * world :=
  match w ≫= f with
  | Some (x, w') => (x, Some w')
  | None => (dflt, None)
  end.

(** Bytes at an address, and a string stored there. *)
Fixpoint store (m : mem) (a : Z) (s : list Z) : mem :=
  match s with
  | [] => m
  | c :: s' => store (wr8 m a c) (a + 1) s'
  end.
Definition load (m : mem) (a n : Z) : list Z := map (fun i => rd8 m (a + i)) (seqZ 0 n).

Definition store_name (w : state) (a : Z) (s : option (list Z)) : state :=
  match s with
  | Some s => set_blks w (set_memory (blks w) (store (memory (blks w)) a (s ++ [0])))
  | None => w
  end.

Section system.
(** Addresses of the local buffers: the sector of an exFAT function, the buffer
    of a shell command, the sector of the partition scan; a bound on the length
    of a chain of clusters. *)
Context (sp ubuf mbr : Z) (fuel : nat).

Abbreviation ops := (Vfs.vfs_fs_ops world priv vnode device).
Abbreviation vfs := (Vfs.vfs world priv vnode device).

(** ** Device files *)

Definition dev_node (w : state) (v : vnode) : option (Devfs.devfs_node device) :=
  n ← nodes w !! vn_file v; match n with NDev d => Some d | _ => None end.

Definition devfs_mount (b : option device) (mname : list Z) (w : world) : Z * priv * world := (0, POne, w).
Definition devfs_umount (p : priv) (w : world) : world := w.

Definition devfs_open (p : priv) (path : list Z) : world -> option vnode * world :=
  absorb None (fun w =>
    '(n, b) ← Devfs.devfs_open (blks w) (Some path);
    match n with
    | None => Some (None, set_blks w b)
    | Some n => let '(v, w) := new_node KDevfs (NDev n) (set_blks w b) in Some (Some v, w)
    end).

Definition devfs_stat (p : priv) (path : list Z) : world -> Z * option (Z * Z) * world :=
  absorb (-1, None) (fun w => Some (Devfs.devfs_stat (blks w) (Some path), w)).

Definition devfs_read (v : vnode) (off buf len : Z) : world -> Z * world :=
  absorb (-1) (fun w =>
    dn ← dev_node w v;
    '(r, s) ← Devfs.devfs_read (Some dn) off buf len (io_of w);
    Some (r, set_io w s)).

Definition devfs_write (v : vnode) (off buf len : Z) : world -> Z * world :=
  absorb (-1) (fun w =>
    dn ← dev_node w v;
    '(r, s) ← Devfs.devfs_write (Some dn) off buf len (io_of w);
    Some (r, set_io w s)).

Definition devfs_readdir (v : vnode) (idx name maxlen : Z) : world -> Z * world :=
  absorb (-1) (fun w =>
    dn ← dev_node w v;
    let '(r, s) := Devfs.devfs_readdir (blks w) (Some dn) idx maxlen in
    Some (r, store_name w name s)).

Definition devfs_ops : ops :=
  Vfs.Ops (Some devfs_mount) (Some devfs_umount) (Some devfs_open) (Some devfs_stat)
    (Some devfs_read) (Some devfs_readdir) (Some devfs_write) None None.

(** ** exFAT *)

Definition exfat_node (w : state) (v : vnode) : option (Exfat.exfat_node device) :=
  n ← nodes w !! vn_file v; match n with NExfat e => Some e | _ => None end.

Definition set_node (w : state) (v : vnode) (e : Exfat.exfat_node device) : state :=
  MkState (con w) (blks w) (<[vn_file v := NExfat e]> (nodes w)).

Definition volume (p : priv) : option (Exfat.exfat_fs device) :=
  match p with PExfat f => Some f | POne => None end.

Definition exfat_text (msg : Exfat.message) : list Z :=
  str match msg with
      | Exfat.MountEnter => "[exfat] mount enter"
      | Exfat.NeedSectors512 => "exfat: requires 512B sectors"
      | Exfat.MountExit => "[exfat] mount exit"
      | Exfat.MkfsEnter => "[exfat] mkfs enter"
      | Exfat.MkfsExit => "[exfat] mkfs exit"
      end ++ [10].

Fixpoint print_messages (w : state) (l : list Exfat.message) : option state :=
  match l with
  | [] => Some w
  | msg :: l' => c ← t_write (con w) (exfat_text msg); print_messages (set_con w c) l'
  end.

(** The device is dereferenced without a check. *)
Definition exfat_mount (b : option device) (mname : list Z) : world -> Z * priv * world :=
  absorb (-1, POne) (fun w =>
    b ← b;
    '(rc, f, s, l) ← Exfat.exfat_mount sp b 1 (io_of w);
    w ← print_messages (set_io w s) l;
    Some ((rc, match f with Some f => PExfat f | None => POne end), w)).

Definition exfat_umount (p : priv) (w : world) : world := w.

Definition exfat_open (p : priv) (path : list Z) : world -> option vnode * world :=
  absorb None (fun w =>
    f ← volume p;
    '(n, s) ← Exfat.exfat_open f (Some path) (io_of w);
    match n with
    | None => Some (None, set_io w s)
    | Some n => let '(v, w) := new_node KExfat (NExfat n) (set_io w s) in Some (Some v, w)
    end).

Definition exfat_stat (p : priv) (path : list Z) : world -> Z * option (Z * Z) * world :=
  absorb (-1, None) (fun w =>
    f ← volume p;
    '(r, o, s) ← Exfat.exfat_stat f (Some path) (io_of w);
    Some ((r, o), set_io w s)).

Definition exfat_read (v : vnode) (off buf len : Z) : world -> Z * world :=
  absorb (-1) (fun w =>
    e ← exfat_node w v;
    '(r, s) ← Exfat.exfat_read sp (Some e) off buf len (io_of w);
    Some (r, set_io w s)).

Definition exfat_write (v : vnode) (off buf len : Z) : world -> Z * world :=
  absorb (-1) (fun w =>
    e ← exfat_node w v;
    '(r, e', s) ← Exfat.exfat_write fuel sp (Some e) off buf len (io_of w);
    Some (r, set_node (set_io w s) v (default e e'))).

Definition exfat_readdir (v : vnode) (idx name maxlen : Z) : world -> Z * world :=
  absorb (-1) (fun w =>
    e ← exfat_node w v;
    let '(r, s) := Exfat.exfat_readdir (Some e) idx name maxlen in
    Some (r, store_name w name s)).

Definition exfat_create (p : priv) (path : list Z) (size_hint : Z) : world -> Z * world :=
  absorb (-1) (fun w =>
    f ← volume p;
    '(r, s) ← Exfat.exfat_create sp f (Some path) (io_of w);
    Some (r, set_io w s)).

Definition exfat_unlink (p : priv) (path : list Z) : world -> Z * world :=
  absorb (-1) (fun w =>
    f ← volume p;
    '(r, s) ← Exfat.exfat_unlink fuel sp f path (io_of w);
    Some (r, set_io w s)).

Definition exfat_ops : ops :=
  Vfs.Ops (Some exfat_mount) (Some exfat_umount) (Some exfat_open) (Some exfat_stat)
    (Some exfat_read) (Some exfat_readdir) (Some exfat_write) (Some exfat_create) (Some exfat_unlink).

(** ** The root file system, which [kmain64] does not register *)

Definition root_node (w : state) (v : vnode) : option Rootfs.rootfs_node :=
  n ← nodes w !! vn_file v; match n with NRoot r => Some r | _ => None end.

Definition rootfs_mount (b : option device) (mname : list Z) (w : world) : Z * priv * world :=
  ((Rootfs.rootfs_mount true).1, POne, w).
Definition rootfs_umount (p : priv) (w : world) : world := w.

Definition rootfs_open (p : priv) (path : list Z) : world -> option vnode * world :=
  absorb None (fun w =>
    '(n, h) ← Rootfs.rootfs_open (heap (blks w)) (Some path);
    let w := set_blks w (set_heap (blks w) h) in
    match n with
    | None => Some (None, w)
    | Some n => let '(v, w) := new_node KRootfs (NRoot n) w in Some (Some v, w)
    end).

Definition rootfs_stat (p : priv) (path : list Z) : world -> Z * option (Z * Z) * world :=
  absorb (-1, None) (fun w => Some (Rootfs.rootfs_stat (Some path), w)).

Definition rootfs_read (v : vnode) (off buf len : Z) (w : world) : Z * world := (Rootfs.rootfs_read off len, w).
Definition rootfs_write (v : vnode) (off buf len : Z) (w : world) : Z * world := (Rootfs.rootfs_write off len, w).

Definition rootfs_readdir (v : vnode) (idx name maxlen : Z) : world -> Z * world :=
  absorb (-1) (fun w =>
    rn ← root_node w v;
    let '(r, s) := Rootfs.rootfs_readdir (Some rn) idx maxlen in
    Some (r, store_name w name s)).

Definition rootfs_ops : ops :=
  Vfs.Ops (Some rootfs_mount) (Some rootfs_umount) (Some rootfs_open) (Some rootfs_stat)
    (Some rootfs_read) (Some rootfs_readdir) (Some rootfs_write) None None.

(** ** The kernel *)

Definition node_ops (v : vnode) : ops := 
  match vn_fs v with KDevfs => devfs_ops | KExfat => exfat_ops | KRootfs => rootfs_ops end.

Definition find_device (n : list Z) (w : world) : option device := w ← w; block_find (blks w) n.

Record system := MkSystem { fsys : vfs; sch : Sched.sched; conf : Z -> Z }.

Definition set_fsys (k : system) (st : vfs) : system := MkSystem st (sch k) (conf k).
Definition set_world (k : system) (w : state) : system :=
  set_fsys k (Vfs.with_world (fsys k) (Some w)).

Definition devfs_register (st : vfs) : vfs := (Vfs.vfs_register_fs st (str "devfs") devfs_ops).2.
Definition exfat_register (st : vfs) : vfs := (Vfs.vfs_register_fs st (str "exfat") exfat_ops).2.
Definition rootfs_register (st : vfs) : vfs := (Vfs.vfs_register_fs st (str "rootfs") rootfs_ops).2.

(** A call of the virtual file system; a fault has no result. *)
Definition serve {A} (f : vfs -> A * vfs) (k : system) : option (A * system) :=
  let '(x, st) := f (fsys k) in
  _ ← Vfs.world st; Some (x, set_fsys k st).

(** A call on the state behind it. *)
Definition on_state {A} (f : state -> option (A * state)) (k : system) : option (A * system) :=
  w ← Vfs.world (fsys k); '(x, w) ← f w; Some (x, set_world k w).

Definition on_con (f : Console.state -> option Console.state) (k : system) : option system :=
  w ← Vfs.world (fsys k); c ← f (con w); Some (set_world k (set_con w c)).

#[export] Instance system_terminal : Terminal system := {|
  t_putc k ch := on_con (fun c => t_putc c ch) k;
  t_write k s := on_con (fun c => t_write c s) k;
  t_write_hex64 k v := on_con (fun c => t_write_hex64 c v) k;
  t_write_dec k v := on_con (fun c => t_write_dec c v) k;
  t_progress k l d t := on_con (fun c => t_progress c l d t) k;
  t_clear k := on_con t_clear k;
  t_page_end k := on_con t_page_end k
|}.

Definition memory_of (k : system) : mem := from_option (fun w => memory (blks w)) ∅ (Vfs.world (fsys k)).

(** Reads into and writes from the buffer of the command. *)
Definition sys_read (v : vnode) (off len : Z) (k : system) : option (Z * list Z * system) :=
  '(r, k) ← serve (fun st => Vfs.vfs_read node_ops st (Some v) off ubuf len) k;
  Some ((r, load (memory_of k) ubuf len), k).

Definition sys_write (v : vnode) (off : Z) (b : list Z) (k : system) : option (Z * system) :=
  '(_, k) ← on_state (fun w => Some (tt, set_blks w (set_memory (blks w) (store (memory (blks w)) ubuf b)))) k;
  serve (fun st => Vfs.vfs_write node_ops st (Some v) off ubuf (Z.of_nat (length b))) k.

(** The string in a buffer of [n] bytes. *)
Fixpoint c_string (s : list Z) : list Z :=
  match s with
  | c :: s' => if c =? 0 then [] else c :: c_string s'
  | [] => []
  end.

Definition sys_readdir (v : vnode) (idx maxlen : Z) (k : system) : option (Z * list Z * system) :=
  '(r, k) ← serve (fun st => Vfs.vfs_readdir node_ops st (Some v) idx ubuf maxlen) k;
  Some ((r, c_string (load (memory_of k) ubuf maxlen)), k).

Definition sys_stat (path : list Z) (k : system) : option (Z * Z * Z * system) :=
  '(r, o, k) ← serve (fun st => Vfs.vfs_stat st path) k;
  Some ((r, (default (0, 0) o).1, (default (0, 0) o).2), k).

Definition sys_ramdisk_create (name : list Z) (bytes : Z) : system -> option (Z * system) :=
  on_state (fun w => '(r, b) ← ramdisk_create (blks w) (Some name) bytes; Some (r, set_blks w b)).

Definition sys_format (name : list Z) (label : option (list Z)) : system -> option (Z * system) :=
  on_state (fun w =>
    let '(r, s, l) := Exfat.exfat_format_device (io_of w) in
    w ← print_messages (set_io w s) l; Some (r, w)).

#[export] Instance system_kernel : Shell.Kernel system := {|
  Shell.Node := vnode;
  Shell.vfs_has_mount k m := negb (Vfs.vfs_has_mount (fsys k) m =? 0);
  Shell.vfs_mount_count k := Vfs.vfs_mount_count (fsys k);
  Shell.vfs_get_mount_name k i n :=
    let '(r, o) := Vfs.vfs_get_mount_name (fsys k) i n in (r, default [] o);
  Shell.vfs_mount fs m d := serve (fun st => Vfs.vfs_mount POne find_device st fs m (Some d));
  Shell.vfs_open path := serve (fun st => Vfs.vfs_open st path);
  Shell.vfs_readdir := sys_readdir;
  Shell.vfs_read := sys_read;
  Shell.vfs_write := sys_write;
  Shell.vfs_stat := sys_stat;
  Shell.vfs_create path n := serve (fun st => Vfs.vfs_create st path n);
  Shell.vfs_unlink path := serve (fun st => Vfs.vfs_unlink st path);
  Shell.ramdisk_create := sys_ramdisk_create;
  Shell.exfat_format_device := sys_format;
  Shell.block_names k := from_option (fun w => map name (g_head (blks w))) [] (Vfs.world (fsys k));
  Shell.sched_enumerate k n := (Sched.sched_enumerate (sch k) true n).2;
  Shell.sched_current_id k := default (-1) (Sched.sched_current_id (sch k));
  Shell.pmm_total_physical_bytes k :=
    from_option (fun w => Pmm.pmm_total_physical_bytes (frames (blks w))) 0 (Vfs.world (fsys k));
  Shell.pmm_free_bytes k := from_option (fun w => Pmm.pmm_free_bytes (frames (blks w))) 0 (Vfs.world (fsys k));
  Shell.pci_conf := conf
|}.

End system.

End System.
