(* ===== verification/SystemProps.v ===== *)
(** * Properties of the composed system

    The commands of the shell on device files: the layers from the shell down to
    the memory of the disk. *)

From stdpp Require Import strings.
From S2P Require Import Prelude Mb2 Pmm PmmSpec Kmalloc KmallocSpec KmallocProps Mem Block BlockSpec BlockProps.
From S2P Require Import Devfs DevfsSpec DevfsProps Exfat ExfatSpec Vfs Console ConsoleSpec ConsoleProps Sched Pci.
From S2P Require Import Progress Terminal Shell ShellCmd ShellSpec ShellProps System.

Module SystemProps.

Import Console ConsoleSpec ConsoleProps DevfsSpec Terminal System.

(** ** Bytes in memory *)

Lemma length_load m a n : length (load m a n) = Z.to_nat n.
Proof. unfold load. by rewrite length_map, length_seqZ. Qed.

Lemma lookup_load m a n i : (i < Z.to_nat n)%nat -> load m a n !! i = Some (rd8 m (a + Z.of_nat i)).
Proof.
  intros Hi. unfold load. change (@map Z Z) with (@fmap list _ Z Z). rewrite list_lookup_fmap, lookup_seqZ_lt by lia.
  cbn. by rewrite Z.add_0_l.
Qed.

(** Equal bytes are equal lists. *)
Lemma load_ext m m' a a' n : (forall i, 0 <= i < n -> rd8 m' (a' + i) = rd8 m (a + i)) -> load m' a' n = load m a n.
Proof.
  intros H. unfold load. apply map_ext_in. intros i Hi. apply list_elem_of_In, elem_of_seqZ in Hi. apply H. lia.
Qed.

Lemma take_load m a n k : 0 <= k <= n -> take (Z.to_nat k) (load m a n) = load m a k.
Proof.
  intros Hk. apply list_eq. intros i. destruct (decide (i < Z.to_nat k)%nat).
  - rewrite lookup_take_lt, !lookup_load by lia. done.
  - rewrite lookup_take_ge by lia. symmetry. apply lookup_ge_None_2. rewrite length_load. lia.
Qed.

Lemma drop_load m a n k : 0 <= k <= n -> drop (Z.to_nat k) (load m a n) = load m (a + k) (n - k).
Proof.
  intros Hk. apply list_eq. intros i. rewrite lookup_drop. destruct (decide (i < Z.to_nat (n - k))%nat).
  - rewrite !lookup_load by lia. f_equal. f_equal. lia.
  - rewrite !lookup_ge_None_2; [done|rewrite length_load; lia|rewrite length_load; lia].
Qed.

Lemma load_app m a n k : 0 <= n -> 0 <= k -> load m a (n + k) = load m a n ++ load m (a + n) k.
Proof.
  intros Hn Hk. rewrite <- (take_drop (Z.to_nat n) (load m a (n + k))), take_load, drop_load by lia.
  by replace (n + k - n) with k by lia.
Qed.

Lemma rd8_store s : forall m a x, rd8 (store m a s) x =
  if inb a (Z.of_nat (length s)) x then u8 (nth (Z.to_nat (x - a)) s 0) else rd8 m x.
Proof.
  induction s as [|c s IH]; intros m a x; cbn [store length].
  - inb_cases; [lia|done].
  - rewrite IH, rd8_wr8. destruct (Z.eqb_spec a x) as [->|Hne].
    + rewrite Z.sub_diag. inb_cases; try lia; done.
    + inb_cases; try lia; try done. by replace (Z.to_nat (x - a)) with (S (Z.to_nat (x - (a + 1)))) by lia.
Qed.

(** A stored string of bytes reads back; the bytes around it are kept. *)
Lemma load_store m a s : Forall is_u8 s -> load (store m a s) a (Z.of_nat (length s)) = s.
Proof.
  intros Hs. apply list_eq. intros i. destruct (decide (i < length s)%nat) as [Hi|Hi].
  - rewrite lookup_load by lia. rewrite rd8_store. destruct (lookup_lt_is_Some_2 s i Hi) as [c Hc].
    inb_cases; [|lia]. replace (Z.to_nat (a + Z.of_nat i - a)) with i by lia.
    rewrite (nth_lookup_Some _ _ _ _ Hc), Hc, u8_small; [done|]. by eapply Forall_lookup_1 in Hs.
  - rewrite !lookup_ge_None_2; [done|lia|rewrite length_load; lia].
Qed.

(** ** The console *)

(** The output so far. *)
Definition output (k : system) : list Z :=
  from_option (fun w => rev (serial (con w))) [] (Vfs.world (fsys k)).

Definition printing (c : Console.state) : Prop := ready c /\ is_Some (s_active c).

Lemma putc_prints c ch : printing c -> exists c', console_putc c ch = Some c' /\ printing c' /\ serial c' = ch :: serial c.
Proof.
  intros [Hr [k Hk]]. unfold console_putc, console_putc_ex, target. rewrite Hk.
  destruct (on_ready c k (fun a c d => vga_putc a c d ch) Hr Hk) as (c1 & E & H1).
  { intros a c0 d Hi. destruct (putc_spec a c0 d ch Hi) as (c' & d' & E & T & _).
    exists c', d'. split; [exact E|apply T]. }
  rewrite E. bind. eexists. split; [done|]. pose proof (on_active _ _ _ _ E) as Ea. split.
  - split; [exact H1|]. cbn. rewrite Ea. by eexists.
  - cbn. f_equal. unfold on in E. destruct (s_consoles c !! k) as [x|]; [|done]. cbn [mbind option_bind] in E.
    destruct (vga_putc _ x _ ch) as [[x' d']|]; [|done]. by injection E as <-.
Qed.

Lemma write_prints c s : printing c ->
  exists c', console_write c s = Some c' /\ printing c' /\ serial c' = rev s ++ serial c.
Proof.
  intros [Hr [k Hk]]. unfold console_write.
  replace (console_write_ex c None s) with (console_write_ex c (Some k) s) by (destruct s; cbn; by rewrite Hk).
  revert c Hr Hk. induction s as [|ch s IH]; intros c Hr Hk; cbn [console_write_ex target].
  - exists c. split; [done|]. split; [|done]. split; [done|by eexists].
  - destruct (putc_prints c ch (conj Hr (ex_intro _ k Hk))) as (c' & E & [Hr' [k' Hk']] & S).
    unfold console_putc, console_putc_ex, target in E. rewrite Hk in E.
    destruct (on c k _) as [c1|] eqn:Eo; [|done]. cbn [mbind option_bind] in *. injection E as <-.
    destruct (IH (serial_putc c1 ch)) as (c2 & E2 & P2 & S2); [done|cbn; by rewrite (on_active _ _ _ _ Eo)|].
    exists c2. rewrite E2, S2, S. split_and!; [done|done|]. cbn [rev]. by rewrite <- app_assoc.
Qed.

(** ** Device files *)

Section device.
Context (sp ubuf : Z) (fuel : nat).
#[local] Instance the_kernel : Shell.Kernel system := system_kernel sp ubuf fuel.

(** The device, its node, and the heap as a list of blocks at [hb .. hb + hn). *)
Context (d : Block.device) (v : vnode) (bs : list KmallocSpec.blk) (hb hn : Z).

Abbreviation total := (bd_sector_count d * bd_sector_size d).

(** The command buffer, the disk and the heap do not overlap, and the heap has a
    free block for a sector. *)
Record layout : Prop := Layout {
  ly_dev : bd_ok d;
  ly_count : bd_sector_count d < 2^32;
  ly_buf : 0 < ubuf;
  ly_buf_disk : apart ubuf 512 (bd_base d) total;
  ly_buf_heap : apart ubuf 512 hb hn;
  ly_disk_heap : apart (bd_base d) total hb hn;
  ly_room : exists s, (s, true) ∈ bs /\ Kmalloc.ALIGN_UP (bd_sector_size d) 16 <= s
}.

(** The bytes of the device. *)
Definition contents (m : mem) : list Z := load m (bd_base d) total.

(** [v] is an open node of the device, which holds [f]. *)
Record device_open (f : list Z) (k : system) : Prop := DeviceOpen {
  do_kind : vn_fs v = KDevfs;
  do_world : exists w, Vfs.world (fsys k) = Some w /\ dev_node w v = Some (Devfs.file_node d) /\
    heap_ok bs hb hn (Block.heap (blks w)) /\ contents (Block.memory (blks w)) = f /\ printing (con w)
}.

Context (HL : layout).

Lemma total_range : 0 <= total < 2^63.
Proof. destruct (bd_geometry d (ly_dev HL)) as (G1 & G2 & G3 & G4). nia. Qed.

Lemma device_request h off len : heap_ok bs hb hn h -> 0 <= off -> 0 <= len <= 512 -> off + len < 2^64 ->
  DevfsProps.request (Devfs.file_node d) d off len ubuf h bs.
Proof.
  intros (Hi & Hb & Hn) Ho Hl Hs. pose proof total_range as Ht. destruct HL as [L1 L2 L3 L4 L5 L6 L7].
  assert (Es : Devfs.size (Devfs.file_node d) = total) by (cbn in *; by rewrite mul64_small by lia).
  constructor; rewrite ?Es, ?Hb, ?Hn; try done; try lia.
  - unfold apart, DevfsProps.clipped in *. lia.
  - unfold apart, DevfsProps.clipped in *. lia.
Qed.

(** What a transfer between the buffer and the device leaves. *)
Lemma serve_world {A} (f : Vfs.vfs world priv vnode Block.device -> A * Vfs.vfs world priv vnode Block.device)
    k x st w : f (fsys k) = (x, st) -> Vfs.world st = Some w -> serve f k = Some (x, set_fsys k st).
Proof. intros E Ew. unfold serve. by rewrite E, Ew. Qed.

Lemma sys_read_device f k off len : device_open f k -> 0 <= off <= Z.of_nat (length f) -> 0 < len <= 256 ->
  exists junk k', let b := take (Z.to_nat len) (drop (Z.to_nat off) f) in
    sys_read sp ubuf fuel v off len k = Some (Z.of_nat (length b), b ++ junk, k') /\
    device_open f k' /\ output k' = output k.
Proof.
  intros [Hk (w & Ew & Hn & Hh & Hf & Hp)] Ho Hl. pose proof total_range as Ht.
  assert (Lf : Z.of_nat (length f) = total) by (rewrite <- Hf; unfold contents; rewrite length_load; lia).
  destruct (DevfsProps.devfs_read_spec (Devfs.file_node d) d off len ubuf _ (Block.memory (blks w)) bs
    (device_request _ off len Hh ltac:(lia) ltac:(lia) ltac:(lia))) as (h' & m' & E & Hi' & Hb' & Hn' & X).
  assert (Es : Devfs.size (Devfs.file_node d) = total) by (cbn in *; by rewrite mul64_small by lia).
  rewrite Es in E, X. set (n := DevfsProps.clipped total off len) in *.
  assert (Hnn : 0 <= n <= len /\ n = Z.min len (total - off)) by (unfold n, DevfsProps.clipped; lia).
  rewrite s32_small in E by lia. destruct Hh as (Hi & Hb & Hsz). rewrite Hb in X, Hb'. rewrite Hsz in X, Hn'.
  destruct HL as [L1 L2 L3 L4 L5 L6 L7]. unfold apart in *.
  set (w' := set_io w (h', m')). set (st := Vfs.with_world (fsys k) (Some w')).
  assert (Er : Vfs.vfs_read (node_ops sp fuel) (fsys k) (Some v) off ubuf len = (n, st)).
  { unfold Vfs.vfs_read, Vfs.on_node, node_ops. rewrite Hk. cbn [Vfs.op_read devfs_ops].
    unfold devfs_read, absorb, io_of. rewrite Ew. bind. rewrite Hn. bind. rewrite E. by bind. }
  assert (Hc : contents m' = f).
  { rewrite <- Hf. apply load_ext. intros i Hx. rewrite X by lia. inb_cases; [lia|done]. }
  assert (Hld : load m' ubuf n = take (Z.to_nat len) (drop (Z.to_nat off) f)).
  { rewrite <- Hf. unfold contents. rewrite drop_load by lia.
    transitivity (load (Block.memory (blks w)) (bd_base d + off) n).
    - apply load_ext. intros i Hx. rewrite X by lia. inb_cases; [|lia]. f_equal. lia.
    - destruct (Z.le_gt_cases len (total - off)).
      + rewrite take_load by lia. f_equal. lia.
      + rewrite take_ge by (rewrite length_load; lia). f_equal. lia. }
  exists (load m' (ubuf + n) (len - n)), (set_fsys k st). cbn zeta. unfold sys_read.
  rewrite (serve_world _ k n st w' Er) by done. bind. split_and!.
  - rewrite <- Hld, length_load, Z2Nat.id by lia. rewrite <- load_app by lia.
    cbn. by replace (n + (len - n)) with len by lia.
  - split; [done|]. exists w'. by split_and!.
  - unfold output. cbn. by rewrite Ew.
Qed.

Lemma device_readable f : ShellProps.readable (HK := the_kernel) v f (device_open f) output.
Proof.
  split.
  - intros k off len Hk Ho Hl. apply sys_read_device; done || lia.
  - intros k ch [Hk (w & Ew & Hn & Hh & Hf & Hp)]. destruct (putc_prints (con w) ch Hp) as (c' & E & Hp' & Hs).
    cbn. unfold on_con. rewrite Ew. bind. rewrite E. bind. eexists. split; [done|]. split.
    + split; [done|]. exists (set_con w c'). by split_and!.
    + unfold output. cbn. by rewrite Ew; cbn; rewrite Hs.
Qed.

(** A write of the bytes [b]: those that fit are stored. *)
Lemma sys_write_device f k off b : bd_writable d -> device_open f k -> 0 <= off <= total ->
  Forall is_u8 b -> (length b <= 512)%nat ->
  let n := Z.min (Z.of_nat (length b)) (total - off) in
  exists k', sys_write sp ubuf fuel v off b k = Some (n, k') /\
    device_open (take (Z.to_nat off) f ++ take (Z.to_nat n) b ++ drop (Z.to_nat (off + n)) f) k' /\
    output k' = output k.
Proof.
  intros Hw [Hk (w & Ew & Hn & Hh & Hf & Hp)] Ho Hb8 Hl n. pose proof total_range as Ht.
  set (len := Z.of_nat (length b)) in *. set (m0 := store (Block.memory (blks w)) ubuf b).
  destruct (DevfsProps.devfs_write_spec (Devfs.file_node d) d off len ubuf _ m0 bs
    (device_request _ off len Hh ltac:(lia) ltac:(lia) ltac:(lia)) Hw) as (h' & m' & E & Hi' & Hb' & Hn' & X).
  assert (Es : Devfs.size (Devfs.file_node d) = total) by (cbn in *; by rewrite mul64_small by lia).
  rewrite Es in E, X. replace (DevfsProps.clipped total off len) with n in * by (unfold n, DevfsProps.clipped; lia).
  assert (Hnn : 0 <= n <= len /\ off + n <= total) by lia.
  rewrite s32_small in E by lia. destruct Hh as (Hi & Hb & Hsz). rewrite Hb in X, Hb'. rewrite Hsz in X, Hn'.
  destruct HL as [L1 L2 L3 L4 L5 L6 L7]. unfold apart in *.
  set (w0 := set_blks w (Block.set_memory (blks w) m0)). set (w' := set_io w0 (h', m')).
  set (k0 := set_world k w0). set (st := Vfs.with_world (fsys k0) (Some w')).
  assert (Er : Vfs.vfs_write (node_ops sp fuel) (fsys k0) (Some v) off ubuf len = (n, st)).
  { unfold Vfs.vfs_write, Vfs.on_node, node_ops. rewrite Hk. cbn [Vfs.op_write devfs_ops].
    unfold devfs_write, absorb, io_of. cbn [fsys k0 set_world set_fsys Vfs.world Vfs.with_world]. bind.
    unfold dev_node in *. cbn [nodes w0 set_blks]. rewrite Hn. bind.
    cbn [blks w0 set_blks Block.heap Block.memory Block.set_memory]. rewrite E. by bind. }
  exists (set_fsys k0 st). unfold sys_write, on_state. rewrite Ew. bind.
  fold m0 w0 k0 len. rewrite (serve_world _ k0 n st w' Er) by done. split; [done|]. split.
  - split; [done|]. exists w'. split_and!; try done. rewrite <- Hf. unfold contents.
    rewrite take_load, drop_load by lia.
    replace total with (off + (n + (total - (off + n)))) at 1 by lia. rewrite !load_app by lia. f_equal; [|f_equal].
    + apply load_ext. intros i Hx. rewrite X by lia. inb_cases; [lia|]. unfold m0. rewrite rd8_store. inb_cases; [lia|done].
    + rewrite <- (load_store (Block.memory (blks w)) ubuf b Hb8). fold m0 len. rewrite take_load by lia.
      apply load_ext. intros i Hx. rewrite X by lia. inb_cases; [|lia]. f_equal. lia.
    + rewrite <- Z.add_assoc. apply load_ext. intros i Hx. rewrite X by lia. inb_cases; [lia|].
      unfold m0. rewrite rd8_store. inb_cases; [lia|done].
  - unfold output. cbn. by rewrite Ew.
Qed.

Lemma device_writable (f : list Z) : bd_writable d -> Z.of_nat (length f) = total ->
  ShellProps.writable (HK := the_kernel) v (fun k => exists g, device_open g k /\ length g = length f)
    (fun k => from_option (fun w => contents (Block.memory (blks w))) [] (Vfs.world (fsys k))) total.
Proof.
  intros Hw Hf k off b (g & Hg & Hl) Ho Hb8 Hb Hoff.
  pose proof Hg as [_ (w & Ew & _ & _ & Hc & _)]. rewrite Ew in Ho. cbn in Ho. rewrite Hc in Ho.
  destruct (sys_write_device g k off b Hw Hg ltac:(lia) Hb8 Hb) as (k' & E & Hk' & _).
  replace (Z.min _ _) with (Z.of_nat (length b)) in * by lia. rewrite Nat2Z.id, firstn_all in Hk'.
  exists k'. split; [exact E|]. split.
  - eexists. split; [exact Hk'|]. rewrite !length_app, length_take, length_drop. lia.
  - rewrite Ew. cbn. rewrite Hc. destruct Hk' as [_ (w' & Ew' & _ & _ & Hc' & _)]. rewrite Ew'. cbn. rewrite Hc'.
    do 2 f_equal. f_equal. lia.
Qed.

Lemma device_limited : bd_writable d ->
  ShellProps.limited (HK := the_kernel) v (fun k => exists g, device_open g k) total.
Proof.
  intros Hw k off b (g & Hg) Ho Hb8 Hb.
  destruct (sys_write_device g k off b Hw Hg Ho Hb8 Hb) as (k' & E & Hk' & _).
  eexists _, k'. split; [exact E|]. split; [by eexists|lia].
Qed.

End device.

(** ** Opening a device *)

Section commands.
Context (sp ubuf : Z) (fuel : nat).
#[local] Instance kernel : Shell.Kernel system := system_kernel sp ubuf fuel.

(** The device file system is mounted as "dev" and has the device [d] under the
    name [n]; the heap has room for the nodes and a sector. *)
Record device_ready (k : system) (n : list Z) (d : Block.device) (f : list Z) : Prop := DeviceReady {
  dr_mount : exists mt, Vfs.find_mount (fsys k) (str "dev") = Some mt /\ Vfs.mops mt = devfs_ops;
  dr_name : n <> [] /\ (length n <= 119)%nat;
  dr_state : exists w bs s, Vfs.world (fsys k) = Some w /\ Block.block_find (blks w) n = Some d /\
    let h := Block.heap (blks w) in
    KmallocSpec.inv h bs /\ (s, true) ∈ bs /\ 176 + Kmalloc.ALIGN_UP (bd_sector_size d) 16 <= s /\
    apart ubuf 512 (Kmalloc.g_heap_base h) (Kmalloc.g_heap_size h) /\
    apart (bd_base d) (bd_sector_count d * bd_sector_size d) (Kmalloc.g_heap_base h) (Kmalloc.g_heap_size h) /\
    contents d (Block.memory (blks w)) = f /\ printing (con w);
  dr_dev : bd_ok d /\ bd_sector_count d < 2^32;
  dr_buf : 0 < ubuf /\ apart ubuf 512 (bd_base d) (bd_sector_count d * bd_sector_size d)
}.

Lemma open_device k n d f : device_ready k n d f -> exists v bs hb hn k1,
  Shell.vfs_open (str "dev" ++ [58; 47] ++ n) k = Some (Some v, k1) /\
  layout ubuf d bs hb hn /\ device_open d v bs hb hn f k1 /\ output k1 = output k.
Proof.
  intros [(mt & Hm & Hops) [Hn Hl] (w & bs & s & Ew & Hb & Hi & Hs & Hr & A1 & A2 & Hf & Hp) [D1 D2] [B1 B2]].
  destruct (bd_geometry d D1) as (G1 & _).
  destruct (KmallocProps.align16 (bd_sector_size d)) as (_ & Ha & _); [lia|].
  destruct (KmallocProps.kmalloc_room _ bs Devfs.sizeof_devfs_node s (80 + Kmalloc.ALIGN_UP (bd_sector_size d) 16) Hi)
    as (p1 & h1 & bs1 & s1 & E1 & P1 & I1 & HB1 & HZ1 & S1 & R1);
    [unfold Devfs.sizeof_devfs_node; lia|done|change (Kmalloc.ALIGN_UP Devfs.sizeof_devfs_node 16) with 48; lia|lia|].
  destruct (KmallocProps.kmalloc_room _ bs1 Devfs.sizeof_vfs_node s1 (Kmalloc.ALIGN_UP (bd_sector_size d) 16) I1)
    as (p2 & h2 & bs2 & s2 & E2 & P2 & I2 & HB2 & HZ2 & S2 & R2);
    [unfold Devfs.sizeof_vfs_node; lia|done|change (Kmalloc.ALIGN_UP Devfs.sizeof_vfs_node 16) with 32; lia|lia|].
  exists (VNode KDevfs (length (nodes w))), bs2, (Kmalloc.g_heap_base (Block.heap (blks w))),
    (Kmalloc.g_heap_size (Block.heap (blks w))).
  set (b2 := Block.set_heap (blks w) h2).
  set (w2 := MkState (con w) b2 (nodes w ++ [NDev (Devfs.file_node d)])).
  exists (set_fsys k (Vfs.with_world (fsys k) (Some w2))).
  assert (Eo : Devfs.devfs_open (blks w) (Some (47 :: n)) = Some (Some (Devfs.file_node d), b2)).
  { unfold Devfs.devfs_open, Block.alloc. rewrite E1. bind. rewrite (proj2 (Z.eqb_neq p1 0)) by lia.
    cbn [Block.heap Block.set_heap]. rewrite E2. bind. rewrite (proj2 (Z.eqb_neq p2 0)) by lia.
    destruct n as [|c n]; [done|]. cbn [Devfs.path_is_root from_option id Devfs.strip_slash Z.eqb Pos.eqb].
    unfold Block.block_find in *. cbn [Block.g_head Block.set_heap]. by rewrite Hb. }
  split_and!.
  - cbn [Shell.vfs_open kernel system_kernel]. apply (serve_world _ _ _ _ w2); [|done].
    unfold Vfs.vfs_open, Vfs.parse_mount_and_sub.
    change (Vfs.split_colon (str "dev" ++ [58; 47] ++ n)) with (Some (str "dev", 47 :: n)). bind.
    change (take 7 (str "dev")) with (str "dev"). rewrite Hm. bind. rewrite Hops. cbn [Vfs.op_open devfs_ops].
    unfold devfs_open, absorb. rewrite Ew. bind. rewrite Eo. by bind.
  - constructor; try done. exists s2. split; [done|lia].
  - split; [done|]. exists w2. split_and!; try done.
    + unfold dev_node. cbn [vn_file nodes w2]. by rewrite list_lookup_middle.
    + split_and!; [done|by rewrite <- HB1|by rewrite <- HZ1].
  - unfold output. cbn. by rewrite Ew.
Qed.

Lemma dev_path (s : Shell.shell (K := system)) n d f : device_ready (Shell.kern s) n d f ->
  Shell.full_path (str "/dev/" ++ n) s = Some (str "dev" ++ [58; 47] ++ n, s).
Proof.
  intros [(mt & Hm & _) [Hn Hl] _ _ _]. unfold Shell.full_path.
  assert (Hh : Shell.vfs_has_mount (Shell.kern s) (str "dev") = true).
  { cbn. unfold Vfs.find_mount in Hm. destruct (Vfs.mount_index _ _) as [i|]; [done|discriminate]. }
  pose proof (ShellProps.translate_mount s (str "dev") n) as Ht. rewrite Hh in Ht.
  rewrite (ShellProps.bind_run _ _ _ _ _ (Ht ltac:(by apply (bool_decide_unpack _)) ltac:(done)
    ltac:(cbn; lia) ltac:(lia) ltac:(by left))). done.
Qed.

End commands.

(** [cat /dev/NAME] prints the bytes of the block device NAME and a newline, on
    the system as it is composed: shell, virtual file system, device files with
    their bounce buffers on the kernel heap, the device and its memory, the
    console. *)
Theorem cat_device sp ubuf fuel (s : Shell.shell (K := system)) n d f (steps : nat) :
  device_ready ubuf (Shell.kern s) n d f -> (Z.of_nat (length f) + 255) / 256 + 1 <= Z.of_nat steps ->
  exists s', ShellCmd.cmd_cat (HK := system_kernel sp ubuf fuel) steps (str "/dev/" ++ n) s = Some (tt, s') /\
    output (Shell.kern s') = output (Shell.kern s) ++ f ++ [10].
Proof.
  intros Hr Hs. destruct (open_device sp ubuf fuel _ n d f Hr) as (v & bs & hb & hn & k1 & Eo & HL & Hd & Ho).
  assert (Hlf : Z.of_nat (length f) < 2^63).
  { destruct Hd as [_ (w & _ & _ & _ & <- & _)]. unfold contents. rewrite length_load.
    destruct (dr_dev _ _ _ _ _ Hr) as [D1 D2]. destruct (bd_geometry d D1) as (G1 & G2 & G3 & G4). nia. }
  destruct (ShellProps.cat_spec (HK := system_kernel sp ubuf fuel) steps (str "/dev/" ++ n) _ s v k1 f _ output
    (device_readable sp ubuf fuel d v bs hb hn HL f) ltac:(done) (dev_path sp ubuf fuel s n d f Hr) Eo Hd Ho Hlf Hs)
    as (s' & E & _ & _ & _ & Hout). by exists s'.
Qed.

(** ** Filling a device *)

Lemma token_app lim p rest : (length p <= lim)%nat -> Forall (fun c => Shell.is_ws c = false) p ->
  Shell.token lim (p ++ 32 :: rest) = (p, 32 :: rest).
Proof.
  revert lim. induction p as [|c p IH]; intros lim Hl Hp.
  - by destruct lim.
  - destruct lim as [|lim]; [cbn in Hl; lia|]. apply list.Forall_cons in Hp as [Hc Hp]. cbn [app Shell.token].
    rewrite Hc, IH by (done || (cbn in Hl; lia)). done.
Qed.

Lemma skip_digits ds : Forall (fun d => 0 <= d < 16) ds ->
  Shell.skip_ws (map Console.hex_digit ds) = map Console.hex_digit ds.
Proof.
  intros H. destruct ds as [|d ds]; [done|]. apply list.Forall_cons in H as [Hd _]. cbn [map Shell.skip_ws].
  unfold Shell.is_ws, Console.hex_digit. destruct (Z.ltb_spec d 10);
    rewrite (proj2 (Z.eqb_neq _ 32)), (proj2 (Z.eqb_neq _ 9)) by lia; done.
Qed.

(** The arguments of [fill]: a path without blanks and a number. *)
Definition fill_args (path ds : list Z) : list Z := path ++ 32 :: map Console.hex_digit ds.

Lemma fill_parse `{HK : Shell.Kernel K} steps path ds (s : Shell.shell (K := K)) :
  path <> [] -> (length path <= 191)%nat -> Forall (fun c => Shell.is_ws c = false) path ->
  Forall (fun d => 0 <= d < 16) ds -> 0 < ShellProps.number ds < 2^64 ->
  ShellCmd.cmd_fill steps (fill_args path ds) s =
    (full ← Shell.full_path path; n ← ShellCmd.open_or_create full "fill: create failed";
     match n with
     | None => Shell.console_writeln "fill: open failed"
     | Some n => off ← ShellCmd.fill_loop steps n 65 (ShellProps.number ds) 0;
                 if off =? ShellProps.number ds then Shell.console_writeln "ok" else Shell.skip
     end) s.
Proof.
  intros Hp Hl Hw Hd Hn. unfold ShellCmd.cmd_fill, fill_args.
  rewrite bool_decide_eq_false_2 by (by destruct path). rewrite token_app by done.
  rewrite bool_decide_eq_false_2 by done. cbn [Shell.skip_ws]. change (Shell.is_ws 32) with true. cbn iota.
  rewrite skip_digits by done. rewrite <- (app_nil_r (map _ ds)), ShellProps.parse_hex_app by (done || lia).
  fold (ShellProps.number ds). rewrite u64_small by lia. cbn [Shell.parse_hex Shell.skip_ws].
  by rewrite (proj2 (Z.eqb_neq _ 0)) by lia.
Qed.

(** C28. [fill /dev/NAME SIZE] on the composed system: with a size within the
    device it ends and the device starts with that many bytes 'A' and is otherwise
    as it was; with a larger size it never ends. *)
Theorem fill_device sp ubuf fuel (s : Shell.shell (K := system)) n d f ds :
  device_ready ubuf (Shell.kern s) n d f -> bd_writable d -> Forall (fun c => Shell.is_ws c = false) n ->
  Forall (fun c => 0 <= c < 16) ds -> 0 < ShellProps.number ds < 2^63 ->
  let sz := ShellProps.number ds in
  let fill steps := ShellCmd.cmd_fill (HK := system_kernel sp ubuf fuel) steps (fill_args (str "/dev/" ++ n) ds) s in
  (sz <= Z.of_nat (length f) -> forall steps, sz <= 512 * Z.of_nat steps -> exists s' w',
     fill steps = Some (tt, s') /\ Vfs.world (fsys (Shell.kern s')) = Some w' /\
     contents d (Block.memory (blks w')) = replicate (Z.to_nat sz) 65 ++ drop (Z.to_nat sz) f) /\
  (Z.of_nat (length f) < sz -> forall steps, fill steps = None).
Proof.
  intros Hr Hw Hn Hd Hsz sz fill. set (HK := system_kernel sp ubuf fuel) in *.
  destruct (open_device sp ubuf fuel _ n d f Hr) as (v & bs & hb & hn & k1 & Eo & HL & Hop & _). fold HK in Eo.
  pose proof Hop as [_ (w & Ew & _ & _ & Hf & _)].
  assert (Hlf : Z.of_nat (length f) = bd_sector_count d * bd_sector_size d).
  { rewrite <- Hf. unfold contents. rewrite length_load. pose proof (total_range _ _ _ _ _ HL). lia. }
  set (s1 := Shell.MkShell (Shell.s_cwd_mnt s) (Shell.s_cwd_path s) k1).
  assert (Ef : forall steps, fill steps = (off ← ShellCmd.fill_loop (HK := HK) steps v 65 sz 0;
      if off =? sz then Shell.console_writeln "ok" else Shell.skip) s1).
  { intros steps. unfold fill. rewrite fill_parse; [|done| | |done|lia].
    - rewrite (ShellProps.bind_run _ _ _ _ _ (dev_path sp ubuf fuel s n d f Hr)).
      rewrite (ShellProps.bind_run (ShellCmd.open_or_create _ _) _ _ (Some v) s1); [reflexivity|].
      unfold ShellCmd.open_or_create. rewrite (ShellProps.bind_run (Shell.call _) _ _ (Some v) s1); [reflexivity|].
      unfold Shell.call. by rewrite Eo.
    - rewrite length_app. cbn. pose proof (dr_name _ _ _ _ _ Hr). lia.
    - apply list.Forall_app. split; [by apply (bool_decide_unpack _)|done]. }
  split.
  - intros Hle steps Hst.
    destruct (ShellProps.fill_loop_spec v _ _ f 65 sz _ (device_writable sp ubuf fuel d v bs hb hn HL f Hw Hlf)
      ltac:(unfold is_u8; lia) ltac:(lia) ltac:(lia) steps 0 s1) as (s2 & E2 & (g & Hg & _) & Hfile);
      [by exists f|lia|lia|cbn; by rewrite Ew; cbn; rewrite Hf, drop_0|].
    destruct Hg as [_ (w2 & Ew2 & _ & _ & Hc & [Hrd _])].
    destruct (write_keeps (str "ok" ++ [10]) (con w2) Hrd) as (c' & Ec & _).
    eexists _, _. rewrite Ef, (ShellProps.bind_run _ _ _ _ _ E2), Z.eqb_refl. split; [|split].
    + assert (Et : on_con (fun c => t_write c (str "ok" ++ [10])) (Shell.kern s2)
        = Some (set_world (Shell.kern s2) (set_con w2 c'))) by (unfold on_con; rewrite Ew2; bind; cbn [t_write console_terminal]; by rewrite Ec).
      unfold Shell.console_writeln, Shell.console_puts, Shell.out.
      change (t_write (Shell.kern s2) ?x) with (on_con (fun c => t_write c x) (Shell.kern s2)). by rewrite Et.
    + done.
    + rewrite Ew2 in Hfile. exact Hfile.
  - intros Hlt steps. rewrite Ef. unfold mbind, Shell.M_bind.
    rewrite (ShellProps.fill_loop_none v _ (bd_sector_count d * bd_sector_size d) 65 sz
      (device_limited sp ubuf fuel d v bs hb hn HL Hw) ltac:(unfold is_u8; lia) ltac:(lia)); [done|by exists f|].
    pose proof (total_range _ _ _ _ _ HL). lia.
Qed.

(** ** An instance

    The memory disk "md" of 2 KiB, the device file system mounted as "dev". *)

Definition demo_con : Console.state := Console.MkState [ConsoleProps.demo 0 0] (Some 0%nat) (Display ∅ 0) [].

Definition demo_vfs : Vfs.vfs world priv vnode Block.device :=
  (Vfs.vfs_mount POne find_device
     (devfs_register (Vfs.MkVfs [] [] (Some (MkState demo_con BlockProps.demo_blk []))))
     (str "devfs") (str "dev") (Some [])).2.

Definition demo_thread : Sched.sched := Sched.MkSched None None [] 0 0 0 ∅ [] false.
Definition demo_sys : system := MkSystem demo_vfs demo_thread (fun _ => 0xFFFFFFFF).
Definition demo_shell : Shell.shell (K := system) := Shell.MkShell (str "root") [] demo_sys.

Lemma demo_device_ready :
  device_ready 0x20000 demo_sys (str "md") BlockProps.demo_dev (contents BlockProps.demo_dev BlockProps.demo_disk).
Proof.
  constructor.
  - eexists. split; reflexivity.
  - split; [done|cbn; lia].
  - exists (MkState demo_con BlockProps.demo_blk []), [(0x400 - 32, true)], (0x400 - 32).
    split; [reflexivity|]. split; [reflexivity|]. split; [exact BlockProps.demo_heap|].
    split; [by left|]. split; [by vm_compute|]. split; [right; by vm_compute|]. split; [right; by vm_compute|].
    split; [reflexivity|]. split; [|by eexists]. intros i [= <-]. eexists. split; [reflexivity|].
    apply demo_console_inv; lia.
  - cbn. lia.
  - split; [lia|]. right. by vm_compute.
Qed.

Lemma cat_device_witness : exists s',
  ShellCmd.cmd_cat (HK := system_kernel 0x30000 0x20000 8) 9 (str "/dev/md") demo_shell = Some (tt, s') /\
  output (Shell.kern s') = contents BlockProps.demo_dev BlockProps.demo_disk ++ [10].
Proof.
  destruct (cat_device 0x30000 0x20000 8 demo_shell (str "md") _ _ 9 demo_device_ready) as (s' & E & H).
  - unfold contents. rewrite length_load. vm_compute. discriminate.
  - exists s'. split; [exact E|exact H].
Defined.

Lemma fill_device_witness :
  (exists s', ShellCmd.cmd_fill (HK := system_kernel 0x30000 0x20000 8) 4 (fill_args (str "/dev/md") [7; 13; 0]) demo_shell
     = Some (tt, s')) /\
  forall steps, ShellCmd.cmd_fill (HK := system_kernel 0x30000 0x20000 8) steps
    (fill_args (str "/dev/md") [8; 0; 1]) demo_shell = None.
Proof.
  split.
  - destruct (fill_device 0x30000 0x20000 8 demo_shell (str "md") _ _ [7; 13; 0] demo_device_ready) as [H _];
      [cbn; lia|by apply (bool_decide_unpack _)|repeat constructor; lia|vm_compute; split; reflexivity|].
    destruct (H ltac:(unfold contents; rewrite length_load; vm_compute; discriminate) 4%nat) as (s' & w' & E & _);
      [vm_compute; discriminate|]. exists s'. exact E.
  - apply (fill_device 0x30000 0x20000 8 demo_shell (str "md") _ _ [8; 0; 1] demo_device_ready);
      [cbn; lia|by apply (bool_decide_unpack _)|repeat constructor; lia|vm_compute; split; reflexivity|].
    unfold contents. rewrite length_load. vm_compute. reflexivity.
Defined.

End SystemProps.
