(* ===== verification/SystemFiles.v ===== *)
(** * Files of the composed system

    The commands of the shell on files of an exFAT volume mounted as "root": what
    [write] has written, [cat] prints. *)

From stdpp Require Import strings.
From S2P Require Import Prelude Mb2 Pmm PmmSpec Kmalloc KmallocSpec KmallocProps Mem Block BlockSpec BlockProps.
From S2P Require Import Devfs DevfsSpec Exfat ExfatSpec ExfatProps ExfatDir ExfatFat ExfatWrite ExfatFile Vfs.
From S2P Require Import Console ConsoleSpec ConsoleProps Sched Pci Progress Terminal Shell ShellCmd ShellSpec ShellProps.
From S2P Require Import System SystemProps.

Module SystemFiles.

Import Console ConsoleProps DevfsSpec ExfatSpec ExfatProps ExfatFat ExfatWrite ExfatFile Terminal System SystemProps.

Section volume.
Context (sp ubuf : Z) (fuel : nat).
#[local] Instance file_kernel : Shell.Kernel system := system_kernel sp ubuf fuel.

(** The volume, the heap area, and the state of the scheduler. *)
Context (f : Exfat.exfat_fs Block.device) (hb hn : Z) (sc : Sched.sched).

Abbreviation csz := (Exfat.cluster_size f).
Abbreviation root := (Exfat.root_dir_cluster f).

(** The buffer of the commands is apart from the disk, the heap and the sector
    buffer; the volume is formatted. *)
Record volume_layout : Prop := VolumeLayout {
  vl_formatted : formatted f;
  vl_root : valid f root;
  vl_buf : buffer f hb hn sp ubuf 512
}.

(** The volume is mounted as "root"; the memory is [m] and the heap has a free block
    of [r] bytes. *)
Record vol_state (m : mem) (r : Z) (k : system) : Prop := VolState {
  vs_mount : exists mt, Vfs.find_mount (fsys k) (str "root") = Some mt /\
    Vfs.mops mt = exfat_ops sp fuel /\ Vfs.fs_priv mt = PExfat f;
  vs_world : exists w bs s, Vfs.world (fsys k) = Some w /\ Block.memory (blks w) = m /\
    heap_ok bs hb hn (Block.heap (blks w)) /\ areas f bs hb hn sp /\ (s, true) ∈ bs /\ r <= s /\ printing (con w);
  vs_sched : sch k = sc
}.

(** Node [v] is the object [n]. *)
Definition node_is (v : vnode) (n : Exfat.exfat_node Block.device) (k : system) : Prop :=
  vn_fs v = KExfat /\ exists w, Vfs.world (fsys k) = Some w /\ exfat_node w v = Some n.

Context (HL : volume_layout).

(** The path of a file of the volume. *)
Abbreviation path n := (str "root" ++ [58; 47] ++ n).

Lemma parse_path m r k n : vol_state m r k -> exists mt, Vfs.mops mt = exfat_ops sp fuel /\
  Vfs.fs_priv mt = PExfat f /\ Vfs.parse_mount_and_sub (fsys k) (path n) = Some (mt, 47 :: n).
Proof.
  intros [(mt & Hm & H1 & H2) _ _]. exists mt. split; [done|]. split; [done|].
  unfold Vfs.parse_mount_and_sub. change (Vfs.split_colon (path n)) with (Some (str "root", 47 :: n)). bind.
  change (take 7 (str "root")) with (str "root"). rewrite Hm. by bind.
Qed.

(** The state after an operation on heap and memory. *)
Lemma vol_state_io m r k w h' m' bs' s' st :
  vol_state m r k -> Vfs.world (fsys k) = Some w -> heap_ok bs' hb hn h' -> areas f bs' hb hn sp ->
  (s', true) ∈ bs' -> forall r', r' <= s' ->
  con st = con w -> Block.memory (blks st) = m' -> Block.heap (blks st) = h' ->
  vol_state m' r' (set_fsys k (Vfs.with_world (fsys k) (Some st))) /\
  output (set_fsys k (Vfs.with_world (fsys k) (Some st))) = output k.
Proof.
  intros [Hm (w0 & bs0 & s0 & E0 & _ & _ & _ & _ & _ & Hp) Hsc] Ew Hh A Hs r' Hr Ec Em Eh.
  rewrite Ew in E0. injection E0 as <-. split.
  - split; [exact Hm| |exact Hsc]. exists st, bs', s'. rewrite Eh, Em, Ec. by split_and!.
  - unfold output. cbn. rewrite Ew. cbn. by rewrite Ec.
Qed.

(** Opening a name that is not there. *)
Lemma sys_open_missing m r k n ents : vol_state m (160 + r) k -> Kmalloc.ALIGN_UP csz 16 <= r -> n <> [] ->
  listing f m 32 = Some ents -> Exfat.find_entry n ents = None -> exists m' k',
  Shell.vfs_open (path n) k = Some (None, k') /\ vol_state m' r k' /\ same_disk f m m' /\ output k' = output k.
Proof.
  intros Hk Hr Hn Hl Hf. destruct (parse_path m _ k n Hk) as (mt & P1 & P2 & P3).
  pose proof Hk as [_ (w & bs & s & Ew & Em & Hh & A & Hs & Hrs & Hp) _].
  destruct (open_missing f bs hb hn sp A (vl_root HL) (47 :: n) s r (Block.heap (blks w)) m ents)
    as (h' & m' & bs' & s' & E & Hh' & Hs' & Hr' & M); [done|lia|done|done|by apply strip_nonroot|done|done|].
  destruct (vol_state_io m _ k w h' m' bs' s' (set_io w (h', m')) Hk Ew Hh') with (r' := r) as [V O]; try done.
  { destruct A as [A1 _ A3 A4 A5 A6]. constructor; try done. exists s'. split; [done|lia]. }
  exists m'. eexists. split; [|split; [exact V|split; [exact (mods_same_disk f bs hb hn sp m m' A M)|exact O]]].
  cbn [Shell.vfs_open file_kernel system_kernel]. apply (serve_world _ _ _ _ (set_io w (h', m'))); [|done].
  unfold Vfs.vfs_open. rewrite P3, P1. cbn [Vfs.op_open exfat_ops]. rewrite P2.
  unfold exfat_open, absorb, io_of. rewrite Ew. bind. cbn [volume mbind option_bind]. rewrite Em, E. by bind.
Qed.

(** Opening a name that is. *)
Lemma sys_open_found m r k n ents e : vol_state m (160 + r) k -> Kmalloc.ALIGN_UP csz 16 <= r -> n <> [] ->
  listing f m 32 = Some ents -> Exfat.find_entry n ents = Some e -> exists v m' k',
  Shell.vfs_open (path n) k = Some (Some v, k') /\ vol_state m' r k' /\ same_disk f m m' /\ output k' = output k /\
  node_is v (Exfat.MkNode f (Exfat.de_first_cluster e) (Exfat.de_is_dir e) (Exfat.de_size e)) k'.
Proof.
  intros Hk Hr Hn Hl Hf. destruct (parse_path m _ k n Hk) as (mt & P1 & P2 & P3).
  pose proof Hk as [_ (w & bs & s & Ew & Em & Hh & A & Hs & Hrs & Hp) _].
  destruct (open_spec f bs hb hn sp A (vl_root HL) (47 :: n) s r (Block.heap (blks w)) m ents e)
    as (h' & m' & bs' & s' & E & Hh' & Hs' & Hr' & A' & M & _); [done|lia|done|done|by apply strip_nonroot|done|done|].
  set (nd := Exfat.MkNode f _ _ _) in *.
  set (w' := MkState (con w) (blks (set_io w (h', m'))) (nodes w ++ [NExfat nd])).
  destruct (vol_state_io m _ k w h' m' bs' s' w' Hk Ew Hh' A' Hs' r Hr') as [V O]; try done.
  exists (VNode KExfat (length (nodes w))), m'. eexists. split; [|split; [exact V|split; [exact (mods_same_disk f bs hb hn sp m m' A M)|split; [exact O|]]]].
  - cbn [Shell.vfs_open file_kernel system_kernel]. apply (serve_world _ _ _ _ w'); [|done].
    unfold Vfs.vfs_open. rewrite P3, P1. cbn [Vfs.op_open exfat_ops]. rewrite P2.
    unfold exfat_open, absorb, io_of. rewrite Ew. bind. cbn [volume mbind option_bind]. rewrite Em, E. by bind.
  - split; [done|]. exists w'. split; [done|]. unfold exfat_node. cbn [vn_file nodes w']. by rewrite list_lookup_middle.
Qed.

(** Creating a file. *)
Lemma sys_create m r k n di c fr : vol_state m r k -> 48 + 2 * Kmalloc.ALIGN_UP csz 16 <= r ->
  Forall (fun c => 0 < c < 128) n -> (1 <= length n <= 63)%nat -> dir_end f m = Some di -> Exfat.endpos di n <= csz ->
  free_clusters f m = c :: fr -> fatv f m root <> 0 -> exists m' k',
  Shell.vfs_create (path n) 0 k = Some (0, k') /\ vol_state m' r k' /\ output k' = output k /\
  added f m di n c 0 m' /\ file_ok f m' (Exfat.MkNode f c 0 0) [c] /\ free_clusters f m' = fr.
Proof.
  intros Hk Hr Hn Hln He Hfit Hfr Hu. destruct (parse_path m _ k n Hk) as (mt & P1 & P2 & P3).
  pose proof Hk as [_ (w & bs & s & Ew & Em & Hh & A & Hs & Hrs & Hp) _].
  destruct (create_file_spec f bs hb hn sp A (vl_formatted HL) (vl_root HL) ltac:(exists s; split; [done|lia])
    (47 :: n) di (Block.heap (blks w)) m Hn Hln Hh He c fr Hfit Hfr Hu)
    as (h' & m' & E & Hh' & Ha & Hf & F & _).
  destruct (vol_state_io m _ k w h' m' bs s (set_io w (h', m')) Hk Ew Hh' A Hs r Hrs) as [V O]; try done.
  exists m'. eexists. split; [|by split_and!].
  cbn [Shell.vfs_create file_kernel system_kernel]. apply (serve_world _ _ _ _ (set_io w (h', m'))); [|done].
  unfold Vfs.vfs_create. rewrite P3, P1. cbn [Vfs.op_create exfat_ops]. rewrite P2.
  unfold exfat_create, absorb, io_of. rewrite Ew. bind. cbn [volume mbind option_bind]. rewrite Em, E. by bind.
Qed.

(** The buffer of the commands is not on the disk. *)
Lemma store_same_disk m b : (length b <= 512)%nat -> same_disk f m (store m ubuf b).
Proof.
  intros Hb a Ha. rewrite rd8_store. pose proof (bf_disk _ _ _ _ _ _ (vl_buf HL)) as Hd. unfold apart in Hd.
  inb_cases; [lia|done].
Qed.

Lemma buf_le len : 0 <= len <= 512 -> buffer f hb hn sp ubuf len.
Proof. intros Hl. destruct (vl_buf HL). split; try done; by eapply apart_le. Qed.

(** Writing the bytes [b] at the start of a file. *)
Lemma sys_write_file m r k v nd l b : vol_state m r k -> node_is v nd k -> file_ok f m nd l ->
  Forall is_u8 b -> (1 <= length b <= 512)%nat -> (length l <= fuel)%nat ->
  clusters_for f (Z.of_nat (length b)) <= Z.of_nat (length l + length (free_clusters f m)) ->
  let sz := Z.max (Exfat.size nd) (Z.of_nat (length b)) in
  exists m0 m' k' l', sys_write sp ubuf fuel v 0 b k = Some (Z.of_nat (length b), k') /\
    vol_state m' r k' /\ output k' = output k /\
    file_ok f m' (Exfat.MkNode f (Exfat.first_cluster nd) 0 sz) l' /\
    l' ++ free_clusters f m' = l ++ free_clusters f m /\
    (forall i, 0 <= i -> content f m' l' i =
       if i <? Z.of_nat (length b) then nth (Z.to_nat i) b 0 else content f m l i) /\
    same_disk f m m0 /\ resized f m0 (Exfat.first_cluster nd) sz m'.
Proof.
  intros Hk [Hv (w & Ew & Hnd)] Hf Hb8 Hb Hfu Hcl sz.
  pose proof Hk as [_ (w1 & bs & s & Ew1 & Em & Hh & A & Hs & Hrs & Hp) _]. rewrite Ew in Ew1. injection Ew1 as <-.
  set (len := Z.of_nat (length b)) in *. assert (Hlen : 1 <= len <= 512) by lia. set (m0 := store m ubuf b). pose proof (ar_vol _ _ _ _ _ A) as Hvol.
  pose proof (store_same_disk m b ltac:(lia)) as S0. fold m0 in S0. destruct HL as [L1 L2 L3].
  pose proof (same_file_ok f Hvol L1 L2 m m0 S0 nd l Hf) as Hf0. pose proof (same_free f Hvol L1 m m0 S0) as Hfr.
  destruct (exfat_write_spec f bs hb hn sp A L1 L2 fuel ubuf len 0 (Block.heap (blks w)) m0 l nd
    (buf_le len ltac:(lia)) Hh Hf0 Hfu ltac:(lia) ltac:(lia) ltac:(lia))
    as (h' & m' & E & Hh' & Hf' & Hfr' & C & R & _); [rewrite Hfr, Z.add_0_l; lia|].
  rewrite Z.add_0_l in *. fold sz in E, Hf', R. set (n' := Exfat.MkNode f _ 0 sz) in *. set (l' := l ++ _) in *.
  set (w0 := set_blks w (Block.set_memory (blks w) m0)). set (w' := set_node (set_io w0 (h', m')) v n').
  destruct (vol_state_io m _ k w h' m' bs s w' Hk Ew Hh' A Hs r Hrs) as [V O]; try done.
  exists m0, m'. eexists. exists l'. split; [|split; [exact V|split; [exact O|split; [exact Hf'|split; [|split; [|done]]]]]].
  - unfold sys_write, on_state. rewrite Ew. bind. rewrite Em. fold m0 w0 len.
    apply (serve_world _ (set_world k w0) _ _ w'); [|done].
    unfold Vfs.vfs_write, Vfs.on_node, node_ops. rewrite Hv. cbn [Vfs.op_write exfat_ops].
    unfold exfat_write, absorb, io_of. cbn [fsys set_world set_fsys Vfs.world Vfs.with_world]. bind.
    unfold exfat_node in *. cbn [nodes w0 set_blks]. rewrite Hnd. bind.
    cbn [blks w0 set_blks Block.heap Block.memory Block.set_memory]. rewrite E. bind. rewrite s32_small by lia. done.
  - rewrite Hfr'. unfold l'. by rewrite <- app_assoc, take_drop, Hfr.
  - intros i Hi. rewrite C by done. rewrite (same_content f Hvol m m0 S0 l i) by (done || apply Hf).
    rewrite Z.sub_0_r. destruct (Z.ltb_spec i len); inb_cases; try lia; try done.
    unfold m0. rewrite rd8_store. inb_cases; [|lia]. replace (ubuf + i - ubuf) with i by lia.
    apply u8_small. destruct (lookup_lt_is_Some_2 b (Z.to_nat i) ltac:(lia)) as [x Hx].
    rewrite (nth_lookup_Some _ _ _ _ Hx). by eapply Forall_lookup_1 in Hb8.
Qed.

(** Printing. *)
Lemma vol_state_con m r k w c : vol_state m r k -> Vfs.world (fsys k) = Some w -> printing c ->
  vol_state m r (set_world k (set_con w c)).
Proof.
  intros [Hm (w0 & bs & s & E0 & H1 & H2 & H3 & H4 & H5 & _) Hsc] Ew Hc. rewrite Ew in E0. injection E0 as <-.
  split; [exact Hm| |exact Hsc]. by exists (set_con w c), bs, s.
Qed.

Lemma sys_print m r k t : vol_state m r k -> exists k', on_con (fun c => t_write c t) k = Some k' /\ vol_state m r k' /\
  output k' = output k ++ t.
Proof.
  intros Hk. pose proof Hk as [_ (w & bs & s & Ew & _ & _ & _ & _ & _ & Hp) _]. 
  destruct (write_prints (con w) t Hp) as (c' & E & Hc & S).
  exists (set_world k (set_con w c')). split_and!; [|by eapply vol_state_con|].
  - unfold on_con. rewrite Ew. bind. cbn [t_write console_terminal]. by rewrite E.
  - unfold output. cbn. rewrite Ew. cbn. by rewrite S, rev_app_distr, rev_involutive.
Qed.

(** ** Reading a file *)

(** The bytes of a file with the chain [l]. *)
Definition file_bytes (m : mem) (l : list Z) (n : Z) : list Z := map (content f m l) (seqZ 0 n).

Lemma lookup_file_bytes m l n i : (i < Z.to_nat n)%nat -> file_bytes m l n !! i = Some (content f m l (Z.of_nat i)).
Proof.
  intros Hi. unfold file_bytes. change (@map Z Z) with (@fmap list _ Z Z). rewrite list_lookup_fmap, lookup_seqZ_lt by lia.
  cbn. by rewrite Z.add_0_l.
Qed.

Lemma length_file_bytes m l n : length (file_bytes m l n) = Z.to_nat n.
Proof. unfold file_bytes. by rewrite length_map, length_seqZ. Qed.

Section open_file.
Context (m : mem) (r : Z) (v : vnode) (nd : Exfat.exfat_node Block.device) (l : list Z) (Hf : file_ok f m nd l).

(** The file is open, and the disk is that of [m]. *)
Definition file_open (k : system) : Prop := exists m1, vol_state m1 r k /\ same_disk f m m1 /\ node_is v nd k.

Abbreviation bytes := (file_bytes m l (Exfat.size nd)).

Lemma sys_read_file k off len : file_open k -> 0 <= off <= Z.of_nat (length bytes) -> 0 < len <= 256 ->
  exists junk k', let b := take (Z.to_nat len) (drop (Z.to_nat off) bytes) in
    sys_read sp ubuf fuel v off len k = Some (Z.of_nat (length b), b ++ junk, k') /\
    file_open k' /\ output k' = output k.
Proof.
  intros (m1 & Hk & S1 & Hv & (w & Ew & Hnd)) Ho Hl. rewrite length_file_bytes in Ho.
  pose proof Hk as [_ (w1 & bs & s & Ew1 & Em & Hh & A & Hs & Hrs & Hp) _]. rewrite Ew in Ew1. injection Ew1 as <-.
  destruct HL as [L1 L2 L3]. pose proof (ar_vol _ _ _ _ _ A) as Hvol.
  pose proof (same_file_ok f Hvol L1 L2 m m1 S1 nd l Hf) as Hf1. pose proof (fo_size _ _ _ _ Hf1) as Hsz.
  assert (Hbl : buffer f hb hn sp ubuf len) by (apply buf_le; lia).
  destruct (exfat_read_spec f bs hb hn sp ubuf len off (Block.heap (blks w)) m1 l nd A Hbl Hh
    (ch_linked _ _ _ (fo_chain _ _ _ _ Hf1)) (fo_fs _ _ _ _ Hf1) (fo_first _ _ _ _ Hf1) (fo_file _ _ _ _ Hf1)
    ltac:(lia) ltac:(lia) ltac:(lia) (fo_cover _ _ _ _ Hf1)) as (h' & m' & E & Hh' & X).
  set (b := take (Z.to_nat len) _). set (n := Z.max 0 _) in *.
  assert (Hn : 0 <= n <= len /\ n = Z.min len (Exfat.size nd - off)) by lia. rewrite s32_small in E by lia.
  assert (Hlb : length b = Z.to_nat n) by (unfold b; rewrite length_take, length_drop, length_file_bytes; lia).
  destruct Hbl as [B1 B2 B3 B4]. unfold apart in *.
  assert (S2 : same_disk f m m').
  { intros a Ha. rewrite X by (apply (scratch_disk f hb hn bs sp); [apply A|apply A|done]).
    inb_cases; [lia|]. by apply S1. }
  assert (Hld : load m' ubuf n = b).
  { apply list_eq. intros i. destruct (decide (i < Z.to_nat n)%nat) as [Hi|Hi].
    - rewrite lookup_load by done. unfold b. rewrite lookup_take_lt, lookup_drop, lookup_file_bytes by lia. f_equal.
      rewrite X by (apply not_scratch; lia). inb_cases; [|lia].
      rewrite (same_content f Hvol m m1 S1) by (done || apply Hf || lia). f_equal. lia.
    - rewrite !lookup_ge_None_2; [done|lia|rewrite length_load; lia]. }
  set (w' := set_io w (h', m')). set (st := Vfs.with_world (fsys k) (Some w')).
  destruct (vol_state_io m1 _ k w h' m' bs s w' Hk Ew Hh' A Hs r Hrs) as [V O]; try done.
  assert (Er : Vfs.vfs_read (node_ops sp fuel) (fsys k) (Some v) off ubuf len = (n, st)).
  { unfold Vfs.vfs_read, Vfs.on_node, node_ops. rewrite Hv. cbn [Vfs.op_read exfat_ops].
    unfold exfat_read, absorb, io_of. rewrite Ew. bind. rewrite Hnd. bind. rewrite Em, E. by bind. }
  exists (load m' (ubuf + n) (len - n)), (set_fsys k st). cbn zeta. unfold sys_read.
  rewrite (serve_world _ k n st w' Er) by done. bind. split_and!; [|by exists m'; split_and!; [..|split; [|exists w']]|exact O].
  rewrite Hlb, <- Hld, Z2Nat.id, <- load_app by lia. cbn. by replace (n + (len - n)) with len by lia.
Qed.

Lemma file_readable : ShellProps.readable (HK := file_kernel) v bytes file_open output.
Proof.
  split.
  - intros k off len Hk Ho Hl. by apply sys_read_file.
  - intros k ch (m1 & Hk & S1 & Hv & (w & Ew & Hnd)).
    pose proof Hk as [_ (w1 & _ & _ & Ew1 & _ & _ & _ & _ & _ & Hp) _]. rewrite Ew in Ew1. injection Ew1 as <-.
    destruct (putc_prints (con w) ch Hp) as (c' & E & Hp' & Hs). cbn. unfold on_con. rewrite Ew. bind. rewrite E. bind.
    eexists. split; [done|]. split.
    + exists m1. split; [by eapply vol_state_con|]. split; [done|]. split; [done|]. by exists (set_con w c').
    + unfold output. cbn. by rewrite Ew; cbn; rewrite Hs.
Qed.

End open_file.

(** ** The commands *)

Lemma file_path (s : Shell.shell (K := system)) m r n : vol_state m r (Shell.kern s) -> (length n <= 119)%nat ->
  Shell.full_path (str "/root/" ++ n) s = Some (path n, s).
Proof.
  intros [(mt & Hm & _) _ _] Hl. unfold Shell.full_path.
  assert (Hh : Shell.vfs_has_mount (Shell.kern s) (str "root") = true).
  { cbn. unfold Vfs.find_mount in Hm. destruct (Vfs.mount_index _ _) as [i|]; [done|discriminate]. }
  pose proof (ShellProps.translate_mount s (str "root") n) as Ht. rewrite Hh in Ht.
  rewrite (ShellProps.bind_run _ _ _ _ _ (Ht ltac:(by apply (bool_decide_unpack _)) ltac:(done)
    ltac:(cbn; lia) ltac:(lia) ltac:(by left))). done.
Qed.

(** [cat] of a file the directory lists. *)
Lemma cat_listed (s : Shell.shell (K := system)) m r n ents e l (steps : nat) :
  vol_state m (160 + r) (Shell.kern s) -> Kmalloc.ALIGN_UP csz 16 <= r -> n <> [] -> (length n <= 119)%nat ->
  listing f m 32 = Some ents -> Exfat.find_entry n ents = Some e ->
  file_ok f m (Exfat.MkNode f (Exfat.de_first_cluster e) (Exfat.de_is_dir e) (Exfat.de_size e)) l ->
  (Exfat.de_size e + 255) / 256 + 1 <= Z.of_nat steps ->
  exists s', ShellCmd.cmd_cat (HK := file_kernel) steps (str "/root/" ++ n) s = Some (tt, s') /\
    output (Shell.kern s') = output (Shell.kern s) ++ file_bytes m l (Exfat.de_size e) ++ [10] /\
    exists m', vol_state m' r (Shell.kern s').
Proof.
  intros Hk Hr Hn Hln Hl He Hf Hst. pose proof (fo_size _ _ _ _ Hf) as Hsz. cbn [Exfat.size] in Hsz.
  destruct (sys_open_found m r _ n ents e Hk Hr Hn Hl He) as (v & m1 & k1 & E1 & Hk1 & S1 & O1 & N1).
  pose proof (length_file_bytes m l (Exfat.de_size e)) as Hlb.
  destruct (ShellProps.cat_spec (HK := file_kernel) steps (str "/root/" ++ n) _ s v k1 _ _ output
    (file_readable m r v _ l Hf) ltac:(done) (file_path s m _ n Hk Hln) E1) as (s' & E & _ & _ & (m' & Hk' & _) & Ho);
    [by exists m1|done|cbn [Exfat.size]; lia|cbn [Exfat.size]; rewrite Hlb, Z2Nat.id by lia; done|].
  exists s'. split; [done|]. split; [done|]. by exists m'.
Qed.

Lemma find_entry_none q ents : Forall (fun e => Exfat.de_name e <> q) ents -> Exfat.find_entry q ents = None.
Proof. induction 1 as [|x l Hx _ IH]; [done|]. cbn. by rewrite bool_decide_false. Qed.

(** The volume has room for a file of [n] bytes named [q]. *)
Record has_room (m : mem) (q : list Z) (len di : Z) (ents : list Exfat.exfat_dirent) : Prop := HasRoom {
  hr_name : Forall (fun c => 0 < c < 128) q /\ (1 <= length q <= 63)%nat;
  hr_end : dir_end f m = Some di /\ Exfat.endpos di q <= csz;
  hr_root : fatv f m root <> 0;
  hr_list : listing f m 32 = Some ents /\ (length ents < 32)%nat;
  hr_new : Forall (fun e => Exfat.de_name e <> q) ents;
  hr_free : clusters_for f len <= Z.of_nat (length (free_clusters f m));
  hr_entry : forall c, c ∈ free_clusters f m -> entry_of f m c = Some None
}.

(** [write] of a new file: the file is created, opened, and written. *)
Lemma open_new m r k q len di ents failed (s : Shell.shell (K := system)) :
  has_room m q len di ents -> 0 < len -> Shell.kern s = k -> vol_state m (320 + r) k ->
  48 + 2 * Kmalloc.ALIGN_UP csz 16 <= r ->
  exists c v m1 m3 s', ShellCmd.open_or_create (HK := file_kernel) (path q) failed s = Some (Some v, s') /\
    vol_state m3 r (Shell.kern s') /\ output (Shell.kern s') = output k /\
    node_is v (Exfat.MkNode f c 0 0) (Shell.kern s') /\ file_ok f m3 (Exfat.MkNode f c 0 0) [c] /\
    c :: free_clusters f m3 = free_clusters f m /\ same_disk f m m1 /\ added f m1 di q c 0 m3.
Proof.
  intros [[Q1 Q2] [D1 D2] Hu [L1 L2] Hnew Hcl _] Hlen Hs Hk Hr.
  pose proof Hk as [_ (w & bs & z & _ & _ & _ & A & _) _]. pose proof (ar_vol _ _ _ _ _ A) as Hvol.
  destruct (clusters_for_spec f bs hb hn sp A len ltac:(lia)) as [C1 _]. pose proof (csz_pos f bs hb hn sp A) as Hcs.
  destruct (KmallocProps.align16 csz ltac:(lia)) as (_ & Hal & _).
  assert (Q0 : q <> []) by (intros ->; cbn in Q2; lia). pose proof (vl_formatted HL) as Hfm. pose proof (vl_root HL) as Hv.
  destruct (free_clusters f m) as [|c fr] eqn:Efr; [cbn in Hcl; lia|].
  destruct (sys_open_missing m (160 + r) k q ents) as (m1 & k1 & E1 & V1 & S1 & O1);
    [by replace (160 + (160 + r)) with (320 + r) by lia|lia|done|done|by apply find_entry_none|].
  rewrite <- (same_dir_end f Hvol Hv m m1 S1) in D1. rewrite <- (same_free f Hvol Hfm m m1 S1) in Efr.
  rewrite <- (same_fatv f Hvol m m1 S1 root Hv) in Hu. rewrite <- (same_listing f Hvol Hv m m1 S1) in L1.
  destruct (sys_create m1 (160 + r) k1 q di c fr V1) as (m2 & k2 & E2 & V2 & O2 & A2 & F2 & R2); try done; [lia|].
  pose proof (added_listing f (47 :: q) di m1 Q1 Q2 D1 c 0 m2 32 ents A2 D2 L1 ltac:(lia)) as L3.
  destruct (sys_open_found m2 r k2 q _ (Exfat.MkDirent c 0 0 q) V2 ltac:(lia) Q0 L3)
    as (v & m3 & k3 & E3 & V3 & S3 & O3 & N3); [by apply find_entry_new|].
  destruct (dir_end_spec f di m1 D1) as (D0 & _).
  exists c, v, m1, m3, (Shell.MkShell (Shell.s_cwd_mnt s) (Shell.s_cwd_path s) k3). cbn [Shell.kern]. split_and!; try done.
  - unfold ShellCmd.open_or_create.
    rewrite (ShellProps.bind_run (Shell.call _) _ s None (Shell.MkShell (Shell.s_cwd_mnt s) (Shell.s_cwd_path s) k1))
      by (unfold Shell.call; rewrite Hs; by rewrite E1).
    rewrite (ShellProps.bind_run (Shell.call _) _ _ 0 (Shell.MkShell (Shell.s_cwd_mnt s) (Shell.s_cwd_path s) k2))
      by (unfold Shell.call; cbn [Shell.kern]; by rewrite E2).
    cbn [Z.eqb negb]. rewrite (ShellProps.bind_run Shell.skip _ _ tt _ eq_refl).
    unfold Shell.call. cbn [Shell.kern]. by rewrite E3.
  - by rewrite O3, O2, O1.
  - by apply (same_file_ok f Hvol Hfm Hv m2 m3 S3).
  - by rewrite (same_free f Hvol Hfm m2 m3 S3), R2.
  - by apply (same_added f Hvol Hv m2 m3 S3).
Qed.

Lemma file_bytes_eq m l b : 
  (forall i, 0 <= i < Z.of_nat (length b) -> content f m l i = nth (Z.to_nat i) b 0) ->
  file_bytes m l (Z.of_nat (length b)) = b.
Proof.
  intros H. apply list_eq. intros i. destruct (decide (i < length b)%nat) as [Hi|Hi].
  - rewrite lookup_file_bytes, H by lia. rewrite Nat2Z.id.
    destruct (lookup_lt_is_Some_2 b i Hi) as [x Hx]. by rewrite (nth_lookup_Some _ _ _ _ Hx).
  - rewrite !lookup_ge_None_2; [done|lia|rewrite length_file_bytes; lia].
Qed.

(** The arguments of [write]. *)
Definition write_args (q text : list Z) : list Z := (str "/root/" ++ q) ++ 32 :: text.

Lemma write_parse (s : Shell.shell (K := system)) q text : (length q <= 63)%nat ->
  Forall (fun c => Shell.is_ws c = false) q -> Shell.skip_ws text = text ->
  ShellCmd.cmd_write (HK := file_kernel) (write_args q text) s =
    (full ← Shell.full_path (str "/root/" ++ q); n ← ShellCmd.open_or_create full "write: create failed";
     match n with
     | None => Shell.console_writeln "write: open failed"
     | Some n => rc ← Shell.call (Shell.vfs_write n 0 text);
                 if rc <? 0 then Shell.console_writeln "write failed" else Shell.console_writeln "ok"
     end) s.
Proof.
  intros Hl Hw Ht. unfold ShellCmd.cmd_write, write_args. rewrite bool_decide_eq_false_2 by done.
  rewrite token_app; [|rewrite length_app; cbn; lia|].
  - rewrite bool_decide_eq_false_2 by done. cbn [Shell.skip_ws]. change (Shell.is_ws 32) with true. cbn iota. by rewrite Ht.
  - apply list.Forall_app. split; [by apply (bool_decide_unpack _)|done].
Qed.

Lemma write_new m r q text di ents (s : Shell.shell (K := system)) :
  has_room m q (Z.of_nat (length text)) di ents -> vol_state m (320 + r) (Shell.kern s) ->
  48 + 2 * Kmalloc.ALIGN_UP csz 16 <= r -> (1 <= fuel)%nat ->
  Forall (fun c => Shell.is_ws c = false) q -> Shell.skip_ws text = text -> Forall is_u8 text ->
  (1 <= length text <= 512)%nat ->
  exists c l m' s', ShellCmd.cmd_write (HK := file_kernel) (write_args q text) s = Some (tt, s') /\
    output (Shell.kern s') = output (Shell.kern s) ++ str "ok" ++ [10] /\ vol_state m' r (Shell.kern s') /\
    let sz := Z.of_nat (length text) in
    listing f m' 32 = Some (ents ++ [Exfat.MkDirent c sz 0 q]) /\
    file_ok f m' (Exfat.MkNode f c 0 sz) l /\ file_bytes m' l sz = text /\
    l ++ free_clusters f m' = free_clusters f m /\ exists m1, same_disk f m m1 /\ added f m1 di q c sz m'.
Proof.
  intros HR Hk Hr Hfu Hw Ht H8 Hlt. pose proof HR as [[Q1 Q2] [D1 D2] _ [L1 L2] _ Hcl Hent].
  destruct (open_new m r _ q _ di ents "write: create failed" s HR ltac:(lia) eq_refl Hk Hr)
    as (c & v & m1 & m3 & s3 & E3 & V3 & O3 & N3 & F3 & R3 & S1 & A3).
  pose proof V3 as [_ (w & bs & z & _ & _ & _ & A & _) _]. pose proof (ar_vol _ _ _ _ _ A) as Hvol.
  pose proof (vl_root HL) as Hv. pose proof (vl_formatted HL) as Hfm. rewrite <- R3 in Hcl.
  destruct (sys_write_file m3 r _ v _ [c] text V3 N3 F3 H8 Hlt Hfu) as (m30 & m4 & k4 & l' & E4 & V4 & O4 & F4 & X4 & C4 & S4 & R4);
    [cbn [length] in *; lia|]. cbn [Exfat.size Exfat.first_cluster] in *. rewrite Z.max_r in * by lia.
  destruct (sys_print m4 r k4 (str "ok" ++ [10]) V4) as (k5 & E5 & V5 & O5).
  rewrite <- (same_dir_end f Hvol Hv m m1 S1) in D1. rewrite <- (same_listing f Hvol Hv m m1 S1) in L1.
  destruct (dir_end_spec f di m1 D1) as (D0 & _).
  assert (A4 : added f m1 di q c (Z.of_nat (length text)) m4).
  { apply (added_resized f (47 :: q) di m1 Q2 D1 c 0 _ m30 m4); [by apply (same_added f Hvol Hv m3 m30 S4)|done| |done].
    rewrite (same_entry_of f Hvol Hv m m1 S1). apply Hent. rewrite <- R3. left. }
  exists c, l', m4, (Shell.MkShell (Shell.s_cwd_mnt s3) (Shell.s_cwd_path s3) k5). cbn [Shell.kern]. split_and!; try done.
  - rewrite write_parse by (done || lia). rewrite (ShellProps.bind_run _ _ _ _ _ (file_path s m _ q Hk ltac:(lia))).
    rewrite (ShellProps.bind_run _ _ _ _ _ E3).
    rewrite (ShellProps.bind_run (Shell.call _) _ s3 (Z.of_nat (length text)) (Shell.MkShell (Shell.s_cwd_mnt s3) (Shell.s_cwd_path s3) k4)).
    + rewrite (proj2 (Z.ltb_ge _ 0)) by lia. unfold Shell.console_writeln, Shell.console_puts, Shell.out. cbn [Shell.kern].
      change (t_write k4 ?x) with (on_con (fun c => t_write c x) k4). by rewrite E5.
    + unfold Shell.call. cbn [Shell.vfs_write file_kernel system_kernel]. by rewrite E4.
  - by rewrite O5, O4, O3.
  - by apply (added_listing f (47 :: q) di m1 Q1 Q2 D1 c); [..|lia].
  - apply file_bytes_eq. intros i Hi. rewrite C4 by lia. by rewrite (proj2 (Z.ltb_lt _ _)) by lia.
  - by rewrite X4, <- R3.
  - by exists m1.
Qed.

(** [rm] of the file that was written last. *)
Lemma sys_unlink m r k q i j l : vol_state m r k -> 48 + 2 * Kmalloc.ALIGN_UP csz 16 <= r -> q <> [] ->
  entries_of f m q = Some (Some (i, j)) -> chain f m l -> l !! 0%nat = Some (rd32 m (cl_addr f root + i + 32 + 20)) ->
  (length l <= fuel)%nat -> root ∉ l -> exists m' k',
  Shell.vfs_unlink (path q) k = Some (0, k') /\ vol_state m' r k' /\ output k' = output k /\
  (forall x, 0 <= x < csz -> cbyte f m' root x = if inb i (j - i) x then 0 else cbyte f m root x) /\
  forall c, c ∈ free_clusters f m' <-> c ∈ free_clusters f m \/ c ∈ l.
Proof.
  intros Hk Hr Hq He Hl H0 Hfu Hni. destruct (parse_path m _ k q Hk) as (mt & P1 & P2 & P3).
  pose proof Hk as [_ (w & bs & s & Ew & Em & Hh & A & Hs & Hrs & Hp) _].
  destruct (unlink_spec f bs hb hn sp A (vl_formatted HL) (vl_root HL) ltac:(exists s; split; [done|lia])
    (47 :: q) fuel (Block.heap (blks w)) m i j l Hq Hh He Hl H0 Hfu Hni) as (h' & m' & E & Hh' & Z' & B' & M').
  destruct (vol_state_io m _ k w h' m' bs s (set_io w (h', m')) Hk Ew Hh' A Hs r Hrs) as [V O]; try done.
  exists m'. eexists. split; [|split; [exact V|split; [exact O|split; [exact B'|]]]].
  - cbn [Shell.vfs_unlink file_kernel system_kernel]. apply (serve_world _ _ _ _ (set_io w (h', m'))); [|done].
    unfold Vfs.vfs_unlink. rewrite P3, P1. cbn [Vfs.op_unlink exfat_ops]. rewrite P2.
    unfold exfat_unlink, absorb, io_of. rewrite Ew. bind. cbn [volume mbind option_bind]. rewrite Em, E. by bind.
  - apply (released_free f bs hb hn sp A (vl_formatted HL) (vl_root HL) m m' l Z'); [apply Hl|done].
Qed.

Lemma rm_added m r q c sz di l m1 (s : Shell.shell (K := system)) :
  vol_state m r (Shell.kern s) -> 48 + 2 * Kmalloc.ALIGN_UP csz 16 <= r ->
  Forall (fun c => 0 < c < 128) q -> (1 <= length q <= 63)%nat ->
  dir_end f m1 = Some di -> Exfat.endpos di q <= csz -> entries_of f m1 q = Some None -> is_Some (listing f m1 32) ->
  added f m1 di q c sz m -> file_ok f m (Exfat.MkNode f c 0 sz) l -> (length l <= fuel)%nat ->
  exists m' s', ShellCmd.cmd_rm (HK := file_kernel) (str "/root/" ++ q) s = Some (tt, s') /\
    vol_state m' r (Shell.kern s') /\ output (Shell.kern s') = output (Shell.kern s) /\
    listing f m' 32 = listing f m1 32 /\ forall c, c ∈ free_clusters f m' <-> c ∈ free_clusters f m \/ c ∈ l.
Proof.
  intros Hk Hr Q1 Q2 D1 D2 Hn Hl Ha Hf Hfu. assert (Q0 : q <> []) by (intros ->; cbn in Q2; lia).
  destruct (sys_unlink m r (Shell.kern s) q di (Exfat.endpos di q) l Hk Hr Q0) as (m' & k' & E & V & O & B & F); try done;
    [by apply (added_entries f (47 :: q) di m1 Q1 Q2 D1 c sz)|apply Hf| |apply Hf|].
  { rewrite (fo_first _ _ _ _ Hf). f_equal. symmetry. apply Ha. }
  exists m', (Shell.MkShell (Shell.s_cwd_mnt s) (Shell.s_cwd_path s) k'). cbn [Shell.kern]. split_and!; try done.
  - unfold ShellCmd.cmd_rm. rewrite bool_decide_eq_false_2 by done.
    rewrite (ShellProps.bind_run _ _ _ _ _ (file_path s m _ q Hk ltac:(lia))).
    rewrite (ShellProps.bind_run (Shell.call _) _ s 0 (Shell.MkShell (Shell.s_cwd_mnt s) (Shell.s_cwd_path s) k'))
      by (unfold Shell.call; by rewrite E). done.
  - apply (removed_listing f m1 di q c sz m m' 32); try done. lia.
Qed.

End volume.


(** [write /root/NAME TEXT] on a name that is new creates the file and prints
    "ok"; [cat /root/NAME] then prints TEXT and a newline, if the directory has room
    for the entries, enough clusters are free and the heap has a free block for the
    nodes and two clusters. *)
Theorem write_cat_file sp ubuf fuel f hb hn sc (s : Shell.shell (K := system)) m r q text di ents (steps : nat) :
  volume_layout sp ubuf f hb hn -> vol_state sp fuel f hb hn sc m (480 + r) (Shell.kern s) ->
  2 * Kmalloc.ALIGN_UP (Exfat.cluster_size f) 16 <= r -> (1 <= fuel)%nat ->
  has_room f m q (Z.of_nat (length text)) di ents ->
  Forall (fun c => Shell.is_ws c = false) q -> Shell.skip_ws text = text -> Forall is_u8 text ->
  (1 <= length text <= 512)%nat -> (Z.of_nat (length text) + 255) / 256 + 1 <= Z.of_nat steps ->
  exists s1 s2, ShellCmd.cmd_write (HK := system_kernel sp ubuf fuel) (write_args q text) s = Some (tt, s1) /\
    ShellCmd.cmd_cat (HK := system_kernel sp ubuf fuel) steps (str "/root/" ++ q) s1 = Some (tt, s2) /\
    output (Shell.kern s2) = output (Shell.kern s) ++ str "ok" ++ [10] ++ text ++ [10].
Proof.
  intros HL Hk Hr Hfu HR Hw Ht H8 Hlt Hst. pose proof Hk as [_ (w & bs & z & _ & _ & _ & A & _) _].
  pose proof (csz_pos f bs hb hn sp A) as Hcs. destruct (KmallocProps.align16 (Exfat.cluster_size f) ltac:(lia)) as (_ & Hal & _).
  destruct (write_new sp ubuf fuel f hb hn sc HL m (160 + r) q text di ents s) as (c & l & m1 & s1 & E1 & O1 & V1 & L1 & F1 & B1 & _);
    try done; [by replace (320 + (160 + r)) with (480 + r) by lia|lia|].
  destruct HR as [[Q1 Q2] _ _ _ Hnew _ _].
  destruct (cat_listed sp ubuf fuel f hb hn sc HL s1 m1 r q (ents ++ [Exfat.MkDirent c (Z.of_nat (length text)) 0 q]) (Exfat.MkDirent c (Z.of_nat (length text)) 0 q) l steps V1)
    as (s2 & E2 & O2 & _); [lia|intros ->; cbn in Q2; lia|lia|exact L1|by apply find_entry_new|exact F1|exact Hst|].
  exists s1, s2. split_and!; [done|done|]. rewrite O2, O1. cbn [Exfat.de_size]. by rewrite B1, <- !app_assoc.
Qed.


(** ** An instance

    A volume of 126 clusters mounted as "root", a heap of 4 KiB. *)

Definition root_on (f : Exfat.exfat_fs Block.device) (m : mem) : Shell.shell (K := system) :=
  Shell.MkShell (str "root") []
    (MkSystem (Vfs.MkVfs [] [Vfs.Mount (str "root") (exfat_ops 0x8000 124) (PExfat f)]
       (Some (MkState demo_con (Block.MkBlk [] demo_heap PmmSpec.demo m) []))) demo_thread (fun _ => 0xFFFFFFFF)).

Abbreviation demo_root := (root_on demo_small).

Lemma demo_layout : volume_layout 0x8000 0x20000 demo_small 0x1000 0x1000.
Proof.
  constructor; [exact demo_formatted|apply demo_small_valid; cbn; lia|constructor; unfold apart; cbn; lia].
Qed.

Lemma demo_root_state m r : r <= demo_room -> vol_state 0x8000 124 demo_small 0x1000 0x1000 demo_thread m r (Shell.kern (demo_root m)).
Proof.
  intros Hr. constructor.
  - eexists. split; [reflexivity|]. split; reflexivity.
  - eexists _, _, demo_room. split; [reflexivity|]. split; [reflexivity|]. split; [exact demo_heap_ok|].
    split; [exact demo_heap_areas|]. split; [left|]. split; [exact Hr|]. split; [|by eexists].
    intros i [= <-]. eexists. split; [reflexivity|]. apply demo_console_inv; lia.
  - reflexivity.
Qed.

(** The file "ab" has the clusters 3 and 5, and 5 bytes. *)
Definition demo_listed : mem :=
  store (wr64 demo_dir (cl_addr demo_small 2 + 56) 5) (cl_addr demo_small 3) (str "hello").

Lemma demo_listed_ok : file_ok demo_small demo_listed (Exfat.MkNode demo_small 3 0 5) [3; 5].
Proof.
  split; [reflexivity| |reflexivity|reflexivity|cbn; lia|cbn; lia|apply (bool_decide_unpack _); exact I|vm_compute; discriminate].
  split.
  - split; [repeat apply list.Forall_cons_2; try apply list.Forall_nil_2; apply demo_small_valid; lia|].
    intros [|[|i]] c d Hc Hd; [|discriminate..]. injection Hc as <-. injection Hd as <-. vm_compute. reflexivity.
  - apply (bool_decide_unpack _). exact I.
  - intros l0 c E. destruct l0 as [|x [|y l0]]; [discriminate| |destruct l0; discriminate].
    injection E as <- <-. vm_compute. reflexivity.
Qed.


Lemma demo_has_room : has_room demo_small demo_disk (str "note") (Z.of_nat (length (str "hello"))) 0 [].
Proof.
  constructor; [split; [repeat constructor|cbn; lia]|split; [vm_compute; reflexivity|vm_compute; discriminate]
    |exact demo_root_used|split; [vm_compute; reflexivity|cbn; lia]|constructor|vm_compute; discriminate|].
  intros c _. vm_compute. reflexivity.
Qed.

Lemma demo_text : Forall is_u8 (str "hello").
Proof. by repeat constructor. Qed.

Lemma write_cat_file_witness : exists s1 s2,
  ShellCmd.cmd_write (HK := system_kernel 0x8000 0x20000 124) (str "/root/note hello") (demo_root demo_disk) = Some (tt, s1) /\
  ShellCmd.cmd_cat (HK := system_kernel 0x8000 0x20000 124) 2 (str "/root/note") s1 = Some (tt, s2) /\
  output (Shell.kern s2) = str "ok" ++ [10] ++ str "hello" ++ [10].
Proof.
  destruct (write_cat_file 0x8000 0x20000 124 demo_small 0x1000 0x1000 demo_thread (demo_root demo_disk) demo_disk 1024 (str "note")
    (str "hello") 0 [] 2) as (s1 & s2 & E1 & E2 & H);
    [exact demo_layout|apply demo_root_state; lia|vm_compute; discriminate|lia|exact demo_has_room
    |by apply (bool_decide_unpack _)|reflexivity|exact demo_text|cbn; lia|vm_compute; discriminate|].
  exists s1, s2. split; [exact E1|]. split; [exact E2|exact H].
Defined.


(** On the volume [kmain64] mounts, a disk of zeros without a boot sector, the FAT
    entry of the directory is 0: the first file gets the cluster of the directory,
    and its text replaces its own entries. *)
Example first_file_lost :
  ('(_, s1) ← ShellCmd.cmd_write (HK := system_kernel 0x8000 0x20000 124) (str "/root/note hello")
     (root_on (Exfat.default_fs (Block.Dev (str "ram0") 512 16384 (Block.RamPriv 0x1000000 0x800000))) ∅);
   '(_, s2) ← ShellCmd.cmd_cat (HK := system_kernel 0x8000 0x20000 124) 2 (str "/root/note") s1;
   Some (output (Shell.kern s2)))
  = Some (str "ok" ++ [10] ++ str "cat: open failed" ++ [10]).
Proof. vm_compute. reflexivity. Qed.

End SystemFiles.
