(* ===== verification/Session.v ===== *)
(** * A session: keyboard, line editor, shell, scheduler

    The loop of [shell_main] ([src/kernel64/shell.c]) on the composed system: a line
    is read from the keyboard or the serial line, run, and the thread yields. *)

From stdpp Require Import strings.
From S2P Require Import Prelude Mb2 Pmm PmmSpec Kmalloc KmallocSpec KmallocProps Mem Block BlockSpec.
From S2P Require Import Devfs DevfsSpec Exfat ExfatSpec ExfatProps ExfatDir ExfatFat ExfatWrite ExfatFile Vfs.
From S2P Require Import Console ConsoleSpec ConsoleProps Input InputSpec Sched Pci Progress Terminal.
From S2P Require Import Shell ShellCmd ShellSpec ShellProps System SystemProps SystemFiles.

Module Session.

Import Console ConsoleProps DevfsSpec ExfatSpec ExfatProps ExfatFat ExfatWrite ExfatFile Terminal System SystemProps SystemFiles.

(** ** The loop *)

(** The shell with the system it runs on, and the devices it reads from. *)
Record session := Session { shell_of : Shell.shell (K := system); keys : Input.input }.

Definition with_kern (s : Shell.shell (K := system)) (k : system) : Shell.shell (K := system) :=
  Shell.MkShell (Shell.s_cwd_mnt s) (Shell.s_cwd_path s) k.

Section loop.
Context (sp ubuf : Z) (fuel : nat) (ret_yield : Z).
#[local] Instance session_kernel : Shell.Kernel system := system_kernel sp ubuf fuel.

(** [input_readline(line, sizeof(line))] on the console of the system. *)
Definition read_line (polls : nat) (b : mem) (inp : Input.input) (k : system)
    : option (Z * mem * Input.input * system) :=
  w ← Vfs.world (fsys k);
  '(n, b, inp, c) ← Input.input_readline polls b 128 inp (con w);
  Some (n, b, inp, set_world k (set_con w c)).

Definition yield (k : system) : option system :=
  st ← Sched.sched_yield ret_yield (sch k); Some (MkSystem (fsys k) st (conf k)).

(** One turn of the loop: [b] is what the array [line] holds; at most [polls] events
    and polls for each, [steps] turns of the loop of a command. *)
Definition shell_turn (polls steps : nat) (b : mem) (s : session) : option session :=
  '(_, sh) ← ShellCmd.shell_prompt (shell_of s);
  '(n, b, inp, k) ← read_line polls b (keys s) (Shell.kern sh);
  '(_, sh) ← ShellCmd.shell_handle_line steps (c_string (map (rd b) (seqZ 0 n))) (with_kern sh k);
  k ← yield (Shell.kern sh);
  Some (Session (with_kern sh k) inp).

End loop.

(** ** Typing *)

(** The bytes of the serial line, one at every poll. *)
Definition typed (md : Z) (e0 : bool) (bytes : list Z) : Input.input := Input.MkInput md e0 [] (map Some bytes).

Definition printable (c : Z) : Prop := 32 <= c < 127.

Definition char_event (c : Z) : Input.key_event := Input.MkEvent Input.KEY_CHAR c 0.

Lemma read_printable md e0 c rest : printable c ->
  Input.input_read_event 1 (typed md e0 (c :: rest)) Input.no_event = Some (char_event c, typed md e0 rest).
Proof.
  intros [H1 H2]. cbn. unfold Input.serial_event.
  rewrite !(proj2 (Z.eqb_neq c _)) by lia. cbn [orb].
  rewrite (proj2 (Z.leb_le 32 c)), (proj2 (Z.ltb_lt c 127)) by lia. cbn. by rewrite u16_small by lia.
Qed.

Lemma typed_arrives md e0 l rest : Forall printable l ->
  InputSpec.arrives 1 (typed md e0 (l ++ 13 :: rest)) (map char_event l ++ [Input.MkEvent Input.KEY_ENTER 0 0]) (typed md e0 rest).
Proof.
  induction 1 as [|c l Hc _ IH].
  - eapply InputSpec.arrives_cons; [reflexivity|constructor].
  - cbn [app map]. eapply InputSpec.arrives_cons; [by apply read_printable|exact IH].
Qed.

(** Characters typed at the end of the line are the line. *)
Lemma edits_typed l : forall p, Forall printable l -> Z.of_nat (length p + length l) < 128 ->
  InputSpec.edits 128 (map char_event l) (InputSpec.Zipper p []) = InputSpec.Zipper (rev l ++ p) [].
Proof.
  induction l as [|c l IH]; intros p Hl Hn; [done|]. apply list.Forall_cons in Hl as [[H1 H2] Hl]. cbn [map length] in *.
  unfold InputSpec.edits in *. cbn [fold_left]. unfold InputSpec.edit at 2. cbn [InputSpec.view_key char_event Input.type
    InputSpec.before InputSpec.after Input.ch length]. rewrite (proj2 (Z.ltb_lt _ _)) by lia. rewrite u8_small by lia.
  rewrite IH by (done || (cbn [length]; lia)). cbn [rev]. by rewrite <- app_assoc.
Qed.

Lemma c_string_id l : Forall printable l -> c_string l = l.
Proof.
  induction 1 as [|c l [H1 H2] _ IH]; [done|]. cbn. by rewrite (proj2 (Z.eqb_neq c 0)), IH by lia.
Qed.

Lemma holds_line b t : InputSpec.holds b t -> map (rd b) (seqZ 0 (Z.of_nat (length t))) = t.
Proof.
  intros H. apply list_eq. intros i. change (@map Z Z) with (@fmap list _ Z Z). rewrite list_lookup_fmap.
  destruct (decide (i < length t)%nat) as [Hi|Hi].
  - rewrite lookup_seqZ_lt by lia. destruct (lookup_lt_is_Some_2 t i Hi) as [x Hx]. cbn. rewrite Z.add_0_l, (H i x Hx). done.
  - rewrite lookup_seqZ_ge by lia. cbn. symmetry. apply lookup_ge_None_2. lia.
Qed.

(** ** The console during a line *)

(** The console prints, and has printed at least [t]. *)
Definition saying (t : list Z) (c : Console.state) : Prop := printing c /\ exists u, serial c = u ++ t.

Lemma on_serial st k g st' : on st k g = Some st' -> serial st' = serial st.
Proof.
  unfold on. destruct (s_consoles st !! k) as [c|]; [|done]. bind.
  destruct (g (is_active st k) c (disp st)) as [[c' d']|]; [|done]. bind. by intros [= <-].
Qed.

Lemma page_prints st key : printing st -> exists st', page_op key st = Some st' /\ printing st' /\ serial st' = serial st.
Proof.
  intros [Hr [k Hk]]. destruct (page_ready st key Hr) as (st' & E & Hr'). exists st'. split; [done|].
  assert (Ho : exists g, on st k g = Some st').
  { destruct key; cbn [page_op] in E; unfold console_page_up, console_page_down, console_page_home, console_page_end, view_op in E;
      rewrite Hk in E; by eexists. }
  destruct Ho as [g Eg]. split; [|by eapply on_serial]. split; [done|]. rewrite (on_active _ _ _ _ Eg). by exists k.
Qed.

Lemma saying_inv t : InputSpec.con_inv (saying t).
Proof.
  constructor.
  - intros st c [Hp [u Hu]]. destruct (putc_prints st c Hp) as (st' & E & Hp' & S). exists st'. split; [done|].
    split; [done|]. exists (c :: u). by rewrite S, Hu.
  - intros st key [Hp [u Hu]]. destruct (page_prints st key Hp) as (st' & E & Hp' & S). exists st'. split; [done|].
    split; [done|]. exists u. by rewrite S.
Qed.

(** ** A turn *)

Lemma readline_mono n max_len : forall n' s e r, (n <= n')%nat ->
  Input.readline_loop n max_len s e = Some r -> Input.readline_loop n' max_len s e = Some r.
Proof.
  induction n as [|n IH]; intros [|n'] s e r Hle H; [done|done|lia|]. cbn [Input.readline_loop] in *.
  destruct (Input.input_read_event (S n) s Input.no_event) as [[ev s']|] eqn:E; [|done].
  rewrite (InputSpec.read_event_mono (S n) (S n') _ _ _ Hle E). cbn [mbind option_bind] in *.
  destruct (decide _); [done|]. destruct (Input.handle max_len ev e) as [e'|]; [|done]. cbn [mbind option_bind] in *.
  apply IH; [lia|done].
Qed.

Section turn.
Context (sp ubuf : Z) (fuel : nat) (ret_yield : Z).
Context (f : Exfat.exfat_fs Block.device) (hb hn : Z) (sc : Sched.sched) (Halone : Sched.g_runq sc = None).
#[local] Instance turn_kernel : Shell.Kernel system := system_kernel sp ubuf fuel.

Abbreviation vol := (vol_state sp fuel f hb hn sc).

(** A line typed on the serial line is read, whatever the array held before. *)
Lemma read_line_spec polls b md e0 l rest m r k : vol m r k -> Forall printable l -> (length l < 128)%nat -> (129 <= polls)%nat ->
  exists b' k' mid, read_line polls b (typed md e0 (l ++ 13 :: rest)) k
    = Some (Z.of_nat (length l), b', typed md e0 rest, k') /\
    InputSpec.holds b' l /\ vol m r k' /\ output k' = output k ++ mid.
Proof.
  intros Hk Hl Hn Hp. pose proof Hk as [_ (w & bs & s & Ew & _ & _ & _ & _ & _ & Hc) _].
  destruct (InputSpec.readline_spec (saying (serial (con w))) (saying_inv _) 1 128 b (typed md e0 (l ++ 13 :: rest)) (con w)
    (map char_event l) (Input.MkEvent Input.KEY_ENTER 0 0) (typed md e0 rest)) as (b' & c' & E & _ & Hb & [Hc' [u Hu]]);
    [lia|split; [done|by exists []]|by apply typed_arrives|done|by apply Forall_fmap, list.Forall_true|].
  rewrite edits_typed in E, Hb by (done || (cbn; lia)). rewrite app_nil_r in E, Hb.
  replace (InputSpec.contents _) with l in E, Hb by (unfold InputSpec.contents; cbn; by rewrite app_nil_r, rev_involutive).
  exists b', (set_world k (set_con w c')), (rev u). split_and!; [|done|by eapply vol_state_con|].
  - unfold read_line. rewrite Ew. bind. unfold Input.input_readline in *. cbn [Z.eqb] in *.
    destruct (Input.readline_loop _ _ _ _) as [[e s']|] eqn:Er in E; [|done]. cbn [mbind option_bind] in E.
    assert (Hle : (1 + length (map char_event l) + 1 <= polls)%nat) by (rewrite length_map; lia).
    rewrite (readline_mono _ _ polls _ _ _ Hle Er). bind. by injection E as -> -> -> ->.
  - unfold output. cbn. rewrite Ew. cbn. by rewrite Hu, rev_app_distr.
Qed.

Lemma prompt_spec (s : Shell.shell (K := system)) m r : vol m r (Shell.kern s) -> exists k' mid,
  ShellCmd.shell_prompt s = Some (tt, with_kern s k') /\ vol m r k' /\ output k' = output (Shell.kern s) ++ mid.
Proof.
  intros Hk. pose proof Hk as [_ (w & bs & z & Ew & _ & _ & _ & _ & _ & Hc) _].
  destruct (page_prints (con w) End_ Hc) as (c1 & E1 & P1 & S1). cbn [page_op] in E1.
  set (k1 := set_world (Shell.kern s) (set_con w c1)).
  assert (Hk1 : vol m r k1) by (by eapply vol_state_con).
  destruct (sys_print sp fuel f hb hn sc m r k1 (str "dex> ") Hk1) as (k2 & E2 & Hk2 & O2).
  exists k2, (str "dex> "). split_and!; [|done|].
  - unfold ShellCmd.shell_prompt. rewrite (ShellProps.bind_run _ _ _ tt (with_kern s k1)).
    + unfold Shell.console_write, Shell.console_puts, Shell.out. cbn [Shell.kern with_kern].
      change (t_write k1 ?x) with (on_con (fun c => t_write c x) k1). by rewrite E2.
    + unfold Shell.out. change (t_page_end ?k) with (on_con t_page_end k). unfold on_con. rewrite Ew. bind.
      cbn [t_page_end console_terminal]. by rewrite E1.
  - rewrite O2. f_equal. unfold output, k1. cbn. rewrite Ew. cbn. by rewrite S1.
Qed.

(** A turn runs the line that is typed. *)
Lemma turn_spec polls steps b md e0 l rest s m r : vol m r (Shell.kern (shell_of s)) ->
  keys s = typed md e0 (l ++ 13 :: rest) -> Forall printable l -> (length l < 128)%nat -> (129 <= polls)%nat ->
  exists k1 mid, vol m r k1 /\ output k1 = output (Shell.kern (shell_of s)) ++ mid /\
    forall sh, ShellCmd.shell_handle_line steps l (with_kern (shell_of s) k1) = Some (tt, sh) -> sch (Shell.kern sh) = sc ->
      shell_turn sp ubuf fuel ret_yield polls steps b s = Some (Session sh (typed md e0 rest)).
Proof.
  intros Hk Hkeys Hl Hn Hp. destruct (prompt_spec (shell_of s) m r Hk) as (k1 & mid1 & E1 & V1 & O1).
  destruct (read_line_spec polls b md e0 l rest m r k1 V1 Hl Hn Hp) as (b' & k2 & mid2 & E2 & Hb & V2 & O2).
  exists k2, (mid1 ++ mid2). split; [done|]. split; [by rewrite O2, O1, app_assoc|]. intros sh E3 Hs.
  unfold shell_turn. change (session_kernel sp ubuf fuel) with turn_kernel. rewrite E1. bind. rewrite Hkeys. cbn [Shell.kern with_kern]. rewrite E2. bind.
  rewrite (holds_line b' l Hb), (c_string_id l Hl). change (with_kern (with_kern (shell_of s) k1) k2) with (with_kern (shell_of s) k2).
  rewrite E3. bind. unfold yield, Sched.sched_yield, Sched.dequeue. rewrite Hs, Halone.
  destruct sh as [mnt path [fs0 sc0 cf]]. cbn in *. subst sc0. by destruct (Sched.g_current sc).
Qed.

End turn.

(** ** Two lines *)

Definition write_line (q text : list Z) : list Z := str "write /root/" ++ q ++ 32 :: text.
Definition cat_line (q : list Z) : list Z := str "cat /root/" ++ q.

Lemma write_line_run `{HK : Shell.Kernel K} steps q text (s : Shell.shell (K := K)) :
  ShellCmd.shell_handle_line steps (write_line q text) s = ShellCmd.cmd_write (write_args q text) s.
Proof. unfold write_args. rewrite <- app_assoc. reflexivity. Qed.

Lemma cat_line_run `{HK : Shell.Kernel K} steps q (s : Shell.shell (K := K)) :
  ShellCmd.shell_handle_line steps (cat_line q) s = ShellCmd.cmd_cat steps (str "/root/" ++ q) s.
Proof. reflexivity. Qed.

Lemma printable_line p l : Forall printable l -> forallb (fun c => (32 <=? c) && (c <? 127)) (str p) = true ->
  Forall printable (str p ++ l).
Proof.
  intros Hl Hp. apply list.Forall_app. split; [|done]. apply list.Forall_forall. intros c Hc.
  rewrite forallb_forall in Hp. specialize (Hp c ltac:(by apply list_elem_of_In)). unfold printable. lia.
Qed.


Definition demo_session : session :=
  Session (root_on demo_small demo_disk)
    (typed 0 false (write_line (str "note") (str "hello") ++ 13 :: cat_line (str "note") ++ [13])).


End Session.
