(* ===== verification/Workers.v ===== *)
(** * The demo threads ([src/kernel64/kmain64.c])

    [workerA], [workerB] and [smp_worker] print a character and yield, a fixed
    number of times.  The threads run on the scheduler and the console; what they
    print together is given by a queue of threads with the turns each has left. *)

From S2P Require Import Prelude Sched SchedSpec SchedProps Console ConsoleSpec ConsoleProps SystemProps.

Module Workers.

Import Sched SchedSpec SchedProps SystemProps.

Inductive worker := WorkerA | WorkerB | SmpWorker (id : Z).

(** The character a worker prints and how often. *)
Definition glyph (w : worker) : Z :=
  match w with WorkerA => 46 | WorkerB => 45 | SmpWorker id => 48 + Z.rem id 10 end.
Definition turns (w : worker) : nat :=
  match w with WorkerA | WorkerB => 50 | SmpWorker _ => 40 end.

(** The turns every thread has left. *)
Record machine := Machine { threads : sched; screen : Console.state; left : list nat }.

Section run.
Context (ret_exit ret_yield : Z) (ws : list worker).

(** The running thread up to its next yield, or its end. *)
Definition work (d : machine) : option machine :=
  c ← g_current (threads d);
  w ← ws !! c;
  n ← left d !! c;
  match n with
  | O => st ← trampoline_exit ret_exit (threads d); Some (Machine st (screen d) (left d))
  | S n =>
      con ← Console.console_putc (screen d) (glyph w);
      st ← sched_yield ret_yield (threads d);
      Some (Machine st con (<[c := n]> (left d)))
  end.

(** Until the scheduler halts; [fuel] bounds the number of turns. *)
Fixpoint run_workers (fuel : nat) (d : machine) : option machine :=
  if halted (threads d) then Some d
  else match fuel with O => None | S fuel' => d ← work d; run_workers fuel' d end.

End run.

(** ** The queue of threads *)

(** Threads in the order they run, with the turns they have left: the threads that
    print, in order. *)
Fixpoint play (fuel : nat) (q : list (nat * nat)) : list nat :=
  match fuel, q with
  | S fuel', (c, S n) :: q' => c :: play fuel' (q' ++ [(c, n)])
  | S fuel', (c, O) :: q' => play fuel' q'
  | _, _ => []
  end.

(** The turns until the queue is empty. *)
Fixpoint total (q : list (nat * nat)) : nat :=
  match q with [] => 0 | x :: q' => S x.2 + total q' end.

Lemma total_queue_app q r : total (q ++ r) = (total q + total r)%nat.
Proof. induction q as [|x q IH]; [done|]. cbn [app total]. rewrite IH. lia. Qed.

(** A round: every thread with a turn more prints once. *)
Lemma play_round n l : forall k fuel,
  play (length l + fuel) (map (fun c => (c, S n)) l ++ map (fun c => (c, n)) k)
    = l ++ play fuel (map (fun c => (c, n)) (k ++ l)).
Proof.
  induction l as [|c l IH]; intros k fuel; [cbn; by rewrite app_nil_r|]. cbn [length map app play Nat.add]. f_equal.
  rewrite <- app_assoc. change ([(c, n)]) with (map (fun c => (c, n)) [c]). rewrite <- map_app, IH, <- app_assoc. done.
Qed.

Lemma play_done l : play (length l) (map (fun c => (c, 0%nat)) l) = [].
Proof. induction l as [|c l IH]; [done|]. cbn [length map play]. exact IH. Qed.

Lemma total_equal l n : total (map (fun c => (c, n)) l) = (length l * S n)%nat.
Proof. induction l as [|c r IH]; [done|]. cbn [map total length snd]. rewrite IH. lia. Qed.

Lemma play_equal l n : play (total (map (fun c => (c, n)) l)) (map (fun c => (c, n)) l) = concat (replicate n l).
Proof.
  rewrite total_equal. induction n as [|n IH].
  - rewrite Nat.mul_1_r. apply play_done.
  - replace (length l * S (S n))%nat with (length l + length l * S n)%nat by lia.
    rewrite <- (app_nil_r (map _ l)). change (@nil (nat * nat)) with (map (fun c : nat => (c, n)) []).
    rewrite play_round. cbn [app replicate concat]. by rewrite IH.
Qed.

(** ** The threads follow the queue *)

Section props.
Context (g_stacks trampoline ret_exit ret_yield : Z) (ws : list worker).

Abbreviation inv := (SchedSpec.inv g_stacks trampoline ret_yield).

Definition output (d : machine) : list Z := rev (Console.serial (screen d)).

Definition glyph_of (c : nat) : Z := from_option glyph 0 (ws !! c).

(** Thread [c] runs, the threads [q] are ready. *)
Record follows (d : machine) (c : nat) (q : list nat) : Prop := Follows {
  fw_inv : inv (threads d) q;
  fw_current : g_current (threads d) = Some c;
  fw_running : halted (threads d) = false;
  fw_screen : printing (screen d);
  fw_left : length (left d) = length ws /\ forall t, t ∈ c :: q -> (t < length ws)%nat
}.

Definition queue (d : machine) (q : list nat) : list (nat * nat) := map (fun c => (c, nth c (left d) 0%nat)) q.

Lemma queue_keep d d' q : (forall c, c ∈ q -> left d' !! c = left d !! c) -> queue d' q = queue d q.
Proof.
  intros H. apply map_ext_in. intros c Hc. apply list_elem_of_In in Hc. by rewrite !nth_lookup, H.
Qed.

(** The queue without the running thread has no duplicates. *)
Lemma follows_nodup d c q : follows d c q -> c ∉ q.
Proof. intros [Hi Hc _ _ _]. apply (si_current _ _ _ _ _ Hi c Hc). Qed.

(** A turn of a thread that is not at its end. *)
Lemma work_turn d c q n : follows d c q -> left d !! c = Some (S n) -> exists d' c' q',
  work ret_exit ret_yield ws d = Some d' /\ follows d' c' q' /\ c' :: q' = q ++ [c] /\
  left d' = <[c := n]> (left d) /\ output d' = output d ++ [glyph_of c] /\
  console (threads d') = console (threads d).
Proof.
  intros [Hi Hc Hh Hp [Hl Ht]] Hn. destruct (lookup_lt_is_Some_2 ws c) as [w Hw]; [apply Ht; left|].
  destruct (putc_prints (screen d) (glyph w) Hp) as (s' & Es & Hp' & Ss).
  assert (Hgo : glyph_of c = glyph w) by (unfold glyph_of; by rewrite Hw).
  destruct q as [|n0 r].
  - exists (Machine (threads d) s' (<[c := n]> (left d))), c, []. split_and!; try done.
    + unfold work. rewrite Hc. bind. rewrite Hw. bind. rewrite Hn. bind. rewrite Es. bind.
      rewrite (yield_alone _ _ _ _ Hi). by bind.
    + split; try done. cbn. by rewrite length_insert.
    + unfold output. cbn. by rewrite Ss, Hgo.
  - destruct (yield_switch _ _ _ (threads d) c n0 r Hi Hc Hh) as (st1 & kn & E & Kn & Hsw & Hl1 & Hq).
    assert (Hi1 : inv st1 (r ++ [c])) by (eapply switched_inv; try done; left; by split_and!).
    exists (Machine st1 s' (<[c := n]> (left d))), n0, (r ++ [c]). split_and!; try done.
    + unfold work. rewrite Hc. bind. rewrite Hw. bind. rewrite Hn. bind. rewrite Es. bind. rewrite E. by bind.
    + split; cbn; [done|apply Hsw| |done|].
      * by rewrite (sw_halted _ _ _ _ _ _ _ Hsw).
      * rewrite length_insert. split; [done|]. intros t Hin. apply Ht. set_solver.
    + unfold output. cbn. by rewrite Ss, Hgo.
    + apply Hsw.
Qed.

(** The end of a thread. *)
Lemma work_end d c q : follows d c q -> left d !! c = Some 0%nat -> exists d',
  work ret_exit ret_yield ws d = Some d' /\ left d' = left d /\ output d' = output d /\
  match q with
  | [] => halted (threads d') = true /\ console (threads d') = NoNextThread :: console (threads d)
  | c' :: q' => follows d' c' q' /\ console (threads d') = console (threads d)
  end.
Proof.
  intros [Hi Hc Hh Hp [Hl Ht]] Hn. destruct (lookup_lt_is_Some_2 ws c) as [w Hw]; [apply Ht; left|].
  destruct q as [|n0 r].
  - destruct (exit_halt _ _ ret_exit _ (threads d) c Hi Hc Hh) as (st1 & E & _ & Hh1 & Hc1 & _).
    exists (Machine st1 (screen d) (left d)). split_and!; try done.
    unfold work. rewrite Hc. bind. rewrite Hw. bind. rewrite Hn. bind. rewrite E. by bind.
  - destruct (exit_switch _ _ ret_exit _ (threads d) c n0 r Hi Hc Hh) as (st1 & kn & E & Kn & Hsw & Hl1 & Hq).
    exists (Machine st1 (screen d) (left d)). split_and!; try done; [|split; cbn; try done|apply Hsw].
    + unfold work. rewrite Hc. bind. rewrite Hw. bind. rewrite Hn. bind. rewrite E. by bind.
    + eapply switched_inv; try done. right. by split.
    + apply Hsw.
    + by rewrite (sw_halted _ _ _ _ _ _ _ Hsw).
    + split; [done|]. intros t Hin. apply Ht. by right.
Qed.

Lemma run_spec : forall fuel d c q, follows d c q -> total (queue d (c :: q)) = fuel -> exists d',
  run_workers ret_exit ret_yield ws fuel d = Some d' /\ halted (threads d') = true /\
  console (threads d') = NoNextThread :: console (threads d) /\
  output d' = output d ++ map glyph_of (play fuel (queue d (c :: q))).
Proof.
  induction fuel as [|fuel IH]; intros d c q Hf Ht; [cbn [queue map total snd] in Ht; lia|].
  pose proof (fw_left _ _ _ Hf) as [Hl Hlt]. destruct (lookup_lt_is_Some_2 (left d) c) as [n Hn]; [rewrite Hl; apply Hlt; left|].
  assert (Eq : queue d (c :: q) = (c, n) :: queue d q) by (cbn; by rewrite (nth_lookup_Some _ _ _ _ Hn)).
  rewrite Eq in *. cbn [run_workers]. rewrite (fw_running _ _ _ Hf). destruct n as [|n].
  - destruct (work_end d c q Hf Hn) as (d1 & -> & El & Eo & H). bind. cbn [play].
    assert (Ek : forall r, queue d1 r = queue d r) by (intros r; apply queue_keep; by rewrite El).
    destruct q as [|c' q'].
    + destruct H as [Hh Hc]. exists d1. split; [|by rewrite Eo; cbn; destruct fuel; rewrite app_nil_r].
      destruct fuel; cbn [run_workers]; by rewrite Hh.
    + destruct H as [Hf1 Hc]. destruct (IH d1 c' q' Hf1) as (d' & E & Hh & Hc' & Ho); [rewrite Ek; cbn [total snd] in Ht; lia|].
      exists d'. rewrite Ek in Ho. split_and!; [done|done|by rewrite Hc', Hc|by rewrite Ho, Eo].
  - destruct (work_turn d c q n Hf Hn) as (d1 & c' & q' & -> & Hf1 & Eq1 & El & Eo & Hc). bind. cbn [play map].
    assert (Ek : queue d1 (c' :: q') = queue d q ++ [(c, n)]).
    { rewrite Eq1. unfold queue. rewrite map_app. f_equal.
      - apply queue_keep. intros t Htq. rewrite El, list_lookup_insert_ne; [done|]. intros ->. by apply (follows_nodup _ _ _ Hf).
      - cbn. rewrite El, (nth_lookup_Some _ _ _ n); [done|]. apply list_lookup_insert_eq. rewrite Hl. apply Hlt. left. }
    destruct (IH d1 c' q' Hf1) as (d' & E & Hh & Hc' & Ho); [rewrite Ek, total_queue_app; cbn [total snd] in *; lia|].
    exists d'. rewrite Ek in Ho. split_and!; [done|done|by rewrite Hc', Hc|by rewrite Ho, Eo, <- app_assoc].
Qed.

End props.

(** The demo threads run by turns: started together and with the same number of
    turns, they print their characters in the order of their creation, once in every
    round, and when all have ended the machine halts, after one turn for every
    character and one for every end. *)
Theorem workers_interleave g_stacks trampoline ret_exit ret_yield ws n st c :
  SchedSpec.inv g_stacks trampoline ret_yield st (seq 1 (length ws - 1)) ->
  g_current st = Some 0%nat -> halted st = false -> printing c -> ws <> [] ->
  Forall (fun w => turns w = n) ws ->
  exists d', run_workers ret_exit ret_yield ws (length ws * S n) (Machine st c (map turns ws)) = Some d' /\
    halted (threads d') = true /\ console (threads d') = NoNextThread :: console st /\
    output d' = rev (Console.serial c) ++ concat (replicate n (map glyph ws)).
Proof.
  intros Hi Hc Hh Hp Hne Hn. set (d := Machine st c (map turns ws)). set (q := seq 1 (length ws - 1)) in *.
  assert (Hs : 0%nat :: q = seq 0 (length ws)) by (destruct ws; [done|]; cbn; by rewrite Nat.sub_0_r).
  assert (Hf : follows g_stacks trampoline ret_yield ws d 0 q).
  { split; try done. split; [apply length_map|]. intros t Ht. rewrite Hs in Ht. apply elem_of_seq in Ht. lia. }
  assert (Hq : queue d (0%nat :: q) = map (fun c => (c, n)) (0%nat :: q)).
  { rewrite Hs. apply map_ext_in. intros t Ht. apply in_seq in Ht. f_equal.
    destruct (lookup_lt_is_Some_2 ws t ltac:(lia)) as [w Hw]. cbn [left d].
    rewrite (nth_lookup_Some _ _ _ (turns w)); [by eapply Forall_lookup_1 in Hn|].
    change (@map worker nat) with (@fmap list _ worker nat). by rewrite list_lookup_fmap, Hw. }
  destruct (run_spec g_stacks trampoline ret_exit ret_yield ws (length ws * S n) d 0 q Hf) as (d' & E & H1 & H2 & H3).
  { rewrite Hq, total_equal, Hs, length_seq. done. }
  exists d'. split_and!; [done|done|done|]. rewrite H3. f_equal.
  replace (length ws * S n)%nat with (total (map (fun c => (c, n)) (0%nat :: q))) by (rewrite total_equal, Hs, length_seq; done).
  rewrite Hq, play_equal, concat_map, Hs. f_equal. change (@map (list nat)) with (fun B => @fmap list _ (list nat) B).
  cbn beta. rewrite fmap_replicate. f_equal. clear. induction ws as [|w ws IH] using rev_ind; [done|].
  rewrite length_app, Nat.add_1_r, seq_S, !map_app. f_equal.
  - rewrite <- IH. apply map_ext_in. intros t Ht. apply in_seq in Ht. unfold glyph_of. by rewrite lookup_app_l by lia.
  - cbn. unfold glyph_of. by rewrite list_lookup_middle.
Qed.

Lemma workers_interleave_witness : exists d',
  run_workers 2 3 [WorkerA; WorkerB] (2 * 51) (Machine demo_run demo_con [50%nat; 50%nat]) = Some d' /\
  output d' = concat (replicate 50 [46; 45]).
Proof.
  destruct (workers_interleave demo_stacks 1 2 3 [WorkerA; WorkerB] 50 demo_run demo_con) as (d' & E & _ & _ & H);
    [exact demo_run_inv|reflexivity|reflexivity| |discriminate|by repeat constructor|exists d'; split; [exact E|exact H]].
  split; [|by eexists]. intros i [= <-]. eexists. split; [reflexivity|]. apply ConsoleProps.demo_console_inv; lia.
Defined.

End Workers.
