(* ===== verification/Uefi.v ===== *)
(** * The UEFI program ([src/uefi/efi_main.c], [efi_utils.h])

    The program converts a string to UTF-16 in a static array and has the firmware
    print it.  The firmware is a parameter: a state and the function behind
    [OutputString]. *)

From stdpp Require Import strings.
From S2P Require Import Prelude Terminal.

Module Uefi.

Section efi.
Context {F : Type}.

(** [OutputString], called with the protocol and a string. *)
Definition OutputStringFn : Type := mem -> F -> Z * F.

Record EFI_TABLE_HEADER := TableHeader {
  Signature : Z; Revision : Z; HeaderSize : Z; CRC32 : Z; Reserved : Z
}.

Record EFI_SIMPLE_TEXT_OUTPUT_PROTOCOL := TextOutput { Reset : Z; OutputString : OutputStringFn }.

(** Pointers that the program does not follow are numbers. *)
Record EFI_SYSTEM_TABLE := SystemTable {
  Hdr : EFI_TABLE_HEADER;
  FirmwareVendor : Z;
  FirmwareRevision : Z;
  ConsoleInHandle : Z;
  ConIn : Z;
  ConsoleOutHandle : Z;
  ConOut : EFI_SIMPLE_TEXT_OUTPUT_PROTOCOL;
  StandardErrorHandle : Z;
  StdErr : EFI_SIMPLE_TEXT_OUTPUT_PROTOCOL
}.

(** The status is ignored. *)
Definition efi_puts (t : EFI_SYSTEM_TABLE) (s : mem) (fw : F) : F := (OutputString (ConOut t) s fw).2.

(** [out\[i\] = v] in an array of [n] elements; no result outside it. *)
Definition put16 (n : Z) (out : mem) (i v : Z) : option mem :=
  if (0 <=? i) && (i <? n) then Some (wr out i (u16 v)) else None.

(** The string without its NUL, from element [i] on. *)
Fixpoint ascii_to_utf16_at (n : Z) (ascii : list Z) (out : mem) (i : Z) : option mem :=
  match ascii with
  | c :: ascii' => out ← put16 n out i (u8 c); ascii_to_utf16_at n ascii' out (i + 1)
  | [] => put16 n out i 0
  end.
Definition ascii_to_utf16 (n : Z) (ascii : list Z) (out : mem) : option mem := ascii_to_utf16_at n ascii out 0.

(** [static CHAR16 msg\[64\]] *)
Definition msg_size : Z := 64.

Definition hello : list Z := Terminal.str "Hello, world from UEFI!" ++ [13; 10].

(** Status, the array, and the firmware. *)
Definition efi_main (t : EFI_SYSTEM_TABLE) (msg : mem) (fw : F) : option (Z * mem * F) :=
  msg ← ascii_to_utf16 msg_size hello msg;
  Some (0, msg, efi_puts t msg fw).

End efi.

(** ** Strings in an array *)

(** [out] holds the units [s] and a 0. *)
Definition holds16 (out : mem) (s : list Z) : Prop :=
  forall i x, (s ++ [0]) !! i = Some x -> rd out (Z.of_nat i) = x.

Lemma at_spec n s : forall out i, Forall is_u8 s -> 0 <= i ->
  (i + Z.of_nat (length s) < n -> exists out', ascii_to_utf16_at n s out i = Some out' /\
     (forall k x, (s ++ [0]) !! k = Some x -> rd out' (i + Z.of_nat k) = x) /\
     forall a, ~ i <= a <= i + Z.of_nat (length s) -> rd out' a = rd out a) /\
  (n <= i + Z.of_nat (length s) -> ascii_to_utf16_at n s out i = None).
Proof.
  induction s as [|c s IH]; intros out i Hs Hi; cbn [ascii_to_utf16_at app length].
  - unfold put16. split; intros Hn.
    + rewrite (proj2 (Z.leb_le 0 i)), (proj2 (Z.ltb_lt i n)) by lia. eexists. split; [done|]. split.
      * intros [|k] x Hx; [|done]. injection Hx as <-. rewrite Z.add_0_r. apply rd_wr_eq.
      * intros a Ha. apply rd_wr_ne. cbn in Ha. lia.
    + rewrite (proj2 (Z.ltb_ge i n)) by (cbn in Hn; lia). by rewrite andb_false_r.
  - apply list.Forall_cons in Hs as [Hc Hs]. unfold put16. rewrite (proj2 (Z.leb_le 0 i)) by lia. cbn [andb].
    destruct (Z.ltb_spec i n) as [Hin|Hin]; cbn [mbind option_bind].
    2: { split; [lia|done]. }
    destruct (IH (wr out i (u16 (u8 c))) (i + 1) Hs ltac:(lia)) as [IH1 IH2]. split; intros Hn.
    + destruct IH1 as (out' & E & H1 & H2); [lia|]. exists out'. split; [done|]. split.
      * intros [|k] x Hx.
        { injection Hx as <-. rewrite Z.add_0_r, H2, rd_wr_eq by lia. unfold is_u8 in Hc.
          rewrite u8_small, u16_small by lia. done. }
        rewrite <- (H1 k x Hx). f_equal. lia.
      * intros a Ha. rewrite H2, rd_wr_ne by lia. done.
    + apply IH2. lia.
Qed.

(** The conversion fits exactly when the string and its NUL do; then the array
    holds the characters, one to a unit, and a 0, and the rest of it is kept. *)
Theorem ascii_to_utf16_correct n s out : Forall is_u8 s ->
  (Z.of_nat (length s) < n -> exists out', ascii_to_utf16 n s out = Some out' /\ holds16 out' s /\
     forall a, ~ 0 <= a <= Z.of_nat (length s) -> rd out' a = rd out a) /\
  (n <= Z.of_nat (length s) -> ascii_to_utf16 n s out = None).
Proof.
  intros Hs. destruct (at_spec n s out 0 Hs ltac:(lia)) as [H1 H2]. split; [|exact H2].
  intros Hn. destruct (H1 Hn) as (out' & E & Ha & Hb). by exists out'.
Qed.

Lemma ascii_to_utf16_correct_witness :
  (exists out', ascii_to_utf16 3 [104; 105] ∅ = Some out' /\ holds16 out' [104; 105]) /\
  ascii_to_utf16 2 [104; 105] ∅ = None.
Proof.
  assert (Hs : Forall is_u8 [104; 105]) by (by repeat constructor). split.
  - destruct (proj1 (ascii_to_utf16_correct 3 [104; 105] ∅ Hs)) as (out' & E & H & _); [cbn; lia|].
    exists out'. split; [exact E|exact H].
  - apply (ascii_to_utf16_correct 2 [104; 105] ∅ Hs). cbn. lia.
Defined.

(** The UEFI program prints its line and reports success, on any firmware that
    prints the units of a string up to its 0: the line and its NUL fit the array. *)
Theorem efi_main_correct {F} (t : EFI_SYSTEM_TABLE (F := F)) (printed : F -> list Z) msg fw :
  (forall s u, holds16 s u -> 0 ∉ u -> Z.of_nat (length u) < msg_size ->
     printed (OutputString (ConOut t) s fw).2 = printed fw ++ u) ->
  exists msg' fw', efi_main t msg fw = Some (0, msg', fw') /\ printed fw' = printed fw ++ hello.
Proof.
  intros Hfw. destruct (at_spec msg_size hello msg 0) as [H _]; [by repeat constructor|lia|].
  destruct H as (msg' & E & H1 & _); [vm_compute; reflexivity|].
  exists msg', (efi_puts t msg' fw). unfold efi_main, ascii_to_utf16. rewrite E. bind. split; [done|].
  apply Hfw; [exact H1|by apply (bool_decide_unpack _)|vm_compute; reflexivity].
Qed.

(** A firmware that collects the units. *)
Fixpoint units (fuel : nat) (s : mem) (i : Z) : list Z :=
  match fuel with
  | O => []
  | S fuel' => if rd s i =? 0 then [] else rd s i :: units fuel' s (i + 1)
  end.

Lemma units_holds u : forall fuel s i, (forall k x, (u ++ [0]) !! k = Some x -> rd s (i + Z.of_nat k) = x) -> 0 ∉ u ->
  (length u < fuel)%nat -> units fuel s i = u.
Proof.
  induction u as [|c u IH]; intros [|fuel] s i H Hz Hf; cbn [length] in *; try lia; cbn [units].
  - pose proof (H 0%nat 0 eq_refl) as H0. rewrite Z.add_0_r in H0. by rewrite H0.
  - pose proof (H 0%nat c eq_refl) as H0. rewrite Z.add_0_r in H0. rewrite H0.
    apply not_elem_of_cons in Hz as [Hc Hz]. rewrite (proj2 (Z.eqb_neq c 0)) by done. f_equal.
    apply IH; [|done|lia]. intros k x Hk. rewrite <- (H (S k) x Hk). f_equal. lia.
Qed.

Definition demo_out : EFI_SIMPLE_TEXT_OUTPUT_PROTOCOL (F := list Z) :=
  TextOutput 0 (fun s fw => (0, fw ++ units 64 s 0)).
Definition demo_table : EFI_SYSTEM_TABLE (F := list Z) :=
  SystemTable (TableHeader 0 0 0 0 0) 0 0 0 0 0 demo_out 0 demo_out.

Lemma efi_main_correct_witness : exists msg' fw', efi_main demo_table ∅ [] = Some (0, msg', fw') /\ fw' = hello.
Proof.
  destruct (efi_main_correct demo_table (fun fw => fw) ∅ []) as (msg' & fw' & E & H).
  - intros s u Hu Hz Hl. cbn [demo_table ConOut demo_out OutputString snd app]. apply (units_holds u); [exact Hu|exact Hz|unfold msg_size in Hl; lia].
  - exists msg', fw'. split; [exact E|exact H].
Defined.

End Uefi.
