(* ===== verification/Serial.v ===== *)
(** * Serial port ([src/kernel64/serial.c], [src/kernel/kmain.c])

    The driver of the 64-bit kernel and the 32-bit entry function, which prints
    through a driver of its own.  The controller is hardware: any type of states
    with port reads and writes; [Uart] states what the code relies on. *)

From stdpp Require Import strings.
From S2P Require Import Prelude Mb2 Pmm PmmSpec PmmInit Kmalloc KmallocSpec KmallocProps.
From S2P Require Import Console ConsoleSpec ConsoleProps Progress Terminal.

Module Serial.

Import Terminal.

(** ** Ports *)

Class Ports (P : Type) := MkPorts {
  inb : Z -> P -> Z * P;
  outb : Z -> Z -> P -> P
}.

Definition COM1_BASE : Z := 0x3F8.
Definition COM_LSR : Z := COM1_BASE + 5.
Definition COM_LSR_DR : Z := 0x01.
Definition COM_LSR_THRE : Z := 0x20.

Section driver.
Context `{HP : Ports P}.

(** [divisor] is 1 in serial.c (115200 baud) and 3 in kmain.c (38400 baud). *)
Definition serial_setup (divisor : Z) (p : P) : P :=
  let p := outb (COM1_BASE + 1) 0x00 p in
  let p := outb (COM1_BASE + 3) 0x80 p in
  let p := outb (COM1_BASE + 0) divisor p in
  let p := outb (COM1_BASE + 1) 0x00 p in
  let p := outb (COM1_BASE + 3) 0x03 p in
  let p := outb (COM1_BASE + 2) 0xC7 p in
  outb (COM1_BASE + 4) 0x0B p.

Definition serial_init (p : P) : P := serial_setup 1 p.

(** The busy wait; no result when [fuel] polls are not enough. *)
Fixpoint serial_wait_tx (fuel : nat) (p : P) : option P :=
  match fuel with
  | O => None
  | S fuel' =>
      let '(v, p) := inb COM_LSR p in
      if Z.land v COM_LSR_THRE =? 0 then serial_wait_tx fuel' p else Some p
  end.

Definition serial_putc (fuel : nat) (c : Z) (p : P) : option P :=
  p ← serial_wait_tx fuel p; Some (outb COM1_BASE (u8 c) p).

Definition serial_try_getc (p : P) : Z * P :=
  let '(v, p) := inb COM_LSR p in
  if negb (Z.land v COM_LSR_DR =? 0) then inb COM1_BASE p else (-1, p).

(** A string and a newline; a number. *)
Fixpoint send (fuel : nat) (s : list Z) (p : P) : option P :=
  match s with
  | [] => Some p
  | c :: s' => p ← serial_putc fuel c p; send fuel s' p
  end.

Definition s_puts (fuel : nat) (s : list Z) (p : P) : option P :=
  p ← send fuel s p; serial_putc fuel 10 p.

Definition s_put_hex64 (fuel : nat) (v : Z) (p : P) : option P :=
  p ← serial_putc fuel 48 p; p ← serial_putc fuel 120 p;
  for_range 0 16 (fun i => serial_putc fuel (Console.hex_digit (Z.land (Z.shiftr v ((15 - i) * 4)) 0xF))) p.

(** ** The 32-bit kernel *)

Definition early_serial_init (p : P) : P := serial_setup 3 p.
Definition serial_write_char (fuel : nat) (a : Z) (p : P) : option P := serial_putc fuel a p.

Fixpoint serial_write (fuel : nat) (s : list Z) (p : P) : option P :=
  match s with
  | [] => Some p
  | c :: s' =>
      p ← (if c =? 10 then serial_write_char fuel 13 p else Some p);
      p ← serial_write_char fuel c p;
      serial_write fuel s' p
  end.

Definition print_u64_hex (fuel : nat) (v : Z) (p : P) : option P :=
  serial_write fuel ([48; 120] ++ map (fun i => Console.hex_digit (Z.land (Z.shiftr v ((15 - i) * 4)) 0xF)) (seqZ 0 16)) p.

(** The digits stored in [tmp[16]], the last one first. *)
Fixpoint dec_loop (n : nat) (x : Z) : list Z :=
  match n with
  | O => []
  | S n' => if 0 <? x then (48 + x mod 10) :: dec_loop n' (x / 10) else []
  end.

Definition print_u32_dec (fuel : nat) (x : Z) (p : P) : option P :=
  if x =? 0 then serial_write fuel [48] p else serial_write fuel (rev (dec_loop 16 x)) p.

Definition print_human_bytes (fuel : nat) (bytes : Z) (p : P) : option P :=
  let kib := u32 (Z.shiftr bytes 10) in
  let mib := u32 (Z.shiftr bytes 20) in
  let gib := u32 (Z.shiftr bytes 30) in
  p ← serial_write fuel (str " (~") p;
  p ← (if 0 <? gib then p ← print_u32_dec fuel gib p; serial_write fuel (str " GiB") p
       else if 0 <? mib then p ← print_u32_dec fuel mib p; serial_write fuel (str " MiB") p
       else p ← print_u32_dec fuel kib p; serial_write fuel (str " KiB") p);
  serial_write fuel (str ")") p.

Definition print_total (fuel : nat) (label : string) (bytes : Z) (p : P) : option P :=
  p ← serial_write fuel (str label) p;
  p ← print_u64_hex fuel bytes p;
  p ← print_human_bytes fuel bytes p;
  serial_write fuel [10] p.

(** [early_heap] is the address of the array of 64 KiB; the result has the three
    blocks and the heap. *)
Definition kmain (fuel tags : nat) (m : mem) (mb_info : Z) (bss : mem) (early_heap : Z) (p : P)
    : option (list Z * Kmalloc.kheap * Pmm.pmm * P) :=
  let p := early_serial_init p in
  p ← serial_write fuel (str "Hello from Multiboot2 kernel!" ++ [10]) p;
  st ← Pmm.pmm_init tags m mb_info false bss;
  p ← print_total fuel "Total physical: " (Pmm.pmm_total_physical_bytes st) p;
  p ← print_total fuel "Usable (free init): " (Pmm.pmm_total_bytes st) p;
  let h := Kmalloc.kmalloc_init (Kmalloc.Kheap 0 0 0 ∅) early_heap (64 * 1024) in
  '(a, h) ← Kmalloc.kmalloc h 24;
  '(b, h) ← Kmalloc.kmalloc h 1024;
  '(c, h) ← Kmalloc.kmalloc h 4096;
  p ← serial_write fuel (str "kmalloc test done" ++ [10]) p;
  Some ([a; b; c], h, st, p).

End driver.

(** ** What the controller promises

    [sent] are the bytes handed to the transmitter, [dlab] the divisor latch bit of
    the line control register, [busy] the number of status reads that still show
    a full transmitter. *)
Class Uart (P : Type) `{HP : Ports P} := MkUart {
  sent : P -> list Z;
  dlab : P -> bool;
  busy : P -> nat;
  latency : nat;
  uart_busy p : (busy p <= latency)%nat;
  uart_lsr p : exists v p', inb COM_LSR p = (v, p') /\ sent p' = sent p /\ dlab p' = dlab p /\
    match busy p with
    | O => Z.land v COM_LSR_THRE <> 0 /\ busy p' = O
    | S n => Z.land v COM_LSR_THRE = 0 /\ busy p' = n
    end;
  uart_thr v p : dlab p = false -> busy p = O ->
    sent (outb COM1_BASE v p) = sent p ++ [v] /\ dlab (outb COM1_BASE v p) = false;
  uart_divisor v p : dlab p = true ->
    sent (outb COM1_BASE v p) = sent p /\ dlab (outb COM1_BASE v p) = true;
  uart_lcr v p : sent (outb (COM1_BASE + 3) v p) = sent p /\ dlab (outb (COM1_BASE + 3) v p) = Z.testbit v 7;
  uart_other a v p : a ∈ [1; 2; 4] ->
    sent (outb (COM1_BASE + a) v p) = sent p /\ dlab (outb (COM1_BASE + a) v p) = dlab p
}.

(** ** The text of the 32-bit kernel *)

(** [s] is [n] in decimal, without leading zeros. *)
Definition decimal (n : Z) (s : list Z) : Prop :=
  fold_left (fun v c => 10 * v + (c - 48)) s 0 = n /\ Forall (fun c => 48 <= c <= 57) s /\
  (n = 0 -> s = [48]) /\ (0 < n -> head s <> Some 48).

Lemma dec_loop_spec k : forall x, 0 < x < 10^Z.of_nat k ->
  let s := rev (dec_loop k x) in
  fold_left (fun v c => 10 * v + (c - 48)) s 0 = x /\ Forall (fun c => 48 <= c <= 57) s /\
  exists c, head s = Some c /\ c <> 48.
Proof.
  induction k as [|k IH]; intros x Hx; cbn zeta.
  - change (10 ^ Z.of_nat 0) with 1 in Hx. lia.
  - cbn [dec_loop]. rewrite (proj2 (Z.ltb_lt 0 x)) by lia. cbn [rev]. rewrite fold_left_app. cbn [fold_left].
    pose proof (Z.mod_pos_bound x 10 ltac:(lia)). pose proof (Z.div_mod x 10 ltac:(lia)).
    destruct (decide (x < 10)) as [Hs|Hs].
    + rewrite Z.div_small, Z.mod_small by lia. assert (El : dec_loop k 0 = []) by (by destruct k). rewrite El. cbn.
      split; [lia|]. split; [constructor; [lia|done]|]. exists (48 + x). split; [done|lia].
    + destruct (IH (x / 10)) as (V & F & c & Hc & Hne).
      { split; [apply Z.div_str_pos; lia|]. apply Z.div_lt_upper_bound; [lia|].
        rewrite Nat2Z.inj_succ, Z.pow_succ_r in Hx by lia. lia. }
      split; [rewrite V; lia|]. split.
      * apply list.Forall_app. split; [done|]. constructor; [lia|done].
      * exists c. split; [|done]. by destruct (rev (dec_loop k (x / 10))).
Qed.

Definition dec_text (x : Z) : list Z := if x =? 0 then [48] else rev (dec_loop 16 x).

Lemma dec_text_spec x : 0 <= x < 2^32 -> decimal x (dec_text x).
Proof.
  intros Hx. unfold dec_text. destruct (Z.eqb_spec x 0) as [->|Hne].
  - split; [done|]. split; [repeat constructor; lia|]. by split.
  - destruct (dec_loop_spec 16 x) as (V & F & c & Hc & Hne'); [lia|]. split; [done|]. split; [done|].
    split; [lia|]. intros _. rewrite Hc. congruence.
Qed.

(** Bytes in the largest unit that is not zero. *)
Definition human (n : Z) : list Z :=
  if 2^30 <=? n then dec_text (n / 2^30) ++ str " GiB"
  else if 2^20 <=? n then dec_text (n / 2^20) ++ str " MiB"
  else dec_text (n / 2^10) ++ str " KiB".

Definition total_text (label : string) (n : Z) : list Z :=
  str label ++ [48; 120] ++ hex_digits n ++ str " (~" ++ human n ++ str ")" ++ [10].

(** The three blocks of the heap test. *)
Lemma early_blocks base : 0 < base < 2^32 -> base mod 16 = 0 -> exists a h1 b h2 c h3,
  Kmalloc.kmalloc (Kmalloc.kmalloc_init (Kmalloc.Kheap 0 0 0 ∅) base (64 * 1024)) 24 = Some (a, h1) /\
  Kmalloc.kmalloc h1 1024 = Some (b, h2) /\ Kmalloc.kmalloc h2 4096 = Some (c, h3) /\ 0 < a /\ 0 < b /\ 0 < c.
Proof.
  intros Hb Hm. pose proof (KmallocProps.init_inv (Kmalloc.Kheap 0 0 0 ∅) base (64 * 1024)) as Hi.
  destruct (KmallocProps.kmalloc_room _ _ 24 (64 * 1024 - 32) 20000 (Hi ltac:(lia) Hm ltac:(lia) eq_refl ltac:(lia)))
    as (a & h1 & bs1 & s1 & E1 & P1 & I1 & _ & _ & S1 & R1); [lia|by left|by vm_compute|lia|].
  destruct (KmallocProps.kmalloc_room h1 bs1 1024 s1 10000 I1) as (b & h2 & bs2 & s2 & E2 & P2 & I2 & _ & _ & S2 & R2);
    [lia|done|change (Kmalloc.ALIGN_UP 1024 16) with 1024; lia|lia|].
  destruct (KmallocProps.kmalloc_room h2 bs2 4096 s2 0 I2) as (c & h3 & bs3 & s3 & E3 & P3 & _);
    [lia|done|change (Kmalloc.ALIGN_UP 4096 16) with 4096; lia|lia|].
  exists a, h1, b, h2, c, h3. by split_and!.
Qed.

(** ** What is sent *)

Section laws.
Context `{HU : Uart P}.

(** Initialisation leaves the divisor latch closed and sends nothing. *)
Lemma setup_quiet d p : sent (serial_setup d p) = sent p /\ dlab (serial_setup d p) = false.
Proof.
  unfold serial_setup. set (p1 := outb _ _ p). set (p2 := outb _ _ p1). set (p3 := outb _ _ p2).
  set (p4 := outb _ _ p3). set (p5 := outb _ _ p4). set (p6 := outb _ _ p5).
  destruct (uart_other 1 0 p) as [A1 _]; [set_solver|]. destruct (uart_lcr 0x80 p1) as [A2 D2].
  destruct (uart_divisor d p2 D2) as [A3 D3]. destruct (uart_other 1 0 p3) as [A4 _]; [set_solver|].
  destruct (uart_lcr 3 p4) as [A5 D5]. destruct (uart_other 2 0xC7 p5) as [A6 D6]; [set_solver|].
  destruct (uart_other 4 0x0B p6) as [A7 D7]; [set_solver|].
  change (sent p3 = sent p2) in A3. split; [|by rewrite D7; fold p6 in D6; rewrite D6].
  rewrite A7. fold p6 in A6. rewrite A6. fold p5 in A5. rewrite A5. fold p4 in A4. rewrite A4, A3.
  fold p2 in A2. by rewrite A2.
Qed.

Context (fuel : nat) (Hfuel : (latency < fuel)%nat).

(** [f] sends [t]. *)
Definition sends (f : P -> option P) (t : list Z) : Prop :=
  forall p, dlab p = false -> exists p', f p = Some p' /\ sent p' = sent p ++ t /\ dlab p' = false.

Lemma sends_bind f g t u : sends f t -> sends g u -> sends (fun p => p ← f p; g p) (t ++ u).
Proof.
  intros Hf Hg p Hp. destruct (Hf p Hp) as (p1 & E1 & S1 & D1). destruct (Hg p1 D1) as (p2 & E2 & S2 & D2).
  exists p2. rewrite E1. bind. split; [done|]. rewrite S2, S1, app_assoc. done.
Qed.

Lemma sends_none : sends Some [].
Proof. intros p Hp. exists p. by rewrite app_nil_r. Qed.

Lemma wait_ready n : forall p, (busy p < n)%nat ->
  exists p', serial_wait_tx n p = Some p' /\ sent p' = sent p /\ dlab p' = dlab p /\ busy p' = O.
Proof.
  induction n as [|n IH]; intros p Hb; [lia|]. cbn [serial_wait_tx].
  destruct (uart_lsr p) as (v & p1 & E & S1 & D1 & H). rewrite E. destruct (busy p) as [|k].
  - destruct H as [Hv Hb1]. rewrite (proj2 (Z.eqb_neq _ 0)) by done. by exists p1.
  - destruct H as [Hv Hb1]. rewrite Hv. cbn [Z.eqb].
    destruct (IH p1) as (p2 & E2 & S2 & D2 & B2); [lia|]. exists p2. split; [done|]. split_and!; congruence.
Qed.

Lemma putc_sends c : sends (serial_putc fuel c) [u8 c].
Proof.
  intros p Hp. unfold serial_putc. destruct (wait_ready fuel p) as (p1 & E & S1 & D1 & B1).
  { pose proof (uart_busy p). lia. }
  rewrite E. bind. eexists. split; [done|]. rewrite Hp in D1. destruct (uart_thr (u8 c) p1 D1 B1) as [-> ->].
  by rewrite S1.
Qed.

(** What [serial_write] sends: a carriage return before every newline. *)
Definition crlf (s : list Z) : list Z := mjoin ((fun c => if c =? 10 then [13; 10] else [u8 c]) <$> s).

Lemma write_sends s : sends (serial_write fuel s) (crlf s).
Proof.
  induction s as [|c s IH]; [apply sends_none|]. cbn [serial_write]. unfold crlf. cbn [fmap list_fmap mjoin list_join].
  destruct (Z.eqb_spec c 10) as [->|Hne].
  - apply (sends_bind (serial_putc fuel 13) _ [13] (10 :: crlf s)); [apply (putc_sends 13)|].
    apply (sends_bind (serial_putc fuel 10) _ [10]); [apply (putc_sends 10)|exact IH].
  - apply (sends_bind Some _ [] (u8 c :: crlf s)); [apply sends_none|].
    apply (sends_bind (serial_putc fuel c) _ [u8 c]); [apply putc_sends|exact IH].
Qed.

Lemma crlf_app s t : crlf (s ++ t) = crlf s ++ crlf t.
Proof. unfold crlf. by rewrite fmap_app, join_app. Qed.

Lemma dec_sends x : sends (print_u32_dec fuel x) (crlf (dec_text x)).
Proof. unfold print_u32_dec, dec_text. intros p. destruct (x =? 0); apply write_sends. Qed.

Lemma human_sends n : 0 <= n < 2^62 ->
  sends (print_human_bytes fuel n) (crlf (str " (~" ++ human n ++ str ")")).
Proof.
  intros Hn. unfold print_human_bytes. rewrite !crlf_app. apply sends_bind; [apply write_sends|].
  apply sends_bind; [|apply write_sends]. rewrite !Z.shiftr_div_pow2 by lia.
  assert (H30 : 0 <= n / 2^30 < 2^32) by zmod. rewrite (u32_small (n / 2^30)) by (unfold is_u32; lia). unfold human.
  destruct (Z.leb_spec (2^30) n) as [H|H].
  - rewrite (proj2 (Z.ltb_lt 0 (n / 2^30))) by zmod. rewrite crlf_app. apply sends_bind; [apply dec_sends|apply write_sends].
  - rewrite (proj2 (Z.ltb_ge 0 (n / 2^30))) by zmod.
    rewrite (u32_small (n / 2^20)), (u32_small (n / 2^10)) by (unfold is_u32; zmod).
    destruct (Z.leb_spec (2^20) n).
    + rewrite (proj2 (Z.ltb_lt 0 (n / 2^20))) by zmod. rewrite crlf_app. apply sends_bind; [apply dec_sends|apply write_sends].
    + rewrite (proj2 (Z.ltb_ge 0 (n / 2^20))) by zmod. rewrite crlf_app. apply sends_bind; [apply dec_sends|apply write_sends].
Qed.

Lemma total_sends label n : 0 <= n < 2^62 -> sends (print_total fuel label n) (crlf (total_text label n)).
Proof.
  intros Hn. unfold print_total, total_text. rewrite (crlf_app (str label)).
  apply sends_bind; [apply write_sends|].
  rewrite (app_assoc [48; 120]), crlf_app. apply sends_bind; [apply write_sends|].
  rewrite (app_assoc (human n)), (app_assoc (str " (~")), crlf_app.
  apply sends_bind; [by apply human_sends|apply write_sends].
Qed.

End laws.


(** A controller that needs two polls for a byte. *)
Record uart := MkUartState { u_sent : list Z; u_dlab : bool; u_busy : bool }.

#[export] Instance uart_ports : Ports uart := {|
  inb a u := if a =? COM_LSR then (if u_busy u then 0 else 0x60, MkUartState (u_sent u) (u_dlab u) false) else (0, u);
  outb a v u :=
    if a =? COM1_BASE then
      if u_dlab u then u else MkUartState (u_sent u ++ [v]) false true
    else if a =? COM1_BASE + 3 then MkUartState (u_sent u) (Z.testbit v 7) (u_busy u)
    else u
|}.

#[export] Instance uart_laws : Uart uart.
Proof.
  refine {| sent := u_sent; dlab := u_dlab; busy u := if u_busy u then 1%nat else 0%nat; latency := 1 |}.
  - intros [s d []]; cbn; lia.
  - intros [s d []]; eexists _, _; cbn; done.
  - intros v [s d []]; cbn; intros -> ?; done.
  - intros v [s d bz]; cbn; intros ->; done.
  - intros v [s d bz]; cbn; done.
  - intros a v [s d bz] Ha. unfold COM1_BASE.
    assert (a = 1 \/ a = 2 \/ a = 4) as [->|[->| ->]] by set_solver; done.
Defined.


End Serial.
