(* ===== verification/Boot.v ===== *)
(** * Booting ([kmain64] of [src/kernel64/kmain64.c])

    The whole entry function on the composed system, and what its last part
    promises: after it the device file system and an exFAT volume on a RAM disk
    are mounted, and the commands of the shell find the disk.  The boot information
    is read as the loader left it; its frames are reserved, so that nothing is
    allocated on it in between. *)

From stdpp Require Import strings.
From S2P Require Import Prelude Mb2 Pmm PmmSpec PmmInit FrameAlloc Vmm Kmalloc KmallocSpec KmallocProps Mem.
From S2P Require Import Block BlockSpec BlockProps Devfs DevfsSpec Exfat ExfatSpec Vfs.
From S2P Require Import Console ConsoleSpec ConsoleProps Sched Pci Progress Terminal Shell ShellCmd ShellProps.
From S2P Require Import Kmain Device System SystemProps.

Module Boot.

Import Console ConsoleSpec ConsoleProps DevfsSpec Terminal System SystemProps.

Section boot.
(** The addresses of the local buffers, the bound on cluster chains, the machine:
    CPUID, PCI configuration space. *)
Context (sp ubuf mbr : Z) (fuel : nat) (cpuid : Z -> Z -> Z * Z * Z * Z) (pci_space : Z -> Z).
#[local] Instance kernel : Shell.Kernel system := system_kernel sp ubuf fuel.

Definition sys_scan (k : system) : option system :=
  '(_, k) ← on_state (fun w => b ← Block.block_scan_partitions mbr (blks w); Some (tt, set_blks w b)) k;
  Some k.

Definition sys_memdisk (n : list Z) (mbase bytes ss wr : Z) : system -> option (Z * system) :=
  on_state (fun w => '(r, b) ← Block.memdisk_register (blks w) (Some n) mbase bytes ss wr; Some (r, set_blks w b)).

Definition print_banner_and_info (m : mem) (mb_addr : Z) (c : Console.state) : option Console.state :=
  c ← console_clear c;
  c ← console_set_color c 0x0F 0x00;
  c ← t_write c (str "dex-os-64 0.1.0 (x86_64)" ++ [10; 10]);
  c ← Kmain.print_vendor cpuid c;
  c ← Kmain.print_brand cpuid c;
  c ← Kmain.print_features cpuid c;
  c ← t_write c [10];
  c ← Kmain.print_memory_map fuel m mb_addr c;
  t_write c [10].

Definition early_console (m : mem) (mb_addr : Z) (c : Console.state) : option Console.state :=
  c ← console_init_from_mb2 fuel m c mb_addr;
  c ← say c "Selftest: "; c ← t_write_hex64 c 0x0123456789ABCDEF; c ← t_write c [10];
  c ← sayln c "Digits: 0123456789ABCDEF";
  print_banner_and_info m mb_addr c.

(** The root file system on the memory [m]. *)
Definition sys_setup_root (m : mem) (mb_addr : Z) : system -> option system :=
  Kmain.setup_root sys_scan sys_memdisk fuel m mb_addr.

(** After it: the list of the mounts. *)
Definition announce (k : system) : option system :=
  k ← sayln k "Mounts after setup:";
  '(_, s) ← Shell.vfs_list_mounts (Shell.MkShell [] [] k);
  k ← t_write (Shell.kern s) [10];
  sayln k "Starting shell...".

(** The console, memory, tables and CR3 the loader leaves, the range of the kernel
    image, the heap array, and the addresses the scheduler uses. *)
Record machine := Machine {
  consoles : Console.state; bytes : mem; mb_addr : Z; bss : mem; tables : mem; loader_cr3 : Z;
  kstart : Z; kend : Z; early_heap : Z; g_stacks : Z; trampoline : Z; ret_start : Z; shell_entry : Z
}.

(** The devices and file systems, before the root file system. *)
Definition with_devices (mc : machine) (c : Console.state) (vm : Vmm.vmm Pmm.pmm) : system :=
  let h := Kmalloc.kmalloc_init (Kmalloc.Kheap 0 0 0 ∅) (early_heap mc) (256 * 1024) in
  let w := MkState c (Block.MkBlk [] h (Vmm.pmm_state vm) (bytes mc)) [] in
  MkSystem (devfs_register (exfat_register sp fuel (Vfs.MkVfs [] [] (Some w))))
    (Sched.MkSched None None (replicate 8 (Sched.Thread None 0 0 0 0 0)) 0 0 0 ∅ [] false) pci_space.

(** The state when the shell runs: the system, the registry of devices and the
    lines logged by the USB driver. *)
Definition kmain64 (mc : machine) : option (system * Device.registry * list Pci.usb_message) :=
  c ← early_console (bytes mc) (mb_addr mc) (consoles mc);
  vm ← Kmain.bring_up fuel (bytes mc) (mb_addr mc) (bss mc) (tables mc) (loader_cr3 mc) (kstart mc) (kend mc);
  c ← say c "PMM/VMM initialized. Free: "; c ← t_write_hex64 c (Pmm.pmm_free_bytes (Vmm.pmm_state vm));
  c ← t_write c (str " bytes" ++ [10; 10]);
  reg ← Device.display_console_register Device.boot_registry;
  reg ← Device.kb_ps2_register reg;
  k ← sys_setup_root (bytes mc) (mb_addr mc) (with_devices mc c vm);
  k ← announce k;
  '(_, st) ← Sched.sched_create (g_stacks mc) (trampoline mc) (sch k) (shell_entry mc) 0;
  st ← Sched.sched_start (ret_start mc) st;
  Some (MkSystem (fsys k) st (conf k), reg, Pci.usb_init pci_space).

End boot.

(** ** Lemmas *)

(** The heap at [hb .. hb + hn) has a free block of [r] bytes. *)
Definition heap_room (hb hn r : Z) (h : Kmalloc.kheap) : Prop :=
  exists bs s, KmallocSpec.inv h bs /\ (s, true) ∈ bs /\ r <= s /\
    Kmalloc.g_heap_base h = hb /\ Kmalloc.g_heap_size h = hn.

Lemma kmalloc_heap_room hb hn r n h :
  0 < n <= 2^64 - 16 -> 0 <= r -> heap_room hb hn (Kmalloc.ALIGN_UP n 16 + 48 + r) h ->
  exists p h', Kmalloc.kmalloc h n = Some (p, h') /\ 0 < p /\ heap_room hb hn r h'.
Proof.
  intros Hn Hr (bs & s & Hi & Hs & Hle & Hb & Hz).
  destruct (KmallocProps.kmalloc_room h bs n s r Hi Hn Hs Hle Hr)
    as (p & h' & bs' & s' & E & Hp & Hi' & Hb' & Hz' & Hs' & Hr').
  exists p, h'. split; [done|]. split; [done|]. exists bs', s'. split_and!; congruence || done.
Qed.

Lemma heap_room_less hb hn r r' h : r' <= r -> heap_room hb hn r h -> heap_room hb hn r' h.
Proof. intros Hle (bs & s & H1 & H2 & H3 & H4). exists bs, s. split_and!; try apply H4; (done || lia). Qed.

(** The frames of the bytes [a .. a + n) are in use. *)
Definition in_use (st : Pmm.pmm) (a n : Z) : Prop :=
  forall x, a <= x < a + n -> PmmFrameAlloc.owned st (Kmain.page_of x).

(** Free frames do not overlap what is in use. *)
Lemma allocated_apart st count hi pa st' a n :
  PmmSpec.wf st -> PmmSpec.allocated st count hi pa st' -> hi <= Pmm.frames st -> 0 < count ->
  0 <= a -> 0 < n -> in_use st a n -> apart a n pa (count * 4096).
Proof.
  intros Hwf (s & S1 & S2 & -> & Hfree & _) Hhi Hc Ha Hn Hu. unfold apart.
  destruct (Z.le_gt_cases (a + n) (PmmSpec.frame_addr st s)) as [|H1]; [by left|right].
  destruct (Z.le_gt_cases (PmmSpec.frame_addr st s + count * 4096) a) as [|H2]; [done|exfalso].
  set (x := Z.max a (PmmSpec.frame_addr st s)).
  assert (Hx : a <= x < a + n /\ PmmSpec.frame_addr st s <= x < PmmSpec.frame_addr st s + count * 4096) by lia.
  clearbody x. destruct Hx as [Hx Hx'].
  pose proof (PmmSpec.wf_base_al _ Hwf) as Hal. pose proof (PmmSpec.wf_base_pos _ Hwf) as Hb0.
  unfold PmmSpec.frame_addr, Pmm.PMM_FRAME_SIZE in *.
  apply (Hu x Hx). exists ((x - Pmm.g_bitmap_base st) / 4096).
  unfold PmmSpec.frame_addr, Pmm.PMM_FRAME_SIZE, Kmain.page_of.
  split; [zmod|]. split; [zmod|]. apply Hfree. zmod.
Qed.

(** A free run of [n] frames below the address [lim]. *)
Definition has_run (st : Pmm.pmm) (n lim : Z) : Prop :=
  exists s, 0 <= s /\ s + n <= Pmm.frames st /\ PmmSpec.frame_addr st (s + n) <= lim /\ PmmSpec.free_run st s n.

(** The heap a RAM disk takes: its two structures with their headers. *)
Definition disk_room : Z := 16 + 48 + (64 + 48).

(** The [c0] pages at [pa] are zero. *)
Definition zeroed (c0 pa : Z) (m : mem) : Prop := forall i, 0 <= i < c0 * 4096 -> rd8 m (pa + i) = 0.

(** [m'] is [m] but for the bytes [a .. a + n). *)
Definition same_outside (a n : Z) (m m' : mem) : Prop := forall x, ~ a <= x < a + n -> rd8 m' x = rd8 m x.

(** There are free frames for the disk, and it is registered; or there are none, and
    nothing but the heap changes. *)
Lemma ramdisk_outcome st nm c hb hn r :
  0 < c <= 2^15 -> heap_room hb hn (disk_room + r) (Block.heap st) -> 0 <= r -> PmmSpec.inv (Block.frames st) ->
  (exists pa f h m, Block.ramdisk_create st (Some nm) (c * 4096)
    = Some (0, Block.MkBlk (Block.Dev (Block.copy_name nm) 512 (c * 8) (Block.RamPriv pa (c * 4096)) :: Block.g_head st)
                 h f m) /\ zeroed c pa m /\
    heap_room hb hn r h /\ 0 < pa /\ Pmm.g_bitmap_base (Block.frames st) <= pa /\ pa + c * 4096 <= 2^30 /\
    pa + c * 4096 <= Pmm.g_bitmap_limit (Block.frames st) /\
    (forall a n, 0 <= a -> 0 < n -> in_use (Block.frames st) a n -> apart a n pa (c * 4096)) /\
    same_outside pa (c * 4096) (Block.memory st) m) \/
  (~ has_run (Block.frames st) c (2^30) /\ exists h, Block.ramdisk_create st (Some nm) (c * 4096)
    = Some (-1, Block.set_heap st h) /\ heap_room hb hn r h).
Proof.
  intros Hc Hh Hr Hp. unfold Block.ramdisk_create, Block.block_default_sector, disk_room in *.
  rewrite (proj2 (Z.eqb_neq (c * 4096) 0)) by lia.
  rewrite (add64_small (c * 4096) 512), sub64_small by lia.
  replace ((c * 4096 + 512 - 1) / 512) with (c * 8) by zmod. rewrite mul64_small by lia.
  replace (c * 8 * 512) with (c * 4096) by lia.
  destruct (kmalloc_heap_room hb hn (64 + 48 + r) Block.sizeof_ramdisk (Block.heap st)) as (rd & h1 & E1 & P1 & R1);
    [done|lia|by rewrite <- Z.add_assoc in Hh|].
  unfold Block.alloc. rewrite E1. bind. rewrite (proj2 (Z.eqb_neq rd 0)) by lia. cbn [Block.frames Block.set_heap].
  rewrite add64_small by lia. replace ((c * 4096 + 4095) / 4096) with c by zmod.
  destruct (PmmSpec.alloc_below_total (Block.frames st) c (2^30) Hp ltac:(lia) ltac:(lia)) as (pa & f & E2 & _ & Hres).
  rewrite E2. bind. pose proof (PmmSpec.inv_wf _ Hp) as Hwf. pose proof (PmmSpec.frames_spec _ Hwf) as [Hfr _].
  assert (Hbi : 0 <= PmmSpec.below_idx (Block.frames st) (2^30) <= Pmm.frames (Block.frames st))
    by (unfold PmmSpec.below_idx; lia).
  destruct Hres as [(-> & -> & [|Hno])|(Hpa & _ & Ha)]; [lia|right|left].
  { split; [|exists h1; split; [by destruct st|by apply (heap_room_less hb hn (64 + 48 + r)); [lia|]]]. intros (s & S1 & S2 & S3 & S4). apply (Hno s); [done| |done].
    unfold PmmSpec.below_idx, PmmSpec.frame_addr, Pmm.PMM_FRAME_SIZE in *. zmod. }
  rewrite (proj2 (Z.eqb_neq pa 0)) by done. cbn [Block.heap Block.set_memory Block.set_frames Block.set_heap].
  destruct (kmalloc_heap_room hb hn r Block.sizeof_block_device h1) as (bd & h2 & E3 & P3 & R3); [done|done|exact R1|].
  rewrite E3. bind. rewrite (proj2 (Z.eqb_neq bd 0)) by lia.
  exists pa, f, h2, (Mem.fill (Z.to_nat (c * 4096)) 0 (Block.memory st) pa 0).
  destruct (PmmSpec.allocated_bounds _ _ _ _ _ Hwf (proj2 Hbi) Ha) as (_ & B1 & B2).
  pose proof (PmmSpec.frames_spec _ Hwf) as [_ Hlim].
  split_and!; [| |done| | | | | |].
  - replace (c * 4096 / 512) with (c * 8) by zmod. reflexivity.
  - intros i Hi. rewrite BlockProps.fill_zero by lia. by rewrite (proj2 (Z.leb_le _ _)), (proj2 (Z.ltb_lt _ _)) by lia.
  - destruct Hwf. lia.
  - exact B1.
  - unfold PmmSpec.frame_addr, PmmSpec.below_idx, Pmm.PMM_FRAME_SIZE in *. zmod.
  - unfold PmmSpec.frame_addr, Pmm.PMM_FRAME_SIZE in *. nia.
  - intros a n H1 H2 H3. eapply allocated_apart; done || lia.
  - intros x Hx. rewrite BlockProps.fill_zero by lia.
    destruct (Z.leb_spec pa x), (Z.ltb_spec x (pa + c * 4096)); (lia || done).
Qed.

(** ** The root file system *)

Section root.
Context (sp ubuf mbr : Z) (fuel : nat).
#[local] Instance root_kernel : Shell.Kernel system := system_kernel sp ubuf fuel.

Definition fs_table : list (Vfs.fs_reg world priv vnode Block.device) :=
  [Vfs.FsReg (str "exfat") (exfat_ops sp fuel); Vfs.FsReg (str "devfs") devfs_ops].

(** The system with these mounts, console and block state. *)
Definition sys_at (mts : list (Vfs.mount_t world priv vnode Block.device)) (c : Console.state) (b : Block.blk)
    (nd : list node) (sc : Sched.sched) (cf : Z -> Z) : system :=
  MkSystem (Vfs.MkVfs fs_table mts (Some (MkState c b nd))) sc cf.

Definition dev_mount : Vfs.mount_t world priv vnode Block.device := Vfs.Mount (str "dev") devfs_ops POne.

Lemma step_write mts c b nd sc cf s : printing c -> exists c',
  @t_write system system_terminal (sys_at mts c b nd sc cf) s = Some (sys_at mts c' b nd sc cf) /\ printing c'.
Proof.
  intros Hp. destruct (write_prints c s Hp) as (c' & E & Hp' & _). exists c'. split; [|done].
  cbn. unfold on_con. cbn. by rewrite E.
Qed.

Lemma step_messages c b nd l : printing c -> exists c',
  print_messages (MkState c b nd) l = Some (MkState c' b nd) /\ printing c'.
Proof.
  revert c. induction l as [|msg l IH]; intros c Hp; [by exists c|].
  destruct (write_prints c (exfat_text msg) Hp) as (c1 & E & Hp1 & _). cbn [print_messages con].
  change (t_write c (exfat_text msg)) with (console_write c (exfat_text msg)). rewrite E. bind. by apply IH.
Qed.

Lemma step_mount_dev c b nd sc cf :
  Shell.vfs_mount (str "devfs") (str "dev") [] (sys_at [] c b nd sc cf) = Some (0, sys_at [dev_mount] c b nd sc cf).
Proof. reflexivity. Qed.

Lemma step_format mts c b nd sc cf l : printing c -> exists c',
  Shell.exfat_format_device (str "ram0") l (sys_at mts c b nd sc cf) = Some (0, sys_at mts c' b nd sc cf) /\
  printing c'.
Proof.
  intros Hp. destruct (step_messages c b nd [Exfat.MkfsEnter; Exfat.MkfsExit] Hp) as (c' & E & Hp').
  exists c'. split; [|done]. cbn [Shell.exfat_format_device root_kernel system_kernel]. unfold sys_format, on_state.
  cbn [fsys sys_at Vfs.world]. bind. unfold Exfat.exfat_format_device.
  replace (set_io _ _) with (MkState c b nd) by (by destruct b). rewrite E. by bind.
Qed.

(** The volume that the sector at [a] describes. *)
Definition boot_volume (d : Block.device) (m : mem) (a : Z) : option (Exfat.exfat_fs Block.device) :=
  if Exfat.is_vbr m a then Exfat.vbr_fs d m a else Some (Exfat.default_fs d).

Lemma boot_volume_eq d m m' a a' : (forall i, 0 <= i < 512 -> rd8 m (a + i) = rd8 m' (a' + i)) ->
  boot_volume d m a = boot_volume d m' a'.
Proof.
  intros H. assert (H4 : forall o, 0 <= o <= 508 -> rd32 m (a + o) = rd32 m' (a' + o)).
  { intros o Ho. apply rd32_ext. intros i Hi. rewrite <- !Z.add_assoc. apply H. lia. }
  unfold boot_volume, Exfat.vbr_fs. rewrite !H, !H4 by lia.
  replace (Exfat.is_vbr m a) with (Exfat.is_vbr m' a'); [done|]. unfold Exfat.is_vbr. f_equal.
  rewrite (map_ext_in (fun k => rd8 m' (a' + k)) (fun k => rd8 m (a + k)) (seqZ 3 8)); [done|].
  intros k Hk. symmetry. apply H. apply list_elem_of_In, elem_of_seqZ in Hk. lia.
Qed.

Lemma zero_volume d m a : (forall i, 0 <= i < 512 -> rd8 m (a + i) = 0) -> boot_volume d m a = Some (Exfat.default_fs d).
Proof.
  intros H. rewrite (boot_volume_eq d m ∅ a 0); [done|]. intros i Hi. rewrite H by done.
  unfold rd8, rd. by rewrite lookup_empty.
Qed.

(** The first sector of a device, read into a buffer outside it. *)
Lemma read_first (d : Block.device) m buf : bd_ok d -> bd_sector_size d = 512 -> 1 <= bd_sector_count d -> 0 < buf ->
  apart buf 512 (bd_base d) 512 -> exists m', bd_read d 0 buf 1 m = (1, m') /\ same_outside buf 512 m m' /\
    forall i, 0 <= i < 512 -> rd8 m' (buf + i) = rd8 m (bd_base d + i).
Proof.
  intros Hd Hs Hn Hb Ha. rewrite (bd_read_ok d 0 buf 1 m Hd ltac:(lia) ltac:(lia) ltac:(lia) ltac:(lia)), Hs.
  eexists. split; [reflexivity|]. replace (bd_base d + 0 * 512) with (bd_base d) by lia. change (1 * 512) with 512.
  split; [intros x Hx|intros i Hi]; rewrite copy_spec by (done || lia); inb_cases; try lia; try done. f_equal. lia.
Qed.

(** Mounting reads it, and nothing but the buffer changes. *)
Lemma mount_volume (d : Block.device) f hb hn r h m : bd_ok d -> bd_sector_size d = 512 -> 1 <= bd_sector_count d -> 0 < sp ->
  apart sp 512 (bd_base d) 512 -> 0 <= r -> heap_room hb hn (48 + 48 + r) h -> boot_volume d m (bd_base d) = Some f ->
  exists h' m', Exfat.exfat_mount sp d 1 (h, m) = Some (0, Some f, (h', m'), [Exfat.MountEnter; Exfat.MountExit]) /\
    same_outside sp 512 m m' /\ heap_room hb hn r h'.
Proof.
  intros Hd Hs Hn Hsp Ha Hr Hh Hf. destruct (read_first d m sp Hd Hs Hn Hsp Ha) as (m' & E & Ho & Hb).
  destruct (kmalloc_heap_room hb hn r Exfat.sizeof_exfat_fs h) as (p & h' & Ek & Hp & Hr'); [done|done|exact Hh|].
  exists h', m'. split; [|done]. unfold Exfat.exfat_mount. cbn [Z.eqb fst snd]. rewrite Hs. cbn [Z.eqb Pos.eqb negb].
  rewrite Ek. bind. rewrite (proj2 (Z.eqb_neq p 0)), E by lia. cbn [Z.eqb Pos.eqb andb].
  rewrite <- (boot_volume_eq d m' m sp (bd_base d)) in Hf by exact Hb. unfold boot_volume in Hf. by rewrite Hf.
Qed.

Definition volume_mount (f : Exfat.exfat_fs Block.device) : Vfs.mount_t world priv vnode Block.device :=
  Vfs.Mount (str "root") (exfat_ops sp fuel) (PExfat f).

(** The volume on the device named [nm] becomes the root file system. *)
Lemma step_mount (d : Block.device) f nm l hb hn r c h fr m nd sc cf : nm <> [] -> Block.find_in l nm = Some d -> printing c ->
  bd_ok d -> bd_sector_size d = 512 -> 1 <= bd_sector_count d -> 0 < sp ->
  apart sp 512 (bd_base d) 512 -> 0 <= r -> heap_room hb hn (48 + 48 + r) h -> boot_volume d m (bd_base d) = Some f ->
  exists c' h' m', Shell.vfs_mount (str "exfat") (str "root") nm (sys_at [dev_mount] c (Block.MkBlk l h fr m) nd sc cf)
    = Some (0, sys_at [dev_mount; volume_mount f] c' (Block.MkBlk l h' fr m') nd sc cf) /\
    printing c' /\ same_outside sp 512 m m' /\ heap_room hb hn r h'.
Proof.
  intros Hnm Hl Hp Hd Hs Hn Hsp Ha Hr Hh Hf.
  destruct (mount_volume d f hb hn r h m Hd Hs Hn Hsp Ha Hr Hh Hf) as (h' & m' & E & Ho & Hr').
  destruct (step_messages c (Block.MkBlk l h' fr m') nd [Exfat.MountEnter; Exfat.MountExit] Hp) as (c' & Em & Hp').
  exists c', h', m'. split; [|done]. cbn [Shell.vfs_mount root_kernel system_kernel].
  set (w' := MkState c' (Block.MkBlk l h' fr m') nd).
  rewrite (serve_world _ _ 0 (Vfs.MkVfs fs_table [dev_mount; volume_mount f] (Some w')) w'); [reflexivity| |done].
  unfold Vfs.vfs_mount. cbn [fsys sys_at].
  change (Vfs.MAX_MOUNTS <=? Vfs.g_mount_count _) with false. cbn iota.
  change (Vfs.find_fs (Vfs.g_fs _) (str "exfat")) with (Some (exfat_ops sp fuel)). cbn iota.
  assert (Ef : find_device nm (Some (MkState c (Block.MkBlk l h fr m) nd)) = Some d) by exact Hl.
  destruct nm as [|x nm]; [done|]. cbn iota. cbn [Vfs.world]. rewrite Ef.
  cbn [Vfs.op_mount exfat_ops]. unfold exfat_mount, absorb. bind. unfold io_of. cbn [blks Block.heap Block.memory].
  rewrite E. bind. change (set_io _ _) with (MkState c (Block.MkBlk l h' fr m') nd). rewrite Em. reflexivity.
Qed.

(** The disk and the memory that holds it. *)
Context (c0 : Z) (nm : list Z) (pa : Z).
Definition disk : Block.device := Block.Dev nm 512 (c0 * 8) (Block.RamPriv pa (c0 * 4096)).

Context (Hc : 0 < c0 <= 2^15) (Hpa : 0 < pa) (Hend : pa + c0 * 4096 <= 2^30).

Lemma disk_ok : bd_ok disk.
Proof. cbn. lia. Qed.

Lemma zeroed_keep m m' buf : zeroed c0 pa m -> apart buf 512 pa (c0 * 4096) -> same_outside buf 512 m m' -> zeroed c0 pa m'.
Proof. intros Hz Ha Hs i Hi. rewrite Hs by (unfold apart in Ha; lia). by apply Hz. Qed.

Lemma zero_contents m n : n = c0 * 4096 -> zeroed c0 pa m -> contents disk m = replicate (Z.to_nat n) 0.
Proof.
  intros -> Hz. apply list_eq. intros i. unfold contents.
  replace (bd_sector_count disk * bd_sector_size disk) with (c0 * 4096) by (cbn; lia). change (bd_base disk) with pa.
  destruct (decide (i < Z.to_nat (c0 * 4096))%nat).
  - rewrite lookup_load, lookup_replicate_2 by lia. f_equal. apply Hz. lia.
  - rewrite !lookup_ge_None_2; [done|rewrite length_replicate; lia|rewrite length_load; lia].
Qed.

Lemma zeroed_sector m : zeroed c0 pa m -> forall i, 0 <= i < 512 -> rd8 m (bd_base disk + i) = 0.
Proof. intros Hz i Hi. apply Hz. lia. Qed.

Lemma apart_sector buf : apart buf 512 pa (c0 * 4096) -> apart buf 512 (bd_base disk) 512.
Proof. unfold apart. cbn. lia. Qed.

(** No partitions are found on it. *)
Lemma scan_zero h f m : zeroed c0 pa m -> 0 < mbr -> apart mbr 512 pa (c0 * 4096) ->
  exists m', Block.block_scan_partitions mbr (Block.MkBlk [disk] h f m) = Some (Block.MkBlk [disk] h f m') /\
    same_outside mbr 512 m m'.
Proof.
  intros Hz Hb Ha. destruct (read_first disk m mbr disk_ok eq_refl ltac:(cbn; lia) Hb (apart_sector _ Ha)) as (m' & E & Ho & H0).
  exists m'. split; [|exact Ho]. unfold Block.block_scan_partitions. cbn [Block.g_head Block.scan_devices]. unfold Block.scan_device.
  cbn [Block.sector_size disk Z.eqb Pos.eqb negb Block.memory]. fold disk.
  change (Block.dev_read disk 0 mbr 1 m) with (bd_read disk 0 mbr 1 m). rewrite E. cbn [Z.eqb Pos.eqb negb].
  cbn [Block.memory Block.set_memory]. rewrite H0, zeroed_sector by (done || lia). reflexivity.
Qed.

Lemma step_scan mts c h f m nd sc cf : zeroed c0 pa m -> 0 < mbr -> apart mbr 512 pa (c0 * 4096) ->
  exists m', sys_scan mbr (sys_at mts c (Block.MkBlk [disk] h f m) nd sc cf)
    = Some (sys_at mts c (Block.MkBlk [disk] h f m') nd sc cf) /\ same_outside mbr 512 m m'.
Proof.
  intros Hz M1 Ha. destruct (scan_zero h f m Hz M1 Ha) as (m' & E & Hz').
  exists m'. split; [|done]. unfold sys_scan, on_state. cbn [fsys sys_at Vfs.world]. bind. cbn [blks].
  rewrite E. reflexivity.
Qed.

Definition root_mount : Vfs.mount_t world priv vnode Block.device := volume_mount (Exfat.default_fs disk).

Lemma step_mount_root hb hn r c h f m nd sc cf :
  nm = str "ram0" -> printing c -> zeroed c0 pa m -> 0 < sp -> apart sp 512 pa (c0 * 4096) -> 0 <= r ->
  heap_room hb hn (48 + 48 + r) h ->
  exists c' h' m', Shell.vfs_mount (str "exfat") (str "root") (str "ram0")
      (sys_at [dev_mount] c (Block.MkBlk [disk] h f m) nd sc cf)
    = Some (0, sys_at [dev_mount; root_mount] c' (Block.MkBlk [disk] h' f m') nd sc cf) /\
    printing c' /\ zeroed c0 pa m' /\ heap_room hb hn r h'.
Proof.
  intros Hnm Hp Hz Hsp Ha Hr Hh.
  destruct (step_mount disk (Exfat.default_fs disk) (str "ram0") [disk] hb hn r c h f m nd sc cf) as (c' & h' & m' & E & Hp' & Ho & Hr');
    try done; [unfold disk; rewrite Hnm; reflexivity|exact disk_ok|cbn; lia|by apply apart_sector|by apply zero_volume, zeroed_sector|].
  exists c', h', m'. split; [exact E|]. split; [exact Hp'|]. split; [|exact Hr']. by eapply zeroed_keep.
Qed.

End root.

(** What [kmain64] has when it sets up the root file system: empty tables, a heap
    with room, and the heap and the local buffers in frames in use. *)
Record fresh (sp ubuf mbr hb hn : Z) (c : Console.state) (b : Block.blk) : Prop := Fresh {
  fr_con : printing c;
  fr_head : Block.g_head b = [];
  fr_heap : heap_room hb hn 1024 (Block.heap b);
  fr_frames : PmmSpec.inv (Block.frames b);
  fr_sp : 0 < sp /\ in_use (Block.frames b) sp 512;
  fr_ubuf : 0 < ubuf /\ in_use (Block.frames b) ubuf 512 /\ apart ubuf 512 hb hn;
  fr_mbr : 0 < mbr /\ in_use (Block.frames b) mbr 512;
  fr_area : 0 <= hb /\ 0 < hn /\ in_use (Block.frames b) hb hn
}.

Abbreviation ram0 pa := (disk 2048 (str "ram0") pa).

(** The disk at [pa], outside of what was in use. *)
Record placed (b : Block.blk) (pa : Z) : Prop := Placed {
  pl_pos : 0 < pa;
  pl_end : pa + 2048 * 4096 <= 2^30;
  pl_frames : Pmm.g_bitmap_base (Block.frames b) <= pa /\ pa + 2048 * 4096 <= Pmm.g_bitmap_limit (Block.frames b);
  pl_apart : forall a n, 0 <= a -> 0 < n -> in_use (Block.frames b) a n -> apart a n pa (2048 * 4096)
}.

(** What the RAM disk leaves: the disk, or the heap that was used to try. *)
Definition made_disk (hb hn : Z) (b b' : Block.blk) (pa : Z) : Prop :=
  exists h f m, b' = Block.MkBlk [ram0 pa] h f m /\ placed b pa /\ zeroed 2048 pa m /\ heap_room hb hn 848 h.
Definition no_disk (hb hn : Z) (b b' : Block.blk) : Prop :=
  ~ has_run (Block.frames b) 2048 (2^30) /\ exists h, b' = Block.set_heap b h /\ heap_room hb hn 848 h.

(** Only a disk at [pa] and the buffer [buf] differ. *)
Definition same_but (buf pa : Z) (m m' : mem) : Prop :=
  forall x, ~ pa <= x < pa + 2048 * 4096 -> ~ buf <= x < buf + 512 -> rd8 m' x = rd8 m x.

Lemma step_ramdisk sp ubuf mbr fuel hb hn mts c0 c b nd sc cf : fresh sp ubuf mbr hb hn c0 b ->
  exists rc b', Shell.ramdisk_create (Kernel := root_kernel sp ubuf fuel) (str "ram0") (8 * 1024 * 1024)
      (sys_at sp fuel mts c b nd sc cf) = Some (rc, sys_at sp fuel mts c b' nd sc cf) /\
    ((exists pa, made_disk hb hn b b' pa /\ same_outside pa (2048 * 4096) (Block.memory b) (Block.memory b')) \/
     no_disk hb hn b b').
Proof.
  intros [_ Hh Hr Hf _ _ _ _]. cbn [Shell.ramdisk_create root_kernel system_kernel].
  unfold sys_ramdisk_create, on_state. cbn [fsys sys_at Vfs.world]. bind. cbn [blks].
  replace (8 * 1024 * 1024) with (2048 * 4096) by reflexivity.
  destruct (ramdisk_outcome b (str "ram0") 2048 hb hn 848 ltac:(lia))
    as [(pa & f & h & m & E & Hz & R & Q1 & Q2 & Q3 & Q4 & Q5 & Q6)|(Hn & h & E & R)];
    [exact Hr|done|done|rewrite E..].
  - eexists _, _. split; [reflexivity|left]. exists pa. split; [|exact Q6]. exists h, f, m. rewrite Hh. by split_and!.
  - eexists _, _. split; [reflexivity|right]. split; [exact Hn|]. by exists h.
Qed.

(** Without devices there is nothing to scan, and nothing to mount. *)
Lemma step_scan_none sp mbr fuel mts c b nd sc cf : Block.g_head b = [] ->
  sys_scan mbr (sys_at sp fuel mts c b nd sc cf) = Some (sys_at sp fuel mts c b nd sc cf).
Proof.
  intros Hb. unfold sys_scan, on_state. cbn [fsys sys_at Vfs.world]. bind. cbn [blks].
  unfold Block.block_scan_partitions. rewrite Hb. reflexivity.
Qed.

Lemma step_mount_none sp ubuf fuel c b nd sc cf : Block.g_head b = [] ->
  Shell.vfs_mount (Kernel := root_kernel sp ubuf fuel) (str "exfat") (str "root") (str "ram0")
    (sys_at sp fuel [dev_mount] c b nd sc cf) = Some (-1, sys_at sp fuel [dev_mount] c b nd sc cf).
Proof.
  intros Hb. cbn [Shell.vfs_mount root_kernel system_kernel].
  set (w := MkState c b nd). rewrite (serve_world _ _ (-1) (Vfs.MkVfs (fs_table sp fuel) [dev_mount] (Some w)) w);
    [reflexivity| |done].
  unfold Vfs.vfs_mount. cbn [fsys sys_at].
  change (Vfs.MAX_MOUNTS <=? Vfs.g_mount_count _) with false. cbn iota.
  change (Vfs.find_fs (Vfs.g_fs _) (str "exfat")) with (Some (exfat_ops sp fuel)). cbn iota.
  assert (Ef : find_device (str "ram0") (Some w) = None) by (unfold find_device, w; bind; unfold Block.block_find; cbn [blks]; by rewrite Hb).
  change (str "ram0") with (114 :: [97; 109; 48]) in *. cbn iota. cbn [Vfs.world]. unfold w in *. rewrite Ef. reflexivity.
Qed.

Lemma bind_step {A B} (o : option A) (x : A) (f : A -> option B) (r : option B) :
  o = Some x -> f x = r -> o ≫= f = r.
Proof. by intros -> <-. Qed.

(** [setup_root] up to the choice of the root file system. *)
Lemma setup_root_before sp ubuf mbr fuel hb hn c b nd sc cf m mb_addr : fresh sp ubuf mbr hb hn c b ->
  exists c' b', sys_setup_root sp ubuf mbr fuel m mb_addr (sys_at sp fuel [] c b nd sc cf)
    = ('(from_module, k) ← Kmain.mount_module (HK := root_kernel sp ubuf fuel) sys_memdisk fuel m mb_addr
         (sys_at sp fuel [dev_mount] c' b' nd sc cf);
       if from_module : bool then Some k
       else '(_, k) ← Shell.vfs_mount (Kernel := root_kernel sp ubuf fuel) (str "exfat") (str "root") (str "ram0") k;
            Some k) /\ printing c' /\
    ((exists pa, made_disk hb hn b b' pa /\ same_but mbr pa (Block.memory b) (Block.memory b')) \/ no_disk hb hn b b').
Proof.
  intros Hfr. pose proof Hfr as [Hp Hh0 _ _ _ _ [M1 M2] _].
  destruct (step_write sp fuel [] c b nd sc cf (str "Setting up root filesystem..." ++ [10]) Hp) as (c1 & E1 & P1).
  pose proof (step_mount_dev sp ubuf fuel c1 b nd sc cf) as E2.
  destruct (step_ramdisk sp ubuf mbr fuel hb hn [dev_mount] c c1 b nd sc cf Hfr) as (rc & b1 & E3 & Hb).
  assert (exists b2, sys_scan mbr (sys_at sp fuel [dev_mount] c1 b1 nd sc cf) = Some (sys_at sp fuel [dev_mount] c1 b2 nd sc cf) /\
    ((exists pa, made_disk hb hn b b2 pa /\ same_but mbr pa (Block.memory b) (Block.memory b2)) \/ no_disk hb hn b b2))
    as (b2 & E4 & Hb2).
  { destruct Hb as [(pa & (h & f & m0 & -> & Hpl & Hz & R) & Ho)|Hn].
    - pose proof Hpl as [Q1 Q2 Q3 Q4]. assert (Ha : apart mbr 512 pa (2048 * 4096)) by (apply Q4; [lia|lia|exact M2]).
      destruct (step_scan sp mbr fuel 2048 (str "ram0") pa ltac:(lia) Q1 Q2 [dev_mount] c1 h f m0 nd sc cf Hz M1 Ha) as (m1 & E & Hs).
      eexists. split; [exact E|left]. exists pa. split.
      + exists h, f, m1. split_and!; [done|done|by eapply zeroed_keep|done].
      + intros x X1 X2. cbn [Block.memory]. rewrite Hs by exact X2. by apply Ho.
    - exists b1. split; [|by right]. destruct Hn as (_ & h & -> & _). by apply step_scan_none. }
  destruct (step_format sp ubuf fuel [dev_mount] c1 b2 nd sc cf (Some []) P1) as (c2 & E5 & P2).
  exists c2, b2. split; [|done]. unfold sys_setup_root, Kmain.setup_root.
  apply (bind_step _ _ _ _ E1). apply (bind_step _ _ _ _ E2). apply (bind_step _ _ _ _ E3). apply (bind_step _ _ _ _ E4).
  exact (bind_step _ _ _ _ E5 eq_refl).
Qed.

(** The root file system is mounted, or there is no memory for its disk. *)
Lemma setup_root_spec sp ubuf mbr fuel hb hn c b nd sc cf m mb_addr :
  fresh sp ubuf mbr hb hn c b -> Kmain.root_module fuel m (Mb2.mb2_first_tag mb_addr) = Some 0 ->
  exists mts c' b', sys_setup_root sp ubuf mbr fuel m mb_addr (sys_at sp fuel [] c b nd sc cf)
    = Some (sys_at sp fuel mts c' b' nd sc cf) /\ printing c' /\
    ((exists pa h f m', mts = [dev_mount; root_mount sp fuel 2048 (str "ram0") pa] /\ b' = Block.MkBlk [ram0 pa] h f m' /\
        placed b pa /\ zeroed 2048 pa m' /\ heap_room hb hn 752 h) \/
     (~ has_run (Block.frames b) 2048 (2^30) /\ mts = [dev_mount] /\ Block.g_head b' = [])).
Proof.
  intros Hfr Hm. pose proof Hfr as [_ Hh0 _ _ [S1 S2] _ _ _].
  destruct (setup_root_before sp ubuf mbr fuel hb hn c b nd sc cf m mb_addr Hfr) as (c1 & b1 & E & P1 & Hb).
  unfold Kmain.mount_module in E. rewrite Hm in E. rewrite E. cbn [Z.eqb]. bind.
  destruct Hb as [(pa & (h & f & m0 & -> & Hpl & Hz & R) & _)|(Hn & h & -> & R)].
  - pose proof Hpl as [Q1 Q2 Q3 Q4].
    destruct (step_mount_root sp ubuf fuel 2048 (str "ram0") pa ltac:(lia) Q1 Q2 hb hn 752 c1 h f m0 nd sc cf eq_refl P1 Hz S1)
      as (c3 & h3 & m3 & E5 & P3 & Hz3 & R3); [apply Q4; [lia|lia|exact S2]|lia|exact R|].
    eexists _, c3, _. split; [exact (bind_step _ _ _ _ E5 eq_refl)|]. split; [exact P3|left]. exists pa, h3, f, m3. by split_and!.
  - pose proof (step_mount_none sp ubuf fuel c1 (Block.set_heap b h) nd sc cf Hh0) as E5.
    eexists _, c1, _. split; [exact (bind_step _ _ _ _ E5 eq_refl)|]. split; [exact P1|right]. by split_and!.
Qed.

Lemma ram0_ready sp ubuf mbr fuel hb hn c0 b mts c h f m nd sc cf pa :
  fresh sp ubuf mbr hb hn c0 b -> placed b pa -> zeroed 2048 pa m -> heap_room hb hn 752 h -> printing c ->
  device_ready ubuf (sys_at sp fuel (dev_mount :: mts) c (Block.MkBlk [ram0 pa] h f m) nd sc cf)
    (str "ram0") (ram0 pa) (replicate (Z.to_nat (8 * 1024 * 1024)) 0).
Proof.
  intros [_ _ _ _ _ [U1 [U2 U3]] _ [A1 [A2 A3]]] [Q1 Q2 _ Q3] Hz (bs & s & I1 & I2 & I3 & I4 & I5) Hp. constructor.
  - exists dev_mount. split; reflexivity.
  - split; [discriminate|cbn; lia].
  - exists (MkState c (Block.MkBlk [ram0 pa] h f m) nd), bs, s. cbn zeta. cbn [blks Block.heap Block.memory con].
    rewrite I4, I5. split; [reflexivity|]. split; [reflexivity|]. split; [exact I1|]. split; [exact I2|].
    split; [change (176 + Kmalloc.ALIGN_UP (bd_sector_size (ram0 pa)) 16) with 688; lia|]. split; [exact U3|].
    split; [destruct (Q3 hb hn A1 A2 A3) as [H|H]; [right|left]; exact H|]. split; [|exact Hp].
    apply zero_contents; [lia|reflexivity|exact Hz].
  - split; [apply disk_ok; lia|reflexivity].
  - split; [exact U1|]. exact (Q3 ubuf 512 ltac:(lia) ltac:(lia) U2).
Qed.

(** Without a module for the root file system, and with 8 MiB of free frames in a
    row below 1 GiB, [kmain64] mounts the device file
    system as "dev" and an exFAT volume on a new RAM disk of 8 MiB as "root", in
    this order; nothing faults, the disk is zero, no buffer or heap block lies in
    it, and the commands of the shell find it as /dev/ram0. *)
Theorem setup_root_correct sp ubuf mbr fuel hb hn c b nd sc cf m mb_addr :
  fresh sp ubuf mbr hb hn c b -> has_run (Block.frames b) 2048 (2^30) ->
  Kmain.root_module fuel m (Mb2.mb2_first_tag mb_addr) = Some 0 ->
  exists k' d, sys_setup_root sp ubuf mbr fuel m mb_addr (sys_at sp fuel [] c b nd sc cf) = Some k' /\
    Vfs.g_mounts (fsys k') = [dev_mount; Vfs.Mount (str "root") (exfat_ops sp fuel) (PExfat (Exfat.default_fs d))] /\
    bd_writable d /\ device_ready ubuf k' (str "ram0") d (replicate (Z.to_nat (8 * 1024 * 1024)) 0).
Proof.
  intros Hfr Hrun Hm. destruct (setup_root_spec sp ubuf mbr fuel hb hn c b nd sc cf m mb_addr Hfr Hm)
    as (mts & c' & b' & E & Hp & [(pa & h & f & m' & -> & -> & Hpl & Hz & Hh)|[Hn _]]); [|by destruct Hn].
  eexists _, (ram0 pa). split; [exact E|]. split; [reflexivity|]. split; [exact I|].
  by eapply ram0_ready.
Qed.

(** ** An instance: 8 MiB of free frames at 16 MiB, everything else below them *)

Definition demo_frames : Pmm.pmm := Pmm.Pmm [] 0x1000000 0x1800000 0x800000 0x800000 0x800000 ∅.

Lemma demo_frames_inv : PmmSpec.inv demo_frames.
Proof. constructor; [|done]. constructor; [by constructor|vm_compute; reflexivity]. Qed.

Lemma low_in_use a n : a + n <= 0x1000000 -> in_use demo_frames a n.
Proof.
  intros Ha x Hx (i & Hi & E & _). unfold PmmSpec.frame_addr, Pmm.PMM_FRAME_SIZE, Kmain.page_of in E.
  cbn [Pmm.g_bitmap_base demo_frames] in E. zmod.
Qed.

Lemma demo_frames_run : has_run demo_frames 2048 (2^30).
Proof.
  exists 0. split_and!; [lia|by vm_compute|by vm_compute|].
  intros j _. unfold Pmm.used, rd8, rd. cbn [Pmm.g_bitmap demo_frames].
  rewrite lookup_empty. cbn. apply Z.testbit_0_l.
Qed.

Definition demo_blk : Block.blk :=
  Block.MkBlk [] (Kmalloc.kmalloc_init KmallocProps.kzero 0x10000 0x1000) demo_frames ∅.

Lemma demo_fresh : fresh 0x30000 0x20000 0x40000 0x10000 0x1000 demo_con demo_blk.
Proof.
  constructor.
  - split; [|by eexists]. intros i [= <-]. eexists. split; [reflexivity|]. apply demo_console_inv; lia.
  - reflexivity.
  - exists [(0x1000 - 32, true)], (0x1000 - 32). split; [apply KmallocProps.init_inv; done|].
    split; [by left|]. split; [lia|]. by split.
  - exact demo_frames_inv.
  - split; [lia|]. apply low_in_use. lia.
  - split; [lia|]. split; [apply low_in_use; lia|right; lia].
  - split; [lia|]. apply low_in_use. lia.
  - split; [lia|]. split; [lia|]. apply low_in_use. lia.
Qed.

Lemma setup_root_correct_witness : exists k' d,
  sys_setup_root 0x30000 0x20000 0x40000 100 PmmInit.boot_map 0x1000
    (sys_at 0x30000 100 [] demo_con demo_blk [] demo_thread (fun _ => 0xFFFFFFFF)) = Some k' /\
  Vfs.mname <$> Vfs.g_mounts (fsys k') = [str "dev"; str "root"] /\ bd_writable d.
Proof.
  destruct (setup_root_correct 0x30000 0x20000 0x40000 100 0x10000 0x1000 demo_con demo_blk [] demo_thread
    (fun _ => 0xFFFFFFFF) PmmInit.boot_map 0x1000 demo_fresh demo_frames_run) as (k' & d & E & Em & Hw & _); [vm_compute; reflexivity|].
  exists k', d. split; [exact E|]. split; [|exact Hw]. rewrite Em. reflexivity.
Defined.

End Boot.
