(* ===== verification/BootProps.v ===== *)
(** * The boot as a whole ([kmain64] of [src/kernel64/kmain64.c])

    From the state the loader leaves, [kmain64] comes to its end: the banner and the
    memory map are printed, memory is brought up, the file systems are mounted and
    the thread of the shell runs. *)

From stdpp Require Import strings.
From S2P Require Import Prelude Mb2 Pmm PmmSpec PmmInit FrameAlloc Vmm VmmSpec VmmProps Kmalloc KmallocSpec KmallocProps Mem.
From S2P Require Import Sched SchedSpec SchedProps Block BlockSpec BlockProps Devfs DevfsSpec Exfat ExfatSpec Vfs.
From S2P Require Import Console ConsoleSpec ConsoleProps Pci Progress Terminal Shell ShellCmd ShellProps.
From S2P Require Import Kmain Device System SystemProps Boot.

Module BootProps.

Import Console ConsoleSpec ConsoleProps DevfsSpec Terminal System SystemProps Boot.

(** ** The list of tags *)

(** The tags from [t] on are [ts], and the end tag follows. *)
Fixpoint tag_list (m : mem) (t : Z) (ts : list Z) : Prop :=
  match ts with
  | [] => Mb2.tag_type m t = Mb2.MB2_TAG_END
  | x :: ts' => x = t /\ t <> 0 /\ Mb2.tag_type m t <> Mb2.MB2_TAG_END /\ tag_list m (Mb2.mb2_next_tag m t) ts'
  end.

(** The first tag of type [ty], or 0. *)
Definition first_tag (m : mem) (ty : Z) (ts : list Z) : Z :=
  default 0 (head (filter (fun t => Mb2.tag_type m t = ty) ts)).

Lemma first_tag_in m ty ts : first_tag m ty ts = 0 \/ (first_tag m ty ts ∈ ts /\ Mb2.tag_type m (first_tag m ty ts) = ty).
Proof.
  unfold first_tag. destruct (filter _ ts) as [|x l] eqn:E; [by left|right]. cbn.
  assert (Hx : x ∈ filter (fun t => Mb2.tag_type m t = ty) ts) by (rewrite E; left).
  by apply list_elem_of_filter in Hx as [].
Qed.

Lemma find_framebuffer_list fuel m ts : forall t, tag_list m t ts -> (length ts < fuel)%nat ->
  find_framebuffer fuel m t = Some (first_tag m Mb2.MB2_TAG_FRAMEBUFFER ts).
Proof.
  revert fuel. induction ts as [|x ts IH]; intros [|fuel] t Ht Hf; cbn [length] in Hf; try lia; cbn [find_framebuffer].
  - cbn in Ht. rewrite Ht. by rewrite Z.eqb_refl, orb_true_r.
  - destruct Ht as (-> & H0 & He & Ht). rewrite (proj2 (Z.eqb_neq _ _) H0), (proj2 (Z.eqb_neq _ _) He). cbn [orb].
    unfold first_tag. rewrite filter_cons. destruct (Z.eqb_spec (Mb2.tag_type m t) Mb2.MB2_TAG_FRAMEBUFFER).
    + by rewrite decide_True.
    + rewrite decide_False by done. apply IH; [done|lia].
Qed.

(** A tag found earlier is kept. *)
Definition or_first (x y : Z) : Z := if x =? 0 then y else x.

Lemma find_maps_list fuel m ts : forall t efi mmap, tag_list m t ts -> (length ts < fuel)%nat ->
  Kmain.find_maps fuel m t efi mmap
    = Some (or_first efi (first_tag m Mb2.MB2_TAG_EFI_MMAP ts), or_first mmap (first_tag m Mb2.MB2_TAG_MMAP ts)).
Proof.
  revert fuel. induction ts as [|x ts IH]; intros [|fuel] t efi mmap Ht Hf; cbn [length] in Hf; try lia; cbn [Kmain.find_maps].
  - cbn in Ht. rewrite Ht, Z.eqb_refl, orb_true_r. unfold or_first.
    destruct (Z.eqb_spec efi 0) as [->|], (Z.eqb_spec mmap 0) as [->|]; done.
  - destruct Ht as (-> & H0 & He & Ht). rewrite (proj2 (Z.eqb_neq _ _) H0), (proj2 (Z.eqb_neq _ _) He). cbn [orb].
    rewrite IH by (done || lia). unfold first_tag. rewrite !filter_cons. unfold or_first.
    do 2 f_equal; [destruct (Z.eqb_spec (Mb2.tag_type m t) Mb2.MB2_TAG_EFI_MMAP)|destruct (Z.eqb_spec (Mb2.tag_type m t) Mb2.MB2_TAG_MMAP)];
      cbn [andb]; rewrite ?decide_True, ?decide_False by done.
    + destruct (Z.eqb_spec efi 0); cbn; [|by rewrite (proj2 (Z.eqb_neq efi 0))]. by rewrite (proj2 (Z.eqb_neq t 0)).
    + done.
    + destruct (Z.eqb_spec mmap 0); cbn; [|by rewrite (proj2 (Z.eqb_neq mmap 0))]. by rewrite (proj2 (Z.eqb_neq t 0)).
    + done.
Qed.

(** ** The banner *)

Section banner.
Context `{HT : Terminal C} (P : C -> Prop).
Context (Hw : forall s, keeps P (fun c => t_write c s)) (Hh : forall v, keeps P (fun c => t_write_hex64 c v)).

Lemma say_keeps s : keeps P (fun c => say c s).
Proof. apply Hw. Qed.
Lemma sayln_keeps s : keeps P (fun c => sayln c s).
Proof. apply Hw. Qed.

(** A sequence of such operations. *)
Ltac seq_keeps := repeat (apply keeps_bind; [first [apply Hw|apply Hh|apply say_keeps|apply sayln_keeps]|]);
  first [apply Hw|apply Hh|apply say_keeps|apply sayln_keeps].

Lemma print_vendor_keeps cpuid : keeps P (Kmain.print_vendor cpuid).
Proof. unfold Kmain.print_vendor. destruct (cpuid 0 0) as [[[a b] c] d]. seq_keeps. Qed.

Lemma print_brand_keeps cpuid : keeps P (Kmain.print_brand cpuid).
Proof. unfold Kmain.print_brand. seq_keeps. Qed.

Lemma print_features_keeps cpuid : keeps P (Kmain.print_features cpuid).
Proof. unfold Kmain.print_features. destruct (cpuid 1 0) as [[[a b] c] d]. seq_keeps. Qed.

Lemma print_range_keeps base len usable : keeps P (fun c => Kmain.print_range c base len usable).
Proof. unfold Kmain.print_range. seq_keeps. Qed.

Ltac range_step c Hc :=
  match goal with |- context [Kmain.print_range c ?b ?n ?u] =>
    let E := fresh in destruct (print_range_keeps b n u c Hc) as (? & E & ?); rewrite E; bind end.

Lemma print_efi_keeps m efi : keeps (fun s => P s.2) (Kmain.print_efi m efi).
Proof.
  apply (keeps_for (fun s => P s.2)). intros i [tot c] Hc. cbn beta iota zeta. cbn [snd] in Hc. range_step c Hc. by eexists.
Qed.

(** The entries of a memory map: the loop ends if their size is not 0. *)
Lemma print_mmap_keeps m t : 1 <= Mb2.mmap_entry_size m t -> Mb2.tag_size m t + Mb2.mmap_entry_size m t < 2^32 ->
  forall fuel offset tot c, P c -> 0 <= offset <= Mb2.tag_size m t -> Mb2.tag_size m t - offset < Z.of_nat fuel ->
  exists tot' c', Kmain.print_mmap fuel m t offset tot c = Some (tot', c') /\ P c'.
Proof.
  intros He Hs. induction fuel as [|fuel IH]; intros offset tot c Hc Ho Hf; [lia|]. cbn [Kmain.print_mmap].
  rewrite u32_small by lia. destruct (Z.leb_spec (offset + Mb2.mmap_entry_size m t) (Mb2.tag_size m t)); [|by eexists _, _].
  range_step c Hc. apply IH; [done|lia..].
Qed.

Lemma print_basic_keeps m ts : forall fuel t tot c, tag_list m t ts -> (length ts < fuel)%nat -> P c ->
  exists tot' c', Kmain.print_basic fuel m t tot c = Some (tot', c') /\ P c'.
Proof.
  induction ts as [|x ts IH]; intros [|fuel] t tot c Ht Hf Hc; cbn [length] in Hf; try lia; cbn [Kmain.print_basic].
  - cbn in Ht. rewrite Ht, Z.eqb_refl, orb_true_r. by eexists _, _.
  - destruct Ht as (-> & H0 & He & Ht). rewrite (proj2 (Z.eqb_neq _ _) H0), (proj2 (Z.eqb_neq _ _) He). cbn [orb].
    destruct (_ =? _); [|apply IH; [done|lia|done]]. destruct (sayln_keeps "  (basic meminfo used)" c Hc) as (c' & E & Hc').
    rewrite E. bind. by eexists _, _.
Qed.

(** The tags of the boot information: memory maps have entries that are not empty. *)
Record boot_tags (fuel : nat) (m : mem) (mb_addr : Z) (ts : list Z) : Prop := BootTags {
  bt_list : tag_list m (Mb2.mb2_first_tag mb_addr) ts;
  bt_fuel : (length ts < fuel)%nat;
  bt_mmap t : t ∈ ts -> Mb2.tag_type m t = Mb2.MB2_TAG_MMAP ->
    16 <= Mb2.tag_size m t < Z.of_nat fuel /\ 1 <= Mb2.mmap_entry_size m t /\
    Mb2.tag_size m t + Mb2.mmap_entry_size m t < 2^32
}.

Lemma print_memory_map_keeps fuel m mb_addr ts : boot_tags fuel m mb_addr ts -> keeps P (Kmain.print_memory_map fuel m mb_addr).
Proof.
  intros [Hl Hf Hm] c Hc. unfold Kmain.print_memory_map. destruct (sayln_keeps "Memory map:" c Hc) as (c1 & E1 & H1).
  rewrite E1. bind. rewrite (find_maps_list _ _ _ _ _ _ Hl Hf). bind. unfold or_first. cbn [Z.eqb].
  set (efi := first_tag m Mb2.MB2_TAG_EFI_MMAP ts). set (mm := first_tag m Mb2.MB2_TAG_MMAP ts).
  assert (Hmap : exists tot c2, (if negb (efi =? 0) then Kmain.print_efi m efi (0, 0, c1)
     else if negb (mm =? 0) then Kmain.print_mmap fuel m mm 16 (0, 0) c1 else Some (0, 0, c1)) = Some (tot, c2) /\ P c2).
  { destruct (efi =? 0); cbn [negb].
    - destruct (Z.eqb_spec mm 0) as [|Hn]; cbn [negb]; [by eexists _, _|].
      destruct (first_tag_in m Mb2.MB2_TAG_MMAP ts) as [|[Hin Hty]]; [done|].
      destruct (Hm _ Hin Hty) as (S1 & S2 & S3). apply print_mmap_keeps; (done || (fold mm in S1; lia)).
    - destruct (print_efi_keeps m efi (0, 0, c1) H1) as ([tot c2] & -> & H2). by exists tot, c2. }
  destruct Hmap as (tot & c2 & -> & H2). bind.
  assert (Hb : exists tot' c3, (if (tot.1 =? 0) && (tot.2 =? 0) then Kmain.print_basic fuel m (Mb2.mb2_first_tag mb_addr) tot c2
    else Some (tot, c2)) = Some (tot', c3) /\ P c3).
  { destruct (_ && _); [by apply (print_basic_keeps m ts)|by eexists _, _]. }
  destruct Hb as (tot' & c3 & -> & H3). bind. revert c3 H3.
  change (keeps P (fun c3 => c ← say c3 "Total RAM: "; c ← t_write_hex64 c tot'.1; c ← sayln c " bytes";
    c ← say c "Reserved:  "; c ← t_write_hex64 c tot'.2; sayln c " bytes")). seq_keeps.
Qed.

End banner.

(** ** The console *)

Lemma write_keeps_printing s : keeps printing (fun c => console_write c s).
Proof. intros c Hc. destruct (write_prints c s Hc) as (c' & E & Hc' & _). by exists c'. Qed.

Lemma hex64_keeps_printing v : keeps printing (fun c => console_write_hex64 c v).
Proof.
  apply keeps_bind; [apply write_keeps_printing|]. apply keeps_for. intros i c Hc.
  destruct (putc_prints c (hex_digit (Z.land (Z.shiftr v ((15 - i) * 4)) 0xF)) Hc) as (c' & E & Hc' & _). by exists c'.
Qed.

Lemma on_keeps_printing k g c : printing c -> s_active c = Some k ->
  (forall a x d, inv x -> exists x' d', g a x d = Some (x', d') /\ inv x') -> exists c', on c k g = Some c' /\ printing c'.
Proof.
  intros [Hr _] Hk Hg. destruct (on_ready c k g Hr Hk Hg) as (c' & E & Hr'). exists c'. split; [done|]. split; [done|].
  rewrite (on_active _ _ _ _ E). by exists k.
Qed.

Lemma clear_keeps_printing : keeps printing console_clear.
Proof.
  intros c Hc. pose proof Hc as [_ [k Hk]]. unfold console_clear, console_clear_ex, target. rewrite Hk.
  apply on_keeps_printing; [done|done|]. intros a x d [].
  destruct (clear_spec a x d) as (x' & d' & E & H & _); [by constructor|]. by exists x', d'.
Qed.

Lemma color_keeps_printing fg bg : keeps printing (fun c => console_set_color c fg bg).
Proof.
  intros c Hc. pose proof Hc as [_ [k Hk]]. unfold console_set_color, console_set_color_ex, target. rewrite Hk.
  apply on_keeps_printing; [done|done|]. intros a x d []. eexists _, _. split; [done|]. by constructor.
Qed.

(** A text framebuffer fits the arrays of the console. *)
Record framebuffer_fits (m : mem) (fb : Z) : Prop := FramebufferFits {
  ff_cols : 0 < u16 (fb_width m fb) <= 80;
  ff_rows : 0 < u16 (fb_height m fb);
  ff_cells : u16 (fb_width m fb) * u16 (fb_height m fb) <= 2000;
  ff_pitch : u16 (fb_pitch m fb / 2) = 0 \/ u16 (fb_width m fb) <= u16 (fb_pitch m fb / 2)
}.

(** A console that is cleared after its geometry is set. *)
Lemma cleared_printing c (g : Console -> Console) c0 : (forall x, fits (g x)) -> s_consoles c !! 0%nat = Some c0 -> exists c',
  on c 0 (fun a x d => vga_clear a (g x) d) = Some c' /\ printing (set_active c' 0).
Proof.
  intros Hx Hc. unfold on. rewrite Hc. bind.
  destruct (clear_spec (is_active c 0) (g c0) (disp c) (Hx c0)) as (x' & d' & E & Hi & _). rewrite E. bind.
  eexists. split; [done|]. split; [|by eexists]. intros k [= <-]. exists x'. cbn.
  rewrite list_lookup_insert_eq by (by apply lookup_lt_Some in Hc). done.
Qed.

(** The console the boot information describes. *)
Lemma init_console_prints fuel m mb_addr ts c c0 : tag_list m (Mb2.mb2_first_tag mb_addr) ts -> (length ts < fuel)%nat ->
  (forall t, t ∈ ts -> Mb2.tag_type m t = Mb2.MB2_TAG_FRAMEBUFFER -> fb_type m t = 2 -> fb_bpp m t = 16 -> framebuffer_fits m t) ->
  s_consoles c !! 0%nat = Some c0 -> cols c0 = 0 ->
  exists c', console_init_from_mb2 fuel m c mb_addr = Some c' /\ printing c'.
Proof.
  intros Hl Hf Hfb Hc H0. unfold console_init_from_mb2, console_init. rewrite Hc. bind. rewrite H0. cbn [Z.eqb].
  destruct (cleared_printing c (fun x => Console.fresh x VGA_DEFAULT_COLS VGA_DEFAULT_ROWS) c0) as (c1 & E1 & P1);
    [by constructor|done|]. rewrite E1. bind. destruct (mb_addr =? 0); [by eexists|].
  rewrite (find_framebuffer_list _ _ _ _ Hl Hf). bind. unfold bind_framebuffer.
  destruct (first_tag_in m Mb2.MB2_TAG_FRAMEBUFFER ts) as [->|[Hin Hty]]; [by eexists|].
  destruct (first_tag m _ ts =? 0); [by eexists|]. set (fb := first_tag m _ ts) in *.
  destruct (Z.eqb_spec (fb_type m fb) 2) as [T1|]; [|by eexists]. destruct (Z.eqb_spec (fb_bpp m fb) 16) as [T2|]; [|by eexists].
  destruct (Hfb fb Hin Hty T1 T2) as [F1 F2 F3 F4]. cbn [andb]. destruct P1 as [P1 _].
  destruct (P1 0%nat eq_refl) as (x & Hx & _).
  destruct (cleared_printing (set_active c1 0) (fun x => bound x m fb) x) as (c2 & E2 & P2); [|done|].
  - intros y. constructor; cbn; try done. destruct (Z.eqb_spec (u16 (fb_pitch m fb / 2)) 0); cbn; lia.
  - unfold bound in E2. rewrite E2. bind. by eexists.
Qed.

Lemma early_console_prints fuel cpuid m mb_addr ts c c0 : boot_tags fuel m mb_addr ts ->
  (forall t, t ∈ ts -> Mb2.tag_type m t = Mb2.MB2_TAG_FRAMEBUFFER -> fb_type m t = 2 -> fb_bpp m t = 16 -> framebuffer_fits m t) ->
  s_consoles c !! 0%nat = Some c0 -> cols c0 = 0 ->
  exists c', early_console fuel cpuid m mb_addr c = Some c' /\ printing c'.
Proof.
  intros Ht Hfb Hc H0. unfold early_console.
  destruct (init_console_prints fuel m mb_addr ts c c0 (bt_list _ _ _ _ Ht) (bt_fuel _ _ _ _ Ht) Hfb Hc H0) as (c1 & E1 & P1).
  rewrite E1. bind. clear E1. revert c1 P1. unfold print_banner_and_info.
  pose proof write_keeps_printing as Hw. pose proof hex64_keeps_printing as Hh.
  repeat (apply keeps_bind; [first [apply Hw|apply Hh|apply clear_keeps_printing|apply color_keeps_printing
    |apply print_vendor_keeps; done|apply print_brand_keeps; done|apply print_features_keeps; done
    |eapply print_memory_map_keeps; done]|]). apply Hw.
Qed.

(** ** The list of the mounts *)

Section mounts.
#[local] Existing Instance Shell.kernel_terminal.
Context `{HK : Shell.Kernel K} (P : K -> Prop) (Hw : forall s, keeps P (fun k => t_write k s)).

(** A command that only prints. *)
Definition prints {A} (m : Shell.M A) : Prop := forall s, P (Shell.kern s) -> exists x s', m s = Some (x, s') /\ P (Shell.kern s').

Lemma puts_prints t : prints (Shell.console_puts t).
Proof. intros s Hs. destruct (Hw t _ Hs) as (k & E & Hk). unfold Shell.console_puts, Shell.out. rewrite E. by eexists _, _. Qed.

Lemma bind_prints {A B} (m : Shell.M A) (g : A -> Shell.M B) : prints m -> (forall x, prints (g x)) -> prints (m ≫= g).
Proof.
  intros Hm Hg s Hs. destruct (Hm s Hs) as (x & s1 & E & H1). rewrite (ShellProps.bind_run _ _ _ _ _ E). by apply Hg.
Qed.

Lemma gets_prints {A} (g : Shell.shell -> A) : prints (Shell.gets g).
Proof. intros s Hs. by eexists _, _. Qed.

Lemma each_prints {A} (l : list A) g : (forall x, prints (g x)) -> prints (Shell.each l g).
Proof.
  intros Hg. induction l as [|x l IH]; [intros s Hs; by eexists _, _|]. cbn [Shell.each].
  apply bind_prints; [apply Hg|by intros _].
Qed.

Lemma list_mounts_prints : prints Shell.vfs_list_mounts.
Proof.
  unfold Shell.vfs_list_mounts, Shell.console_writeln, Shell.console_write.
  apply bind_prints; [apply puts_prints|intros _]. apply bind_prints; [apply gets_prints|intros n].
  apply each_prints. intros i. apply bind_prints; [apply gets_prints|intros [rc m]].
  apply bind_prints; [apply puts_prints|intros _]. apply bind_prints; [apply puts_prints|intros _]. apply puts_prints.
Qed.

End mounts.

(** The system with these parts and a console that prints. *)
Section at_con.
Context (sp : Z) (fuel : nat) (mts : list (Vfs.mount_t world priv vnode Block.device)).
Context (b : Block.blk) (nd : list node) (sc : Sched.sched) (cf : Z -> Z).

Definition at_con (k : system) : Prop := exists c, printing c /\ k = sys_at sp fuel mts c b nd sc cf.

Lemma on_con_keeps g : keeps printing g -> keeps at_con (on_con g).
Proof.
  intros Hg k (c & Hc & ->). destruct (Hg c Hc) as (c' & E & Hc'). eexists. split; [|by exists c'].
  unfold on_con. cbn [fsys sys_at Vfs.world con]. bind. cbn [con]. rewrite E. reflexivity.
Qed.

Lemma sys_write_keeps s : keeps at_con (fun k => @t_write system system_terminal k s).
Proof. apply (on_con_keeps (fun c => console_write c s)), write_keeps_printing. Qed.

Lemma sys_hex_keeps v : keeps at_con (fun k => @t_write_hex64 system system_terminal k v).
Proof. apply (on_con_keeps (fun c => console_write_hex64 c v)), hex64_keeps_printing. Qed.

Lemma announce_prints ubuf c : printing c -> exists c',
  announce sp ubuf fuel (sys_at sp fuel mts c b nd sc cf) = Some (sys_at sp fuel mts c' b nd sc cf) /\ printing c'.
Proof.
  intros Hc. assert (Hk : at_con (sys_at sp fuel mts c b nd sc cf)) by (by exists c).
  enough (keeps at_con (announce sp ubuf fuel)) as H by (destruct (H _ Hk) as (k & E & c' & H1 & ->); by exists c').
  unfold announce. apply keeps_bind; [apply sys_write_keeps|]. intros k H1.
  destruct (list_mounts_prints (HK := system_kernel sp ubuf fuel) at_con sys_write_keeps (Shell.MkShell [] [] k) H1)
    as (x & s & E & H2).
  change (Boot.kernel sp ubuf fuel) with (system_kernel sp ubuf fuel). rewrite E. bind. revert H2. generalize (Shell.kern s).
  change (keeps at_con (fun k => k ← @t_write system system_terminal k [10];
    @sayln system system_terminal k "Starting shell...")). apply keeps_bind; apply sys_write_keeps.
Qed.

End at_con.

(** ** Memory *)

Lemma bring_up_spec fuel m mb_addr bss phys cr3 kstart kend :
  Kmain.boot_ok fuel m mb_addr bss phys cr3 kstart kend -> exists vm,
  Kmain.bring_up fuel m mb_addr bss phys cr3 kstart kend = Some vm /\ PmmSpec.inv (Vmm.pmm_state vm) /\
  forall a n, kstart <= a -> a + n <= kend -> in_use (Vmm.pmm_state vm) a n.
Proof.
  intros Hok. destruct (Kmain.reserve_boot_spec _ _ _ _ _ _ _ _ Hok) as (st & E & Hi & Ho).
  unfold Kmain.bring_up. rewrite E. bind.
  destruct (VmmProps.init_identity_spec (FA := pmm_frame_alloc) (Vmm.MkVmm 0 cr3 phys [] st) Hi) as (vm & Ev & H).
  exists vm. split; [exact Ev|].
  assert (Hp : forall a n x, kstart <= a -> a + n <= kend -> a <= x < a + n -> Kmain.protected m mb_addr phys cr3 kstart kend x)
    by (intros a n x H1 H2 H3; right; left; lia).
  destruct H as [[-> _]|(lv & k & Hinv & _ & _ & _ & _ & Hsp)].
  - split; [exact Hi|]. intros a n H1 H2 x Hx. apply Ho. by eapply Hp.
  - split; [exact (VmmSpec.vi_ok _ _ _ Hinv)|]. intros a n H1 H2 x Hx.
    apply (Hsp (Kmain.page_of x) (Ho x (Hp a n x H1 H2 Hx)) (lookup_empty _)).
Qed.

(** ** The thread of the shell *)

(** The first thread, with its stack below [top]. *)
Definition shell_thread (top ent : Z) (on : Z) : Sched.thread := Sched.Thread None (top - 8) ent 0 on 0.

Definition one_thread (rq cur : option nat) (t : Sched.thread) (sp ip : Z) (m : mem) : Sched.sched :=
  Sched.MkSched rq cur (t :: replicate 7 (Sched.Thread None 0 0 0 0 0)) 1 sp ip m [] false.

Lemma shell_created g_stacks trampoline ent top :
  Z.land (g_stacks + 0 * Sched.STACK_SIZE + Sched.STACK_SIZE) (u64 (Z.lnot 0xF)) = top ->
  Sched.sched_create g_stacks trampoline (SchedProps.boot 0 0) ent 0
    = Some (0, one_thread (Some 0%nat) None (shell_thread top ent 0) 0 0 (wr ∅ (top - 8) trampoline)).
Proof. intros <-. reflexivity. Qed.

Lemma shell_switched ret_start ent top m : let m' := wr m (0 - 8) ret_start in
  Sched.sched_start ret_start (one_thread (Some 0%nat) None (shell_thread top ent 0) 0 0 m)
    = Some (one_thread None (Some 0%nat) (shell_thread top ent 1) (top - 8 + 8) (rd m' (top - 8)) m').
Proof. reflexivity. Qed.

Lemma shell_started g_stacks trampoline ret_start ent :
  0 < g_stacks /\ g_stacks mod 16 = 0 /\ g_stacks < 2^47 -> exists st1 st2,
  Sched.sched_create g_stacks trampoline (SchedProps.boot 0 0) ent 0 = Some (0, st1) /\
  Sched.sched_start ret_start st1 = Some st2 /\ Sched.g_current st2 = Some 0%nat /\ Sched.g_runq st2 = None /\
  Sched.cpu_rip st2 = trampoline /\ Sched.trampoline_call st2 = Some (ent, 0).
Proof.
  intros Ha. pose proof (SchedSpec.stack_top_eq g_stacks Ha 0 ltac:(lia)) as Ht.
  eexists _, _. split; [exact (shell_created _ _ _ _ Ht)|]. split; [exact (shell_switched _ _ _ _)|].
  split; [reflexivity|]. split; [reflexivity|]. split; [|reflexivity]. cbn [Sched.cpu_rip one_thread].
  unfold SchedSpec.stack_base, Sched.STACK_SIZE. rewrite rd_wr_ne, rd_wr_eq by lia. done.
Qed.

(** ** The whole of [kmain64] *)

(** The static data of the kernel: heap, buffers and stacks lie in its image. *)
Record image (sp ubuf mbr : Z) (mc : machine) : Prop := Image {
  im_heap : 0 < early_heap mc /\ early_heap mc mod 16 = 0 /\ kstart mc <= early_heap mc /\
    early_heap mc + 256 * 1024 <= kend mc;
  im_end : kend mc < 2^63;
  im_sp : 0 < sp /\ kstart mc <= sp /\ sp + 512 <= kend mc;
  im_ubuf : 0 < ubuf /\ kstart mc <= ubuf /\ ubuf + 512 <= kend mc /\ apart ubuf 512 (early_heap mc) (256 * 1024);
  im_mbr : 0 < mbr /\ kstart mc <= mbr /\ mbr + 512 <= kend mc;
  im_stacks : 0 < g_stacks mc /\ g_stacks mc mod 16 = 0 /\ g_stacks mc < 2^47
}.

(** What the loader leaves: boot information with an end, without a module for the root
    file system and without a text mode that is too large, and the first console unused. *)
Record loaded (fuel : nat) (mc : machine) (ts : list Z) : Prop := Loaded {
  ld_boot : Kmain.boot_ok fuel (bytes mc) (mb_addr mc) (bss mc) (tables mc) (loader_cr3 mc) (kstart mc) (kend mc);
  ld_tags : boot_tags fuel (bytes mc) (mb_addr mc) ts;
  ld_fb t : t ∈ ts -> Mb2.tag_type (bytes mc) t = Mb2.MB2_TAG_FRAMEBUFFER -> fb_type (bytes mc) t = 2 ->
    fb_bpp (bytes mc) t = 16 -> framebuffer_fits (bytes mc) t;
  ld_console : exists c0, s_consoles (consoles mc) !! 0%nat = Some c0 /\ cols c0 = 0;
  ld_module : Kmain.root_module fuel (bytes mc) (Mb2.mb2_first_tag (mb_addr mc)) = Some 0
}.

(** The state in which the root file system is set up. *)
Lemma devices_fresh sp ubuf mbr mc c vm : image sp ubuf mbr mc -> printing c -> PmmSpec.inv (Vmm.pmm_state vm) ->
  (forall a n, kstart mc <= a -> a + n <= kend mc -> in_use (Vmm.pmm_state vm) a n) ->
  fresh sp ubuf mbr (early_heap mc) (256 * 1024) c
    (Block.MkBlk [] (Kmalloc.kmalloc_init (Kmalloc.Kheap 0 0 0 ∅) (early_heap mc) (256 * 1024)) (Vmm.pmm_state vm) (bytes mc)).
Proof.
  intros [I1 I2 I3 I4 I5 I6] Hc Hi Hu. constructor; cbn [Block.g_head Block.heap Block.frames]; try done.
  - exists [(256 * 1024 - 32, true)], (256 * 1024 - 32). split_and!; try done; [|left].
    apply KmallocProps.init_inv; (done || lia).
  - split; [lia|]. apply Hu; lia.
  - split; [lia|]. split; [apply Hu; lia|apply I4].
  - split; [lia|]. apply Hu; lia.
  - split; [lia|]. split; [lia|]. apply Hu; lia.
Qed.

Lemma memory_line_prints n : keeps printing (fun c => c ← say c "PMM/VMM initialized. Free: "; c ← t_write_hex64 c n;
  t_write c (str " bytes" ++ [10; 10])).
Proof.
  apply keeps_bind; [apply write_keeps_printing|]. apply keeps_bind; [apply hex64_keeps_printing|apply write_keeps_printing].
Qed.

Lemma bind_assoc3 {A B C D} (o : option A) (f : A -> option B) (g : B -> option C) (h : C -> option D) :
  (x ← o; y ← f x; z ← g y; h z) = (z ← (x ← o; y ← f x; g y); h z).
Proof. destruct o as [x|]; [|done]. cbn. by destruct (f x). Qed.

(** The devices and file systems of a machine that comes up. *)
Lemma with_devices_at sp fuel pci_space mc c vm : with_devices sp fuel pci_space mc c vm
  = sys_at sp fuel [] c
      (Block.MkBlk [] (Kmalloc.kmalloc_init (Kmalloc.Kheap 0 0 0 ∅) (early_heap mc) (256 * 1024)) (Vmm.pmm_state vm) (bytes mc))
      [] (SchedProps.boot 0 0) pci_space.
Proof. reflexivity. Qed.

(** The registry of devices after the drivers: the display and the keyboard. *)
Lemma drivers_registered : exists reg,
  (reg ← Device.display_console_register Device.boot_registry; Device.kb_ps2_register reg) = Some reg /\
  Device.dev_first_of_type 2 reg Device.DEV_DISPLAY = Some (Some 0%nat) /\
  Device.dev_first_of_type 2 reg Device.DEV_KEYBOARD = Some (Some 1%nat).
Proof. eexists. split; [reflexivity|]. by split. Qed.

Lemma bind_assoc2 {A B C} (o : option A) (f : A -> option B) (g : B -> option C) :
  (x ← o; y ← f x; g y) = (y ← (x ← o; f x); g y).
Proof. by destruct o. Qed.

(** The steps of [kmain64]. *)
Lemma kmain64_steps sp ubuf mbr fuel cpuid pci_space mc c1 vm c2 reg k k' st1 st2 :
  early_console fuel cpuid (bytes mc) (mb_addr mc) (consoles mc) = Some c1 ->
  Kmain.bring_up fuel (bytes mc) (mb_addr mc) (bss mc) (tables mc) (loader_cr3 mc) (kstart mc) (kend mc) = Some vm ->
  (c ← say c1 "PMM/VMM initialized. Free: "; c ← t_write_hex64 c (Pmm.pmm_free_bytes (Vmm.pmm_state vm));
   t_write c (str " bytes" ++ [10; 10])) = Some c2 ->
  (reg ← Device.display_console_register Device.boot_registry; Device.kb_ps2_register reg) = Some reg ->
  sys_setup_root sp ubuf mbr fuel (bytes mc) (mb_addr mc) (with_devices sp fuel pci_space mc c2 vm) = Some k ->
  announce sp ubuf fuel k = Some k' ->
  Sched.sched_create (g_stacks mc) (trampoline mc) (sch k') (shell_entry mc) 0 = Some (0, st1) ->
  Sched.sched_start (ret_start mc) st1 = Some st2 ->
  kmain64 sp ubuf mbr fuel cpuid pci_space mc = Some (MkSystem (fsys k') st2 (conf k'), reg, Pci.usb_init pci_space).
Proof.
  intros E1 E2 E3 E4 E5 E6 E7 E8. unfold kmain64. rewrite E1. bind. rewrite E2. bind.
  rewrite bind_assoc3. rewrite E3. bind. rewrite bind_assoc2. rewrite E4. bind. rewrite E5. bind. rewrite E6. bind.
  rewrite E7. bind. rewrite E8. by bind.
Qed.

(** The state in which the shell starts: memory is up; the display and the keyboard are
    registered; the first thread is in the trampoline that calls the entry of the shell;
    the root file system is an exFAT volume on a zeroed RAM disk, or there is no memory
    for it. *)
Record at_shell (sp ubuf : Z) (fuel : nat) (mc : machine) (k : system) (reg : Device.registry) (vm : Vmm.vmm Pmm.pmm)
    : Prop := AtShell {
  as_memory : Kmain.bring_up fuel (bytes mc) (mb_addr mc) (bss mc) (tables mc) (loader_cr3 mc) (kstart mc) (kend mc) = Some vm;
  as_display : Device.dev_first_of_type 2 reg Device.DEV_DISPLAY = Some (Some 0%nat);
  as_keyboard : Device.dev_first_of_type 2 reg Device.DEV_KEYBOARD = Some (Some 1%nat);
  as_thread : Sched.g_current (sch k) = Some 0%nat /\ Sched.g_runq (sch k) = None;
  as_entry : Sched.cpu_rip (sch k) = trampoline mc /\ Sched.trampoline_call (sch k) = Some (shell_entry mc, 0);
  as_root : (exists d,
      Vfs.g_mounts (fsys k) = [dev_mount; Vfs.Mount (str "root") (exfat_ops sp fuel) (PExfat (Exfat.default_fs d))] /\
      device_ready ubuf k (str "ram0") d (replicate (Z.to_nat (8 * 1024 * 1024)) 0)) \/
    (~ has_run (Vmm.pmm_state vm) 2048 (2^30) /\ Vfs.g_mounts (fsys k) = [dev_mount])
}.

Lemma kmain64_reaches_shell sp ubuf mbr fuel cpuid pci_space mc ts :
  loaded fuel mc ts -> image sp ubuf mbr mc ->
  exists k reg vm, kmain64 sp ubuf mbr fuel cpuid pci_space mc = Some (k, reg, Pci.usb_init pci_space) /\
    at_shell sp ubuf fuel mc k reg vm.
Proof.
  intros [Hb Ht Hfb (c0 & Hc0 & Hcols) Hmod] Him.
  destruct (early_console_prints fuel cpuid _ _ _ (consoles mc) c0 Ht Hfb Hc0 Hcols) as (c1 & E1 & P1).
  destruct (bring_up_spec _ _ _ _ _ _ _ _ Hb) as (vm & E2 & Hi & Hu).
  destruct (memory_line_prints (Pmm.pmm_free_bytes (Vmm.pmm_state vm)) c1 P1) as (c2 & E3 & P2).
  destruct drivers_registered as (reg & E4 & R1 & R2).
  pose proof (devices_fresh sp ubuf mbr mc c2 vm Him P2 Hi Hu) as Hfr.
  destruct (setup_root_spec sp ubuf mbr fuel _ _ c2 _ [] (SchedProps.boot 0 0) pci_space _ _ Hfr Hmod)
    as (mts & c3 & b' & E5 & P3 & Hout). rewrite <- with_devices_at in E5.
  destruct (announce_prints sp fuel mts b' [] (SchedProps.boot 0 0) pci_space ubuf c3 P3) as (c4 & E6 & P4).
  destruct (shell_started (g_stacks mc) (trampoline mc) (ret_start mc) (shell_entry mc) (im_stacks _ _ _ _ Him))
    as (st1 & st2 & E7 & E8 & S1 & S2 & S3 & S4).
  eexists _, reg, vm. split; [exact (kmain64_steps _ _ _ _ _ _ _ _ _ _ _ _ _ _ _ E1 E2 E3 E4 E5 E6 E7 E8)|].
  constructor; [exact E2|exact R1|exact R2|by split|by split|].
  destruct Hout as [(pa & h & f & m & -> & -> & Hpl & Hz & Hh)|(Hn & -> & _)]; [left|right; by split].
  exists (ram0 pa). split; [reflexivity|].
  exact (ram0_ready sp ubuf mbr fuel _ _ c2 _ _ c4 h f m [] st2 pci_space pa Hfr Hpl Hz Hh P4).
Qed.


(** ** An instance: the kernel from 1 MiB to 1.5 MiB, with its heap, buffers and stacks *)

Definition demo_machine : machine :=
  Machine (Console.MkState [MkConsole 0 0 0 0 0 0 0 ∅ ∅ 0 0 0 0] None (Display ∅ 0) []) PmmInit.boot_map 0x1000 ∅
    Kmain.demo_tables 0x2000 0x100000 0x180000 0x110000 0x170000 0x101000 0x102000 0x103000.

Lemma demo_loaded : loaded 100 demo_machine [0x1008].
Proof.
  constructor; cbn [bytes mb_addr bss tables loader_cr3 kstart kend consoles demo_machine].
  - apply Kmain.demo_boot_ok. lia.
  - constructor; [vm_compute; split_and!; (done || congruence)|cbn; lia|].
    intros t ->%list_elem_of_singleton _. vm_compute. split_and!; congruence.
  - intros t ->%list_elem_of_singleton Ht. vm_compute in Ht. discriminate.
  - eexists. by split.
  - vm_compute. reflexivity.
Qed.

Lemma demo_image : image 0x160000 0x161000 0x162000 demo_machine.
Proof. constructor; cbn; unfold apart; split_and?; (reflexivity || lia). Qed.


End BootProps.
