(* ===== verification/BootModule.v ===== *)
(** * The root file system from a module ([kmain64] of [src/kernel64/kmain64.c])

    The loader can leave a disk image in memory.  [kmain64] registers it as the
    read-only disk iso0 and mounts the volume on it as the root file system.  It is the
    image that the loader left if its frames are in use; they are not reserved, and the
    RAM disk, which is created first, can be placed on them. *)

From stdpp Require Import strings.
From S2P Require Import Prelude Mb2 Pmm PmmSpec PmmInit FrameAlloc Vmm Kmalloc KmallocSpec KmallocProps Mem.
From S2P Require Import Sched Block BlockSpec BlockProps Devfs DevfsSpec Exfat ExfatSpec Vfs.
From S2P Require Import Console ConsoleSpec ConsoleProps Pci Progress Terminal Shell ShellCmd ShellProps.
From S2P Require Import Kmain Device System SystemProps Boot BootProps.

Module BootModule.

Import Console ConsoleSpec ConsoleProps DevfsSpec Terminal System SystemProps Boot BootProps.

(** The first module with a matching name is the tag [t], and holds whole sectors. *)
Record root_image (fuel : nat) (m : mem) (mb_addr t : Z) : Prop := RootImage {
  ri_tag : Kmain.root_module fuel m (Mb2.mb2_first_tag mb_addr) = Some t;
  ri_there : t <> 0;
  ri_start : 0 < Mb2.mb2_mod_start m t < Mb2.mb2_mod_end m t;
  ri_size : (Mb2.mb2_mod_end m t - Mb2.mb2_mod_start m t) mod 512 = 0
}.

Definition image_size (m : mem) (t : Z) : Z := Mb2.mb2_mod_end m t - Mb2.mb2_mod_start m t.

(** The disk of the module. *)
Definition iso0 (m : mem) (t : Z) : Block.device :=
  Block.Dev (str "iso0") 512 (image_size m t / 512) (Block.MemPriv (Mb2.mb2_mod_start m t) (image_size m t) 0).

(** A step that keeps [P], and what follows. *)
Lemma keeps_then {C A} (P : C -> Prop) (f : C -> option C) (g : C -> option A) (Q : A -> Prop) k :
  keeps P f -> P k -> (forall k', P k' -> exists x, g k' = Some x /\ Q x) -> exists x, f k ≫= g = Some x /\ Q x.
Proof. intros Hf Hk Hg. destruct (Hf k Hk) as (k' & -> & Hk'). by apply Hg. Qed.

Section image.
Context (sp ubuf : Z) (fuel : nat) (m : mem) (mb_addr t : Z) (Hi : root_image fuel m mb_addr t).
#[local] Instance module_kernel : Shell.Kernel system := root_kernel sp ubuf fuel.

Lemma iso0_ok : bd_ok (iso0 m t) /\ 1 <= bd_sector_count (iso0 m t) /\
  bd_sector_count (iso0 m t) * bd_sector_size (iso0 m t) = image_size m t.
Proof.
  destruct Hi as [_ _ H1 H2]. pose proof (rd32_range m (t + 12)). unfold Mb2.mb2_mod_end in *.
  cbn. unfold image_size, Mb2.mb2_mod_end in *. repeat split; zmod.
Qed.

(** Registering it takes 192 bytes of the heap. *)
Lemma register_image b hb hn r : heap_room hb hn (192 + r) (Block.heap b) -> 0 <= r -> exists h,
  Block.memdisk_register b (Some (str "iso0")) (Mb2.mb2_mod_start m t) (image_size m t) 512 0
    = Some (0, Block.MkBlk (iso0 m t :: Block.g_head b) h (Block.frames b) (Block.memory b)) /\ heap_room hb hn r h.
Proof.
  intros Hh Hr. destruct Hi as [_ _ H1 H2]. unfold Block.memdisk_register. fold (image_size m t) in H2.
  rewrite (proj2 (Z.eqb_neq _ 0)), (proj2 (Z.eqb_neq (image_size m t) 0)), H2 by (unfold image_size; lia).
  cbn [orb negb Z.eqb]. unfold Block.alloc.
  destruct (kmalloc_heap_room hb hn (32 + 48 + r) Block.sizeof_block_device (Block.heap b)) as (d & h1 & E1 & P1 & R1);
    [done|lia|by apply (heap_room_less hb hn (192 + r)); [change (Kmalloc.ALIGN_UP Block.sizeof_block_device 16) with 64; lia|]|].
  rewrite E1. bind. rewrite (proj2 (Z.eqb_neq d 0)) by lia. cbn [Block.heap Block.set_heap].
  destruct (kmalloc_heap_room hb hn r Block.sizeof_memdisk_priv h1) as (p & h2 & E2 & P2 & R2); [done|done|exact R1|].
  rewrite E2. bind. rewrite (proj2 (Z.eqb_neq p 0)) by lia. exists h2. split; [reflexivity|exact R2].
Qed.

(** The module is registered and its volume mounted. *)
Lemma mount_module_spec f hb hn r c b nd sc cf : printing c -> 0 < sp ->
  apart sp 512 (Mb2.mb2_mod_start m t) (image_size m t) -> 0 <= r -> heap_room hb hn (192 + (96 + r)) (Block.heap b) ->
  boot_volume (iso0 m t) (Block.memory b) (Mb2.mb2_mod_start m t) = Some f ->
  exists x, Kmain.mount_module sys_memdisk fuel m mb_addr (sys_at sp fuel [dev_mount] c b nd sc cf) = Some x /\
    exists c' h' m', x = (true, sys_at sp fuel [dev_mount; volume_mount sp fuel f] c'
                    (Block.MkBlk (iso0 m t :: Block.g_head b) h' (Block.frames b) m') nd sc cf) /\
    printing c' /\ same_outside sp 512 (Block.memory b) m' /\ heap_room hb hn r h'.
Proof.
  intros Hc Hsp Ha Hr Hh Hf. pose proof Hi as [I1 I2 I3 I4]. destruct iso0_ok as (D1 & D2 & D3).
  destruct (register_image b hb hn (96 + r) Hh ltac:(lia)) as (h1 & E1 & R1).
  unfold Kmain.mount_module. rewrite I1. bind. rewrite (proj2 (Z.eqb_neq t 0) I2), (proj2 (Z.ltb_lt _ _)) by lia.
  fold (image_size m t). cbn zeta. assert (Hk : at_con sp fuel [dev_mount] b nd sc cf (sys_at sp fuel [dev_mount] c b nd sc cf))
    by (by exists c). revert Hk. generalize (sys_at sp fuel [dev_mount] c b nd sc cf) as k.
  repeat (intros k Hk; refine (keeps_then _ _ _ _ _ _ Hk _); [first [apply sys_write_keeps|apply sys_hex_keeps]|]; clear k Hk).
  intros k (c1 & P1 & ->).
  destruct (step_mount sp ubuf fuel (iso0 m t) f (str "iso0") (iso0 m t :: Block.g_head b) hb hn r c1 h1 (Block.frames b)
    (Block.memory b) nd sc cf) as (c2 & h2 & m2 & E3 & P2 & Ho & R2); try done.
  { change (bd_base (iso0 m t)) with (Mb2.mb2_mod_start m t). change (bd_sector_size (iso0 m t)) with 512 in D3.
    unfold apart in *. lia. }
  eexists. split; [|exists c2, h2, m2; split; [reflexivity|done]].
  refine (bind_step _ _ _ _ (_ : _ = Some (0, sys_at sp fuel [dev_mount] c1 (Block.MkBlk _ h1 _ _) nd sc cf))
    (bind_step _ _ _ _ E3 eq_refl)).
  unfold sys_memdisk, on_state. cbn [fsys sys_at Vfs.world]. bind. cbn [blks]. rewrite E1. reflexivity.
Qed.

(** The whole of the set-up, when the volume [f] is on the disk after the RAM disk is made. *)
Lemma setup_root_image f mbr hb hn c b nd sc cf : fresh sp ubuf mbr hb hn c b ->
  apart sp 512 (Mb2.mb2_mod_start m t) (image_size m t) ->
  (forall b', (exists pa, made_disk hb hn b b' pa /\ same_but mbr pa (Block.memory b) (Block.memory b')) \/ no_disk hb hn b b' ->
    boot_volume (iso0 m t) (Block.memory b') (Mb2.mb2_mod_start m t) = Some f) ->
  exists b' c' h m', sys_setup_root sp ubuf mbr fuel m mb_addr (sys_at sp fuel [] c b nd sc cf)
    = Some (sys_at sp fuel [dev_mount; volume_mount sp fuel f] c'
              (Block.MkBlk (iso0 m t :: Block.g_head b') h (Block.frames b') m') nd sc cf) /\
    ((exists pa, made_disk hb hn b b' pa /\ same_but mbr pa (Block.memory b) (Block.memory b')) \/ no_disk hb hn b b') /\
    printing c' /\ same_outside sp 512 (Block.memory b') m'.
Proof.
  intros Hfr Ha Hv. pose proof Hfr as [_ _ _ _ [S1 _] _ _ _].
  destruct (setup_root_before sp ubuf mbr fuel hb hn c b nd sc cf m mb_addr Hfr) as (c1 & b1 & E & P1 & Hb).
  destruct (mount_module_spec f hb hn 560 c1 b1 nd sc cf P1 S1 Ha ltac:(lia)) as (x & E1 & c2 & h2 & m2 & -> & P2 & Ho & _).
  - destruct Hb as [(pa & (h & fr & m0 & -> & _ & _ & R) & _)|(_ & h & -> & R)]; exact R.
  - by apply Hv.
  - exists b1, c2, h2, m2. split; [|done]. rewrite E. exact (bind_step _ _ _ _ E1 eq_refl).
Qed.

End image.

(** ** The image in the memory of the machine *)

Section machine.
Context (sp ubuf mbr : Z) (fuel : nat) (hb hn : Z) (c : Console.state) (b : Block.blk) (nd : list node) (sc : Sched.sched).
Context (cf : Z -> Z) (mb_addr t : Z).
Abbreviation start := (Mb2.mb2_mod_start (Block.memory b) t).
Abbreviation bytes := (image_size (Block.memory b) t).
Abbreviation iso := (iso0 (Block.memory b) t).

(** Frames in use are kept. *)
Lemma image_kept b' x : in_use (Block.frames b) start bytes -> apart mbr 512 start bytes -> 0 < start -> 0 < bytes ->
  (exists pa, made_disk hb hn b b' pa /\ same_but mbr pa (Block.memory b) (Block.memory b')) \/ no_disk hb hn b b' ->
  start <= x < start + bytes -> rd8 (Block.memory b') x = rd8 (Block.memory b) x.
Proof.
  intros Hu Ha Hs Hn [(pa & (h & f & m & -> & [_ _ _ Hp] & _) & Hk)|(_ & h & -> & _)] Hx; [|done].
  pose proof (Hp start bytes ltac:(lia) Hn Hu) as Hd. unfold apart in *. apply Hk; lia.
Qed.

(** A disk on the image makes it zero. *)
Lemma image_lost b' x : has_run (Block.frames b) 2048 (2^30) ->
  (forall pa, placed b pa -> pa <= start /\ start + bytes <= pa + 2048 * 4096) ->
  (exists pa, made_disk hb hn b b' pa /\ same_but mbr pa (Block.memory b) (Block.memory b')) \/ no_disk hb hn b b' ->
  start <= x < start + bytes -> rd8 (Block.memory b') x = 0.
Proof.
  intros Hr Hc [(pa & (h & f & m & -> & Hp & Hz & _) & _)|(Hn & _)] Hx; [|done].
  pose proof (Hc pa Hp). replace x with (pa + (x - pa)) by lia. apply Hz. lia.
Qed.

Lemma image_contents m : root_image fuel (Block.memory b) mb_addr t -> contents iso m = load m start bytes.
Proof. intros Hi. unfold contents. by destruct (iso0_ok _ _ _ _ Hi) as (_ & _ & ->). Qed.

(** C9. With a module for the root file system whose frames are in use, [kmain64] registers
    it as the disk iso0 and mounts the volume that its boot sector describes as "root",
    after the device file system; nothing faults, with or without memory for the RAM
    disk, and the image is the one that the loader left, byte for byte. *)
Theorem setup_root_module f :
  fresh sp ubuf mbr hb hn c b -> root_image fuel (Block.memory b) mb_addr t -> in_use (Block.frames b) start bytes ->
  apart sp 512 start bytes -> apart mbr 512 start bytes -> boot_volume iso (Block.memory b) start = Some f ->
  exists k' w, sys_setup_root sp ubuf mbr fuel (Block.memory b) mb_addr (sys_at sp fuel [] c b nd sc cf) = Some k' /\
    Vfs.g_mounts (fsys k') = [dev_mount; volume_mount sp fuel f] /\ Vfs.world (fsys k') = Some w /\
    Block.block_find (blks w) (str "iso0") = Some iso /\ contents iso (Block.memory (blks w)) = contents iso (Block.memory b).
Proof.
  intros Hfr Hi Hu Ha Hm Hf. pose proof (ri_start _ _ _ _ Hi) as Hs. pose proof Hi as [_ _ _ Hsz].
  assert (Hn : 512 <= bytes) by (unfold image_size; zmod).
  destruct (setup_root_image sp ubuf fuel (Block.memory b) mb_addr t Hi f mbr hb hn c b nd sc cf Hfr Ha) as (b' & c' & h & m' & E & Hb & _ & Ho).
  { intros b' Hb. rewrite <- Hf. apply boot_volume_eq. intros i Hx. apply image_kept; (done || lia). }
  eexists _, _. split; [exact E|]. split; [reflexivity|]. split; [reflexivity|]. split; [reflexivity|].
  rewrite !image_contents by done. apply load_ext. intros i Hx. cbn [blks Block.memory].
  rewrite Ho by (unfold apart in Ha; lia). apply image_kept; (done || lia).
Qed.

(** The frames of the module are not reserved: if the RAM disk can only be placed on
    them, the image is zero when it is mounted, and the root file system is the one
    assumed without a boot sector, whatever the loader left. *)
Theorem module_overwritten :
  fresh sp ubuf mbr hb hn c b -> root_image fuel (Block.memory b) mb_addr t -> has_run (Block.frames b) 2048 (2^30) ->
  (forall pa, placed b pa -> pa <= start /\ start + bytes <= pa + 2048 * 4096) -> apart sp 512 start bytes ->
  exists k' w, sys_setup_root sp ubuf mbr fuel (Block.memory b) mb_addr (sys_at sp fuel [] c b nd sc cf) = Some k' /\
    Vfs.g_mounts (fsys k') = [dev_mount; volume_mount sp fuel (Exfat.default_fs iso)] /\ Vfs.world (fsys k') = Some w /\
    contents iso (Block.memory (blks w)) = replicate (Z.to_nat bytes) 0.
Proof.
  intros Hfr Hi Hr Hc Ha. pose proof (ri_start _ _ _ _ Hi) as Hs. pose proof Hi as [_ _ _ Hsz].
  assert (Hn : 512 <= bytes) by (unfold image_size; zmod).
  destruct (setup_root_image sp ubuf fuel (Block.memory b) mb_addr t Hi (Exfat.default_fs iso) mbr hb hn c b nd sc cf Hfr Ha)
    as (b' & c' & h & m' & E & Hb & _ & Ho).
  { intros b' Hb. apply zero_volume. intros i Hx. apply (image_lost b'); (done || lia). }
  eexists _, _. split; [exact E|]. split; [reflexivity|]. split; [reflexivity|].
  rewrite image_contents by done. rewrite (load_ext ∅ _ start).
  - apply list_eq. intros i. destruct (decide (i < Z.to_nat bytes)%nat).
    + rewrite lookup_load, lookup_replicate_2 by lia. unfold rd8, rd. by rewrite lookup_empty.
    + rewrite !lookup_ge_None_2; [done|rewrite length_replicate; lia|rewrite length_load; lia].
  - intros i Hx. cbn [blks Block.memory]. rewrite Ho by (unfold apart in Ha; lia).
    rewrite (image_lost b') by (done || lia). unfold rd8, rd. by rewrite lookup_empty.
Qed.

End machine.

(** ** Instances: an image of one sector below the free frames, and one in them *)

(** Boot information at 0x1000 with the module "root", and its boot sector at [a]. *)
Definition image_at (a : Z) : mem :=
  let m := Mb2.poke32 (Mb2.poke32 (Mb2.poke32 ∅ 0x1000 0x28) 0x1008 Mb2.MB2_TAG_MODULE) 0x100C 24 in
  let m := Mb2.poke32 (Mb2.poke32 (Mb2.poke32 m 0x1010 a) 0x1014 (a + 512)) 0x1018 0x746F6F72 in
  let m := Mb2.poke32 (Mb2.poke32 m 0x1020 Mb2.MB2_TAG_END) 0x1024 8 in
  Mb2.poke32 (Mb2.poke32 (Mb2.poke32 m (a + 3) 0x41465845) (a + 7) 0x20202054) (a + 0x6C) 0x0109.

Definition demo_image_blk (a : Z) : Block.blk := Block.set_memory demo_blk (image_at a).

Lemma demo_image_fresh a : fresh 0x30000 0x20000 0x40000 0x10000 0x1000 demo_con (demo_image_blk a).
Proof. destruct demo_fresh. by constructor. Qed.

Lemma low_image : root_image 100 (image_at 0x50000) 0x1000 0x1008.
Proof. by constructor; vm_compute. Qed.

Lemma high_image : root_image 100 (image_at 0x1100000) 0x1000 0x1008.
Proof. by constructor; vm_compute. Qed.

Lemma setup_root_module_witness : exists k' w,
  sys_setup_root 0x30000 0x20000 0x40000 100 (image_at 0x50000) 0x1000
    (sys_at 0x30000 100 [] demo_con (demo_image_blk 0x50000) [] demo_thread (fun _ => 0xFFFFFFFF)) = Some k' /\
  Vfs.mname <$> Vfs.g_mounts (fsys k') = [str "dev"; str "root"] /\ Vfs.world (fsys k') = Some w.
Proof.
  destruct (setup_root_module 0x30000 0x20000 0x40000 100 0x10000 0x1000 demo_con (demo_image_blk 0x50000) [] demo_thread
    (fun _ => 0xFFFFFFFF) 0x1000 0x1008 (Exfat.MkFs (iso0 (image_at 0x50000) 0x1008) 0 0 0 512 1 512 0)
    (demo_image_fresh 0x50000) low_image) as (k' & w & E & Em & Ew & _).
  - apply low_in_use. vm_compute. discriminate.
  - left. vm_compute. discriminate.
  - left. vm_compute. discriminate.
  - vm_compute. reflexivity.
  - exists k', w. split; [exact E|]. split; [|exact Ew]. rewrite Em. reflexivity.
Defined.

Lemma module_overwritten_witness : exists k' w,
  sys_setup_root 0x30000 0x20000 0x40000 100 (image_at 0x1100000) 0x1000
    (sys_at 0x30000 100 [] demo_con (demo_image_blk 0x1100000) [] demo_thread (fun _ => 0xFFFFFFFF)) = Some k' /\
  Vfs.world (fsys k') = Some w /\
  contents (iso0 (image_at 0x1100000) 0x1008) (Block.memory (blks w)) = replicate 512 0.
Proof.
  destruct (module_overwritten 0x30000 0x20000 0x40000 100 0x10000 0x1000 demo_con (demo_image_blk 0x1100000) [] demo_thread
    (fun _ => 0xFFFFFFFF) 0x1000 0x1008 (demo_image_fresh 0x1100000) high_image demo_frames_run) as (k' & w & E & _ & Ew & Ec).
  - intros pa [_ _ [P1 P2] _]. cbn [Block.frames demo_image_blk Block.set_memory demo_blk Pmm.g_bitmap_base Pmm.g_bitmap_limit
      demo_frames Block.memory] in *. change (Mb2.mb2_mod_start _ 0x1008) with 0x1100000.
    change (image_size _ 0x1008) with 512. lia.
  - left. vm_compute. discriminate.
  - exists k', w. split; [exact E|]. split; [exact Ew|exact Ec].
Defined.

End BootModule.
