(* ===== verification/Loader.v ===== *)
(** * The loader ([src/loader32/loader.S], [src/kernel64/start64.S])

    The assembly between the boot loader and [kmain64]: it builds page tables for the
    first 4 GiB, switches the processor to 64-bit mode, finds the module that holds
    the kernel in the boot information and jumps to it; the kernel switches to its own
    stack and calls [kmain64].

    A labelled block is a definition; the registers it uses are its arguments, memory
    is a byte memory.  The instructions that can fault (segment loads, CR0, the far
    jump) follow the rules of the processor and have no result when they fault. *)

From stdpp Require Import strings.
From S2P Require Import Prelude Mb2 Console Terminal Serial.

Module Loader.

Import Terminal Serial.

(** ** The header of the executable *)

Definition MB2_HEADER_MAGIC : Z := 0xE85250D6.
Definition MB2_ARCH : Z := 0.
Definition MB2_LEN : Z := 24.
Definition MB2_CHECKSUM : Z := 0x17ADAF12.

(** The words of the section, with the end tag. *)
Definition multiboot2_header : list Z := [MB2_HEADER_MAGIC; MB2_ARCH; MB2_LEN; MB2_CHECKSUM; 0; 8].

(** ** Page tables *)

Section tables.
(** The address of the first table; the six are next to each other. *)
Context (pml4 : Z).

Definition pdpt : Z := pml4 + 4096.
Definition pd0 : Z := pdpt + 4096.
Definition pd1 : Z := pd0 + 4096.
Definition pd2 : Z := pd1 + 4096.
Definition pd3 : Z := pd2 + 4096.

(** [mov %eax, (%edi); mov %eax, 4(%edi); add $8, %edi; loop], with EAX = 0. *)
Fixpoint clear_loop (ecx : nat) (edi : Z) (m : mem) : mem :=
  match ecx with
  | O => m
  | S ecx' => clear_loop ecx' (u32 (edi + 8)) (wr32 (wr32 m edi 0) (u32 (edi + 4)) 0)
  end.

Definition clear_tables (m : mem) : mem :=
  let m := clear_loop 512 pml4 m in
  let m := clear_loop 512 pdpt m in
  let m := clear_loop 512 pd0 m in
  let m := clear_loop 512 pd1 m in
  let m := clear_loop 512 pd2 m in
  clear_loop 512 pd3 m.

(** An entry: its low half, and 0. *)
Definition set_entry (m : mem) (a eax : Z) : mem := wr32 (wr32 m a eax) (u32 (a + 4)) 0.

Definition link_tables (m : mem) : mem :=
  let m := set_entry m pml4 (Z.lor pdpt 0x3) in
  let m := set_entry m pdpt (Z.lor pd0 0x3) in
  let m := set_entry m (pdpt + 8) (Z.lor pd1 0x3) in
  let m := set_entry m (pdpt + 16) (Z.lor pd2 0x3) in
  set_entry m (pdpt + 24) (Z.lor pd3 0x3).

(** The directory chosen by EBX. *)
Definition pd_base (ebx : Z) : Z :=
  if ebx =? 0 then pd0 else if ebx =? 1 then pd1 else if ebx =? 2 then pd2 else pd3.

(** EAX is the physical address, ECX the index in the directory. *)
Fixpoint fill_pd_loop (fuel : nat) (eax ecx ebx : Z) (m : mem) : option mem :=
  match fuel with
  | O => None
  | S fuel' =>
      let edx := Z.lor eax 0x83 in
      let edi := u32 (pd_base ebx + ecx * 8) in
      let m := set_entry m edi edx in
      let eax := u32 (eax + 0x200000) in
      let ecx := u32 (ecx + 1) in
      let '(ecx, ebx) := if s32 ecx <? 512 then (ecx, ebx) else (0, u32 (ebx + 1)) in
      if s32 ebx <? 4 then fill_pd_loop fuel' eax ecx ebx m else Some m
  end.

Definition build_paging (m : mem) : option mem := fill_pd_loop 2048 0 0 0 (link_tables (clear_tables m)).

End tables.

(** ** The processor *)

Record cpu := Cpu { cr0 : Z; cr3 : Z; cr4 : Z; efer : Z; gdtr : Z * Z; cs : Z; ds : Z; es : Z; ss : Z }.

Definition set_gdtr (c : cpu) (x : Z * Z) : cpu := Cpu (cr0 c) (cr3 c) (cr4 c) (efer c) x (cs c) (ds c) (es c) (ss c).
Definition set_cs (c : cpu) (x : Z) : cpu := Cpu (cr0 c) (cr3 c) (cr4 c) (efer c) (gdtr c) x (ds c) (es c) (ss c).
Definition set_data (c : cpu) (x : Z) : cpu := Cpu (cr0 c) (cr3 c) (cr4 c) (efer c) (gdtr c) (cs c) x x x.
Definition set_control (c : cpu) (r0 r3 r4 e : Z) : cpu := Cpu r0 r3 r4 e (gdtr c) (cs c) (ds c) (es c) (ss c).

(** [lgdt]: a limit of 16 bits and a base of 32. *)
Definition lgdt (m : mem) (a : Z) (c : cpu) : cpu := set_gdtr c (rd32 m (a + 2), rd16 m a).

(** A descriptor inside the limit of the table. *)
Definition descriptor (m : mem) (c : cpu) (sel : Z) : option Z :=
  if sel + 7 <=? (gdtr c).2 then Some (rd64 m ((gdtr c).1 + sel)) else None.

(** Present, and not a system descriptor. *)
Definition usable (d : Z) : bool := Z.testbit d 47 && Z.testbit d 44.

(** The three data segment registers: a writable data segment. *)
Definition mov_data (m : mem) (sel : Z) (c : cpu) : option cpu :=
  d ← descriptor m c sel;
  if usable d && negb (Z.testbit d 43) && Z.testbit d 41 then Some (set_data c sel) else None.

Definition PG : Z := 31.
Definition PE : Z := 0.
Definition PAE : Z := 5.
Definition LME : Z := 8.
Definition LMA : Z := 10.

(** Paging needs protected mode, and PAE if long mode is enabled, which is then active. *)
Definition mov_cr0 (v : Z) (c : cpu) : option cpu :=
  if Z.testbit v PG then
    if negb (Z.testbit v PE) then None
    else if Z.testbit (efer c) LME then
      if Z.testbit (cr4 c) PAE then Some (set_control c v (cr3 c) (cr4 c) (Z.setbit (efer c) LMA)) else None
    else Some (set_control c v (cr3 c) (cr4 c) (efer c))
  else Some (set_control c v (cr3 c) (cr4 c) (efer c)).

(** A far jump to a code segment. *)
Definition ljmp (m : mem) (sel : Z) (c : cpu) : option cpu :=
  d ← descriptor m c sel;
  if usable d && Z.testbit d 43 then Some (set_cs c sel) else None.

(** 64-bit mode: long mode is active and the code segment has L without D. *)
Definition mode64 (m : mem) (c : cpu) : bool :=
  Z.testbit (efer c) LMA &&
  match descriptor m c (cs c) with Some d => Z.testbit d 53 && negb (Z.testbit d 54) | None => false end.

(** ** The entry, in 32-bit mode *)

Section loader.
(** The addresses of the tables, of the saved pointer, of the descriptor of the GDT and of
    the stack, and the address after the call of [build_paging]. *)
Context (pml4 mb2_ptr gdt_desc stack32_top after_build : Z).

(** [_start], up to the far jump. *)
Definition start (ebx : Z) (c : cpu) (m : mem) : option (cpu * mem) :=
  let m := wr32 m mb2_ptr ebx in
  let c := lgdt m gdt_desc c in
  c ← mov_data m 0x10 c;
  let esp := u32 (stack32_top - 4) in
  m ← build_paging pml4 (wr32 m esp after_build);
  if negb (rd32 m esp =? after_build) then None else
  let c := set_control c (cr0 c) (cr3 c) (Z.lor (cr4 c) 0x20) (efer c) in
  let c := set_control c (cr0 c) pml4 (cr4 c) (efer c) in
  let c := set_control c (cr0 c) (cr3 c) (cr4 c) (Z.lor (efer c) 0x100) in
  c ← mov_cr0 (Z.lor (cr0 c) 0x80000001) c;
  c ← ljmp m 0x08 c;
  Some (c, m).

(** ** The search for the kernel, in 64-bit mode *)

(** The loop over the tags: RBX is the base, EAX the total size, ECX the offset.  The
    result is the tag of the first module, if there is one. *)
Fixpoint find_tag (fuel : nat) (m : mem) (rbx eax ecx : Z) : option (option Z) :=
  match fuel with
  | O => None
  | S fuel' =>
      if s32 eax <=? s32 ecx then Some None
      else
        let r15 := u64 (rbx + ecx) in
        let r8d := rd32 m r15 in
        let r9d := rd32 m (r15 + 4) in
        if r8d =? 3 then Some (Some r15)
        else
          let r10d := Z.land (u32 (r9d + 7)) (u32 (Z.lnot 7)) in
          find_tag fuel' m rbx eax (u32 (ecx + r10d))
  end.

(** Where the loader goes: to the kernel, with RDI and RSP, or to [no_module], with RAX. *)
Inductive outcome :=
  | Jump (rip rdi rsp : Z)
  | NoModule (rax : Z).

Definition long_mode_entry (stack64_top : Z) (fuel : nat) (c : cpu) (m : mem) : option (cpu * outcome) :=
  c ← mov_data m 0x10 c;
  let rsp := stack64_top in
  let rdi := rd64 m mb2_ptr in
  let eax := rd32 m rdi in
  r ← find_tag fuel m rdi eax 8;
  Some (c, match r with
           | Some r15 => Jump (rd32 m (r15 + 8)) rdi rsp
           | None => NoModule eax
           end).

(** The whole loader. *)
Definition loader (stack64_top : Z) (fuel : nat) (ebx : Z) (c : cpu) (m : mem) : option (cpu * mem * outcome) :=
  '(c, m) ← start ebx c m;
  '(c, o) ← long_mode_entry stack64_top fuel c m;
  Some (c, m, o).

End loader.

(** ** The message without a module *)

Section messages.
Context `{HP : Ports P}.

(** The registers, the words on the stack and the serial controller. *)
Record regs := Regs { rax : Z; rdx : Z; rsi : Z; stack : list Z; port : P }.

Definition push (v : Z) (r : regs) : regs := Regs (rax r) (rdx r) (rsi r) (v :: stack r) (port r).
Definition pop (r : regs) : option (Z * regs) :=
  match stack r with
  | [] => None
  | v :: s => Some (v, Regs (rax r) (rdx r) (rsi r) s (port r))
  end.

Definition set_rax (r : regs) (v : Z) : regs := Regs v (rdx r) (rsi r) (stack r) (port r).
Definition set_rdx (r : regs) (v : Z) : regs := Regs (rax r) v (rsi r) (stack r) (port r).
Definition set_rsi (r : regs) (v : Z) : regs := Regs (rax r) (rdx r) v (stack r) (port r).
Definition set_port (r : regs) (p : P) : regs := Regs (rax r) (rdx r) (rsi r) (stack r) p.

(** AL and DX are parts of RAX and RDX. *)
Definition set_al (r : regs) (v : Z) : regs := set_rax r (rax r / 2^8 * 2^8 + u8 v).
Definition set_dx (r : regs) (v : Z) : regs := set_rdx r (rdx r / 2^16 * 2^16 + u16 v).

(** Seven bytes to the controller, as in [serial_init32]; the last leaves 0x0B in AL. *)
Definition serial_init64 (r : regs) : option (Z * regs) :=
  pop (set_al (set_dx (set_port r (serial_setup 1 (port r))) 0x3FC) 0x0B).

(** [in], [test], [jz]: until the transmitter is empty. *)
Fixpoint wait_tx (fuel : nat) (r : regs) : option regs :=
  match fuel with
  | O => None
  | S fuel' =>
      let r := set_dx r 0x3FD in
      let '(v, p) := inb COM_LSR (port r) in
      let r := set_al (set_port r p) v in
      if Z.land (rax r) 0x20 =? 0 then wait_tx fuel' r else Some r
  end.

(** A routine results in the address that its [ret] takes from the stack. *)
Definition serial_putc64 (fuel : nat) (r : regs) : option (Z * regs) :=
  let r := push (rax r) (push (rdx r) r) in
  r ← wait_tx fuel r;
  let r := set_dx r 0x3F8 in
  '(v, r) ← pop r;
  let r := set_rax r v in
  let r := set_port r (outb COM1_BASE (u8 (rax r)) (port r)) in
  '(v, r) ← pop r;
  let r := set_rdx r v in
  pop r.

(** [back] is the address after the call of [serial_putc64], [n] a bound on the bytes. *)
Fixpoint puts_loop (fuel n : nat) (m : mem) (back : Z) (r : regs) : option (Z * regs) :=
  match n with
  | O => None
  | S n' =>
      let r := set_rsi (set_al r (rd8 m (rsi r))) (rsi r + 1) in
      if u8 (rax r) =? 0 then
        '(v, r) ← pop r;
        pop (set_rsi r v)
      else
        let r := push (rax r) r in
        '(rip, r) ← serial_putc64 fuel (push back r);
        if rip =? back then puts_loop fuel n' m back r else None
  end.

Definition serial_puts64 (fuel n : nat) (m : mem) (back : Z) (r : regs) : option (Z * regs) :=
  puts_loop fuel n m back (push (rsi r) r).

(** The routine for 32-bit mode takes its text from the stack, with its own push on top. *)
Definition serial_puts32 (fuel n : nat) (m : mem) (back : Z) (r : regs) : option (Z * regs) :=
  let r := push (rsi r) r in
  v ← stack r !! 1%nat;
  puts_loop fuel n m back (set_rsi r v).

(** [no_module]: [after_init] and [halt] are the addresses after its two calls; the
    result is the address that the second call returns to. *)
Definition no_module (fuel n : nat) (m : mem) (msg after_init halt back : Z) (r : regs) : option (Z * regs) :=
  '(rip, r) ← serial_init64 (push after_init r);
  if rip =? after_init then serial_puts64 fuel n m back (push halt (set_rsi r msg)) else None.

(** ** The test loader ([src/loader32/loader_simple.S]) *)

Definition simple_start (p : P) : P :=
  let p := outb 0x3F8 65 p in
  let p := outb 0x3F8 66 p in
  let p := outb 0x3F8 67 p in
  outb 0x3F8 10 p.

End messages.

Definition msg_no_module : list Z := str "[loader32] no module found" ++ [10].

(** ** The entry of the kernel *)

(** [kstart64]: the display with a marker, and RSP when [kmain64] is entered. *)
Definition kstart64 (kstack_top : Z) (d : Console.display) : Console.display * Z :=
  let rsp := kstack_top in
  let rsp := u64 (rsp - 8) in
  let d := Console.Display (wr (Console.screen d) 0xB8000 0x0F4B) (Console.hw_cursor d) in
  (d, u64 (rsp - 8)).

End Loader.
