(* ===== verification/LoaderProps.v ===== *)
(** * What the loader leaves ([src/loader32/loader.S])

    The page tables translate every address of the first 4 GiB to itself, the processor
    is in 64-bit mode, and control goes to the first module, with the boot information
    untouched; the rest of the boot starts from there. *)

From stdpp Require Import strings.
From S2P Require Import Prelude Mb2 Pmm PmmSpec PmmInit FrameAlloc Vmm VmmSpec Kmalloc KmallocSpec KmallocProps Mem.
From S2P Require Import Sched Block BlockSpec BlockProps Devfs DevfsSpec Exfat Vfs.
From S2P Require Import Console ConsoleSpec ConsoleProps Pci Progress Terminal Shell ShellCmd ShellProps.
From S2P Require Import Kmain Device System SystemProps Serial Boot BootProps Loader.

Module LoaderProps.

Import DevfsSpec Loader Boot.

(** ** Entries of the tables *)

Lemma same_outside_trans a n m1 m2 m3 : same_outside a n m1 m2 -> same_outside a n m2 m3 -> same_outside a n m1 m3.
Proof. intros H1 H2 x Hx. by rewrite H2, H1. Qed.

Lemma same_outside_more a n b k m m' : a <= b -> b + k <= a + n -> same_outside b k m m' -> same_outside a n m m'.
Proof. intros H1 H2 H x Hx. apply H. lia. Qed.

Lemma set_entry_outside m a v : 0 <= a -> a + 8 < 2^32 -> same_outside a 8 m (set_entry m a v).
Proof. intros H1 H2 x Hx. unfold set_entry. rewrite u32_small by lia. by rewrite !rd8_wr32_ne by lia. Qed.

Lemma rd64_same a n m m' b : same_outside a n m m' -> apart b 8 a n -> rd64 m' b = rd64 m b.
Proof. intros H Ha. apply rd64_ext. intros i Hi. apply H. unfold apart in Ha. lia. Qed.

Lemma rd32_same a n m m' b : same_outside a n m m' -> apart b 4 a n -> rd32 m' b = rd32 m b.
Proof. intros H Ha. apply rd32_ext. intros i Hi. apply H. unfold apart in Ha. lia. Qed.

Lemma rd64_set_eq m a v : 0 <= a -> a + 8 < 2^32 -> 0 <= v < 2^32 -> rd64 (set_entry m a v) a = v.
Proof.
  intros H1 H2 Hv. unfold set_entry, rd64. rewrite u32_small by lia. rewrite (rd32_wr32 _ (a + 4)) by lia.
  rewrite (rd32_ext (wr32 m a v) _ a a), rd32_wr32 by (done || (intros i Hi; apply rd8_wr32_ne; lia)). lia.
Qed.

Lemma rd64_set_ne m a v b : 0 <= a -> a + 8 < 2^32 -> apart b 8 a 8 -> rd64 (set_entry m a v) b = rd64 m b.
Proof. intros H1 H2 Ha. by apply (rd64_same a 8); [apply set_entry_outside|]. Qed.

(** ** Clearing *)

Lemma rd8_wr32_0 m a x : rd8 (wr32 m a 0) x = if inb a 4 x then 0 else rd8 m x.
Proof.
  rewrite rd8_wr32. change (u8 (0 / 2^16 / 2^8)) with 0. change (u8 (0 / 2^16)) with 0. change (u8 (0 / 2^8)) with 0.
  change (u8 0) with 0. destruct (Z.eqb_spec (a + 3) x), (Z.eqb_spec (a + 2) x), (Z.eqb_spec (a + 1) x), (Z.eqb_spec a x);
    inb_cases; lia || done.
Qed.

Lemma clear_loop_spec n : forall edi m x, 0 <= edi -> edi + 8 * Z.of_nat n < 2^32 ->
  rd8 (clear_loop n edi m) x = if inb edi (8 * Z.of_nat n) x then 0 else rd8 m x.
Proof.
  induction n as [|n IH]; intros edi m x H1 H2; cbn [clear_loop].
  - inb_cases; [lia|done].
  - rewrite !u32_small by lia. rewrite IH by lia. rewrite !rd8_wr32_0. inb_cases; lia || done.
Qed.

Section tables.
Context (pml4 : Z) (Hlo : 0 <= pml4) (Hal : pml4 mod 4096 = 0) (Hhi : pml4 + 24576 < 2^32).

Lemma clear_tables_spec m x : rd8 (clear_tables pml4 m) x = if inb pml4 24576 x then 0 else rd8 m x.
Proof.
  unfold clear_tables, pd3, pd2, pd1, pd0, pdpt. rewrite !clear_loop_spec by lia. change (8 * Z.of_nat 512) with 4096.
  inb_cases; lia || done.
Qed.

(** ** Linking *)

Lemma with_flags a : a mod 4096 = 0 -> Z.lor a 0x3 = a + 3.
Proof. intros Hm. by rewrite (lor_add a 3 12) by (done || lia). Qed.

(** The tables: one entry in the first, four in the second, and 2048 pages of 2 MiB. *)
Record identity_tables (m : mem) : Prop := IdentityTables {
  it_pml4 i : 0 <= i < 512 -> rd64 m (pml4 + 8 * i) = if i =? 0 then pdpt pml4 + 3 else 0;
  it_pdpt i : 0 <= i < 512 -> rd64 m (pdpt pml4 + 8 * i) = if i <? 4 then pd0 pml4 + 4096 * i + 3 else 0;
  it_pd i : 0 <= i < 2048 -> rd64 m (pd0 pml4 + 8 * i) = i * 2^21 + 0x83
}.

Lemma rd64_zero m a : (forall i, 0 <= i < 8 -> rd8 m (a + i) = 0) -> rd64 m a = 0.
Proof.
  intros H. rewrite (rd64_ext ∅ m a 0); [done|]. intros i Hi. rewrite H by done. unfold rd8, rd. by rewrite lookup_empty.
Qed.

Lemma link_tables_outside m : same_outside pml4 8192 m (link_tables pml4 m).
Proof.
  unfold link_tables, pd3, pd2, pd1, pd0, pdpt.
  do 4 (eapply same_outside_trans; [|eapply same_outside_more; [..|apply set_entry_outside]; lia]).
  eapply same_outside_more; [..|apply set_entry_outside]; lia.
Qed.

Lemma link_tables_entry m a : apart a 8 pml4 8 -> apart a 8 (pdpt pml4) 32 -> rd64 (link_tables pml4 m) a = rd64 m a.
Proof. unfold link_tables, apart, pdpt. intros H1 H2. rewrite !rd64_set_ne by (unfold apart; lia). done. Qed.

Lemma link_tables_pml4 m : rd64 (link_tables pml4 m) pml4 = pdpt pml4 + 3.
Proof.
  unfold link_tables, pdpt. rewrite (with_flags (pml4 + 4096)) by zmod.
  rewrite !rd64_set_ne by (unfold apart; lia). apply rd64_set_eq; lia.
Qed.

Lemma link_tables_pdpt m i : 0 <= i < 4 -> rd64 (link_tables pml4 m) (pdpt pml4 + 8 * i) = pd0 pml4 + 4096 * i + 3.
Proof.
  intros Hi. unfold link_tables, pd3, pd2, pd1, pd0, pdpt.
  rewrite !with_flags by zmod.
  assert (i = 0 \/ i = 1 \/ i = 2 \/ i = 3) as [->|[->|[->| ->]]] by lia;
    rewrite ?Z.mul_0_r, ?Z.add_0_r, ?Z.mul_1_r; change (8 * 2) with 16; change (8 * 3) with 24;
    rewrite ?rd64_set_ne by (unfold apart; lia); rewrite rd64_set_eq by lia; lia.
Qed.

(** ** Filling *)

Lemma pd_base_eq e : 0 <= e < 2048 -> pd_base pml4 (e / 512) + e mod 512 * 8 = pd0 pml4 + 8 * e.
Proof.
  intros He. unfold pd_base, pd3, pd2, pd1.
  destruct (Z.eqb_spec (e / 512) 0), (Z.eqb_spec (e / 512) 1), (Z.eqb_spec (e / 512) 2); zmod.
Qed.

(** The loop from entry [e]: [k] entries are left. *)
Lemma fill_pd_spec k : forall e m, 0 <= e -> e + Z.of_nat k = 2048 -> (0 < k)%nat -> exists m',
  fill_pd_loop pml4 k (e * 2^21) (e mod 512) (e / 512) m = Some m' /\
  same_outside (pd0 pml4 + 8 * e) (8 * Z.of_nat k) m m' /\
  forall i, e <= i < 2048 -> rd64 m' (pd0 pml4 + 8 * i) = i * 2^21 + 0x83.
Proof.
  assert (Hpd : pd0 pml4 = pml4 + 8192) by (unfold pd0, pdpt; lia).
  induction k as [|k IH]; intros e m He Hk Hpos; [lia|]. cbn [fill_pd_loop].
  rewrite pd_base_eq, (u32_small (pd0 pml4 + 8 * e)) by lia.
  rewrite (lor_add (e * 2^21) 0x83 21) by (lia || zmod).
  set (m1 := set_entry _ _ _). assert (Ho : same_outside (pd0 pml4 + 8 * e) 8 m m1) by (apply set_entry_outside; lia).
  assert (E1 : rd64 m1 (pd0 pml4 + 8 * e) = e * 2^21 + 0x83) by (apply rd64_set_eq; lia).
  rewrite (u32_small (e mod 512 + 1)), s32_small by zmod.
  assert (En : (if e mod 512 + 1 <? 512 then (e mod 512 + 1, e / 512) else (0, u32 (e / 512 + 1)))
    = ((e + 1) mod 512, (e + 1) / 512)).
  { destruct (Z.ltb_spec (e mod 512 + 1) 512); [|rewrite u32_small by zmod]; f_equal; zmod. }
  rewrite En, s32_small by zmod. destruct (Z.ltb_spec ((e + 1) / 512) 4) as [Hlt|Hge].
  - rewrite u32_small by zmod. replace (e * 2^21 + 0x200000) with ((e + 1) * 2^21) by lia.
    destruct (IH (e + 1) m1) as (m' & E & Hs & Hi); [lia|lia|zmod|]. exists m'. split; [exact E|]. split.
    + apply (same_outside_trans _ _ _ m1); [by eapply same_outside_more; [..|exact Ho]; lia|].
      eapply same_outside_more; [..|exact Hs]; lia.
    + intros i Hi'. destruct (decide (i = e)) as [->|]; [|apply Hi; lia]. rewrite <- E1. apply (rd64_same _ _ _ _ _ Hs).
      unfold apart. lia.
  - exists m1. split; [done|]. split; [by eapply same_outside_more; [..|exact Ho]; lia|].
    intros i Hi. replace i with e by zmod. exact E1.
Qed.

Lemma build_paging_spec m : exists m', build_paging pml4 m = Some m' /\ same_outside pml4 24576 m m' /\ identity_tables m'.
Proof.
  unfold build_paging. set (m1 := clear_tables pml4 m). set (m2 := link_tables pml4 m1).
  destruct (fill_pd_spec 2048 0 m2) as (m' & E & Hs & Hp); [lia|lia|lia|]. exists m'. split; [exact E|].
  assert (Hz : forall a, pml4 <= a -> a + 8 <= pml4 + 24576 -> rd64 m1 a = 0).
  { intros a H1 H2. apply rd64_zero. intros i Hi. unfold m1. rewrite clear_tables_spec. inb_cases; [done|lia]. }
  assert (Hk : forall a, a + 8 <= pml4 + 8192 -> rd64 m' a = rd64 m2 a).
  { intros a Ha. apply (rd64_same _ _ _ _ _ Hs). left. unfold pd0, pdpt. lia. }
  split.
  - intros x Hx. rewrite Hs by (unfold pd0, pdpt; lia). unfold m2. rewrite link_tables_outside by lia.
    unfold m1. rewrite clear_tables_spec. inb_cases; [lia|done].
  - constructor; intros i Hi.
    + rewrite Hk by lia. unfold m2. destruct (Z.eqb_spec i 0) as [->|].
      * rewrite Z.add_0_r. apply link_tables_pml4.
      * rewrite link_tables_entry by (unfold apart, pdpt; lia). apply Hz; lia.
    + rewrite Hk by (unfold pdpt; lia). unfold m2. destruct (Z.ltb_spec i 4); [apply link_tables_pdpt; lia|].
      rewrite link_tables_entry by (unfold apart, pdpt; lia). apply Hz; unfold pdpt; lia.
    + by apply Hp.
Qed.

End tables.

#[local] Opaque build_paging.

(** ** Translation *)

(** The address field of an entry: bits [k] to 51. *)
Definition entry_addr (k e : Z) : Z := e / 2^k mod 2^(52 - k) * 2^k.

(** How the processor translates [va] with four levels of tables; an entry with bit 7
    in the second or third maps a large page. *)
Definition walk (m : mem) (root va : Z) : option Z :=
  let e4 := rd64 m (entry_addr 12 root + 8 * (va / 2^39 mod 512)) in
  if negb (Z.testbit e4 0) then None else
  let e3 := rd64 m (entry_addr 12 e4 + 8 * (va / 2^30 mod 512)) in
  if negb (Z.testbit e3 0) then None else
  if Z.testbit e3 7 then Some (entry_addr 30 e3 + va mod 2^30) else
  let e2 := rd64 m (entry_addr 12 e3 + 8 * (va / 2^21 mod 512)) in
  if negb (Z.testbit e2 0) then None else
  if Z.testbit e2 7 then Some (entry_addr 21 e2 + va mod 2^21) else
  let e1 := rd64 m (entry_addr 12 e2 + 8 * (va / 2^12 mod 512)) in
  if negb (Z.testbit e1 0) then None else Some (entry_addr 12 e1 + va mod 2^12).

Lemma entry_addr_table a : 0 <= a < 2^32 -> a mod 4096 = 0 -> entry_addr 12 (a + 3) = a /\ entry_addr 12 a = a /\
  Z.testbit (a + 3) 0 = true /\ Z.testbit (a + 3) 7 = false.
Proof.
  intros Ha Hm. unfold entry_addr. change (2^(52 - 12)) with (2^40). change (2^12) with 4096. split_and!; [zmod|zmod| |].
  - rewrite <- (lor_add a 3 12) by (done || lia). rewrite Z.lor_spec. by rewrite orb_true_r.
  - rewrite <- (lor_add a 3 12) by (done || lia). rewrite Z.lor_spec. change (Z.testbit 3 7) with false.
    rewrite orb_false_r. replace a with (Z.shiftl (a / 4096) 12) by (rewrite Z.shiftl_mul_pow2 by lia; zmod).
    apply Z.shiftl_spec_low. lia.
Qed.

Lemma entry_addr_page i : 0 <= i < 2048 -> entry_addr 21 (i * 2^21 + 0x83) = i * 2^21 /\
  Z.testbit (i * 2^21 + 0x83) 0 = true /\ Z.testbit (i * 2^21 + 0x83) 7 = true.
Proof.
  intros Hi. unfold entry_addr. change (2^(52 - 21)) with (2^31). split; [zmod|].
  rewrite <- (lor_add (i * 2^21) 0x83 21) by (lia || zmod). rewrite !Z.lor_spec. by rewrite !orb_true_r.
Qed.

Lemma walk_identity pml4 m va : 0 <= pml4 -> pml4 mod 4096 = 0 -> pml4 + 24576 < 2^32 -> identity_tables pml4 m ->
  0 <= va < 2^48 -> walk m pml4 va = if va <? 2^32 then Some va else None.
Proof.
  intros H1 H2 H3 [T4 T3 T2] Hva. unfold walk, pd0, pdpt in *.
  destruct (entry_addr_table pml4) as (_ & -> & _); [lia|done|]. rewrite T4 by zmod.
  destruct (entry_addr_table (pml4 + 4096)) as (A3 & _ & B3 & _); [lia|zmod|].
  destruct (Z.eqb_spec (va / 2^39 mod 512) 0) as [E4|E4].
  - rewrite B3. cbn [negb]. rewrite A3, T3 by zmod. destruct (Z.ltb_spec (va / 2^30 mod 512) 4) as [E3|E3].
    + set (i3 := va / 2^30 mod 512) in *. assert (Hi3 : 0 <= i3 < 4) by (unfold i3 in *; zmod).
      destruct (entry_addr_table (pml4 + 4096 + 4096 + 4096 * i3)) as (A2 & _ & B2 & C2); [lia|zmod|].
      rewrite B2, C2, A2. cbn [negb]. set (i := i3 * 512 + va / 2^21 mod 512).
      replace (pml4 + 4096 + 4096 + 4096 * i3 + 8 * (va / 2^21 mod 512)) with (pml4 + 4096 + 4096 + 8 * i) by (unfold i; lia).
      assert (Hi : 0 <= i < 2048) by (unfold i; zmod). rewrite T2 by exact Hi.
      destruct (entry_addr_page i Hi) as (A1 & B1 & C1). rewrite B1, C1, A1. cbn [negb].
      assert (va < 2^32) by (unfold i3 in *; zmod). rewrite (proj2 (Z.ltb_lt _ _)) by done. f_equal. unfold i, i3. zmod.
    + rewrite (proj2 (Z.ltb_ge va (2^32))) by zmod. done.
  - cbn. rewrite (proj2 (Z.ltb_ge va (2^32))) by zmod. done.
Qed.

(** ** The switch to 64-bit mode *)

(** The image of the loader in memory: the tables, the saved pointer with a zero high
    half, the stack, and the GDT with its descriptor, apart from each other. *)
Record layout (pml4 mb2_ptr gdt_desc stack32_top gdt : Z) (m : mem) : Prop := Layout {
  ly_tables : 0 <= pml4 /\ pml4 mod 4096 = 0 /\ pml4 + 24576 < 2^32;
  ly_ptr : apart mb2_ptr 8 pml4 24576 /\ rd32 m (mb2_ptr + 4) = 0;
  ly_desc : apart gdt_desc 6 mb2_ptr 8 /\ rd16 m gdt_desc = 29 /\ rd32 m (gdt_desc + 2) = gdt;
  ly_gdt : apart gdt 24 mb2_ptr 8 /\ apart gdt 24 pml4 24576 /\ apart gdt 24 (stack32_top - 4) 4;
  ly_stack : 4 <= stack32_top < 2^32 /\ apart (stack32_top - 4) 4 pml4 24576 /\ apart (stack32_top - 4) 4 mb2_ptr 8;
  ly_code : rd64 m (gdt + 8) = 0x00AF9A000000FFFF;
  ly_data : rd64 m (gdt + 16) = 0x00CF92000000FFFF
}.

(** The loader writes the tables, the pointer and a return address. *)
Definition loader_writes (pml4 mb2_ptr stack32_top : Z) (m m' : mem) : Prop :=
  forall x, ~ pml4 <= x < pml4 + 24576 -> ~ mb2_ptr <= x < mb2_ptr + 4 -> ~ stack32_top - 4 <= x < stack32_top ->
    rd8 m' x = rd8 m x.

(** 64-bit mode with paging and the data segments of the GDT. *)
Record long_mode (pml4 : Z) (m : mem) (c : cpu) : Prop := LongMode {
  lm_mode : mode64 m c = true;
  lm_paging : Z.testbit (cr0 c) PG = true /\ Z.testbit (cr0 c) PE = true /\ Z.testbit (cr4 c) PAE = true;
  lm_root : cr3 c = pml4;
  lm_gdt : descriptor m c 0x10 = Some 0x00CF92000000FFFF;
  lm_data : ds c = 0x10 /\ es c = 0x10 /\ ss c = 0x10
}.

Lemma descriptor_in m c sel : sel + 7 <= (gdtr c).2 -> descriptor m c sel = Some (rd64 m ((gdtr c).1 + sel)).
Proof. intros H. unfold descriptor. by rewrite (proj2 (Z.leb_le _ _)). Qed.

Lemma mov_data_ok m sel c : sel + 7 <= (gdtr c).2 -> rd64 m ((gdtr c).1 + sel) = 0x00CF92000000FFFF ->
  mov_data m sel c = Some (set_data c sel).
Proof. intros H E. unfold mov_data. rewrite descriptor_in, E by done. reflexivity. Qed.

Lemma ljmp_ok m sel c : sel + 7 <= (gdtr c).2 -> rd64 m ((gdtr c).1 + sel) = 0x00AF9A000000FFFF ->
  ljmp m sel c = Some (set_cs c sel).
Proof. intros H E. unfold ljmp. rewrite descriptor_in, E by done. reflexivity. Qed.

Lemma mov_cr0_ok c r0 : Z.testbit (efer c) LME = true -> Z.testbit (cr4 c) PAE = true ->
  mov_cr0 (Z.lor r0 0x80000001) c
    = Some (set_control c (Z.lor r0 0x80000001) (cr3 c) (cr4 c) (Z.setbit (efer c) LMA)).
Proof.
  intros H1 H2. unfold mov_cr0. rewrite !Z.lor_spec, H1, H2. change (Z.testbit 0x80000001 PG) with true.
  change (Z.testbit 0x80000001 PE) with true. by rewrite !orb_true_r.
Qed.

(** The processor at the end of [start]. *)
Definition started (c : cpu) (pml4 gdt : Z) : cpu :=
  Cpu (Z.lor (cr0 c) 0x80000001) pml4 (Z.lor (cr4 c) 0x20) (Z.setbit (Z.lor (efer c) 0x100) LMA) (gdt, 29) 8 0x10 0x10 0x10.

Lemma started_long_mode c pml4 gdt m : rd64 m (gdt + 8) = 0x00AF9A000000FFFF -> rd64 m (gdt + 16) = 0x00CF92000000FFFF ->
  long_mode pml4 m (started c pml4 gdt).
Proof.
  intros Ec Ed. constructor; unfold mode64, started; cbn [efer cr0 cr3 cr4 cs ds es ss gdtr].
  - rewrite descriptor_in by (cbn; lia). cbn [gdtr fst]. rewrite Ec, Z.setbit_eq by (unfold LMA; lia). reflexivity.
  - rewrite !Z.lor_spec. change (Z.testbit 0x80000001 PG) with true. change (Z.testbit 0x80000001 PE) with true.
    change (Z.testbit 0x20 PAE) with true. by rewrite !orb_true_r.
  - reflexivity.
  - rewrite descriptor_in by (cbn; lia). cbn [gdtr fst]. by rewrite Ed.
  - done.
Qed.

(** The instructions of [start]: [m1] has the saved pointer, [m2] the tables. *)
Lemma start_steps pml4 mb2_ptr gdt_desc stack32_top after_build gdt ebx c m m2 :
  let m1 := wr32 m mb2_ptr ebx in let esp := u32 (stack32_top - 4) in
  rd16 m1 gdt_desc = 29 -> rd32 m1 (gdt_desc + 2) = gdt -> rd64 m1 (gdt + 16) = 0x00CF92000000FFFF ->
  build_paging pml4 (wr32 m1 esp after_build) = Some m2 -> rd32 m2 esp = after_build -> rd64 m2 (gdt + 8) = 0x00AF9A000000FFFF ->
  start pml4 mb2_ptr gdt_desc stack32_top after_build ebx c m = Some (started c pml4 gdt, m2).
Proof.
  intros m1 esp D1 D2 Gd E Er Gc. set (c1 := set_gdtr c (gdt, 29)).
  assert (H1 : lgdt m1 gdt_desc c = c1) by (unfold lgdt; by rewrite D1, D2).
  assert (H2 : mov_data m1 0x10 c1 = Some (set_data c1 0x10)) by (apply mov_data_ok; [cbn; lia|exact Gd]).
  set (c2 := set_control (set_data c1 0x10) (cr0 c) pml4 (Z.lor (cr4 c) 0x20) (Z.lor (efer c) 0x100)).
  assert (H3 : mov_cr0 (Z.lor (cr0 c2) 0x80000001) c2
    = Some (set_control c2 (Z.lor (cr0 c) 0x80000001) pml4 (cr4 c2) (Z.setbit (efer c2) LMA))).
  { apply mov_cr0_ok; unfold c2; cbn [efer cr4 set_control]; rewrite Z.lor_spec; apply orb_true_r. }
  assert (H4 : ljmp m2 0x08 (set_control c2 (Z.lor (cr0 c) 0x80000001) pml4 (cr4 c2) (Z.setbit (efer c2) LMA))
    = Some (started c pml4 gdt)) by (rewrite ljmp_ok; [reflexivity|cbn; lia|exact Gc]).
  unfold start. fold m1. fold esp. rewrite H1. apply (bind_step _ _ _ _ H2). apply (bind_step _ _ _ _ E).
  rewrite Er, Z.eqb_refl. apply (bind_step _ _ _ _ H3). exact (bind_step _ _ _ _ H4 eq_refl).
Qed.

Lemma start_spec pml4 mb2_ptr gdt_desc stack32_top after_build gdt ebx c m : layout pml4 mb2_ptr gdt_desc stack32_top gdt m ->
  0 <= ebx < 2^32 -> 0 <= after_build < 2^32 ->
  exists c' m', start pml4 mb2_ptr gdt_desc stack32_top after_build ebx c m = Some (c', m') /\ long_mode pml4 m' c' /\
    identity_tables pml4 m' /\ rd64 m' mb2_ptr = ebx /\ loader_writes pml4 mb2_ptr stack32_top m m'.
Proof.
  intros [(T1 & T2 & T3) (P1 & P2) (D1 & D2 & D3) (G1 & G2 & G3) (K1 & K2 & K3) Gc Gd] Hebx Hret. unfold apart in *.
  pose proof (start_steps pml4 mb2_ptr gdt_desc stack32_top after_build gdt ebx c m) as Hsteps. cbn zeta in Hsteps.
  rewrite u32_small in Hsteps by lia. set (m1 := wr32 m mb2_ptr ebx) in *.
  set (m1' := wr32 m1 (stack32_top - 4) after_build) in *.
  assert (H1 : same_outside mb2_ptr 4 m m1) by (intros x Hx; by apply rd8_wr32_ne).
  assert (E1 : rd32 m1 mb2_ptr = ebx) by (by apply rd32_wr32).
  assert (H1' : same_outside (stack32_top - 4) 4 m1 m1') by (intros x Hx; by apply rd8_wr32_ne).
  assert (E1' : rd32 m1' (stack32_top - 4) = after_build) by (by apply rd32_wr32). clearbody m1 m1'.
  destruct (build_paging_spec pml4 T1 T2 T3 m1') as (m2 & E & H2 & Ht).
  assert (Hw : loader_writes pml4 mb2_ptr stack32_top m m2)
    by (intros x X1 X2 X3; rewrite H2 by exact X1; rewrite H1' by lia; by apply H1).
  assert (Ec : rd64 m2 (gdt + 8) = 0x00AF9A000000FFFF).
  { rewrite <- Gc. apply rd64_ext. intros i Hi. apply Hw; lia. }
  exists (started c pml4 gdt), m2. split; [|split; [|split; [exact Ht|split; [|exact Hw]]]].
  - apply Hsteps; [| | |exact E| |exact Ec].
    + rewrite <- D2. apply rd16_ext; apply H1; lia.
    + rewrite <- D3. apply rd32_ext. intros i Hi. apply H1. lia.
    + rewrite <- Gd. apply rd64_ext. intros i Hi. apply H1. lia.
    + rewrite <- E1'. apply (rd32_same _ _ _ _ _ H2). unfold apart. lia.
  - apply started_long_mode; [exact Ec|]. rewrite <- Gd. apply rd64_ext. intros i Hi. apply Hw; lia.
  - unfold rd64. rewrite (rd32_ext m m2 (mb2_ptr + 4) (mb2_ptr + 4)) by (intros i Hi; apply Hw; lia). rewrite P2.
    rewrite (rd32_ext m1 m2 mb2_ptr mb2_ptr); [rewrite E1; lia|]. intros i Hi. rewrite H2 by lia. apply H1'. lia.
Qed.

(** ** The boot information *)

(** The tags from [t] on are [ts], each inside [.. stop), and the end tag is the last. *)
Fixpoint laid_out (m : mem) (stop t : Z) (ts : list Z) : Prop :=
  match ts with
  | [] => Mb2.tag_type m t = Mb2.MB2_TAG_END /\ Mb2.tag_size m t = 8 /\ t + 8 = stop
  | x :: ts' => x = t /\ Mb2.tag_type m t <> Mb2.MB2_TAG_END /\ 8 <= Mb2.tag_size m t /\
      (Mb2.tag_type m t = Mb2.MB2_TAG_MODULE -> 16 <= Mb2.tag_size m t) /\ t + Mb2.tag_size m t <= stop /\
      laid_out m stop (Mb2.mb2_next_tag m t) ts'
  end.

Lemma laid_out_below m stop ts : forall t, laid_out m stop t ts -> t + 8 <= stop.
Proof. destruct ts as [|x ts]; intros t; cbn; lia. Qed.

(** It depends on the bytes of the tags only. *)
Lemma laid_out_ext m m' stop ts : forall t, 0 <= t -> stop < 2^63 -> (forall x, t <= x < stop -> rd8 m' x = rd8 m x) ->
  laid_out m stop t ts -> laid_out m' stop t ts.
Proof.
  induction ts as [|x ts IH]; intros t H0 Hs He Hl; pose proof (laid_out_below _ _ _ _ Hl) as Hb;
    assert (Et : Mb2.tag_type m' t = Mb2.tag_type m t) by (apply rd32_ext; intros i Hi; apply He; lia);
    assert (Ez : Mb2.tag_size m' t = Mb2.tag_size m t) by (apply rd32_ext; intros i Hi; apply He; lia);
    cbn [laid_out] in *; rewrite Et, Ez; [done|].
  destruct Hl as (-> & H1 & H2 & H3 & H4 & H5). split_and!; try done.
  rewrite Mb2.mb2_next_tag_eq, Ez by lia. rewrite Mb2.mb2_next_tag_eq in H5 by lia.
  apply IH; [zmod|done| |done]. intros x Hx. apply He. zmod.
Qed.

Section info.
Context (m : mem) (rbx total : Z) (Hb : 0 < rbx) (Ha : rbx mod 8 = 0) (Ht : 0 < total < 2^31 - 8) (Hh : rbx + total < 2^62).

(** The offset of the next tag. *)
Lemma next_offset t : rbx <= t -> t mod 8 = 0 -> 8 <= Mb2.tag_size m t -> t + Mb2.tag_size m t <= rbx + total ->
  u32 (t - rbx + Z.land (u32 (Mb2.tag_size m t + 7)) (u32 (Z.lnot 7))) = Mb2.mb2_next_tag m t - rbx.
Proof.
  intros H1 H2 H3 H4. rewrite Mb2.mb2_next_tag_eq by lia. rewrite (u32_small (Mb2.tag_size m t + 7)) by lia.
  replace (Z.land (Mb2.tag_size m t + 7) (u32 (Z.lnot 7))) with ((Mb2.tag_size m t + 7) / 8 * 8).
  - rewrite u32_small by zmod. zmod.
  - change 8 with (2^3) at 1 2. rewrite <- land_clear_low by lia.
    assert (E : Mb2.tag_size m t + 7 = Z.land (Mb2.tag_size m t + 7) (Z.ones 32))
      by (rewrite Z.land_ones by lia; symmetry; apply Z.mod_small; lia).
    rewrite E, <- !Z.land_assoc. reflexivity.
Qed.

Lemma find_tag_spec ts : forall fuel t, laid_out m (rbx + total) t ts -> rbx <= t -> t mod 8 = 0 ->
  (length ts + 1 < fuel)%nat ->
  find_tag fuel m rbx total (t - rbx)
    = Some (let t := BootProps.first_tag m Mb2.MB2_TAG_MODULE ts in if t =? 0 then None else Some t).
Proof.
  induction ts as [|x ts IH]; intros [|fuel] t Hl H1 H2 Hf; cbn [length] in Hf; try lia;
    pose proof (laid_out_below _ _ _ _ Hl) as Hlow; cbn [find_tag].
  all: rewrite !s32_small, (proj2 (Z.leb_gt _ _)) by lia; replace (rbx + (t - rbx)) with t by lia;
    rewrite u64_small by lia; fold (Mb2.tag_type m t); change (rd32 m (t + 4)) with (Mb2.tag_size m t).
  - destruct Hl as (E1 & E2 & E3). rewrite E1. change (Mb2.MB2_TAG_END =? 3) with false. cbn iota.
    rewrite next_offset, Mb2.mb2_next_tag_eq, E2 by lia. destruct fuel as [|fuel]; [lia|]. cbn [find_tag].
    rewrite !s32_small by zmod. rewrite (proj2 (Z.leb_le _ _)) by zmod. done.
  - destruct Hl as (-> & E1 & E2 & _ & E3 & E4). unfold BootProps.first_tag. rewrite filter_cons.
    destruct (Z.eqb_spec (Mb2.tag_type m t) 3) as [E|E].
    + rewrite decide_True by exact E. cbn. by rewrite (proj2 (Z.eqb_neq t 0)) by lia.
    + rewrite decide_False by exact E. rewrite next_offset by done.
      apply (IH fuel); [done|rewrite Mb2.mb2_next_tag_eq by lia; zmod|rewrite Mb2.mb2_next_tag_eq by lia; zmod|lia].
Qed.

End info.

(** What the boot loader leaves: boot information in low memory, apart from what the
    loader writes. *)
Record handover (pml4 mb2_ptr stack32_top : Z) (m : mem) (ebx : Z) (ts : list Z) : Prop := Handover {
  ho_addr : 0 < ebx /\ ebx mod 8 = 0 /\ 0 < rd32 m ebx < 2^31 - 8 /\ ebx + rd32 m ebx < 2^32;
  ho_tags : laid_out m (ebx + rd32 m ebx) (ebx + 8) ts;
  ho_apart : apart ebx (rd32 m ebx) pml4 24576 /\ apart ebx (rd32 m ebx) mb2_ptr 8 /\
    apart ebx (rd32 m ebx) (stack32_top - 4) 4
}.

Lemma handover_kept pml4 mb2_ptr stack32_top m m' ebx ts x : handover pml4 mb2_ptr stack32_top m ebx ts ->
  loader_writes pml4 mb2_ptr stack32_top m m' ->
  ebx <= x < ebx + rd32 m ebx -> rd8 m' x = rd8 m x.
Proof. intros [_ _ (H1 & H2 & H3)] Hw Hx. unfold apart in *. apply Hw; lia. Qed.

Lemma first_module_start m stop t ts : laid_out m stop t ts -> 0 <= t -> stop < 2^63 ->
  let r := BootProps.first_tag m Mb2.MB2_TAG_MODULE ts in r <> 0 -> t <= r /\ r + 16 <= stop.
Proof.
  cbn zeta. unfold BootProps.first_tag. revert t. induction ts as [|x ts IH]; intros t Hl H0 Hs; [done|].
  destruct Hl as (-> & E1 & E2 & E3 & E4 & E5). rewrite filter_cons. destruct (decide _) as [E|E]; cbn.
  - specialize (E3 E). lia.
  - intros Hr. rewrite Mb2.mb2_next_tag_eq in E5 by lia. destruct (IH _ E5 ltac:(zmod) Hs Hr). split; [zmod|done].
Qed.

Lemma first_tag_ext stop t m m' ty ts : 0 <= t -> stop < 2^63 -> (forall x, t <= x < stop -> rd8 m' x = rd8 m x) ->
  laid_out m stop t ts -> BootProps.first_tag m' ty ts = BootProps.first_tag m ty ts.
Proof.
  unfold BootProps.first_tag. revert t. induction ts as [|x ts IH]; intros t H0 Hs He Hl; [done|].
  pose proof (laid_out_below _ _ _ _ Hl) as Hb. destruct Hl as (-> & E1 & E2 & E3 & E4 & E5). rewrite !filter_cons.
  assert (Et : Mb2.tag_type m' t = Mb2.tag_type m t) by (apply rd32_ext; intros i Hi; apply He; lia).
  rewrite Et. destruct (decide _); [done|]. rewrite Mb2.mb2_next_tag_eq in E5 by lia.
  apply (IH ((t + Mb2.tag_size m t + 7) / 8 * 8) ltac:(zmod) Hs) in E5; [done|]. intros x Hx. apply He. zmod.
Qed.

(** Where the loader goes. *)
Definition destination (m : mem) (ebx : Z) (ts : list Z) (stack64_top : Z) : outcome :=
  let t := BootProps.first_tag m Mb2.MB2_TAG_MODULE ts in
  if t =? 0 then NoModule (rd32 m ebx) else Jump (Mb2.mb2_mod_start m t) ebx stack64_top.

Lemma loader_spec pml4 mb2_ptr gdt_desc stack32_top after_build gdt stack64_top fuel ebx ts c m :
  layout pml4 mb2_ptr gdt_desc stack32_top gdt m -> handover pml4 mb2_ptr stack32_top m ebx ts -> 0 <= after_build < 2^32 ->
  (length ts + 1 < fuel)%nat ->
  exists c' m', loader pml4 mb2_ptr gdt_desc stack32_top after_build stack64_top fuel ebx c m = Some (c', m', destination m ebx ts stack64_top) /\
    long_mode pml4 m' c' /\ identity_tables pml4 m' /\ loader_writes pml4 mb2_ptr stack32_top m m'.
Proof.
  intros Hly Hho Hret Hf. pose proof Hho as [(A1 & A2 & A3 & A4) Ht Hap].
  destruct (start_spec pml4 mb2_ptr gdt_desc stack32_top after_build gdt ebx c m Hly ltac:(lia) Hret) as (c1 & m1 & E1 & Hlm & Hit & Ep & Hw).
  assert (Hk : forall x, ebx <= x < ebx + rd32 m ebx -> rd8 m1 x = rd8 m x) by (intros x Hx; by eapply handover_kept).
  pose proof (laid_out_below _ _ _ _ Ht) as Hlow.
  assert (Et : rd32 m1 ebx = rd32 m ebx) by (apply rd32_ext; intros i Hi; apply Hk; lia).
  assert (Hl1 : laid_out m1 (ebx + rd32 m ebx) (ebx + 8) ts) by (eapply laid_out_ext; [..|exact Ht]; [lia|lia|intros; apply Hk; lia]).
  exists c1, m1. split; [|done]. unfold loader. apply (bind_step _ _ _ _ E1). unfold long_mode_entry.
  assert (E2 : mov_data m1 0x10 c1 = Some (set_data c1 0x10)).
  { unfold mov_data. rewrite (lm_gdt _ _ _ Hlm). reflexivity. }
  assert (E3 : set_data c1 0x10 = c1).
  { destruct Hlm as [_ _ _ _ (D1 & D2 & D3)]. destruct c1. cbn in *. by rewrite D1, D2, D3. }
  pose proof (find_tag_spec m1 ebx (rd32 m ebx) ltac:(lia) A2 A3 ltac:(lia) ts fuel (ebx + 8) Hl1 ltac:(lia) ltac:(zmod) Hf)
    as E4. replace (ebx + 8 - ebx) with 8 in E4 by lia.
  rewrite E2, E3. bind. rewrite Ep, Et, E4. bind. unfold destination.
  assert (Ef : BootProps.first_tag m1 Mb2.MB2_TAG_MODULE ts = BootProps.first_tag m Mb2.MB2_TAG_MODULE ts)
    by (by apply (first_tag_ext (ebx + rd32 m ebx) (ebx + 8)); [lia|lia|intros; apply Hk; lia|]).
  rewrite Ef. destruct (Z.eqb_spec (BootProps.first_tag m Mb2.MB2_TAG_MODULE ts) 0) as [|Hn]; [done|].
  destruct (first_module_start m _ _ ts Ht ltac:(lia) ltac:(lia) Hn) as [R1 R2].
  do 3 f_equal. apply rd32_ext. intros i Hi. apply Hk. lia.
Qed.

(** ** The message *)

Section message.
Context `{HU : Serial.Uart P}.
Context (fuel : nat) (Hfuel : (Serial.latency < fuel)%nat).

(** The status bit of AL. *)
Lemma land_al x v : Z.land (x / 2^8 * 2^8 + u8 v) 0x20 = Z.land v 0x20.
Proof.
  assert (H : forall y, Z.land y 0x20 = Z.land (y mod 2^8) 0x20)
    by (intros y; rewrite <- Z.land_ones, <- Z.land_assoc by lia; reflexivity).
  rewrite (H v), H. f_equal. unfold u8. zmod.
Qed.

(** Polling is that of the driver, on the registers. *)
Lemma wait_tx_port n : forall r p, Serial.serial_wait_tx n (port r) = Some p ->
  exists a d, wait_tx n r = Some (Regs a d (rsi r) (stack r) p).
Proof.
  induction n as [|n IH]; intros r p E; [done|]. cbn [wait_tx Serial.serial_wait_tx] in *. cbn [port set_dx set_rdx].
  destruct (Serial.inb Serial.COM_LSR (port r)) as [v p1] eqn:E1. cbn [rax set_al set_rax set_port].
  rewrite land_al. change 0x20 with Serial.COM_LSR_THRE. destruct (_ =? 0).
  - by destruct (IH (set_al (set_port (set_dx r 0x3FD) p1) v) p E) as (a & d & E2); eauto.
  - injection E as ->. by eexists _, _.
Qed.

(** A character is sent, and the stack and the registers are as before. *)
Lemma putc64_spec r ip s : stack r = ip :: s -> Serial.dlab (port r) = false -> exists p',
  serial_putc64 fuel r = Some (ip, Regs (rax r) (rdx r) (rsi r) s p') /\
  Serial.sent p' = Serial.sent (port r) ++ [u8 (rax r)] /\ Serial.dlab p' = false.
Proof.
  intros Hs Hd. destruct (Serial.putc_sends fuel Hfuel (rax r) (port r) Hd) as (p' & E & S1 & D1).
  unfold Serial.serial_putc in E. destruct (Serial.serial_wait_tx fuel (port r)) as [p1|] eqn:Ew; [|done].
  cbn [mbind option_bind] in E. injection E as <-. unfold serial_putc64.
  destruct (wait_tx_port fuel (push (rax r) (push (rdx r) r)) p1 Ew) as (a & d & ->). bind.
  unfold pop. cbn [stack push set_dx set_rdx]. bind. cbn [stack set_rax set_port rax port]. bind.
  cbn [stack set_rdx]. rewrite Hs. eexists. split; [reflexivity|done].
Qed.

(** The text [t] and a zero byte. *)
Fixpoint text_at (m : mem) (a : Z) (t : list Z) : Prop :=
  match t with
  | [] => rd8 m a = 0
  | c :: t' => rd8 m a = c /\ c <> 0 /\ text_at m (a + 1) t'
  end.

(** RAX with [c] in AL. *)
Definition with_al (a c : Z) : Z := a / 2^8 * 2^8 + c.

Lemma with_al_again a c d : 0 <= c < 2^8 -> with_al (with_al a c) d = with_al a d /\ u8 (with_al a c) = c.
Proof. intros Hc. unfold with_al, u8. split; zmod. Qed.

(** The loop leaves RAX on the stack for each character of the text. *)
Lemma puts_loop_spec m back t : forall n r, text_at m (rsi r) t -> (length t < n)%nat -> Serial.dlab (port r) = false ->
  exists a p', puts_loop fuel n m back r
    = ('(v, r') ← pop (Regs a (rdx r) (rsi r + Z.of_nat (length t) + 1) (rev (with_al (rax r) <$> t) ++ stack r) p');
       pop (set_rsi r' v)) /\ Serial.sent p' = Serial.sent (port r) ++ t /\ Serial.dlab p' = false.
Proof.
  induction t as [|c t IH]; intros [|n] r Ht Hn Hd; cbn [length] in Hn; try lia; cbn [puts_loop text_at] in *.
  - rewrite Ht. cbn [rax set_rsi set_al set_rax]. change (u8 0) with 0.
    destruct (with_al_again (rax r) 0 0 ltac:(lia)) as [_ E]. unfold with_al in E. rewrite E. cbn [Z.eqb].
    exists (with_al (rax r) 0), (port r). split; [|by rewrite app_nil_r]. by rewrite Z.add_0_r.
  - destruct Ht as (E & H0 & Ht). pose proof (rd8_range m (rsi r)) as Hr. rewrite E in *.
    destruct (with_al_again (rax r) c 0 Hr) as [_ Eu].
    set (r1 := Regs (with_al (rax r) c) (rdx r) (rsi r + 1) (stack r) (port r)).
    assert (Es : set_rsi (set_al r c) (rsi r + 1) = r1)
      by (unfold set_rsi, set_al, set_rax, r1, with_al; cbn; by rewrite (u8_small c)).
    rewrite Es. change (rax r1) with (with_al (rax r) c). rewrite Eu, (proj2 (Z.eqb_neq c 0)) by done.
    destruct (putc64_spec (push back (push (with_al (rax r) c) r1)) back (with_al (rax r) c :: stack r) eq_refl Hd)
      as (p1 & E1 & S1 & D1). rewrite E1. bind.
    rewrite Z.eqb_refl. unfold r1 in *. cbn [push rax rdx rsi port] in S1 |- *.
    destruct (IH n (Regs (with_al (rax r) c) (rdx r) (rsi r + 1) (with_al (rax r) c :: stack r) p1) Ht ltac:(lia) D1)
      as (a & p' & E2 & S2 & D2). cbn [rax rdx rsi stack port] in *. exists a, p'. split; [|split; [|done]].
    + rewrite E2. cbn [fmap list_fmap rev]. rewrite <- app_assoc. cbn [app].
      replace (with_al (with_al (rax r) c) <$> t) with (with_al (rax r) <$> t).
      * do 3 f_equal. cbn [length]. lia.
      * apply list_fmap_ext. intros i x _. symmetry. by apply with_al_again.
    + rewrite S2, S1, Eu, <- app_assoc. done.
Qed.

(** The last character is on top, the one before it below. *)
Lemma last_two a s : exists s', rev (with_al a <$> msg_no_module) ++ s = with_al a 10 :: with_al a 100 :: s'.
Proof. eexists. reflexivity. Qed.

(** The routine for 32-bit mode would print from its return address. *)
Lemma puts32_misreads n m back r ret text s : stack r = ret :: text :: s ->
  serial_puts32 fuel n m back r = puts_loop fuel n m back (Regs (rax r) (rdx r) ret (rsi r :: ret :: text :: s) (port r)).
Proof. intros Hs. unfold serial_puts32, push. cbn [stack]. rewrite Hs. reflexivity. Qed.

(** Without a module the loader sends its message to the serial port, but it does not
    come to the halt instruction after it: [serial_puts64] leaves a word on the stack for
    every character, and its return takes the last but one of them as the address. *)
Theorem no_module_astray n m msg after_init halt back r :
  text_at m msg msg_no_module -> (27 < n)%nat -> 0 <= rax r < 2^20 -> 2^20 <= halt ->
  exists rip r', no_module fuel n m msg after_init halt back r = Some (rip, r') /\
    Serial.sent (port r') = Serial.sent (port r) ++ msg_no_module /\ rip = with_al (rax r) 100 /\ rip <> halt.
Proof.
  intros Ht Hn Ha Hh. destruct (Serial.setup_quiet 1 (port r)) as [S0 D0].
  set (r1 := Regs (with_al (rax r) 0x0B) (rdx (set_dx r 0x3FC)) msg (msg :: halt :: stack r) (Serial.serial_setup 1 (port r))).
  assert (E1 : no_module fuel n m msg after_init halt back r = puts_loop fuel n m back r1).
  { unfold no_module, serial_init64. cbn [pop stack set_al set_rax set_dx set_rdx set_port push]. bind. by rewrite Z.eqb_refl. }
  destruct (puts_loop_spec m back msg_no_module n r1 Ht) as (a & p' & E & S1 & _); [exact Hn|exact D0|].
  destruct (last_two (rax r1) (stack r1)) as (s' & Es). rewrite Es in E. cbn [pop stack mbind option_bind set_rsi] in E. eexists _, _. split; [rewrite E1, E; reflexivity|].
  split; [cbn [port set_rsi] in *; by rewrite S1, <- S0|]. split; [by apply with_al_again|].
  unfold r1. cbn [rax]. rewrite (proj1 (with_al_again (rax r) 0x0B 100 ltac:(lia))). unfold with_al. zmod.
Qed.

End message.
(** ** Theorems *)

(** C8. From 32-bit mode with a GDT and the boot information in memory, the loader comes to
    64-bit mode without a fault, with paging on.  Its tables translate the first 4 GiB to
    themselves and nothing above; only they, the saved pointer and a word of the stack are written.  It jumps to
    the start of the first module with the boot information in RDI; if there is no module it
    goes to its message. *)
Theorem loader_correct pml4 mb2_ptr gdt_desc stack32_top after_build gdt stack64_top fuel ebx ts c m :
  layout pml4 mb2_ptr gdt_desc stack32_top gdt m -> handover pml4 mb2_ptr stack32_top m ebx ts -> 0 <= after_build < 2^32 ->
  (length ts + 1 < fuel)%nat ->
  exists c' m', loader pml4 mb2_ptr gdt_desc stack32_top after_build stack64_top fuel ebx c m = Some (c', m', destination m ebx ts stack64_top) /\
    mode64 m' c' = true /\ Z.testbit (cr0 c') PG = true /\
    (forall va, 0 <= va < 2^48 -> walk m' (cr3 c') va = if va <? 2^32 then Some va else None) /\
    (forall x, ~ pml4 <= x < pml4 + 24576 -> ~ mb2_ptr <= x < mb2_ptr + 4 -> ~ stack32_top - 4 <= x < stack32_top ->
      rd8 m' x = rd8 m x).
Proof.
  intros Hly Hho Hret Hf. destruct (loader_spec _ _ _ _ after_build _ stack64_top fuel ebx ts c m Hly Hho Hret Hf) as (c' & m' & E & [L1 [L2 _] L3 _ _] & Ht & Hw).
  exists c', m'. split; [exact E|]. split; [exact L1|]. split; [exact L2|]. split; [|exact Hw].
  intros va Hva. rewrite L3. destruct Hly as [(T1 & T2 & T3) _ _ _ _ _ _]. by apply walk_identity.
Qed.

(** The words of the header add up to zero. *)
Lemma header_checksum : u32 (foldr Z.add 0 (take 4 multiboot2_header)) = 0.
Proof. reflexivity. Qed.

(** [kmain64] is entered with a stack pointer that is a multiple of 16; functions expect
    it to be 8 above one. *)
Lemma kstart64_misaligned kstack_top d : kstack_top mod 16 = 0 -> 16 <= kstack_top < 2^64 ->
  (snd (kstart64 kstack_top d)) mod 16 = 0.
Proof. intros Ha Hk. cbn [kstart64 snd]. rewrite !u64_small by (rewrite ?u64_small; lia). zmod. Qed.

(** ** An instance: the loader at 1 MiB, boot information at 0x1000 with a memory map and
    a module at 0x120000 *)

Definition demo_info : mem :=
  let m := Mb2.poke32 (Mb2.poke32 ∅ 0x1000 0x68) 0x1008 Mb2.MB2_TAG_MMAP in
  let m := Mb2.poke32 (Mb2.poke32 m 0x100C 64) 0x1010 24 in
  let m := Mb2.poke32 (Mb2.poke64 (Mb2.poke64 m 0x1018 0) 0x1020 0x9F000) 0x1028 1 in
  let m := Mb2.poke32 (Mb2.poke64 (Mb2.poke64 m 0x1030 0x100000) 0x1038 0x100000) 0x1040 1 in
  let m := Mb2.poke32 (Mb2.poke32 m 0x1048 Mb2.MB2_TAG_MODULE) 0x104C 24 in
  let m := Mb2.poke32 (Mb2.poke32 m 0x1050 0x120000) 0x1054 0x180000 in
  let m := Mb2.poke32 (Mb2.poke32 m 0x1058 0x6E72656B) 0x105C 0x6C65 in
  Mb2.poke32 (Mb2.poke32 m 0x1060 Mb2.MB2_TAG_END) 0x1064 8.

(** The GDT at 0x101000, its descriptor after it, the message at 0x101100. *)
Definition demo_mem : mem :=
  let m := Mb2.poke64 (Mb2.poke64 demo_info 0x101008 0x00AF9A000000FFFF) 0x101010 0x00CF92000000FFFF in
  let m := Mb2.poke32 (Mb2.poke32 m 0x101018 29) 0x10101A 0x101000 in
  snd (foldl (fun am c => (am.1 + 1, wr am.2 am.1 c)) (0x101100, m) msg_no_module).

Definition demo_cpu : cpu := Cpu 0x11 0 0 0 (0, 0) 8 16 16 16.

Lemma loader_demo_layout : layout 0x102000 0x109000 0x101018 0x10B000 0x101000 demo_mem.
Proof.
  constructor; [split_and!; (reflexivity || lia)|split; [right; lia|vm_compute; reflexivity]|split; [left; lia|split; vm_compute; reflexivity]
    |split_and!; left; lia|split_and!; (lia || (right; lia))|vm_compute; reflexivity|vm_compute; reflexivity].
Qed.

Lemma demo_handover : handover 0x102000 0x109000 0x10B000 demo_mem 0x1000 [0x1008; 0x1048].
Proof.
  assert (E : rd32 demo_mem 0x1000 = 0x68) by (vm_compute; reflexivity).
  constructor; rewrite ?E; [split_and!; (lia || reflexivity)| |split_and!; left; lia].
  vm_compute. split_and!; (congruence || reflexivity).
Qed.

Lemma loader_correct_witness : exists c' m',
  loader 0x102000 0x109000 0x101018 0x10B000 0x100100 0x10C000 100 0x1000 demo_cpu demo_mem = Some (c', m', Jump 0x120000 0x1000 0x10C000) /\
  mode64 m' c' = true /\ walk m' (cr3 c') 0xDEADBEEF = Some 0xDEADBEEF.
Proof.
  destruct (loader_correct 0x102000 0x109000 0x101018 0x10B000 0x100100 0x101000 0x10C000 100 0x1000 [0x1008; 0x1048] demo_cpu demo_mem
    loader_demo_layout demo_handover) as (c' & m' & E & Hm & _ & Hw & _); [lia|cbn; lia|].
  exists c', m'. split; [|split; [exact Hm|]].
  - replace (Jump 0x120000 0x1000 0x10C000) with (destination demo_mem 0x1000 [0x1008; 0x1048] 0x10C000)
      by (vm_compute; reflexivity). exact E.
  - exact (Hw 0xDEADBEEF ltac:(lia)).
Defined.

#[local] Existing Instance Serial.uart_ports.
#[local] Existing Instance Serial.uart_laws.

Lemma no_module_astray_witness : exists r', no_module 2 28 demo_mem 0x101100 0x101200 0x101210 0x101300
    (Regs 0x68 0 0 [] (Serial.MkUartState [] true false)) = Some (100, r') /\
  Serial.sent (port r') = msg_no_module.
Proof.
  assert (Hf : (Serial.latency (P := Serial.uart) < 2)%nat) by (cbn; lia).
  destruct (no_module_astray (P := Serial.uart) 2 Hf 28 demo_mem 0x101100 0x101200 0x101210 0x101300
    (Regs 0x68 0 0 [] (Serial.MkUartState [] true false))) as (rip & r' & E & S & -> & _).
  - vm_compute. split_and!; (congruence || reflexivity).
  - lia.
  - cbn. lia.
  - lia.
  - exists r'. split; [exact E|exact S].
Defined.

End LoaderProps.
