(* ===== verification/LoaderBoot.v ===== *)
(** * From the boot loader to the shell

    The loader ([src/loader32/loader.S]), the entry of the kernel
    ([src/kernel64/start64.S]) and [kmain64] ([src/kernel64/kmain64.c]) one after the
    other.  The page tables that [kmain64] finds are those the loader built: the words
    that it reads in them are the bytes of memory, and what it assumes of them is what
    [LoaderProps] shows. *)

From stdpp Require Import strings.
From S2P Require Import Prelude Mb2 Pmm PmmSpec PmmInit FrameAlloc Vmm VmmSpec Kmalloc KmallocSpec KmallocProps Mem.
From S2P Require Import Sched Block BlockSpec BlockProps Devfs DevfsSpec Exfat Vfs.
From S2P Require Import Console ConsoleSpec ConsoleProps Pci Progress Terminal Shell ShellCmd ShellProps.
From S2P Require Import Kmain Device System SystemProps Serial Boot BootProps Loader LoaderProps.

Module LoaderBoot.

Import DevfsSpec Loader LoaderProps Boot BootProps.

(** The words of memory from [a] on. *)
Definition quads (m : mem) (a : Z) (n : nat) : mem :=
  foldr (fun i t => wr t (a + 8 * i) (rd64 m (a + 8 * i))) ∅ (seqZ 0 (Z.of_nat n)).

(** The machine when [kmain64] is entered: the processor and the memory of the loader,
    and the rest of [mc]. *)
Definition handed (mc : machine) (kstack_top : Z) (c : cpu) (m : mem) (rdi : Z) : machine :=
  let s := consoles mc in
  let con := Console.MkState (Console.s_consoles s) (Console.s_active s) (kstart64 kstack_top (Console.disp s)).1
               (Console.serial s) in
  Machine con m rdi (bss mc) (quads m (cr3 c) 3072) (cr3 c) (kstart mc) (kend mc) (early_heap mc) (g_stacks mc)
    (trampoline mc) (ret_start mc) (shell_entry mc).

Section power_on.
Context (sp ubuf mbr : Z) (fuel : nat) (cpuid : Z -> Z -> Z * Z * Z * Z) (pci_space : Z -> Z).
(** Addresses in the image of the loader and in that of the kernel. *)
Context (pml4 mb2_ptr gdt_desc stack32_top after_build stack64_top entry kstack_top : Z).

(** The whole boot: [entry] is the address of [kstart64]. *)
Definition power_on (mc : machine) (ebx : Z) (c : cpu) (m : mem)
    : option (System.system * Device.registry * list Pci.usb_message) :=
  '(c, m, o) ← loader pml4 mb2_ptr gdt_desc stack32_top after_build stack64_top fuel ebx c m;
  match o with
  | Jump rip rdi _ =>
      if rip =? entry then kmain64 sp ubuf mbr fuel cpuid pci_space (handed mc kstack_top c m rdi) else None
  | NoModule _ => None
  end.

End power_on.

(** ** The tables as the kernel reads them *)

Lemma rd_quads m a n i : 0 <= i < Z.of_nat n -> rd (quads m a n) (a + 8 * i) = rd64 m (a + 8 * i).
Proof.
  intros Hi. unfold quads. assert (Hin : i ∈ seqZ 0 (Z.of_nat n)) by (apply elem_of_seqZ; lia).
  induction (seqZ 0 (Z.of_nat n)) as [|j l IH]; [by apply not_elem_of_nil in Hin|]. cbn [foldr].
  destruct (decide (i = j)) as [->|Hne]; [by rewrite rd_wr_eq|]. rewrite rd_wr_ne by lia. apply IH.
  by apply elem_of_cons in Hin as [|].
Qed.

(** What [kmain64] needs of the tables. *)
Lemma loader_tables pml4 m : 0 <= pml4 -> pml4 mod 4096 = 0 -> pml4 + 24576 < 2^32 -> identity_tables pml4 m ->
  let phys := quads m pml4 3072 in
  0 <= rd phys pml4 < 2^63 /\ Kmain.loader_pdpt phys pml4 = pdpt pml4 /\
  forall i, 0 <= i < 4 -> rd phys (pdpt pml4 + 8 * i) = pd0 pml4 + 4096 * i + 3.
Proof.
  intros H1 H2 H3 [T4 T3 _] phys.
  assert (E : rd phys pml4 = pdpt pml4 + 3).
  { pose proof (rd_quads m pml4 3072 0 ltac:(lia)) as E. pose proof (T4 0 ltac:(lia)) as E'.
    rewrite Z.mul_0_r, Z.add_0_r in *. unfold phys. by rewrite E, E'. }
  unfold pd0, pdpt in *. split; [lia|]. split.
  - unfold Kmain.loader_pdpt. rewrite E, VmmSpec.frame_of_eq by lia. zmod.
  - intros i Hi. unfold phys. replace (pml4 + 4096 + 8 * i) with (pml4 + 8 * (512 + i)) by lia.
    rewrite rd_quads by lia. replace (pml4 + 8 * (512 + i)) with (pml4 + 4096 + 8 * i) by lia.
    rewrite T3 by lia. by rewrite (proj2 (Z.ltb_lt i 4)) by lia.
Qed.

(** The boot information as the kernel reads it, in the memory that the loader leaves. *)
Record info_ok (fuel : nat) (m bss : mem) (ebx : Z) (ts : list Z) : Prop := InfoOk {
  io_mb2 : PmmInit.mb2_ok m ebx;
  io_fuel : rd32 m ebx < Z.of_nat fuel;
  io_regions st0 : Pmm.parse_mb2 fuel m ebx false (Pmm.Pmm [] 0 0 0 0 0 bss) = Some st0 ->
    PmmInit.disjoint_regions (Pmm.g_regions st0);
  io_tags : boot_tags fuel m ebx ts;
  io_fb t : t ∈ ts -> Mb2.tag_type m t = Mb2.MB2_TAG_FRAMEBUFFER -> Console.fb_type m t = 2 -> Console.fb_bpp m t = 16 ->
    framebuffer_fits m t;
  io_module : Kmain.root_module fuel m (Mb2.mb2_first_tag ebx) = Some 0
}.

(** The rest of the machine: the first console is unused, the kernel has its place. *)
Record kernel_ok (mc : machine) : Prop := KernelOk {
  ko_console : exists c0, Console.s_consoles (consoles mc) !! 0%nat = Some c0 /\ Console.cols c0 = 0;
  ko_range : 0 <= kstart mc /\ kstart mc + 4096 <= 2^64 /\ kend mc + 4096 <= 2^64
}.

Lemma handed_loaded fuel pml4 mc kstack_top c m ebx ts :
  0 <= pml4 -> pml4 mod 4096 = 0 -> pml4 + 24576 < 2^32 -> identity_tables pml4 m -> cr3 c = pml4 ->
  info_ok fuel m (bss mc) ebx ts -> kernel_ok mc -> loaded fuel (handed mc kstack_top c m ebx) ts.
Proof.
  intros H1 H2 H3 Ht Ec [I1 I2 I3 I4 I5 I6] [K1 K2].
  destruct (loader_tables pml4 m H1 H2 H3 Ht) as (T1 & T2 & T3).
  constructor; unfold handed; rewrite ?Ec;
    cbn [bytes mb_addr bss tables loader_cr3 kstart kend consoles Console.s_consoles]; try assumption.
  constructor; try assumption; [lia|]. intros i Hi. rewrite T2, T3 by done. unfold pd0, pdpt. lia.
Qed.

Lemma handed_image sp ubuf mbr mc kstack_top c m ebx : image sp ubuf mbr mc -> image sp ubuf mbr (handed mc kstack_top c m ebx).
Proof. intros []. by constructor. Qed.


(** ** An instance: the machine of [LoaderProps] with a kernel from 0x120000 to 0x1A0000 *)

Definition demo_kernel : machine :=
  Machine (Console.MkState [Console.MkConsole 0 0 0 0 0 0 0 ∅ ∅ 0 0 0 0] None (Console.Display ∅ 0) []) ∅ 0 ∅ ∅ 0
    0x120000 0x1A0000 0x130000 0x190000 0x121000 0x122000 0x123000.

(** The memory after the loader. *)
Definition memory_of (r : option (cpu * mem * outcome)) : mem := from_option (fun x => x.1.2) ∅ r.

Definition demo_after : mem := memory_of (loader 0x102000 0x109000 0x101018 0x10B000 0x100100 0x10C000 200 0x1000 demo_cpu demo_mem).

Ltac tag_types := unfold Mb2.MB2_TAG_MMAP, Mb2.MB2_TAG_MODULE, Mb2.MB2_TAG_END, Mb2.MB2_TAG_BASIC_MEMINFO,
  Mb2.MB2_TAG_FRAMEBUFFER in *; lia.

(** The boot information of [demo_info], by its fields. *)
Lemma fields_info_ok m :
  rd32 m 0x1000 = 0x68 -> Mb2.tag_type m 0x1008 = Mb2.MB2_TAG_MMAP -> Mb2.tag_size m 0x1008 = 64 ->
  Mb2.mmap_entry_size m 0x1008 = 24 -> Mb2.tag_type m 0x1048 = Mb2.MB2_TAG_MODULE -> Mb2.tag_size m 0x1048 = 24 ->
  Mb2.tag_type m 0x1060 = Mb2.MB2_TAG_END -> Mb2.tag_size m 0x1060 = 8 ->
  option_map Pmm.g_regions (Pmm.parse_mb2 200 m 0x1000 false (Pmm.Pmm [] 0 0 0 0 0 ∅))
    = Some [Pmm.Region 0 0x9F000; Pmm.Region 0x100000 0x100000] ->
  Kmain.root_module 200 m (Mb2.mb2_first_tag 0x1000) = Some 0 ->
  info_ok 200 m ∅ 0x1000 [0x1008; 0x1048].
Proof.
  intros Et T1 S1 E1 T2 S2 T3 S3 Hr Hm.
  assert (N1 : Mb2.mb2_next_tag m 0x1008 = 0x1048) by (rewrite Mb2.mb2_next_tag_eq, S1 by lia; reflexivity).
  assert (N2 : Mb2.mb2_next_tag m 0x1048 = 0x1060) by (rewrite Mb2.mb2_next_tag_eq, S2 by lia; reflexivity).
  assert (Hv : forall t, Mb2.visited m 0x1068 0x1008 t -> t = 0x1008 \/ t = 0x1048 \/ t = 0x1060).
  { intros t Ht. enough (In t [0x1008; 0x1048; 0x1060]) as [<-|[<-|[<-|[]]]] by auto. revert Ht.
    apply Mb2.visited_closed; [by left|]. constructor; [right; right; rewrite N1; right; by left|].
    constructor; [right; right; rewrite N2; right; right; by left|]. constructor; [by right; left|constructor]. }
  constructor.
  - constructor; rewrite ?Et; [lia|..]; change (0x1000 + 0x68) with 0x1068; change (0x1000 + 8) with 0x1008.
    + split_and!; [lia|reflexivity|lia|]. intros t Ht _. destruct (Hv t Ht) as [->|[->| ->]]; lia.
    + intros t Ht _ Hty. destruct (Hv t Ht) as [->|[->| ->]]; tag_types.
    + intros t Ht _ Hty. destruct (Hv t Ht) as [->|[->| ->]]; tag_types.
  - rewrite Et. reflexivity.
  - intros st0 E. rewrite E in Hr. injection Hr as ->. split; [|by split]. constructor; [left; by vm_compute|done].
  - constructor; [|cbn; lia|].
    + cbn [tag_list]. change (Mb2.mb2_first_tag 0x1000) with 0x1008. rewrite N1, N2. split_and!; tag_types.
    + intros t Ht Hty. apply elem_of_cons in Ht as [->| ->%list_elem_of_singleton]; tag_types.
  - intros t Ht Hty. apply elem_of_cons in Ht as [->| ->%list_elem_of_singleton]; tag_types.
  - exact Hm.
Qed.

Lemma demo_info_ok : info_ok 200 demo_after ∅ 0x1000 [0x1008; 0x1048].
Proof. apply fields_info_ok; vm_compute; reflexivity. Qed.

Lemma demo_kernel_ok : kernel_ok demo_kernel.
Proof. constructor; [by eexists|cbn; lia]. Qed.

Lemma demo_kernel_image : image 0x180000 0x181000 0x182000 demo_kernel.
Proof. constructor; cbn; unfold apart; split_and?; (reflexivity || lia). Qed.


End LoaderBoot.
